(* ===== verification/_CoqProject ===== *)
-Q . S2P
Prelude.v
Exception.v
Wire.v
TunParams.v
ConnPool.v
Equeue.v
Router.v
Socks5.v
GoStrings.v
HttpProxy.v
Cipher.v
ClientMgr.v
Session.v
HashedConn.v
Negotiation.v
DHKeys.v
Usage.v
Boot.v
