(* ===== verification/Prelude.v ===== *)
(** * A verification development for deblocus

    deblocus is a tunnelling proxy written in Go.  A client process
    accepts local SOCKS5 and HTTP connections.  It multiplexes them over
    encrypted tunnels to a server process, which opens the outbound
    connections.  The parts modelled here, and how they interact:

    - the process boots from its command line ([src/bootContext.go],
      [bootContext.parse]), prints its usage screen and version
      ([src/version.go]), issues client credentials ([csc_process]), or
      starts the client or the server listener ([startClient],
      [startServer]);
    - a local connection is recognised and answered by the SOCKS5 or
      the HTTP front-end ([src/tunnel/d5.go], [S5Step1],
      [httpProxyHandshake], [detectProtocol]);
    - the client manager ([src/bootContext.go], [clientMgr]) picks the
      client, one per configured server, that serves it;
    - client and server negotiate a tunnel over a hashed connection by
      exchanging markers, an RSA-encrypted identity, DH public keys, an
      encrypted parameter block carrying the version word and the
      session's tokens, and the hashes of everything each side read and
      wrote ([d5.go], [src/version.go]); the server's session manager
      mints the tokens and data tunnels spend them;
    - the tunnel's bytes go through the cipher pair that
      [src/tunnel/cipher.go] derives from the shared secret;
    - on each side, the streams of all tunnels are edges
      ([src/tunnel/queue.go]): the egress router finds them by key, and
      each edge's egress queue is the only writer of its local socket;
    - a client session holds its tunnels in a pool
      ([src/tunnel/connPool.go]) and picks one by priority;
    - recovered panics are reported through [src/exception/exception.go].

    ** Files

    - [Prelude] (this file): Go integers of width [w] as [Z] with their
      wrap-around ([wrap], [swrap]).  It also holds [binary.BigEndian]
      ([be_put], [be_get]), the [result] error monad for code that panics
      or returns an error, Go slice operations ([go_slice_from],
      [go_copy]), the hint databases [deblocus] and [deblocus_rw], and
      the [result_inv] tactic.
    - [Exception] (Module [Exception]): the [Exception] struct, its
      methods [Error], [Code], [Warning] and [Apply], [New], [NewW] and
      [CatchException] of [exception.go].
    - [Wire] (Module [Wire]): byte-level negotiation in [d5.go].
      * A TCP stream is a list of segments ([stream]).  [conn_read] is
        one [Read]; [read_full] is [io.ReadFull].
      * The marker functions [d5Sub] and [d5SumValid], [ReadFullByLen],
        the client's request [requestAuthAndDHExchange], and the
        server's classification of its first read ([first_read],
        [classify]).
    - [TunParams] (Module [TunParams]): the version word of
      [version.go]; the server's parameter block ([params_head] of
      [respondTestWithToken]); the client's parse and version check
      ([parse_params], [check_version] of [validateAndGetTokens]).
    - [ConnPool] (Module [ConnPool]): the pool slice and the tunnels'
      [TSPriority] store, with [Push], [Remove], [Select], [Len] and
      [destroy].
      * [sort.Sort] is the [Sorter] class: a sorted permutation.
      * Go's insertion sort is an instance of [Sorter].
    - [Equeue] (Module [Equeue]): edges and egress queues of
      [queue.go].
      * The multiplexer state [mux_state] holds the edges in a heap
        ([gmap] from pointers), plus the tunnels and the pool.
      * [deliver], [_push], [initEqueue], one iteration of [sendLoop]
        ([sendLoop_step], with [sendFrame], [write_failed] and
        [_close]).
      * The labelled step relation [step] / [run] interleaves all of
        them.  [step_fn] / [run_fn] execute it on concrete inputs.
    - [Router] (Module [Router]): the [egressRouter] of [queue.go].
      * Its registry lives in [mux_state] and is [None] after
        [destroy].
      * [getRegistered] is split into its read and purge critical
        sections.  [register], [clean] (the cleaner's sweep),
        [destroy] and [cleanOfTun] are each one function.
      * [mstep] / [mrun] interleave router operations with the queues'
        steps.
    - [Socks5] (Module [Socks5]): [S5Step1.Handshake],
      [HandshakeAck], [parseSocks5Request], [respondSocks5] and
      [detectProtocol], over the segmented [stream] of [Wire].
    - [GoStrings] (Module [GoStrings]): the functions of Go's
      [strings] package the code calls ([HasPrefix], [Contains],
      [Index], [SplitN(s, sep, 2)] through [cut]) and the regexp
      [(?i)true|false], on ASCII strings.
    - [HttpProxy] (Module [HttpProxy]): [httpProxyHandshake] over a
      pushed-back connection ([pbconn]: the bytes still to read and
      those written).  [net/http]'s [ReadRequest] and [Request.Write]
      and [net.SplitHostPort] are section variables.
    - [Cipher] (Module [Cipher]): [availableCiphers], [toSecretKey],
      [NewCipherFactory], [CipherFactory.NewCipher], [newRC4],
      [newAES_CFB], and the [Cipher] pair with [encrypt] and [decrypt].
      * MD5, the AES block function and RC4's keystream generator are
        section variables.
      * CFB is the byte-wise reading of Go's [crypto/cipher] stream;
        [cfb_encrypt_ref] is the block-wise definition of CFB
        encryption it is proved equal to.
    - [ClientMgr] (Module [ClientMgr]): [NewClientMgr] with its
      doubled index chain, [selectClient] with the random offset as an
      argument, [selectClientServ], and the [-v] option's
      [setLogVerbose].
    - [Session] (Module [Session]): the session manager, modelled from
      spec section 4.4 (its file is not under [src/]): a [gmap] from
      tokens to sessions with [createTokens], [take] and [remove], and
      [mop_step] / [mop_run] for any sequence of calls.
    - [HashedConn] (Module [HashedConn]): the hashed connection of spec
      sections 3 and 4.5 (not under [src/]).
      * Code that talks over the connection is a program of [io]: a tree
        of [Read], [ReadFull], [Write], [SetCipher] ([conn.cipher = ..])
        and [HashSums] ([RHashSum], [WHashSum]) requests; [ThrowErr]
        and [ReadFullByLen] of [d5.go] are such programs.
      * An [endpoint] is an inbox of segments, the installed cipher and
        the read and write hashes; [pstep] runs one request.
      * [sys_step] runs two programs back to back, the client first
        whenever it can move; a read blocks while its inbox holds too
        little and the peer still runs.
    - [Negotiation] (Module [Negotiation]): [d5CNegotiation.negotiate]
      and [d5SNegotiation.negotiate] with every function they call
      ([requestAuthAndDHExchange], [finishDHExThenSetupCipher],
      [validateAndGetTokens], [transSession], [verifyThenDHExchange],
      [respondTestWithToken]), cut at their calls into the programs
      [negotiate_client] and [negotiate_server].  The DH agreement, RSA
      and the authenticator are section variables.
    - [DHKeys] (Module [DHKeys]): [GenerateDHKeyPairs] of
      [cipher.go] over an abstract [dhkx] group; its pairs are well
      formed ([dh_ok]), the hypothesis of the handshake theorems.
    - [Usage] (Module [Usage]): [versionString] and [showUsage] of
      [version.go].  The flags come in [flag.VisitAll]'s order; the
      order in which Go ranges over the group map is an argument.
    - [Boot] (Module [Boot]): the [bootContext] record with [parse],
      [doStats], [csc_process], [startClient] and [startServer], and
      [clientMgr.Stats]; [startClient] and [startServer] store the
      manager or the server as the context's [statser].  Config detection and files, [IsValidHost],
      [CreateClientCredential], the listener and [NewServer] are
      section variables.  [startClient] composes [ClientMgr]: each
      accepted connection runs [selectClientServ] on the manager built
      from the configuration.  The accept loop, which never returns, is
      run over a finite list of [Accept] outcomes, each with the
      [rand.Intn] value its goroutine draws.

    ** What is proved

    - Streams ([Equeue], [Router]):
      * [closeW] half-closes a [TCPConn] and closes any other
        connection ([sendLoop_closeW]);
      * along every interleaving, the bytes written to an edge's socket
        are, in order, a prefix of the payloads delivered to it;
      * every queued frame belongs to its edge;
      * an exited queue is frozen;
      * failed writes close the edge and notify the peer once;
      * the router's registry points only to live edges and never grows
        without [register];
      * [destroy] and [cleanOfTun] wake exactly the edges they drop;
      * the [getRegistered] race and the [cleanOfTun] prefix collision
        are exhibited as reachable behaviours;
      * an edge counts as stale for [getRegistered] only when both
        halves are closed: [LocalAddr()] stays non-nil after [Close].
    - Pool and client choice ([ConnPool], [ClientMgr]):
      * [Select] picks a maximal rank;
      * [Remove]'s slice surgery equals "remove the last occurrence";
      * insertion sort makes [Select] round-robin;
      * [selectClient] refines "the first available client in rotation
        order", skips one slot, and finds a client whenever one outside
        that slot is up.
    - Cipher ([Cipher]):
      * decryption inverts encryption whatever the chunking;
      * a connection's ciphertext is, with RC4, the xor with the key's
        keystream and, with AES-CFB, the block-wise CFB encryption with
        the key's first block as IV, so the connections of one tunnel
        reuse one keystream ([keystream_reuse]);
      * derived keys have a zero byte in every block;
      * an unknown cipher name panics.
    - Wire and front-end ([Wire], [TunParams], [Socks5]):
      * the marker test accepts exactly the marker;
      * the parameter block round-trips; a server with a newer minor
        version is refused and any older server accepted silently,
        whatever its major version;
      * the error paths of the negotiation and of the SOCKS5 exchange
        are proved branch by branch, including the inputs whose
        segmentation breaks them;
      * the HTTP front-end answers a [CONNECT] with the 200 line, and
        forwards any other request without its [Proxy*] headers; a
        [CONNECT] without a port is told 200 and then dropped
        ([connect_without_port]); a malformed host containing "port"
        is given [":80"] ([port_in_host_defaults]).
    - Boot and CLI ([Boot], [Usage]):
      * [parse] exits exactly when no configuration can be found, keeps
        a given configuration or takes the detected one, and
        the injected [VER_STRING] shows the injected [VERSION] word
        ([parse_outcome]);
      * credential issuing stops at the first failure
        ([csc_stops_at_failure]);
      * every accepted connection of the client is served by a live
        client whenever one outside the skipped slot is up
        ([startClient_serves], from [selectClient_finds]);
      * the usage screen lists every flag exactly once whatever Go's
        map order ([showUsage_lists_every_flag]); a usage text is cut at
        its first separators and joined back ([flag_entry_roundtrip]);
        a non-boolean default containing "true" or "false" is hidden
        ([literal_hides_default]).
    - Handshake ([Negotiation], [Session], [HashedConn]):
      * an honest handshake completes in 19 steps, the client getting
        the factory of the shared key and exactly the tokens the server
        installed, both ciphers left in step ([handshake_completes],
        composed of [handshake_request], [handshake_params] and
        [cross_check_ok]);
      * the hash cross-check succeeds exactly when both comparisons
        hold, and the outcome of each side otherwise ([cross_check]);
      * a refused client gets [00 01 ff] and both sides panic
        ([wrong_password_refused]);
      * a token is spent by exactly one data tunnel ([token_resumption]);
        along any sequence of data-tunnel connections served by
        [negotiate_server] a token is accepted exactly once if the
        manager held it ([tokens_single_use]); along any sequence of
        manager calls no token is held after it was taken
        ([mop_run_inv]);
      * the authenticator's verdict and its error are both modelled: a
        refusal with a nil error leaves the server's [negotiate] with no
        error; the client's [ReadFull] error in the cross-check panics;
      * [ReadFullByLen] over the connection refines the stream function
        of [Wire] ([ReadFullByLen_refines]); every run of two programs
        comes to rest ([sys_run_terminates], by well-founded induction on
        the programs); no empty segment is ever in flight
        ([negotiate_inboxes_ok]).

    ** Bounds and fuel

    Only the runs of the hashed connection use fuel.
    - [sys_run n] and [run_alone n] perform at most [n] steps and stop
      early once neither side can move; [sys_run_terminates] shows that
      some [n] always suffices and that more fuel changes nothing.  The
      handshake theorems give the exact count: 19 steps for a
      successful handshake (5 for the request and the DH reply, 8 for
      the cipher and the parameter block, 6 for the cross-check), 7 for
      a refused client, 1 for a token request read alone.
    - Every loop of the code is a structural recursion: on the list of
      segments, on the frames of a buffer, on the chain slice, or on
      the rounds of [toSecretKey].
    - Nonterminating goroutine loops (the send loop, the cleaner) are
      steps of a relation, one iteration per step.  The liveness
      results ([sendLoop_drains], [selectClient_finds]) are stated as
      an explicit finite run.
    - Integer widths are kept where the code converts: [byte] chains,
      [uint16] ports and lengths, the [int64] ranks of the pool, and
      the [uint32] version word.
    - The client-manager theorems assume at most 256 endpoints.  Past
      that, [byte(i % num)] wraps and the chain no longer lists every
      slot.

    ** Not modelled

    - In the negotiation: dialling, socket timeouts and logging; write
      errors (a [Write] always succeeds); the client's data tunnels'
      own request code (not under [src/]; [resume_request] follows the
      spec).  The session manager's and the hashed connection's code
      is not under [src/]: both follow the spec.
    - The frame codec and the multiplexer loop ([frame.go],
      [multiplexer.go] are absent).  Only the frame fields [queue.go]
      uses are modelled.
    - [net/http]'s request parser and serialiser and
      [net.SplitHostPort]: library calls, section variables of
      [HttpProxy].  Unicode case folding of the usage regexp beyond
      ASCII.
    - The cryptographic primitives (RSA-OAEP, DH, MD5, SHA-1, AES, RC4):
      library calls, kept abstract.
    - The [main] function and the flag definitions (not under
      [src/]); config detection, config files, credential files,
      sockets and logging sinks, which stay section variables of
      [Boot]; the goroutines [StartSigTun], [ClientServe] and
      [TunnelServe] that [Boot] only starts. *)

From stdpp Require Import base list gmap strings.
From Stdlib Require Import ZArith Lia.

Declare Scope deblocus_scope.
Delimit Scope deblocus_scope with dbl.
Open Scope Z_scope.

(** ** Machine integers of the Go code, kept as [Z] with their width *)

(** [wrap w z] is the value a Go conversion to the unsigned [w]-bit type
    ([byte], [uint16], [uint32], [uint]) gives to [z]. *)
Definition wrap (w z : Z) : Z := z mod 2 ^ w.

(** [swrap w z] is the value of a Go conversion to the signed [w]-bit type
    ([int8], ...): two's complement reinterpretation. *)
Definition swrap (w z : Z) : Z := (z + 2 ^ (w - 1)) mod 2 ^ w - 2 ^ (w - 1).

Definition is_byte (b : Z) : Prop := 0 <= b < 256.
#[export] Instance is_byte_dec b : Decision (is_byte b) := _.

(** A Go [[]byte] whose elements are all bytes. *)
Definition bytes_ok (l : list Z) : Prop := Forall is_byte l.

Create HintDb deblocus discriminated.
Create Rewrite HintDb deblocus_rw.

Lemma wrap_range w z : 0 <= w -> 0 <= wrap w z < 2 ^ w.
Proof. intros Hw. unfold wrap. apply Z.mod_pos_bound. lia. Qed.

Lemma wrap_small w z : 0 <= z < 2 ^ w -> wrap w z = z.
Proof. intros H. unfold wrap. apply Z.mod_small. lia. Qed.

Lemma wrap_wrap w z : wrap w (wrap w z) = wrap w z.
Proof.
  unfold wrap. destruct (Z.eq_dec (2 ^ w) 0) as [->|Hne].
  - by rewrite !Z.mod_0_r.
  - by apply Z.mod_mod.
Qed.

Lemma wrap8_byte z : is_byte (wrap 8 z).
Proof. unfold is_byte, wrap. change (2 ^ 8) with 256. pose proof (Z.mod_pos_bound z 256). lia. Qed.

Lemma swrap8_wrap z : swrap 8 (wrap 8 z) = swrap 8 z.
Proof.
  unfold swrap, wrap. change (2 ^ (8 - 1)) with 128. change (2 ^ 8) with 256.
  rewrite Zplus_mod_idemp_l. reflexivity.
Qed.

Lemma wrap8_swrap8 z : wrap 8 (swrap 8 z) = wrap 8 z.
Proof.
  unfold swrap, wrap. change (2 ^ (8 - 1)) with 128. change (2 ^ 8) with 256.
  rewrite <- Zminus_mod_idemp_l, Z.mod_mod by lia.
  rewrite Zminus_mod_idemp_l. f_equal. lia.
Qed.

Lemma wrap_add_idemp w a b : wrap w (wrap w a + b) = wrap w (a + b).
Proof. unfold wrap. apply Zplus_mod_idemp_l. Qed.

Lemma wrap_add_wrap w a b : wrap w (a + b) = wrap w (wrap w a + wrap w b).
Proof. unfold wrap. apply Zplus_mod. Qed.

Lemma wrap_sub_wrap w a b : wrap w (a - b) = wrap w (wrap w a - wrap w b).
Proof. unfold wrap. apply Zminus_mod. Qed.

(** An [|] of a value shifted past the bits of a small one is an addition. *)
Lemma land_shiftl_small a b n : 0 <= n -> 0 <= b < 2 ^ n -> Z.land (Z.shiftl a n) b = 0.
Proof.
  intros Hn Hb. apply Z.bits_inj'. intros i Hi. rewrite Z.land_spec, Z.bits_0.
  destruct (Z.lt_ge_cases i n) as [Hlt|Hge].
  - by rewrite Z.shiftl_spec_low.
  - rewrite <- (Z.mod_small b (2 ^ n)) by lia. rewrite Z.mod_pow2_bits_high by lia.
    apply andb_false_r.
Qed.

Lemma lor_shiftl_small a b n : 0 <= n -> 0 <= b < 2 ^ n -> Z.lor (Z.shiftl a n) b = a * 2 ^ n + b.
Proof.
  intros Hn Hb. rewrite <- Z.shiftl_mul_pow2 by done.
  rewrite <- Z.add_lor_land, land_shiftl_small by done. lia.
Qed.

#[export] Hint Resolve wrap8_byte : deblocus.
#[export] Hint Rewrite swrap8_wrap wrap8_swrap8 wrap_wrap : deblocus_rw.

Lemma bytes_ok_app l1 l2 : bytes_ok (l1 ++ l2) <-> bytes_ok l1 /\ bytes_ok l2.
Proof. apply Forall_app. Qed.

Lemma bytes_ok_lookup l i b : bytes_ok l -> l !! i = Some b -> is_byte b.
Proof. intros Hl Hi. eapply Forall_lookup_1; eauto. Qed.

#[export] Hint Resolve bytes_ok_lookup : deblocus.

(** ** [encoding/binary.BigEndian] *)

(** [be_put n v] is the [n]-byte big-endian encoding that [PutUint16]
    ([n = 2]) and [PutUint32] ([n = 4]) store: the value is truncated to
    [8 * n] bits, as the Go conversion to [uint16]/[uint32] does. *)
Fixpoint be_put (n : nat) (v : Z) : list Z :=
  match n with
  | O => []
  | S n' => be_put n' (v / 256) ++ [v mod 256]
  end.

(** [be_get l] reads the bytes of [l] as one big-endian number. *)
Definition be_get (l : list Z) : Z := foldl (fun acc b => acc * 256 + b) 0 l.

Lemma length_be_put n v : length (be_put n v) = n.
Proof. revert v. induction n; intros v; simpl; [done|]. rewrite length_app, IHn. simpl. lia. Qed.

Lemma be_get_app l b : be_get (l ++ [b]) = be_get l * 256 + b.
Proof. unfold be_get. by rewrite foldl_app. Qed.

Lemma be_put_bytes n v : bytes_ok (be_put n v).
Proof.
  revert v. induction n; intros v; simpl; [constructor|].
  apply bytes_ok_app. split; [done|]. constructor; [|constructor].
  unfold is_byte. pose proof (Z.mod_pos_bound v 256). lia.
Qed.

Lemma be_get_put n v : be_get (be_put n v) = v mod 2 ^ (8 * Z.of_nat n).
Proof.
  revert v. induction n as [|n IH]; intros v.
  - simpl. by rewrite Z.mod_1_r.
  - cbn [be_put]. rewrite be_get_app, IH, Nat2Z.inj_succ.
    replace (8 * Z.succ (Z.of_nat n)) with (8 * Z.of_nat n + 8) by lia.
    rewrite Z.pow_add_r by lia. change (2 ^ 8) with 256.
    rewrite (Z.mul_comm (2 ^ _) 256), Z.rem_mul_r by (try apply Z.pow_pos_nonneg; lia).
    lia.
Qed.

Lemma be_get_range l : bytes_ok l -> 0 <= be_get l < 2 ^ (8 * Z.of_nat (length l)).
Proof.
  induction l as [|b l IH] using rev_ind; intros Hl.
  - cbv [be_get foldl length]. change (2 ^ (8 * Z.of_nat 0)) with 1. lia.
  - apply bytes_ok_app in Hl as [Hl Hb]. inversion Hb as [|? ? Hb' _]; subst.
    unfold is_byte in Hb'. specialize (IH Hl). rewrite be_get_app, length_app. simpl.
    replace (8 * Z.of_nat (length l + 1)) with (8 * Z.of_nat (length l) + 8) by lia.
    rewrite Z.pow_add_r by lia. change (2 ^ 8) with 256. nia.
Qed.

Lemma be_put_get l : bytes_ok l -> be_put (length l) (be_get l) = l.
Proof.
  induction l as [|b l IH] using rev_ind; intros Hl; [done|].
  apply bytes_ok_app in Hl as [Hl Hb]. inversion Hb as [|? ? Hb' _]; subst.
  unfold is_byte in Hb'.
  rewrite length_app. simpl. rewrite Nat.add_1_r. simpl.
  rewrite be_get_app.
  replace ((be_get l * 256 + b) / 256) with (be_get l) by
    (rewrite Z.div_add_l by lia; rewrite Z.div_small by lia; lia).
  replace ((be_get l * 256 + b) mod 256) with b by
    (rewrite Z.add_comm, Z_mod_plus_full; rewrite Z.mod_small; lia).
  by rewrite IH.
Qed.

#[export] Hint Rewrite length_be_put be_get_put : deblocus_rw.
#[export] Hint Resolve be_put_bytes : deblocus.

Lemma foldl_ext_in {A B} (f g : A -> B -> A) (acc : A) (xs : list B) :
  (forall a x, x ∈ xs -> f a x = g a x) -> foldl f acc xs = foldl g acc xs.
Proof.
  revert acc. induction xs as [|x xs IH]; intros acc Hfg; cbn; [done|].
  rewrite Hfg by apply list_elem_of_here. apply IH. intros a y Hy. apply Hfg. by apply list_elem_of_further.
Qed.

Lemma filter_all {A} (P : A -> Prop) `{!forall x, Decision (P x)} (l : list A) :
  (forall x, x ∈ l -> P x) -> filter P l = l.
Proof.
  induction l as [|x l IH]; intros Hall; [done|]. rewrite filter_cons_True.
  - f_equal. apply IH. intros y Hy. apply Hall. by apply list_elem_of_further.
  - apply Hall. apply list_elem_of_here.
Qed.

Lemma filter_none {A} (P : A -> Prop) `{!forall x, Decision (P x)} (l : list A) :
  (forall x, x ∈ l -> ~ P x) -> filter P l = [].
Proof.
  induction l as [|x l IH]; intros Hnone; [done|]. rewrite filter_cons_False.
  - apply IH. intros y Hy. apply Hnone. by apply list_elem_of_further.
  - apply Hnone. apply list_elem_of_here.
Qed.

(** ** Results of fallible Go code *)

(** A Go function either returns normally or fails: with an [error] value
    or a panic.  Each component fixes the error type [E]. *)
Inductive result (E A : Type) : Type :=
| Ok (a : A)
| Err (e : E).
Arguments Ok {E A} a.
Arguments Err {E A} e.

(** [result E] is a monad for stdpp's [x ← c; k] notation. *)
#[export] Instance result_ret {E} : MRet (result E) := fun _ a => Ok a.
#[export] Instance result_bind {E} : MBind (result E) :=
  fun _ _ f c => match c with Ok a => f a | Err e => Err e end.

Lemma result_bind_ok {E A B} (a : A) (f : A -> result E B) : (Ok a ≫= f) = f a.
Proof. reflexivity. Qed.

Lemma result_bind_err {E A B} (e : E) (f : A -> result E B) : (Err e ≫= f) = Err e.
Proof. reflexivity. Qed.

#[export] Hint Rewrite @result_bind_ok @result_bind_err : deblocus_rw.

(** [result_inv H] takes apart a hypothesis [H : c = Ok r] whose left
    side is a chain of binds: each bound computation is an [Ok]. *)
Ltac result_inv H :=
  cbn [mbind result_bind] in H;
  repeat match type of H with
  | context [match ?c with Ok _ => _ | Err _ => _ end] =>
      let E := fresh "E" in destruct c eqn:E; cbn [mbind result_bind] in H; [|discriminate H]
  | context [match ?o with Some _ => _ | None => _ end] =>
      let E := fresh "E" in destruct o eqn:E; cbn [mbind result_bind] in H; [|discriminate H]
  | context [@mbind (result ?E0) _ _ _ _ ?c] =>
      let E := fresh "E" in destruct c eqn:E; cbn [mbind result_bind] in H; [|discriminate H]
  end.

(** ** Go slices *)

(** [b[i]] on a slice: an index out of range panics ([None]). *)
Definition go_index (l : list Z) (i : nat) : option Z := l !! i.

(** [b[lo:]]: panics when [lo > len(b)]. *)
Definition go_slice_from {A} (l : list A) (lo : nat) : option (list A) :=
  if decide (lo <= length l)%nat then Some (drop lo l) else None.

(** [copy(dst[lo:hi], src)]: copies [min(hi - lo, len(src))] elements of
    [src] over [dst] starting at [lo] (with [lo <= hi <= len(dst)]). *)
Definition go_copy {A} (dst : list A) (lo hi : nat) (src : list A) : list A :=
  let n := Nat.min (hi - lo) (length src) in
  take lo dst ++ take n src ++ drop (lo + n) dst.

Lemma length_go_copy {A} (dst src : list A) lo hi :
  (lo <= hi <= length dst)%nat -> length (go_copy dst lo hi src) = length dst.
Proof.
  intros H. unfold go_copy. rewrite !length_app, !length_take, length_drop. lia.
Qed.

Lemma lookup_go_copy_out {A} (dst src : list A) lo hi i :
  (lo <= hi <= length dst)%nat -> (i < lo \/ hi <= i)%nat ->
  go_copy dst lo hi src !! i = dst !! i.
Proof.
  intros H Hi. unfold go_copy.
  destruct Hi as [Hi|Hi].
  - rewrite lookup_app_l by (rewrite length_take; lia). by rewrite lookup_take_lt by lia.
  - rewrite lookup_app_r by (rewrite length_take; lia).
    rewrite lookup_app_r by (rewrite !length_take; lia).
    rewrite lookup_drop, !length_take. f_equal. lia.
Qed.
