(* ===== verification/Exception.v ===== *)
(** * exception.go: the exception values of deblocus and their recovery

    [Exception] is the Go struct; [Apply], [NewW] and [New] its
    constructors; [CatchException] the recovery routine every task root
    runs on a recovered panic value.  The main fact is that [Apply] drops
    the warning flag of the exception it extends. *)

From stdpp Require Import base strings.
From Stdlib Require Import ZArith.
From S2P Require Import Prelude.

Module Exception.

(** [type Exception struct { msg string; code int; warning bool }] *)
Record Exception := mkException {
  msg : string;
  code : Z;
  warning : bool
}.

(** The methods [Error], [Code] and [Warning] of [*Exception]. *)
Definition Error (e : Exception) : string := msg e.
Definition Code (e : Exception) : Z := code e.
Definition Warning (e : Exception) : bool := warning e.

(** [Exception.Apply (pointer receiver)]: a new exception whose message is extended by the
    formatted appendage ([fmt.Sprintf("%s %v", e.msg, appendage)]); the
    code is copied, the warning flag is left at its zero value. *)
Definition Apply (e : Exception) (appendage : string) : Exception :=
  {| msg := String.append (msg e) (String.append " " appendage);
     code := code e;
     warning := false |}.

Definition NewW (m : string) : Exception := {| msg := m; code := 0; warning := true |}.
Definition New (c : Z) (m : string) : Exception := {| msg := m; code := c; warning := false |}.

(** A value given to [panic]: an [*Exception], a string, another error
    value, or nothing ([recover()] returned nil). *)
Inductive panic_value :=
| PVException (e : Exception)
| PVString (s : string)
| PVOther (printed : string)
| PVNil.

(** What [CatchException] writes. *)
Inductive log_line :=
| LogErrorln (s : string)
| LogWarningln (s : string)
| PrintStack (s : string).

(** [CatchException(e interface{}) bool] under the process flag [DEBUG]:
    the log line it emits (if any) and its boolean result. *)
Definition CatchException (DEBUG : bool) (v : panic_value) : option log_line * bool :=
  match v with
  | PVException ex =>
      if warning ex then (Some (LogErrorln (msg ex)), true)
      else if DEBUG then (Some (PrintStack (msg ex)), true)
      else (Some (LogErrorln (msg ex)), true)
  | PVString s => if DEBUG then (Some (PrintStack s), true) else (Some (LogWarningln s), true)
  | PVOther p => if DEBUG then (Some (PrintStack p), true) else (Some (LogErrorln p), true)
  | PVNil => (None, false)
  end.

(** C23: [Apply] keeps the code of the exception it extends but not its
    warning flag, so an extended warning ([VALIDATION_FAILED.Apply(..)],
    [INCOMPATIBLE_VERSION.Apply(..)]) is no longer a warning: under
    [DEBUG], [CatchException] reports it with a stack dump where it logs
    the original warning as a one-line error. *)
Theorem Apply_drops_warning (e : Exception) (a : string) :
  warning e = true ->
  warning (Apply e a) = false /\ code (Apply e a) = code e /\
  CatchException true (PVException e) = (Some (LogErrorln (msg e)), true) /\
  CatchException true (PVException (Apply e a)) = (Some (PrintStack (msg (Apply e a))), true).
Proof. intros Hw. unfold CatchException. cbn. rewrite Hw. done. Qed.

Lemma Apply_drops_warning_witness :
  warning (NewW "Validation failed") = true /\
  warning (Apply (NewW "Validation failed") "indentity") = false.
Proof.
  split; [reflexivity|]. apply (Apply_drops_warning (NewW "Validation failed") "indentity").
  reflexivity.
Defined.

(** Every non-nil panic value is recovered ([true]); only a nil one is
    not. *)
Lemma CatchException_recovers (DEBUG : bool) (v : panic_value) :
  snd (CatchException DEBUG v) = true <-> v <> PVNil.
Proof. destruct v as [e| | |], DEBUG; cbn; try destruct (warning e); cbn; split; congruence. Qed.

End Exception.
