(* ===== verification/Wire.v ===== *)
(** * d5.go, wire level: markers, length-prefixed blocks, tunnel parameters

    The byte-level part of the negotiation in [src/tunnel/d5.go]: the
    additive 0xd5 marker ([d5Sub], [d5SumValid]), the length-prefixed
    reads ([ReadFullByLen]) over a TCP stream that delivers its bytes in
    segments, the request the client sends ([requestAuthAndDHExchange]),
    the way the server classifies the first read ([negotiate]'s branch on
    [nr]), and the tunnel-parameter block the server writes
    ([respondTestWithToken]) and the client parses ([validateAndGetTokens]). *)

From stdpp Require Import base list strings.
From Stdlib Require Import ZArith Lia.
From S2P Require Import Prelude Exception.
Import Exception.

Module Wire.

(** ** Constants of d5.go *)
Definition D5 : Z := 0xd5.
Definition TKSZ : nat := 20.
Definition DMLEN1 : nat := 384.
Definition DMLEN2 : nat := TKSZ + 2.
Definition TUN_PARAMS_LEN : nat := 32.

(** Arithmetic on the lengths of the protocol. *)
Ltac wire_lia := unfold DMLEN1, DMLEN2, TKSZ, TUN_PARAMS_LEN in *; lia.

Definition VALIDATION_FAILED := NewW "Validation failed".
Definition NEGOTIATION_FAILED := NewW "Negotiation failed".
Definition DATATUN_SESSION := NewW "DT".
Definition INCONSISTENT_HASH := NewW "Inconsistent hash".
Definition INCOMPATIBLE_VERSION := NewW "Incompatible version".

(** ** The additive marker *)

(** [func d5Sub(a byte) byte { return byte(D5 - int(int8(a))) }] *)
Definition d5Sub (a : Z) : Z := wrap 8 (D5 - swrap 8 a).

(** [func d5SumValid(a, b byte) bool { return uint(int8(a)+int8(b))&0xff == D5 }]:
    the sum is an [int8] addition (it wraps), the conversion to [uint]
    sign-extends to 64 bits, and the mask keeps the low byte. *)
Definition d5SumValid (a b : Z) : bool :=
  Z.land (wrap 64 (swrap 8 (swrap 8 a + swrap 8 b))) 0xff =? D5.

Lemma land_ff_wrap8 z : Z.land z 0xff = wrap 8 z.
Proof. unfold wrap. change 0xff with (Z.ones 8). apply Z.land_ones. lia. Qed.

Lemma wrap8_wrap64 z : wrap 8 (wrap 64 z) = wrap 8 z.
Proof. unfold wrap. apply Z.mod_mod_divide. exists (2 ^ 56). reflexivity. Qed.

Lemma wrap8_swrap8_add a b : wrap 8 (swrap 8 a + swrap 8 b) = wrap 8 (a + b).
Proof. by rewrite wrap_add_wrap, !wrap8_swrap8, <- wrap_add_wrap. Qed.

(** The Go test is the byte sum modulo 256: signedness and the 64-bit
    extension do not matter. *)
Lemma d5SumValid_spec a b : d5SumValid a b = (wrap 8 (a + b) =? D5).
Proof.
  unfold d5SumValid. rewrite land_ff_wrap8, wrap8_wrap64, wrap8_swrap8, wrap8_swrap8_add.
  reflexivity.
Qed.

(** The marker the client computes passes the server's test. *)
Lemma d5Sub_valid (a : Z) : d5SumValid a (d5Sub a) = true.
Proof.
  rewrite d5SumValid_spec. apply Z.eqb_eq. unfold d5Sub.
  assert (Hr : wrap 8 (a + wrap 8 (D5 - swrap 8 a)) = wrap 8 (a + D5 - swrap 8 a)).
  { unfold wrap. rewrite Zplus_mod_idemp_r. f_equal. lia. }
  rewrite Hr, wrap_sub_wrap, wrap8_swrap8, <- wrap_sub_wrap.
  replace (a + D5 - a) with D5 by lia. reflexivity.
Qed.

(** The marker byte is the only byte that passes the test. *)
Lemma d5SumValid_unique (a b : Z) : is_byte b -> d5SumValid a b = true -> b = d5Sub a.
Proof.
  intros Hb. rewrite d5SumValid_spec. intros Heq%Z.eqb_eq.
  pose proof (d5Sub_valid a) as Hv. rewrite d5SumValid_spec in Hv. apply Z.eqb_eq in Hv.
  assert (E : forall x, wrap 8 x = wrap 8 (wrap 8 (a + x) - wrap 8 a)).
  { intros x. rewrite <- wrap_sub_wrap. f_equal. lia. }
  rewrite <- (wrap_small 8 b) by exact Hb. rewrite <- (wrap_small 8 (d5Sub a)) by apply wrap8_byte.
  rewrite (E b), (E (d5Sub a)), Heq, Hv. done.
Qed.

(** the server's marker test accepts exactly the byte the client
    computes: [d5SumValid a b] holds for a byte [b] iff [b = d5Sub a]
    (the round-trip law of spec section 8, and its converse). *)
Theorem d5Sub_marker_iff (a b : Z) : is_byte b -> d5SumValid a b = true <-> b = d5Sub a.
Proof. intros Hb. split; [by apply d5SumValid_unique|intros ->; apply d5Sub_valid]. Qed.

Lemma d5Sub_marker_iff_witness : d5SumValid 7 (d5Sub 7) = true <-> d5Sub 7 = d5Sub 7.
Proof. apply d5Sub_marker_iff. apply (bool_decide_unpack _). vm_compute. reflexivity. Defined.

(** ** Big-endian helpers of d5.go *)

(** [func ito4b(val uint32) []byte] *)
Definition ito4b (v : Z) : list Z := be_put 4 v.

(** [binary.BigEndian.Uint16(b)] and [Uint32(b)]: they panic ([None]) when
    the slice is too short, and read the leading bytes otherwise. *)
Definition Uint16 (b : list Z) : option Z :=
  if decide (2 <= length b)%nat then Some (be_get (take 2 b)) else None.
Definition Uint32 (b : list Z) : option Z :=
  if decide (4 <= length b)%nat then Some (be_get (take 4 b)) else None.

(** [binary.BigEndian.PutUint16(b[ofs:], v)] writes two bytes at [ofs]. *)
Definition PutUint16_at (b : list Z) (ofs : nat) (v : Z) : list Z :=
  go_copy b ofs (length b) (be_put 2 v).

(** ** Reads from a TCP connection *)

(** The bytes a peer sent, in the segments the network delivers them:
    one [conn.Read] returns bytes of one segment only. *)
Definition stream := list (list Z).
Definition stream_ok (s : stream) : Prop := Forall (fun seg => seg <> []) s.

Inductive io_error := EOF | ErrUnexpectedEOF.

(** Closes [stream_ok] of a concrete stream. *)
Ltac stream_ok_tac := repeat constructor; discriminate.

(** [conn.Read(p)] with [0 < len(p) = n]. *)
Definition conn_read (n : nat) (s : stream) : result io_error (list Z * stream) :=
  match s with
  | [] => Err EOF
  | seg :: rest =>
      Ok (take n seg, if decide (n < length seg)%nat then drop n seg :: rest else rest)
  end.

(** [io.ReadFull(r, buf)] with [len(buf) = n]: [EOF] when nothing was
    read, [ErrUnexpectedEOF] when the stream ends part way. *)
Fixpoint read_full (n : nat) (s : stream) : result io_error (list Z * stream) :=
  match n, s with
  | O, _ => Ok ([], s)
  | S _, [] => Err EOF
  | S _, seg :: rest =>
      if decide (n <= length seg)%nat then
        Ok (take n seg, if decide (n < length seg)%nat then drop n seg :: rest else rest)
      else
        match read_full (n - length seg) rest with
        | Ok (r, s') => Ok (seg ++ r, s')
        | Err _ => Err ErrUnexpectedEOF
        end
  end.

(** [func ReadFullByLen(len_inByte int, reader io.Reader) (buf []byte, err error)]:
    one [Read] for the length prefix (the bytes it does not fill stay
    zero), then [io.ReadFull] of the announced length. *)
Definition ReadFullByLen (len_inByte : nat) (s : stream) : result io_error (list Z * stream) :=
  '(lb0, s1) ← conn_read len_inByte s;
  let lb := lb0 ++ replicate (len_inByte - length lb0) 0 in
  let size :=
    match len_inByte with
    | 1%nat => lb !!! 0%nat
    | 2%nat => be_get (take 2 lb)
    | 4%nat => be_get (take 4 lb)
    | _ => 0
    end in
  read_full (Z.to_nat size) s1.

(** A block with its 2-byte big-endian length prefix, as the server and
    [GenerateDHKeyPairs] write it. *)
Definition len_prefixed (body : list Z) : list Z := be_put 2 (Z.of_nat (length body)) ++ body.

(** ** Properties of the reads *)

Lemma concat_split_le (seg R data tail : list Z) :
  seg ++ R = data ++ tail -> (length data <= length seg)%nat ->
  take (length data) seg = data /\ drop (length data) seg ++ R = tail.
Proof.
  intros Heq Hle. split.
  - rewrite <- (take_app_le seg R) by done. rewrite Heq. apply take_app_length.
  - rewrite <- drop_app_le by done. rewrite Heq. apply drop_app_length.
Qed.

Lemma concat_split_gt (seg R data tail : list Z) :
  seg ++ R = data ++ tail -> (length seg < length data)%nat ->
  data = seg ++ drop (length seg) data /\ R = drop (length seg) data ++ tail.
Proof.
  intros Heq Hlt.
  assert (Hs : take (length seg) data = seg).
  { rewrite <- (take_app_le data tail) by lia. rewrite <- Heq. apply take_app_length. }
  split.
  - rewrite <- Hs at 1. by rewrite take_drop.
  - rewrite <- drop_app_le by lia. rewrite <- Heq. by rewrite drop_app_length.
Qed.

(** [io.ReadFull] returns exactly the next [n] bytes of the stream,
    however the network segmented them. *)
Lemma read_full_spec (s : stream) (data tail : list Z) :
  stream_ok s -> concat s = data ++ tail ->
  exists s', read_full (length data) s = Ok (data, s') /\ concat s' = tail /\ stream_ok s'.
Proof.
  revert data. induction s as [|seg rest IH]; intros data Hok Hcat.
  - simpl in Hcat. symmetry in Hcat. apply app_eq_nil in Hcat as [-> ->].
    exists []. repeat split; constructor.
  - inversion Hok as [|? ? Hseg Hrest]; subst. simpl in Hcat.
    destruct data as [|d data'] eqn:Hd.
    { exists (seg :: rest). simpl. repeat split; [by rewrite Hcat|done]. }
    rewrite <- Hd in Hcat |- *.
    assert (Hn : length data = S (length data')) by (subst; reflexivity).
    rewrite Hn. cbn [read_full]. rewrite <- Hn.
    destruct (decide (length data <= length seg)%nat) as [Hle|Hgt].
    + destruct (concat_split_le seg (concat rest) data tail Hcat Hle) as [Ht Hdr].
      rewrite Ht. destruct (decide (length data < length seg)%nat) as [Hlt|Hge].
      * exists (drop (length data) seg :: rest). repeat split; [done|].
        constructor; [|done]. intros Hnil. apply (f_equal length) in Hnil.
        rewrite length_drop in Hnil. simpl in Hnil. lia.
      * exists rest. repeat split; [|done].
        rewrite <- Hdr. rewrite drop_ge by lia. done.
    + destruct (concat_split_gt seg (concat rest) data tail Hcat) as [Hdata Hrest']; [lia|].
      destruct (IH (drop (length seg) data) Hrest Hrest') as (s' & Hrd & Hc & Hok').
      rewrite length_drop in Hrd. rewrite Hrd. exists s'. rewrite <- Hdata. done.
Qed.

Lemma conn_read_prefix (seg : list Z) (rest : stream) n :
  (n <= length seg)%nat ->
  exists s', conn_read n (seg :: rest) = Ok (take n seg, s') /\
             concat s' = drop n seg ++ concat rest /\
             (stream_ok (seg :: rest) -> stream_ok s').
Proof.
  intros Hle. simpl. destruct (decide (n < length seg)%nat) as [Hlt|Hge].
  - eexists. split; [done|]. split; [done|]. intros Hok. inversion Hok; subst.
    constructor; [|done]. intros Hnil. apply (f_equal length) in Hnil.
    rewrite length_drop in Hnil. simpl in Hnil. lia.
  - eexists. split; [done|]. rewrite drop_ge by lia. split; [done|].
    intros Hok. by inversion Hok.
Qed.

(** A length-prefixed block written by the peer is read back whole by
    [ReadFullByLen 2], whatever the segmentation, provided the first
    segment holds the two length bytes. *)
Lemma ReadFullByLen_len_prefixed (s : stream) (body tail : list Z) :
  stream_ok s -> concat s = len_prefixed body ++ tail ->
  Z.of_nat (length body) < 65536 ->
  (exists seg rest, s = seg :: rest /\ (2 <= length seg)%nat) ->
  exists s', ReadFullByLen 2 s = Ok (body, s') /\ concat s' = tail.
Proof.
  intros Hok Hcat Hlen (seg & rest & -> & Hseg).
  destruct (conn_read_prefix seg rest 2 Hseg) as (s1 & Hrd & Hc1 & Hok1).
  unfold ReadFullByLen. rewrite Hrd. cbn [mbind result_bind].
  rewrite length_take, Nat.min_l by done. rewrite Nat.sub_diag, app_nil_r, take_take, Nat.min_id.
  cbn [concat] in Hcat. unfold len_prefixed in Hcat. rewrite <- app_assoc in Hcat.
  destruct (concat_split_le seg (concat rest) (be_put 2 (Z.of_nat (length body))) (body ++ tail))
    as [Ht Hd]; [done|by rewrite length_be_put|].
  rewrite length_be_put in Ht, Hd. rewrite Ht, be_get_put.
  rewrite Z.mod_small by (simpl; lia). rewrite Nat2Z.id.
  destruct (read_full_spec s1 body tail) as (s' & Hr & Hc' & _); [by apply Hok1|congruence|].
  exists s'. done.
Qed.

(** C35: the length prefix is taken with a single [Read]: when the network
    delivers its first byte alone, the missing low byte is read as zero,
    an empty block is returned, and the announced body stays unread in
    the stream (it is taken for the next message). *)
Theorem ReadFullByLen_split_prefix (s rest : stream) (body tail : list Z) :
  s = [be_put 2 (Z.of_nat (length body)) !!! 0%nat] :: rest ->
  concat s = len_prefixed body ++ tail ->
  Z.of_nat (length body) < 256 ->
  ReadFullByLen 2 s = Ok ([], rest) /\ concat rest = drop 1 (len_prefixed body) ++ tail.
Proof.
  intros -> Hcat Hlt. cbn [concat] in Hcat.
  assert (Hhi : be_put 2 (Z.of_nat (length body)) !!! 0%nat = 0).
  { cbn. rewrite Z.div_small by lia. reflexivity. }
  rewrite Hhi in Hcat |- *. split; [by destruct rest|].
  unfold len_prefixed in Hcat |- *. cbn [be_put] in Hcat |- *.
  rewrite Z.div_small in Hcat |- * by lia. simpl in Hcat |- *. by injection Hcat.
Qed.

Lemma ReadFullByLen_split_prefix_witness :
  ReadFullByLen 2 [[0]; [3; 4; 5; 6; 9]] = Ok ([], [[3; 4; 5; 6; 9]]) /\
  concat [[3; 4; 5; 6; 9]] = drop 1 (len_prefixed [4; 5; 6]) ++ [9].
Proof.
  apply (ReadFullByLen_split_prefix [[0]; [3; 4; 5; 6; 9]] [[3; 4; 5; 6; 9]] [4; 5; 6] [9]).
  - reflexivity.
  - reflexivity.
  - simpl. lia.
Defined.

(** ** The client's request *)

(** [identity := fmt.Sprintf("%s\x00%s", nego.user, nego.pass)] as bytes. *)
Definition string_bytes (s : string) : list Z :=
  map (fun a => Z.of_nat (Ascii.nat_of_ascii a)) (String.list_ascii_of_string s).
Definition identity (user pass : string) : list Z := string_bytes user ++ [0] ++ string_bytes pass.

(** [requestAuthAndDHExchange]: [obf~256 | idBlock~128 | dhPubLen~2 | dhPub].
    [obf] is the 256 random bytes of [randArray(256, 256)] and [enc] the
    result of [RSAEncrypt]; its error is overwritten by the one of
    [conn.Write], so a failed encryption sends an empty identity block. *)
Definition requestAuthAndDHExchange (obf : list Z) (enc : result unit (list Z))
    (pubLen pub : list Z) : list Z :=
  let obf := <[0xff%nat := d5Sub (obf !!! 0xd5%nat)]> obf in
  let idBlock := match enc with Ok b => b | Err _ => [] end in
  obf ++ idBlock ++ pubLen ++ pub.

(** The token request of a data tunnel, [token~20 | marker~2]: the
    client code that writes it is not part of the sources, it is
    modelled from the spec (section 4.3 and scenario 3 of section 8). *)
Definition resume_request (token : list Z) : list Z :=
  token ++ [d5Sub (token !!! 18%nat); d5Sub (token !!! 19%nat)].

(** ** The server's first read *)

(** [nr, err = hconn.Read(buf)] with [buf = make([]byte, DMLEN1)]. *)
Definition first_read (s : stream) : result io_error (nat * list Z * stream) :=
  '(got, s') ← conn_read DMLEN1 s;
  Ok (length got, got ++ replicate (DMLEN1 - length got) 0, s').

Inductive request_kind :=
| ResumeReq (token : list Z)
| FullReq (credBuf : list Z)
| Unrecognized (nr : nat).

(** The branch of [d5SNegotiation.negotiate] on [nr] and the markers. *)
Definition classify (nr : nat) (buf : list Z) : request_kind :=
  if bool_decide (nr = DMLEN2) && d5SumValid (buf !!! (TKSZ - 2)%nat) (buf !!! TKSZ)
     && d5SumValid (buf !!! (TKSZ - 1)%nat) (buf !!! (TKSZ + 1)%nat)
  then ResumeReq (take TKSZ buf)
  else if bool_decide (nr = DMLEN1) && d5SumValid (buf !!! 0xd5%nat) (buf !!! 0xff%nat)
  then FullReq (drop 256 buf)
  else Unrecognized nr.

Definition classify_stream (s : stream) : result io_error request_kind :=
  '(nr, buf, _) ← first_read s; Ok (classify nr buf).

(** ** Properties of the classification *)

Lemma first_read_full_segment (seg : list Z) (rest : stream) :
  (DMLEN1 <= length seg)%nat ->
  exists s', first_read (seg :: rest) = Ok (DMLEN1, take DMLEN1 seg, s').
Proof.
  intros Hle. unfold first_read. destruct (conn_read_prefix seg rest DMLEN1 Hle) as (s' & -> & _).
  exists s'. cbn [mbind result_bind]. rewrite length_take, Nat.min_l, Nat.sub_diag by done.
  by rewrite app_nil_r.
Qed.

Lemma lookup_total_marked (obf : list Z) :
  length obf = 256%nat ->
  (<[0xff%nat := d5Sub (obf !!! 0xd5%nat)]> obf) !!! 0xd5%nat = obf !!! 0xd5%nat /\
  (<[0xff%nat := d5Sub (obf !!! 0xd5%nat)]> obf) !!! 0xff%nat = d5Sub (obf !!! 0xd5%nat).
Proof.
  intros Hl. rewrite !list_lookup_total_insert. split.
  - by rewrite decide_False by lia.
  - by rewrite decide_True by lia.
Qed.

(** The first 384 bytes of a full request are classified as a full
    handshake carrying the identity block. *)
Lemma classify_full_request (obf idBlock : list Z) :
  length obf = 256%nat -> length idBlock = 128%nat ->
  classify DMLEN1 (<[0xff%nat := d5Sub (obf !!! 0xd5%nat)]> obf ++ idBlock) = FullReq idBlock.
Proof.
  intros Hobf Hid. set (obf' := <[0xff%nat := d5Sub (obf !!! 0xd5%nat)]> obf).
  assert (Hl' : length obf' = 256%nat) by (subst obf'; by rewrite length_insert).
  destruct (lookup_total_marked obf Hobf) as [H1 H2]. fold obf' in H1, H2.
  unfold classify. rewrite bool_decide_false by done. cbn [andb].
  rewrite bool_decide_true by done. cbn [andb].
  rewrite !lookup_total_app_l by lia. rewrite H1, H2, d5Sub_valid.
  by rewrite drop_app_length'.
Qed.

(** a full request whose first 384 bytes arrive in one segment is
    classified as a full handshake, and the credential block the server
    decrypts is exactly the client's identity block. *)
Theorem classify_auth_request (obf idBlock pubLen pub : list Z) (seg : list Z) (rest : stream) :
  length obf = 256%nat -> length idBlock = 128%nat ->
  take DMLEN1 seg = take DMLEN1 (requestAuthAndDHExchange obf (Ok idBlock) pubLen pub) ->
  (DMLEN1 <= length seg)%nat ->
  classify_stream (seg :: rest) = Ok (FullReq idBlock).
Proof.
  intros Hobf Hid Htake Hle. unfold classify_stream.
  destruct (first_read_full_segment seg rest Hle) as (s' & ->). cbn [mbind result_bind].
  rewrite Htake. unfold requestAuthAndDHExchange.
  assert (Hl' : length (<[0xff%nat := d5Sub (obf !!! 0xd5%nat)]> obf) = 256%nat) by (by rewrite length_insert).
  rewrite app_assoc, take_app_le by (rewrite length_app; wire_lia).
  rewrite take_ge by (rewrite length_app; wire_lia).
  f_equal. by apply classify_full_request.
Qed.

Lemma classify_auth_request_witness :
  classify_stream [requestAuthAndDHExchange (replicate 256 1) (Ok (replicate 128 2)) [0; 1] [9]]
    = Ok (FullReq (replicate 128 2)).
Proof.
  apply (classify_auth_request (replicate 256 1) (replicate 128 2) [0; 1] [9]);
    [reflexivity | reflexivity | reflexivity | vm_compute; lia].
Defined.

Lemma first_read_short_segment (seg : list Z) (rest : stream) :
  (length seg <= DMLEN1)%nat ->
  first_read (seg :: rest) = Ok (length seg, seg ++ replicate (DMLEN1 - length seg) 0, rest).
Proof.
  intros Hle. unfold first_read, conn_read.
  rewrite decide_False by lia. rewrite take_ge by lia. reflexivity.
Qed.

(** C27: the server reads the request with a single [Read] into a 384-byte
    buffer: when the network delivers a first segment shorter than 384
    bytes (and not of the token request's 22), the request is refused,
    whatever its content. *)
Theorem classify_short_segment (seg : list Z) (rest : stream) :
  (length seg < DMLEN1)%nat -> length seg <> DMLEN2 ->
  classify_stream (seg :: rest) = Ok (Unrecognized (length seg)).
Proof.
  intros Hlt H22. unfold classify_stream. rewrite first_read_short_segment by lia.
  cbn [mbind result_bind]. unfold classify.
  rewrite (bool_decide_false (length seg = DMLEN2)) by done.
  rewrite (bool_decide_false (length seg = DMLEN1)) by lia. done.
Qed.

Lemma classify_short_segment_witness :
  classify_stream [replicate 100 1] = Ok (Unrecognized 100).
Proof. apply (classify_short_segment (replicate 100 1) []); vm_compute; lia. Defined.

(** The token request of a data tunnel is classified as a session
    resumption carrying the token. *)
Theorem classify_resume_request (token : list Z) (rest : stream) :
  length token = TKSZ ->
  classify_stream (resume_request token :: rest) = Ok (ResumeReq token).
Proof.
  intros Hl. unfold classify_stream.
  assert (Hr : length (resume_request token) = DMLEN2)
    by (unfold resume_request; rewrite length_app, Hl; done).
  rewrite first_read_short_segment by (rewrite Hr; wire_lia).
  cbn [mbind result_bind]. rewrite Hr. unfold classify.
  rewrite bool_decide_true by done. cbn [andb].
  set (pad := replicate (DMLEN1 - DMLEN2) 0). unfold resume_request.
  set (m1 := d5Sub (token !!! 18%nat)). set (m2 := d5Sub (token !!! 19%nat)).
  rewrite <- app_assoc.
  assert (E18 : (token ++ [m1; m2] ++ pad) !!! (TKSZ - 2)%nat = token !!! 18%nat)
    by (apply lookup_total_app_l; wire_lia).
  assert (E19 : (token ++ [m1; m2] ++ pad) !!! (TKSZ - 1)%nat = token !!! 19%nat)
    by (apply lookup_total_app_l; wire_lia).
  assert (E20 : (token ++ [m1; m2] ++ pad) !!! TKSZ = m1)
    by (rewrite lookup_total_app_r, Hl, Nat.sub_diag by wire_lia; done).
  assert (E21 : (token ++ [m1; m2] ++ pad) !!! (TKSZ + 1)%nat = m2)
    by (rewrite lookup_total_app_r, Hl by wire_lia; rewrite Nat.add_comm, Nat.add_sub; done).
  rewrite E18, E19, E20, E21. subst m1 m2. rewrite !d5Sub_valid. cbn [andb].
  rewrite <- Hl, take_app_length. done.
Qed.

Lemma classify_resume_request_witness :
  classify_stream [resume_request (replicate 20 3)] = Ok (ResumeReq (replicate 20 3)).
Proof. apply (classify_resume_request (replicate 20 3) []). reflexivity. Defined.

End Wire.
