(* ===== verification/TunParams.v ===== *)
(** * The tunnel-parameter block and the version word

    [src/version.go] builds the 32-bit version word; the server writes it
    with the tunnel parameters in [respondTestWithToken] and the client
    parses and checks it in [validateAndGetTokens] ([src/tunnel/d5.go]).
    This file holds both sides, the round trip between them, and the
    error behaviour of the client's parse (version refusal, short blocks). *)

From stdpp Require Import base list strings pretty.
From Stdlib Require Import ZArith Lia.
From S2P Require Import Prelude Exception Wire.
Import Exception Wire.

Module TunParams.

(** ** version.go *)

Definition ver_major : Z := 0.
Definition ver_minor : Z := 9.
Definition ver_build : Z := 10 * 223 + 0.

(** [init()]: [ver |= major<<24; ver |= minor<<16; ver |= build]. *)
Definition make_version (major minor build : Z) : Z :=
  Z.lor (Z.lor (Z.lor 0 (Z.shiftl major 24)) (Z.shiftl minor 16)) build.

Definition version : Z := make_version ver_major ver_minor ver_build.

(** [%04d] *)
Definition pad4 (s : string) : string :=
  String.append (String.concat "" (replicate (4 - String.length s) "0")) s.

(** [fmt.Sprintf("%d.%d.%04d", oVer>>24, (oVer>>16)&0xFF, oVer&0xFFFF)] *)
Definition version_string (v : Z) : string :=
  String.append (pretty (Z.to_N (Z.shiftr v 24)))
    (String.append "." (String.append (pretty (Z.to_N (Z.land (Z.shiftr v 16) 0xff)))
      (String.append "." (pad4 (pretty (Z.to_N (Z.land v 0xffff))))))).

(** ** The server's block: [respondTestWithToken] *)

(** The constants the server sends, defined outside the sources
    ([CTL_PING_INTERVAL], [DT_PING_INTERVAL], [PARALLEL_TUN_QTY],
    [GENERATE_TOKEN_NUM]) and its own [VERSION]. *)
Record server_consts := {
  VERSION : Z;
  CTL_PING_INTERVAL : Z;
  DT_PING_INTERVAL : Z;
  PARALLEL_TUN_QTY : Z;
  GENERATE_TOKEN_NUM : nat
}.

(** [tpBuf]: [randArray(headLen, headLen)] overwritten field by field;
    [rnd] is the random array.  [uint16(TUN_PARAMS_LEN+GENERATE_TOKEN_NUM*TKSZ)]
    converts a constant expression: Go refuses to compile it unless the
    value fits, so it is stored as it is. *)
Definition params_head (c : server_consts) (rnd : list Z) : list Z :=
  let tp := PutUint16_at rnd 0 (Z.of_nat (TUN_PARAMS_LEN + GENERATE_TOKEN_NUM c * TKSZ)) in
  let tp := go_copy tp 2 (length tp) (ito4b (VERSION c)) in
  let tp := PutUint16_at tp 6 (wrap 16 (CTL_PING_INTERVAL c)) in
  let tp := PutUint16_at tp 8 (wrap 16 (DT_PING_INTERVAL c)) in
  <[10%nat := wrap 8 (PARALLEL_TUN_QTY c)]> tp.

(** ** The client's parse: [validateAndGetTokens] up to the hash check *)

Record tunParams := {
  token : list Z;
  stInterval : Z;
  dtInterval : Z;
  tunQty : Z
}.

(** How the client's parse fails: a runtime panic (slice bounds) or a
    returned exception. *)
Inductive parse_fault :=
| ParsePanic
| ParseExc (e : Exception).

Definition or_panic {A} (o : option A) : result parse_fault A :=
  match o with Some a => Ok a | None => Err ParsePanic end.

(** The version test: [true] when the warning is logged. *)
Definition check_version (tVer oVer : Z) : result parse_fault bool :=
  if oVer >? tVer then
    if Z.shiftr tVer 16 =? Z.shiftr oVer 16 then Ok true
    else Err (ParseExc (Apply INCOMPATIBLE_VERSION (version_string oVer)))
  else Ok false.

Definition parse_params (tVer : Z) (buf : list Z) : result parse_fault (bool * tunParams) :=
  oVer ← or_panic (Uint32 buf);
  warned ← check_version tVer oVer;
  b4 ← or_panic (go_slice_from buf 4); st ← or_panic (Uint16 b4);
  b6 ← or_panic (go_slice_from buf 6); dt ← or_panic (Uint16 b6);
  q ← or_panic (go_index buf 8);
  tok ← or_panic (go_slice_from buf TUN_PARAMS_LEN);
  Ok (warned, {| token := tok; stInterval := st; dtInterval := dt; tunQty := q |}).

(** ** The version word *)

Lemma make_version_value major minor build :
  0 <= minor < 256 -> 0 <= build < 65536 ->
  make_version major minor build = (major * 256 + minor) * 65536 + build.
Proof.
  intros Hm Hb. unfold make_version. rewrite Z.lor_0_l.
  replace (Z.shiftl major 24) with (Z.shiftl (Z.shiftl major 8) 16)
    by (rewrite Z.shiftl_shiftl by lia; done).
  rewrite <- Z.shiftl_lor, lor_shiftl_small, lor_shiftl_small by (cbn; lia).
  cbn. lia.
Qed.

(** The fields of the version word are read back by the shifts and
    masks of [validateAndGetTokens]' version string. *)
Theorem make_version_fields major minor build :
  0 <= major < 256 -> 0 <= minor < 256 -> 0 <= build < 65536 ->
  Z.shiftr (make_version major minor build) 24 = major /\
  Z.land (Z.shiftr (make_version major minor build) 16) 0xff = minor /\
  Z.land (make_version major minor build) 0xffff = build.
Proof.
  intros HM Hm Hb. rewrite make_version_value by done.
  rewrite !Z.shiftr_div_pow2 by lia. change 0xffff with (Z.ones 16). change 0xff with (Z.ones 8).
  rewrite !Z.land_ones by lia. change (2 ^ 24) with (65536 * 256). change (2 ^ 16) with 65536.
  change (2 ^ 8) with 256.
  assert (Hd : ((major * 256 + minor) * 65536 + build) / 65536 = major * 256 + minor)
    by (symmetry; apply Z.div_unique with (r := build); lia).
  repeat split.
  - symmetry. apply Z.div_unique with (r := minor * 65536 + build); lia.
  - rewrite Hd. symmetry. apply Z.mod_unique with (q := major); lia.
  - symmetry. apply Z.mod_unique with (q := major * 256 + minor); lia.
Qed.

Lemma make_version_fields_witness :
  Z.shiftr (make_version 0 9 2230) 24 = 0 /\
  Z.land (Z.shiftr (make_version 0 9 2230) 16) 0xff = 9 /\
  Z.land (make_version 0 9 2230) 0xffff = 2230.
Proof. apply make_version_fields; lia. Defined.

Example version_value : version = 0x000908B6.
Proof. reflexivity. Qed.

(** ** Layout of the server's block *)

Lemma params_head_layout (c : server_consts) (rnd : list Z) :
  length rnd = 34%nat ->
  params_head c rnd =
    be_put 2 (Z.of_nat (TUN_PARAMS_LEN + GENERATE_TOKEN_NUM c * TKSZ)) ++
    ito4b (VERSION c) ++ be_put 2 (wrap 16 (CTL_PING_INTERVAL c)) ++
    be_put 2 (wrap 16 (DT_PING_INTERVAL c)) ++ [wrap 8 (PARALLEL_TUN_QTY c)] ++ drop 11 rnd.
Proof.
  intros Hl. do 11 (destruct rnd as [|? rnd]; [discriminate|]). reflexivity.
Qed.

(** The parse of a block laid out as the server lays it out. *)
Lemma parse_params_layout (tVer v a b q : Z) (pad tok : list Z) :
  length pad = 23%nat -> 0 <= v < 2 ^ 32 ->
  parse_params tVer (ito4b v ++ be_put 2 a ++ be_put 2 b ++ [q] ++ pad ++ tok) =
    w ← check_version tVer v;
    Ok (w, {| token := tok; stInterval := wrap 16 a; dtInterval := wrap 16 b; tunQty := q |}).
Proof.
  intros Hpad Hv. unfold parse_params, Uint32, Uint16, go_slice_from, go_index, ito4b.
  set (buf := be_put 4 v ++ be_put 2 a ++ be_put 2 b ++ [q] ++ pad ++ tok).
  assert (Hlen : length buf = (32 + length tok)%nat)
    by (subst buf; rewrite !length_app, !length_be_put, Hpad; cbn; lia).
  rewrite !decide_True by (rewrite ?length_drop; wire_lia). cbn [or_panic mbind result_bind].
  assert (H4 : take 4 buf = be_put 4 v) by (subst buf; apply take_app_length'; by rewrite length_be_put).
  rewrite H4, be_get_put, Z.mod_small by (cbn; lia).
  destruct (check_version tVer v) as [w|e]; [|done]. cbn [mbind result_bind].
  rewrite ?decide_True by (rewrite ?length_drop; wire_lia). cbn [or_panic mbind result_bind].
  rewrite ?decide_True by (rewrite ?length_drop; wire_lia). cbn [or_panic mbind result_bind].
  rewrite ?decide_True by (rewrite ?length_drop; wire_lia). cbn [or_panic mbind result_bind].
  rewrite ?decide_True by (rewrite ?length_drop; wire_lia). cbn [or_panic mbind result_bind].
  assert (H8 : buf !! 8%nat = Some q)
    by (subst buf; reflexivity).
  rewrite H8. cbn [or_panic mbind result_bind].
  rewrite ?decide_True by (rewrite ?length_drop; wire_lia). cbn [or_panic mbind result_bind].
  subst buf. rewrite !app_assoc.
  rewrite (drop_app_length' _ tok) by (rewrite !length_app, !length_be_put, Hpad; done).
  rewrite <- !app_assoc.
  rewrite (drop_app_length' (be_put 4 v)) by (by rewrite length_be_put).
  rewrite take_app_length', be_get_put by (by rewrite length_be_put).
  rewrite (app_assoc (be_put 4 v)), drop_app_length' by (by rewrite length_app, !length_be_put).
  rewrite take_app_length', be_get_put by (by rewrite length_be_put).
  done.
Qed.

Lemma check_version_same v : check_version v v = Ok false.
Proof. unfold check_version. by rewrite Z.gtb_ltb, Z.ltb_irrefl. Qed.

(** C30: what the server writes in [respondTestWithToken] (the parameter
    block and the tokens) is read by the client's [ReadFullByLen] and
    parsed by [validateAndGetTokens] into exactly the intervals, the
    tunnel count and the tokens the server sent, without a version
    warning when both sides run the same version. *)
Theorem tun_params_roundtrip (c : server_consts) (rnd tokens : list Z) (s : stream) (tail : list Z) :
  length rnd = 34%nat -> length tokens = (GENERATE_TOKEN_NUM c * TKSZ)%nat ->
  Z.of_nat (TUN_PARAMS_LEN + GENERATE_TOKEN_NUM c * TKSZ) < 65536 ->
  0 <= VERSION c < 2 ^ 32 ->
  stream_ok s -> concat s = params_head c rnd ++ tokens ++ tail ->
  (exists seg rest, s = seg :: rest /\ (2 <= length seg)%nat) ->
  exists body s', ReadFullByLen 2 s = Ok (body, s') /\ concat s' = tail /\
    parse_params (VERSION c) body =
      Ok (false, {| token := tokens; stInterval := wrap 16 (CTL_PING_INTERVAL c);
                    dtInterval := wrap 16 (DT_PING_INTERVAL c);
                    tunQty := wrap 8 (PARALLEL_TUN_QTY c) |}).
Proof.
  intros Hrnd Htok Hn Hv Hok Hcat Hseg.
  rewrite params_head_layout in Hcat by done.
  set (body := ito4b (VERSION c) ++ be_put 2 (wrap 16 (CTL_PING_INTERVAL c)) ++
               be_put 2 (wrap 16 (DT_PING_INTERVAL c)) ++ [wrap 8 (PARALLEL_TUN_QTY c)] ++
               drop 11 rnd ++ tokens).
  assert (Hlen : Z.of_nat (length body) = Z.of_nat (TUN_PARAMS_LEN + GENERATE_TOKEN_NUM c * TKSZ)).
  { subst body. unfold ito4b.
    rewrite !length_app, !length_be_put, length_drop, Hrnd, Htok. cbn. lia. }
  assert (Hc : concat s = len_prefixed body ++ tail).
  { rewrite Hcat. unfold len_prefixed. rewrite Hlen. subst body. by rewrite <- !app_assoc. }
  destruct (ReadFullByLen_len_prefixed s body tail Hok Hc) as (s' & Hr & Ht); [rewrite Hlen; lia|done|].
  exists body, s'. repeat split; [done|done|].
  subst body. rewrite parse_params_layout by (rewrite ?length_drop; lia).
  rewrite check_version_same, !wrap_wrap. reflexivity.
Qed.

Definition example_consts : server_consts :=
  {| VERSION := version; CTL_PING_INTERVAL := 30; DT_PING_INTERVAL := 60;
     PARALLEL_TUN_QTY := 2; GENERATE_TOKEN_NUM := 1 |}.

Lemma tun_params_roundtrip_witness :
  exists body s',
    ReadFullByLen 2 [params_head example_consts (replicate 34 1) ++ replicate 20 7 ++ [5]] = Ok (body, s') /\
    concat s' = [5] /\
    parse_params version body =
      Ok (false, {| token := replicate 20 7; stInterval := wrap 16 30; dtInterval := wrap 16 60;
                    tunQty := wrap 8 2 |}).
Proof.
  apply (tun_params_roundtrip example_consts (replicate 34 1) (replicate 20 7)
           [params_head example_consts (replicate 34 1) ++ replicate 20 7 ++ [5]] [5]).
  - reflexivity.
  - reflexivity.
  - vm_compute. reflexivity.
  - cbn. rewrite version_value. lia.
  - stream_ok_tac.
  - reflexivity.
  - eexists _, []. split; [reflexivity|vm_compute; lia].
Defined.

(** ** Error behaviour of the client's parse *)

(** a block shorter than the 32 bytes of the parameters never parses:
    the client either refuses the version or panics on a slice bound. *)
Theorem parse_params_short (tVer : Z) (buf : list Z) :
  (length buf < TUN_PARAMS_LEN)%nat -> forall r, parse_params tVer buf <> Ok r.
Proof.
  intros Hlt r H. unfold parse_params, or_panic in H. result_inv H.
  match goal with
  | E : go_slice_from buf TUN_PARAMS_LEN = Some _ |- _ =>
      unfold go_slice_from in E; rewrite decide_False in E by wire_lia; discriminate E
  end.
Qed.

Lemma parse_params_short_witness :
  (length (ito4b version ++ [0%Z; 0%Z]) < TUN_PARAMS_LEN)%nat /\
  forall r, parse_params version (ito4b version ++ [0%Z; 0%Z]) <> Ok r.
Proof. split; [vm_compute; lia|]. apply parse_params_short. vm_compute. lia. Defined.

(** [Uint32] reads back a version word written by [ito4b]. *)
Lemma Uint32_ito4b (v : Z) (rest : list Z) : 0 <= v < 2 ^ 32 -> Uint32 (ito4b v ++ rest) = Some v.
Proof.
  intros Hv. unfold Uint32, ito4b. rewrite decide_True by (rewrite length_app, length_be_put; lia).
  rewrite take_app_length' by (by rewrite length_be_put). rewrite be_get_put. f_equal. apply Z.mod_small. cbn. lia.
Qed.

Lemma make_version_range major minor build :
  0 <= major < 256 -> 0 <= minor < 256 -> 0 <= build < 65536 -> 0 <= make_version major minor build < 2 ^ 32.
Proof. intros. rewrite make_version_value by lia. cbn. lia. Qed.

(** [major.minor] of a version word, the [>> 16] of the test. *)
Lemma make_version_shiftr16 major minor build :
  0 <= major < 256 -> 0 <= minor < 256 -> 0 <= build < 65536 ->
  Z.shiftr (make_version major minor build) 16 = major * 256 + minor.
Proof.
  intros. rewrite make_version_value, Z.shiftr_div_pow2 by lia. change (2 ^ 16) with 65536.
  symmetry. apply Z.div_unique with (r := build); lia.
Qed.

(** C36: a server with the same major version and a newer minor version,
    whatever the builds, is refused with [INCOMPATIBLE_VERSION] naming
    its version: the test compares [major.minor] ([>> 16]), not the
    major alone. *)
Theorem minor_upgrade_refused (major minor minor' build build' : Z) (rest : list Z) :
  0 <= major < 256 -> 0 <= minor < minor' -> minor' < 256 -> 0 <= build < 65536 -> 0 <= build' < 65536 ->
  parse_params (make_version major minor build) (ito4b (make_version major minor' build') ++ rest) =
    Err (ParseExc (Apply INCOMPATIBLE_VERSION (version_string (make_version major minor' build')))).
Proof.
  intros HM Hm Hm' Hb Hb'. unfold parse_params. rewrite Uint32_ito4b by (apply make_version_range; lia).
  cbn [or_panic mbind result_bind]. unfold check_version.
  rewrite !make_version_shiftr16 by lia. rewrite !make_version_value by lia.
  rewrite (proj2 (Z.gtb_lt _ _)) by nia. rewrite (proj2 (Z.eqb_neq _ _)) by lia. done.
Qed.

(** C37: a server of an older version is accepted without a warning
    whatever its major version: only a newer remote version is tested
    (d5.go:413), and a parameter block of at least [TUN_PARAMS_LEN]
    bytes then parses. *)
Theorem older_major_accepted (tVer oVer : Z) (rest : list Z) :
  0 <= oVer <= tVer -> tVer < 2 ^ 32 -> (TUN_PARAMS_LEN <= 4 + length rest)%nat ->
  exists r, parse_params tVer (ito4b oVer ++ rest) = Ok (false, r).
Proof.
  intros Ho Ht Hl. unfold parse_params. rewrite Uint32_ito4b by lia. cbn [or_panic mbind result_bind].
  unfold check_version. rewrite Z.gtb_ltb, (proj2 (Z.ltb_ge _ _)) by lia. cbn [mbind result_bind].
  assert (Hb : length (ito4b oVer ++ rest) = (4 + length rest)%nat) by (rewrite length_app; reflexivity).
  destruct (lookup_lt_is_Some_2 (ito4b oVer ++ rest) 8) as [q Hq]; [wire_lia|].
  unfold go_slice_from, Uint16, go_index. rewrite Hq.
  repeat (rewrite decide_True by (rewrite ?length_drop; wire_lia); cbn [or_panic mbind result_bind]).
  by eexists.
Qed.

Lemma older_major_accepted_witness :
  (0 <= make_version 0 8 0 <= make_version 1 2 0 /\ make_version 1 2 0 < 2 ^ 32 /\ (TUN_PARAMS_LEN <= 4 + length (replicate 28 (0:Z)))%nat) /\
  exists r, parse_params (make_version 1 2 0) (ito4b (make_version 0 8 0) ++ replicate 28 (0:Z)) = Ok (false, r).
Proof.
  assert (H : (0 <= make_version 0 8 0 <= make_version 1 2 0 /\ make_version 1 2 0 < 2 ^ 32) /\
              (TUN_PARAMS_LEN <= 4 + length (replicate 28 (0:Z)))%nat) by (vm_compute; repeat split; first [discriminate | lia]).
  split; [tauto|]. destruct H as [[H1 H2] H3]. exact (older_major_accepted _ _ _ H1 H2 H3).
Defined.

Lemma minor_upgrade_refused_witness :
  parse_params (make_version 0 9 2230) (ito4b (make_version 0 10 0) ++ replicate 28 0) =
    Err (ParseExc (Apply INCOMPATIBLE_VERSION (version_string (make_version 0 10 0)))).
Proof. apply (minor_upgrade_refused 0 9 10 2230 0); lia. Defined.

End TunParams.
