(* ===== verification/ConnPool.v ===== *)
(** * connPool.go: the pool of tunnels of a client session

    [ConnPool] is a slice of tunnel pointers; each tunnel carries its
    [TSPriority], so the ranks live in the tunnels' store, not in the
    pool.  [Select] sorts the slice in place by decreasing rank and takes
    the head, decrementing its rank.  The sort is [sort.Sort], stated here
    by an interface ([Sorter]: a sorted permutation) so that the theorems
    about [Select] hold for any correct sort; Go's insertion sort, which
    [sort.Sort] runs on slices of at most 7 elements, is an instance, and
    the round-robin theorem is proved for it. *)

From stdpp Require Import base list sorting sets.
From Stdlib Require Import ZArith Lia.
From S2P Require Import Prelude.

Module ConnPool.

(** [type TSPriority struct { last int64; rank int64 }] *)
Record TSPriority := { last : Z; rank : Z }.

(** The pool (tunnel pointers, [nat]) and the store of the tunnels'
    priorities. *)
Record pool_state := mkPool {
  pool : list nat;
  prio : nat -> TSPriority
}.

(** [sortableConns.Less]: reversed, a higher rank sorts first. *)
Definition Less (p : nat -> TSPriority) (i j : nat) : bool := rank (p j) <? rank (p i).

(** The order [sort.Sort] establishes: ranks do not increase. *)
Definition rank_ge (p : nat -> TSPriority) (a b : nat) : Prop := rank (p b) <= rank (p a).

(** What [sort.Sort] promises its caller. *)
Class Sorter := {
  sort_conns : (nat -> TSPriority) -> list nat -> list nat;
  sort_conns_perm p l : sort_conns p l ≡ₚ l;
  sort_conns_sorted p l : Sorted (rank_ge p) (sort_conns p l)
}.

(** Go's [insertionSort]: element [i] is swapped leftwards while it is
    [Less] than its left neighbour; functionally, each element is put
    before the first element of the sorted prefix that it is [Less]
    than. *)
Fixpoint ins (p : nat -> TSPriority) (x : nat) (l : list nat) : list nat :=
  match l with
  | [] => [x]
  | y :: l' => if Less p x y then x :: y :: l' else y :: ins p x l'
  end.

Definition insertion_sort (p : nat -> TSPriority) (l : list nat) : list nat :=
  foldl (fun acc x => ins p x acc) [] l.

(** The priority store after [selected.priority.rank -= 1] (an [int64]). *)
Definition dec_rank (p : nat -> TSPriority) (t : nat) : nat -> TSPriority :=
  fun u => if decide (u = t) then {| last := last (p t); rank := swrap 64 (rank (p t) - 1) |} else p u.

Section Ops.
Context `{!Sorter}.

(** [func (h *ConnPool) Push(x *Conn)] *)
Definition Push (x : nat) (st : pool_state) : pool_state :=
  {| pool := pool st ++ [x]; prio := prio st |}.

(** [func (h *ConnPool) Len() int] *)
Definition Len (st : pool_state) : nat := length (pool st).

(** [func (h *ConnPool) Select() *Conn] *)
Definition Select (st : pool_state) : option nat * pool_state :=
  if decide (length (pool st) < 1)%nat then (None, st)
  else
    let sorted := sort_conns (prio st) (pool st) in
    match sorted with
    | [] => (None, {| pool := sorted; prio := prio st |})
    | selected :: _ => (Some selected, {| pool := sorted; prio := dec_rank (prio st) selected |})
    end.

End Ops.

(** The loop of [Remove]: the last index holding [c], or -1. *)
Definition last_index (c : nat) (l : list nat) : Z :=
  foldl (fun x i => if bool_decide (l !! i = Some c) then Z.of_nat i else x) (-1) (seq 0 (length l)).

(** [func (h *ConnPool) Remove(c *Conn) bool] *)
Definition Remove (c : nat) (st : pool_state) : bool * pool_state :=
  let n := length (pool st) in
  let x := last_index c (pool st) in
  if x <? 0 then (false, st)
  else
    let p := pool st in
    let xn := Z.to_nat x in
    let p' :=
      if x =? 0 then drop 1 p
      else if x =? Z.of_nat n - 1 then take xn p
      else if (0 <? x) && (x <? Z.of_nat n - 1) then take (n - 1) (go_copy p xn n (drop (xn + 1) p))
      else p in
    (true, {| pool := p'; prio := prio st |}).

(** [func (h *ConnPool) destroy()]: closes every member (the list it
    returns) and empties the pool. *)
Definition destroy (st : pool_state) : list nat * pool_state :=
  (pool st, {| pool := []; prio := prio st |}).

(** ** The insertion sort is a [Sorter] *)

Lemma ins_perm p x l : ins p x l ≡ₚ x :: l.
Proof.
  induction l as [|y l IH]; cbn; [done|].
  destruct (Less p x y); [done|]. rewrite IH. constructor.
Qed.

Lemma insertion_sort_perm_acc p l acc : foldl (fun acc x => ins p x acc) acc l ≡ₚ acc ++ l.
Proof.
  revert acc. induction l as [|x l IH]; intros acc; cbn; [by rewrite app_nil_r|].
  rewrite IH, ins_perm. cbn. apply Permutation_middle.
Qed.

Lemma ins_hd p x y l : HdRel (rank_ge p) y l -> rank_ge p y x -> HdRel (rank_ge p) y (ins p x l).
Proof.
  intros Hhd Hyx. destruct l as [|z l]; cbn; [by constructor|].
  destruct (Less p x z); constructor; [done|]. by inversion Hhd.
Qed.

Lemma ins_sorted p x l : Sorted (rank_ge p) l -> Sorted (rank_ge p) (ins p x l).
Proof.
  induction l as [|y l IH]; intros Hs; cbn; [by repeat constructor|].
  unfold Less, rank_ge in *. inversion Hs as [|? ? Hs' Hhd]; subst.
  destruct (rank (p y) <? rank (p x)) eqn:E.
  - apply Z.ltb_lt in E. constructor; [done|]. constructor. unfold rank_ge. lia.
  - apply Z.ltb_ge in E. constructor; [by apply IH|]. apply ins_hd; [done|]. unfold rank_ge. lia.
Qed.

Lemma insertion_sort_sorted_acc p l acc :
  Sorted (rank_ge p) acc -> Sorted (rank_ge p) (foldl (fun acc x => ins p x acc) acc l).
Proof.
  revert acc. induction l as [|x l IH]; intros acc Hs; cbn; [done|]. by apply IH, ins_sorted.
Qed.

#[export] Instance insertion_sorter : Sorter := {|
  sort_conns := insertion_sort;
  sort_conns_perm p l := insertion_sort_perm_acc p l [];
  sort_conns_sorted p l := insertion_sort_sorted_acc p l [] (Sorted_nil _)
|}.

(** ** [Select], for any correct sort *)

#[export] Instance rank_ge_trans p : Transitive (rank_ge p).
Proof. intros a b c. unfold rank_ge. lia. Qed.

Lemma sorted_head_max p (t : nat) (l : list nat) :
  Sorted (rank_ge p) (t :: l) -> forall u, u ∈ t :: l -> rank (p u) <= rank (p t).
Proof.
  intros Hs u Hu. apply Sorted_StronglySorted in Hs; [|apply _].
  inversion Hs as [|? ? _ Hall]; subst. apply elem_of_cons in Hu as [->|Hu]; [lia|].
  rewrite Forall_forall in Hall. exact (Hall u Hu).
Qed.

(** A pool of two tunnels, the second of higher rank. *)
Definition example_pool : pool_state :=
  {| pool := [1%nat; 2%nat];
     prio := fun u => {| last := 0; rank := if decide (u = 2%nat) then 5 else 3 |} |}.

Definition flat_pool : pool_state :=
  {| pool := [3%nat; 1%nat; 2%nat]; prio := fun _ => {| last := 0; rank := 0 |} |}.

Section SelectSpec.
Context `{!Sorter}.

(** [Select] on an empty pool returns nil and changes nothing, and on
    a non-empty pool it returns a tunnel. *)
Theorem Select_none_iff_empty (st : pool_state) :
  fst (Select st) = None <-> pool st = [].
Proof.
  unfold Select. destruct (pool st) as [|c l] eqn:Hp; cbn.
  - done.
  - rewrite decide_False by lia.
    pose proof (sort_conns_perm (prio st) (c :: l)) as Hperm.
    destruct (sort_conns (prio st) (c :: l)) as [|t l'] eqn:Hs.
    + apply Permutation_nil in Hperm. discriminate.
    + cbn. split; discriminate.
Qed.

(** C8: [Select] returns a member of the pool of maximal rank, decrements
    that tunnel's rank (as an [int64]), leaves every other rank alone and
    keeps the pool a permutation of itself. *)
Theorem Select_max (st st' : pool_state) (t : nat) :
  Select st = (Some t, st') ->
  t ∈ pool st /\ (forall u, u ∈ pool st -> rank (prio st u) <= rank (prio st t)) /\
  rank (prio st' t) = swrap 64 (rank (prio st t) - 1) /\
  (forall u, u <> t -> prio st' u = prio st u) /\
  pool st' ≡ₚ pool st.
Proof.
  unfold Select. destruct (decide _); [discriminate|].
  pose proof (sort_conns_perm (prio st) (pool st)) as Hperm.
  pose proof (sort_conns_sorted (prio st) (pool st)) as Hsort.
  destruct (sort_conns (prio st) (pool st)) as [|t' l] eqn:Hs; [discriminate|].
  intros [= <- <-]. cbn. repeat split.
  - rewrite <- Hperm. apply list_elem_of_here.
  - intros u Hu. apply (sorted_head_max _ _ l Hsort). by rewrite Hperm.
  - unfold dec_rank. by rewrite decide_True.
  - intros u Hu. unfold dec_rank. by rewrite decide_False.
  - done.
Qed.



End SelectSpec.

Lemma Select_max_witness :
  (2%nat ∈ pool example_pool) /\ rank (prio (snd (Select example_pool)) 2%nat) = 4.
Proof.
  destruct (Select_max example_pool (snd (Select example_pool)) 2%nat) as (H1 & _ & H3 & _);
    [reflexivity|].
  split; [exact H1|]. rewrite H3. reflexivity.
Defined.

(** ** [Remove] removes the last occurrence *)

(** The reference: the list without its last occurrence of [c]. *)
Fixpoint remove_last (c : nat) (l : list nat) : option (list nat) :=
  match l with
  | [] => None
  | y :: l' =>
      match remove_last c l' with
      | Some r => Some (y :: r)
      | None => if decide (y = c) then Some l' else None
      end
  end.

Lemma remove_last_absent c l : c ∉ l -> remove_last c l = None.
Proof.
  induction l as [|y l IH]; intros Hc; cbn; [done|].
  rewrite IH by set_solver. rewrite decide_False by set_solver. done.
Qed.

Lemma remove_last_split c k m : c ∉ m -> remove_last c (k ++ c :: m) = Some (k ++ m).
Proof.
  intros Hc. induction k as [|y k IH]; cbn.
  - rewrite remove_last_absent by done. by rewrite decide_True.
  - by rewrite IH.
Qed.

Lemma last_index_snoc c l y :
  last_index c (l ++ [y]) = if decide (y = c) then Z.of_nat (length l) else last_index c l.
Proof.
  unfold last_index. rewrite length_app. cbn [length]. rewrite Nat.add_1_r, seq_S, foldl_app.
  cbn [foldl]. rewrite lookup_app_r, Nat.sub_diag by lia. cbn.
  rewrite (foldl_ext_in _ (fun x i => if bool_decide (l !! i = Some c) then Z.of_nat i else x)).
  - destruct (decide (y = c)) as [->|Hne]; [by rewrite bool_decide_true|].
    rewrite bool_decide_false by congruence. done.
  - intros a i Hi. apply elem_of_seq in Hi. by rewrite lookup_app_l by lia.
Qed.

Lemma last_index_spec c l :
  (last_index c l = -1 /\ c ∉ l) \/
  (exists l1 l2, l = l1 ++ c :: l2 /\ c ∉ l2 /\ last_index c l = Z.of_nat (length l1)).
Proof.
  induction l as [|y l IH] using rev_ind.
  - left. split; [done|set_solver].
  - rewrite last_index_snoc. destruct (decide (y = c)) as [->|Hne].
    + right. exists l, []. repeat split; set_solver.
    + destruct IH as [[H1 H2]|(l1 & l2 & -> & H2 & H3)].
      * left. split; [done|set_solver].
      * right. exists l1, (l2 ++ [y]). rewrite <- app_assoc. repeat split; set_solver.
Qed.

Lemma Remove_branches (p : list nat) (x : nat) :
  (x < length p)%nat ->
  (if Z.of_nat x =? 0 then drop 1 p
   else if Z.of_nat x =? Z.of_nat (length p) - 1 then take x p
   else if (0 <? Z.of_nat x) && (Z.of_nat x <? Z.of_nat (length p) - 1)
        then take (length p - 1) (go_copy p x (length p) (drop (x + 1) p))
   else p) = delete x p.
Proof.
  intros Hx. rewrite delete_take_drop.
  destruct (Z.eqb_spec (Z.of_nat x) 0) as [H0|H0].
  { assert (x = 0%nat) as -> by lia. done. }
  destruct (Z.eqb_spec (Z.of_nat x) (Z.of_nat (length p) - 1)) as [H1|H1].
  { rewrite (drop_ge p (S x)) by lia. by rewrite app_nil_r. }
  rewrite (proj2 (Z.ltb_lt 0 _)), (proj2 (Z.ltb_lt _ _)) by lia. cbn [andb].
  unfold go_copy. cbv zeta. rewrite length_drop.
  replace (Nat.min (length p - x) (length p - (x + 1))) with (length p - (x + 1))%nat by lia.
  rewrite (take_ge (drop (x + 1) p)) by (rewrite length_drop; lia).
  rewrite app_assoc, take_app_le by (rewrite length_app, length_take, length_drop; lia).
  rewrite take_ge by (rewrite length_app, length_take, length_drop; lia).
  by rewrite Nat.add_1_r.
Qed.

(** C18: the three-branch slice surgery of [Remove] is the removal of the
    last occurrence of the tunnel: [Remove] reports [true] and removes
    exactly that occurrence when the tunnel is in the pool, and reports
    [false] and changes nothing otherwise. *)
Theorem Remove_equiv (c : nat) (st : pool_state) :
  Remove c st =
    match remove_last c (pool st) with
    | Some l' => (true, {| pool := l'; prio := prio st |})
    | None => (false, st)
    end.
Proof.
  unfold Remove. destruct (last_index_spec c (pool st)) as [[-> Hc]|(l1 & l2 & Hp & Hc & ->)].
  - by rewrite remove_last_absent.
  - rewrite (proj2 (Z.ltb_ge _ _)) by lia. rewrite Nat2Z.id.
    rewrite Remove_branches by (rewrite Hp, length_app; cbn; lia).
    rewrite Hp, remove_last_split by done. by rewrite delete_middle.
Qed.

(** ** Round robin under Go's insertion sort *)

(** [k] successive calls of [Select]. *)
Fixpoint select_n `{!Sorter} (k : nat) (st : pool_state) : list (option nat) * pool_state :=
  match k with
  | O => ([], st)
  | S k' =>
      let '(r, st1) := Select st in
      let '(rs, st2) := select_n k' st1 in
      (r :: rs, st2)
  end.

Lemma ins_skip p x A B : (forall y, y ∈ A -> Less p x y = false) -> ins p x (A ++ B) = A ++ ins p x B.
Proof.
  induction A as [|y A IH]; intros HA; [done|]. cbn.
  rewrite HA by apply list_elem_of_here. f_equal. apply IH. intros z Hz. apply HA.
  by apply list_elem_of_further.
Qed.

(** Inserting into a list of two rank levels [R] then [R - 1]. *)
Lemma ins_two_levels p R x A B :
  (forall y, y ∈ A -> rank (p y) = R) -> (forall y, y ∈ B -> rank (p y) = R - 1) ->
  (rank (p x) = R -> ins p x (A ++ B) = A ++ x :: B) /\
  (rank (p x) = R - 1 -> ins p x (A ++ B) = A ++ B ++ [x]).
Proof.
  intros HA HB. split; intros Hx.
  - rewrite ins_skip by (intros y Hy; unfold Less; rewrite HA, Hx by done; apply Z.ltb_irrefl).
    destruct B as [|y B]; cbn; [done|]. unfold Less. rewrite HB, Hx by apply list_elem_of_here.
    by rewrite (proj2 (Z.ltb_lt _ _)) by lia.
  - rewrite ins_skip by (intros y Hy; unfold Less; rewrite HA, Hx by done; apply Z.ltb_ge; lia).
    f_equal. induction B as [|y B IH]; [done|]. cbn. unfold Less at 1.
    rewrite HB, Hx by apply list_elem_of_here. rewrite Z.ltb_irrefl. f_equal.
    apply IH. intros z Hz. apply HB. by apply list_elem_of_further.
Qed.

(** On two rank levels the insertion sort is stable: the tunnels of rank
    [R] in pool order, then those of rank [R - 1] in pool order. *)
Lemma insertion_sort_two_levels p R l :
  (forall u, u ∈ l -> rank (p u) = R \/ rank (p u) = R - 1) ->
  insertion_sort p l = filter (fun u => rank (p u) = R) l ++ filter (fun u => rank (p u) = R - 1) l.
Proof.
  intros Hl. unfold insertion_sort.
  cut (forall A B, (forall y, y ∈ A -> rank (p y) = R) -> (forall y, y ∈ B -> rank (p y) = R - 1) ->
       foldl (fun acc x => ins p x acc) (A ++ B) l =
       (A ++ filter (fun u => rank (p u) = R) l) ++ (B ++ filter (fun u => rank (p u) = R - 1) l)).
  { intros H. apply (H [] []); set_solver. }
  induction l as [|x l IH]; intros A B HA HB; cbn [foldl].
  - by rewrite !filter_nil, !app_nil_r.
  - destruct (Hl x (list_elem_of_here _ _)) as [Hx|Hx].
    + rewrite (proj1 (ins_two_levels p R x A B HA HB) Hx).
      rewrite filter_cons_True, filter_cons_False by lia.
      replace (A ++ x :: B) with ((A ++ [x]) ++ B) by (by rewrite <- app_assoc). rewrite IH.
      * rewrite <- (app_assoc A [x]). reflexivity.
      * intros u Hu. apply Hl. by apply list_elem_of_further.
      * set_solver.
      * done.
    + rewrite (proj2 (ins_two_levels p R x A B HA HB) Hx).
      rewrite filter_cons_False, filter_cons_True by lia.
      rewrite IH.
      * rewrite <- (app_assoc B [x]). reflexivity.
      * intros u Hu. apply Hl. by apply list_elem_of_further.
      * done.
      * set_solver.
Qed.

Lemma dec_rank_other p t u : u <> t -> dec_rank p t u = p u.
Proof. intros Hne. unfold dec_rank. by rewrite decide_False. Qed.

Lemma dec_rank_same p t R :
  rank (p t) = R -> -2 ^ 63 < R < 2 ^ 63 -> rank (dec_rank p t t) = R - 1.
Proof.
  intros Ht HR. unfold dec_rank. rewrite decide_True by done. cbn. rewrite Ht.
  unfold swrap. change (2 ^ (64 - 1)) with (2 ^ 63). rewrite Z.mod_small; [lia|].
  change (2 ^ 64) with (2 * 2 ^ 63). lia.
Qed.

(** One [Select] on a pool sorted into a level [R] (headed by [h]) and a
    level [R - 1]: [h] is returned and the next sort moves it to the
    front of the lower level. *)
Lemma Select_two_levels (st : pool_state) R h t l2 :
  NoDup (h :: t ++ l2) -> -2 ^ 63 < R < 2 ^ 63 ->
  (forall u, u ∈ h :: t -> rank (prio st u) = R) -> (forall u, u ∈ l2 -> rank (prio st u) = R - 1) ->
  insertion_sort (prio st) (pool st) = h :: t ++ l2 ->
  Select st = (Some h, {| pool := h :: t ++ l2; prio := dec_rank (prio st) h |}) /\
  insertion_sort (dec_rank (prio st) h) (h :: t ++ l2) = t ++ h :: l2.
Proof.
  intros Hnd HR Hhi Hlo Hs.
  apply NoDup_cons in Hnd as [Hh Hnd].
  assert (Hh' : rank (dec_rank (prio st) h h) = R - 1) by (apply dec_rank_same; [apply Hhi; set_solver|done]).
  split.
  - unfold Select. assert (Hne : pool st <> []) by (intros Hp; rewrite Hp in Hs; discriminate).
    rewrite decide_False by (destruct (pool st); [done|cbn; lia]).
    change (sort_conns (prio st) (pool st)) with (insertion_sort (prio st) (pool st)). by rewrite Hs.
  - rewrite (insertion_sort_two_levels _ R).
    + rewrite filter_cons_False, filter_cons_True by lia. rewrite !filter_app.
      rewrite (filter_all _ t), (filter_none _ l2), (filter_none _ t), (filter_all _ l2).
      * by rewrite !app_nil_r.
      * intros u Hu. rewrite dec_rank_other by set_solver. apply Hlo, Hu.
      * intros u Hu. rewrite dec_rank_other by set_solver. rewrite Hhi by set_solver. lia.
      * intros u Hu. rewrite dec_rank_other by set_solver. rewrite Hlo by done. lia.
      * intros u Hu. rewrite dec_rank_other by set_solver. apply Hhi. set_solver.
    + intros u Hu. apply elem_of_cons in Hu as [->|Hu]; [by right|].
      rewrite dec_rank_other by set_solver. apply elem_of_app in Hu as [Hu|Hu].
      * left. apply Hhi. set_solver.
      * right. by apply Hlo.
Qed.

Lemma select_n_two_levels R (l1 : list nat) :
  -2 ^ 63 < R < 2 ^ 63 ->
  forall st l2, NoDup (l1 ++ l2) ->
  (forall u, u ∈ l1 -> rank (prio st u) = R) -> (forall u, u ∈ l2 -> rank (prio st u) = R - 1) ->
  insertion_sort (prio st) (pool st) = l1 ++ l2 ->
  fst (select_n (length l1) st) = map Some l1.
Proof.
  intros HR. induction l1 as [|h t IH]; intros st l2 Hnd Hhi Hlo Hs; [done|].
  destruct (Select_two_levels st R h t l2 Hnd HR Hhi Hlo Hs) as [Hsel Hs'].
  cbn [select_n length]. rewrite Hsel.
  destruct (select_n (length t) _) as [rs st2] eqn:Hn. cbn [fst map]. f_equal.
  specialize (IH {| pool := h :: t ++ l2; prio := dec_rank (prio st) h |} (h :: l2)).
  rewrite Hn in IH. apply IH; cbn.
  - by rewrite <- Permutation_middle.
  - apply NoDup_cons in Hnd as [Hh _]. intros u Hu. rewrite dec_rank_other by set_solver.
    apply Hhi. set_solver.
  - apply NoDup_cons in Hnd as [Hh _]. intros u Hu. apply elem_of_cons in Hu as [->|Hu].
    + apply dec_rank_same; [apply Hhi; set_solver|done].
    + rewrite dec_rank_other by set_solver. by apply Hlo.
  - exact Hs'.
Qed.

(** with Go's insertion sort, a pool of distinct tunnels of equal rank
    is served round robin: [n] successive [Select]s return the [n]
    tunnels once each, in pool order. *)
Theorem Select_round_robin (st : pool_state) (R : Z) :
  NoDup (pool st) -> (forall u, u ∈ pool st -> rank (prio st u) = R) -> -2 ^ 63 < R < 2 ^ 63 ->
  fst (select_n (length (pool st)) st) = map Some (pool st).
Proof.
  intros Hnd Hr HR. apply (select_n_two_levels R (pool st) HR st []).
  - by rewrite app_nil_r.
  - done.
  - set_solver.
  - rewrite (insertion_sort_two_levels _ R) by (intros u Hu; left; by apply Hr).
    rewrite filter_all, filter_none; [done| |done].
    intros u Hu. rewrite Hr by done. lia.
Qed.

Lemma Select_round_robin_witness :
  fst (select_n 3 flat_pool) = [Some 3%nat; Some 1%nat; Some 2%nat].
Proof.
  apply (Select_round_robin flat_pool 0).
  - apply (bool_decide_unpack _). vm_compute. exact I.
  - intros u _. reflexivity.
  - vm_compute. split; reflexivity.
Defined.

End ConnPool.
