(* ===== verification/Equeue.v ===== *)
(** * queue.go, the edges and their egress queues

    An [edgeConn] is one end of a logical stream: it owns its local
    connection and, once started, an [equeue] whose send loop is the
    only writer of that connection.  The edges live in the multiplexer's
    heap ([mux_state.edges], pointers are [nat]); frames are pushed by
    [deliver] (the tunnel reader) and popped by [sendLoop], one iteration
    per step.  A failed write tells the peer with a [CLOSE_R] on the
    edge's tunnel, or, on the client side when that tunnel is dead, on the
    tunnel [ConnPool.Select] picks.  The step relation [step] interleaves
    these actions on all edges; the theorems show that a stream's bytes
    reach its socket in order, without loss or duplication, that nothing
    is written after the queue exits, and what a failed write does. *)

From stdpp Require Import base list gmap strings sets.
From Stdlib Require Import ZArith Lia.
From S2P Require Import Prelude ConnPool.

Module Equeue.

(** ** Frames (frame.go is not among the sources: the actions are the
    spec's, section 4.6; the fields are those queue.go uses) *)

Inductive action := SYN | SYN_ACK | DATA | CLOSE_R | CLOSE_W | CLOSE | PING | PONG.

#[export] Instance action_eq_dec : EqDecision action.
Proof. solve_decision. Defined.

(** [frame.conn] is a pointer to an edge, nil for the [CLOSE] sentinels
    the router pushes. *)
Record frame := mkFrame {
  f_action : action;
  f_sid : Z;
  f_length : Z;
  f_data : list Z;
  f_conn : option nat
}.

(** ** queue.go *)

Definition TCP_CLOSE_R : Z := 1.
Definition TCP_CLOSE_W : Z := Z.shiftl 1 1.
Definition TCP_CLOSED : Z := Z.lor TCP_CLOSE_R TCP_CLOSE_W.

(** The local connection as the queue sees it: the bytes written to it,
    whether its halves and its descriptor are closed, and whether it is a
    [*net.TCPConn] (a plain HTTP request's connection is the
    [pushbackInputStream] wrapping it). *)
Record lconn := mkLconn {
  written : list Z;
  wclosed : bool;
  rclosed : bool;
  fd_open : bool;
  is_tcp : bool
}.

(** [SafeClose(conn)] *)
Definition SafeClose (c : lconn) : lconn :=
  {| written := written c; wclosed := true; rclosed := true; fd_open := false; is_tcp := is_tcp c |}.

(** [closeW(conn)]: [CloseWrite] on a [*net.TCPConn], [conn.Close()] on
    any other connection. *)
Definition closeW (c : lconn) : lconn :=
  if is_tcp c then {| written := written c; wclosed := true; rclosed := rclosed c; fd_open := fd_open c; is_tcp := true |}
  else {| written := written c; wclosed := true; rclosed := true; fd_open := false; is_tcp := false |}.

(** The [queue] field: nil, or an equeue whose [buffer] is a list, or nil
    once [_close] ran (the send loop has then returned). *)
Inductive qstate :=
| NoQueue
| Queue (buffer : option (list frame)).

(** [type edgeConn struct]; [mux] is the enclosing state. *)
Record edgeConn := mkEdge {
  tun : option nat;
  conn : lconn;
  ready : bool;
  key : string;
  dest : string;
  queue : qstate;
  positive : bool;
  closed : Z
}.

(** A tunnel object, as far as the queue looks at it. *)
Record tunnel := mkTunnel { identifier : string; tun_open : bool }.

(** The multiplexer's state shared by the edges and the router. *)
Record mux_state := mkMux {
  isClient : bool;
  edges : gmap nat edgeConn;
  registry : option (gmap string nat);
  cleaner_running : bool;
  tunnels : nat -> tunnel;
  cpool : ConnPool.pool_state;
  tun_writes : list (nat * frame)
}.

Definition set_edges (w : mux_state) (m : gmap nat edgeConn) : mux_state :=
  {| isClient := isClient w; edges := m; registry := registry w; cleaner_running := cleaner_running w;
     tunnels := tunnels w; cpool := cpool w; tun_writes := tun_writes w |}.

Definition set_edge (w : mux_state) (p : nat) (e : edgeConn) : mux_state :=
  set_edges w (<[p := e]> (edges w)).

Definition with_queue (e : edgeConn) (q : qstate) : edgeConn :=
  {| tun := tun e; conn := conn e; ready := ready e; key := key e; dest := dest e;
     queue := q; positive := positive e; closed := closed e |}.

Definition with_conn (e : edgeConn) (c : lconn) : edgeConn :=
  {| tun := tun e; conn := c; ready := ready e; key := key e; dest := dest e;
     queue := queue e; positive := positive e; closed := closed e |}.

Definition with_closed (e : edgeConn) (z : Z) : edgeConn :=
  {| tun := tun e; conn := conn e; ready := ready e; key := key e; dest := dest e;
     queue := queue e; positive := positive e; closed := z |}.

(** [newEdgeConn(mux, key, dest, tun, conn)]: a [ready] channel on the
    client side only; no queue yet. *)
Definition newEdgeConn (isClient : bool) (k d : string) (t : option nat) (c : lconn) : edgeConn :=
  {| tun := t; conn := c; ready := isClient; key := k; dest := d;
     queue := NoQueue; positive := false; closed := 0 |}.

(** [equeue._push(frm)]: appended unless the queue has exited. *)
Definition _push (frm : frame) (e : edgeConn) : edgeConn :=
  match queue e with
  | Queue (Some buf) => with_queue e (Queue (Some (buf ++ [frm])))
  | _ => e
  end.

(** [edgeConn.deliver(frm)]: only an edge with a queue accepts frames;
    the frame is stamped with the edge. *)
Definition deliver (p : nat) (frm : frame) (w : mux_state) : mux_state :=
  match edges w !! p with
  | Some e =>
      match queue e with
      | NoQueue => w
      | Queue _ =>
          set_edge w p (_push {| f_action := f_action frm; f_sid := f_sid frm; f_length := f_length frm;
                                 f_data := f_data frm; f_conn := Some p |} e)
      end
  | None => w
  end.

(** [edgeConn.initEqueue()]: an empty buffer, the send loop started. *)
Definition initEqueue (e : edgeConn) : edgeConn := with_queue e (Queue (Some [])).

(** [equeue._close(force, code)]: the buffer is dropped and set to nil;
    a forced close marks both halves closed and closes the connection,
    otherwise only its write half is closed. *)
Definition _close (force : bool) (e : edgeConn) : edgeConn :=
  let e := with_queue e (Queue None) in
  if force then with_conn (with_closed e TCP_CLOSED) (SafeClose (conn e))
  else with_conn e (closeW (conn e)).

(** What the local socket did with one [Write] (under its deadline): the
    number of bytes accepted and whether an error was returned. *)
Record write_outcome := { nw : nat; ew : bool }.

(** The outcome of a [Write] that takes the whole frame. *)
Definition full_write (f : frame) : write_outcome := {| nw := length (f_data f); ew := false |}.

(** The outcomes a socket can produce for [data]: no more than the data,
    and nothing but an error once its write half is closed. *)
Definition outcome_ok (c : lconn) (data : list Z) (o : write_outcome) : Prop :=
  (nw o <= length data)%nat /\ (wclosed c = true -> nw o = 0%nat /\ ew o = true).

(** [sendFrame(frm) (werr bool)] on the connection of the frame's edge:
    the new connection and [werr]. *)
Definition sendFrame (o : write_outcome) (frm : frame) (c : lconn) : lconn * bool :=
  let c' := {| written := written c ++ take (nw o) (f_data frm); wclosed := wclosed c;
               rclosed := rclosed c; fd_open := fd_open c; is_tcp := is_tcp c |} in
  (c', negb (bool_decide (Z.of_nat (nw o) = f_length frm) && negb (ew o))).

Definition set_pool_writes (w : mux_state) (pl : ConnPool.pool_state) (tw : list (nat * frame)) : mux_state :=
  {| isClient := isClient w; edges := edges w; registry := registry w; cleaner_running := cleaner_running w;
     tunnels := tunnels w; cpool := pl; tun_writes := tw |}.

Definition is_close (f : frame) : bool :=
  bool_decide (f_action f = CLOSE) || bool_decide (f_action f = CLOSE_W).

(** The [CLOSE_R] the loop sends upstream: the failed frame itself, its
    action and length overwritten in place. *)
Definition close_r_of (frm : frame) : frame :=
  {| f_action := CLOSE_R; f_sid := f_sid frm; f_length := 0; f_data := f_data frm; f_conn := f_conn frm |}.

Section Loop.
Context `{!ConnPool.Sorter}.

(** The tunnel the error path writes its [CLOSE_R] on: the edge's own,
    unless it is nil or dead on the client side, where the pool picks one. *)
Definition notify_tunnel (w : mux_state) (t : option nat) : option nat * ConnPool.pool_state :=
  let dead := match t with None => true | Some t' => negb (tun_open (tunnels w t')) end in
  if dead && isClient w then ConnPool.Select (cpool w) else (t, cpool w).

(** The error branch of [sendLoop] after [sendFrame] failed on edge [p]. *)
Definition write_failed (p : nat) (frm : frame) (w : mux_state) : option mux_state :=
  e ← edges w !! p;
  if Z.land (closed e) TCP_CLOSE_W =? 0 then
    let e := with_closed e (Z.lor (closed e) TCP_CLOSE_W) in
    let '(t, pl) := notify_tunnel w (tun e) in
    let tw := match t with Some t' => tun_writes w ++ [(t', close_r_of frm)] | None => tun_writes w end in
    Some (set_edge (set_pool_writes w pl tw) p (_close true e))
  else Some (set_edge w p (_close true e)).

(** One iteration of [equeue.sendLoop] for the edge at [p], [o] being the
    outcome of its write if it writes.  [None]: the loop waits on its
    condition variable (empty buffer), has returned, or dereferences a nil
    [frm.conn]. *)
Definition sendLoop_step (o : write_outcome) (p : nat) (w : mux_state) : option mux_state :=
  e ← edges w !! p;
  match queue e with
  | Queue (Some (frm :: rest)) =>
      let e := with_queue e (Queue (Some rest)) in
      let w := set_edge w p e in
      match f_action frm with
      | CLOSE => Some (set_edge w p (_close true e))
      | CLOSE_W => Some (set_edge w p (_close false e))
      | _ =>
          q ← f_conn frm;
          dst ← edges w !! q;
          let '(c', werr) := sendFrame o frm (conn dst) in
          let w := set_edge w q (with_conn dst c') in
          if werr then write_failed p frm w else Some w
      end
  | _ => None
  end.

End Loop.

(** ** The interleaving of the queue's actions *)

Inductive label :=
| LDeliver (p : nat) (frm : frame)
| LSend (p : nat) (o : write_outcome)
| LInit (p : nat).

Inductive step `{!ConnPool.Sorter} : mux_state -> label -> mux_state -> Prop :=
| step_deliver w p frm :
    step w (LDeliver p frm) (deliver p frm w)
| step_send w p o w' e frm rest :
    edges w !! p = Some e -> queue e = Queue (Some (frm :: rest)) ->
    (forall q dst, f_conn frm = Some q -> edges w !! q = Some dst -> outcome_ok (conn dst) (f_data frm) o) ->
    sendLoop_step o p w = Some w' ->
    step w (LSend p o) w'
| step_init w p e :
    edges w !! p = Some e -> queue e = NoQueue ->
    step w (LInit p) (set_edge w p (initEqueue e)).

Inductive run `{!ConnPool.Sorter} : mux_state -> list label -> mux_state -> Prop :=
| run_nil w : run w [] w
| run_cons w l w' ls w'' : step w l w' -> run w' ls w'' -> run w (l :: ls) w''.

(** An executable reading of the step relation: the outcome premise of
    [step_send] is checked, the rest is the code's.  It runs the
    concrete scenarios below. *)
#[export] Instance outcome_ok_dec c d o : Decision (outcome_ok c d o).
Proof. unfold outcome_ok. apply _. Defined.

Section Exec.
Context `{!ConnPool.Sorter}.

Definition step_fn (l : label) (w : mux_state) : option mux_state :=
  match l with
  | LDeliver p f => Some (deliver p f w)
  | LInit p =>
      e ← edges w !! p;
      match queue e with NoQueue => Some (set_edge w p (initEqueue e)) | _ => None end
  | LSend p o =>
      e ← edges w !! p;
      match queue e with
      | Queue (Some (frm :: _)) =>
          let ok := match f_conn frm with
                    | Some q => match edges w !! q with
                                | Some dst => bool_decide (outcome_ok (conn dst) (f_data frm) o)
                                | None => true end
                    | None => true end in
          if ok then sendLoop_step o p w else None
      | _ => None
      end
  end.

Fixpoint run_fn (ls : list label) (w : mux_state) : option mux_state :=
  match ls with
  | [] => Some w
  | l :: ls' => w' ← step_fn l w; run_fn ls' w'
  end.

End Exec.

(** A server-side edge (key ["t#1"], on tunnel 0) whose queue has been
    started, in a multiplexer with one such edge. *)
Definition ex_conn : lconn := mkLconn [] false false true true.
Definition ex_edge : edgeConn := initEqueue (newEdgeConn false "t#1" "example.org:80" (Some 0%nat) ex_conn).
Definition ex_mux : mux_state :=
  mkMux false {[ 1%nat := ex_edge ]} (Some {[ "t#1" := 1%nat ]}) true
        (fun _ => mkTunnel "t" true) ConnPool.flat_pool [].
Definition ex_frame (d : list Z) : frame := mkFrame DATA 1 (Z.of_nat (length d)) d None.
Definition ex_sentinel (a : action) : frame := mkFrame a 1 0 [] None.

(** The states reached by delivering frames to the example edge. *)
Definition ex_after (ls : list label) (w : mux_state) : mux_state :=
  default w (@run_fn ConnPool.insertion_sorter ls w).
Definition ex_edge_of (w : mux_state) : edgeConn := default ex_edge (edges w !! 1%nat).

Definition ex_data_mux : mux_state :=
  Eval vm_compute in ex_after [LDeliver 1 (ex_frame [104; 105]); LDeliver 1 (ex_frame [33])] ex_mux.
Definition ex_close_mux (a : action) : mux_state :=
  Eval vm_compute in ex_after [LDeliver 1 (ex_sentinel a); LDeliver 1 (ex_frame [33])] ex_mux.

(** A client whose tunnel 0 has died; the pool holds tunnels 1, 2, 3. *)
Definition ex_client_mux : mux_state :=
  mkMux true {[ 1%nat := initEqueue (newEdgeConn true "t#1" "example.org:80" (Some 0%nat) ex_conn) ]}
        (Some {[ "t#1" := 1%nat ]}) true (fun _ => mkTunnel "t" false) ConnPool.flat_pool [].
Definition ex_client_data_mux : mux_state :=
  Eval vm_compute in ex_after [LDeliver 1 (ex_frame [104; 105])] ex_client_mux.

Definition ex_buf (w : mux_state) : list frame :=
  match queue (ex_edge_of w) with Queue (Some buf) => buf | _ => [] end.
Definition ex_head (w : mux_state) : frame := default (ex_frame []) (head (ex_buf w)).
Definition ex_rest (w : mux_state) : list frame := tail (ex_buf w).

(** The example edge after its loop took a [CLOSE]. *)
Definition ex_exit_mux : mux_state :=
  Eval vm_compute in ex_after [LSend 1 (full_write (ex_sentinel CLOSE))] (ex_close_mux CLOSE).
(** The client after a failed write with its tunnel dead. *)
Definition ex_client_failed : mux_state :=
  Eval vm_compute in default ex_client_data_mux
    (@sendLoop_step ConnPool.insertion_sorter {| nw := 0; ew := true |} 1 ex_client_data_mux).
Definition ex_order_labels : list label :=
  [LDeliver 1 (ex_frame [104; 105]); LDeliver 1 (ex_frame [33]);
   LSend 1 (full_write (ex_frame [104; 105])); LDeliver 1 (ex_frame [10])].

(** ** Invariants *)

(** The multiplexer builds a frame with its payload length in the header. *)
Definition frame_ok (f : frame) : Prop := f_length f = Z.of_nat (length (f_data f)).

(** Every frame waiting in a queue is a close sentinel or was delivered
    to that edge, with a well-formed header. *)
Definition queues_own (w : mux_state) : Prop :=
  forall q e buf f, edges w !! q = Some e -> queue e = Queue (Some buf) -> f ∈ buf ->
  is_close f = true \/ (f_conn f = Some q /\ frame_ok f).

Definition label_ok (l : label) : Prop :=
  match l with LDeliver _ f => is_close f = true \/ frame_ok f | _ => True end.

#[export] Instance label_ok_dec l : Decision (label_ok l).
Proof. destruct l; cbn; unfold frame_ok; apply _. Defined.

(** [queues_own] checked on the heap, for concrete states. *)
Definition queues_own_check (w : mux_state) : bool :=
  forallb (fun '(q, e) =>
             match queue e with
             | Queue (Some buf) =>
                 forallb (fun f => is_close f || (bool_decide (f_conn f = Some q) && bool_decide (frame_ok f))) buf
             | _ => true
             end) (map_to_list (edges w)).

(** ** The byte stream of a queue *)

(** The payload a sequence of frames puts on the socket: the data of the
    frames up to the first close frame. *)
Fixpoint stream_of (fs : list frame) : list Z :=
  match fs with
  | [] => []
  | f :: fs' => if is_close f then [] else f_data f ++ stream_of fs'
  end.

Definition has_close (fs : list frame) : bool := existsb is_close fs.

(** The frames the run delivers to edge [p], in order. *)
Fixpoint delivered (p : nat) (ls : list label) : list frame :=
  match ls with
  | [] => []
  | LDeliver q f :: ls' => if decide (q = p) then f :: delivered p ls' else delivered p ls'
  | _ :: ls' => delivered p ls'
  end.

Definition label_target (l : label) : nat :=
  match l with LDeliver q _ | LSend q _ | LInit q => q end.

Definition stamp (f : frame) (p : nat) : frame :=
  {| f_action := f_action f; f_sid := f_sid f; f_length := f_length f; f_data := f_data f; f_conn := Some p |}.

(** What edge [p] has written, relative to its byte stream: while its
    loop runs, the written bytes and the pending frames' payload make up
    the whole stream; once it has exited, the written bytes are a prefix
    of it. *)
Definition edge_inv (p : nat) (W0 : list Z) (D : list frame) (w : mux_state) : Prop :=
  exists e, edges w !! p = Some e /\
  match queue e with
  | Queue (Some buf) => W0 ++ stream_of D = written (conn e) ++ stream_of buf /\ has_close D = has_close buf
  | Queue None => written (conn e) `prefix_of` W0 ++ stream_of D
  | NoQueue => False
  end.

Lemma lookup_set_edge (w : mux_state) p q e :
  edges (set_edge w p e) !! q = if decide (p = q) then Some e else edges w !! q.
Proof. unfold set_edge, set_edges. cbn. apply lookup_insert. Qed.

Lemma edges_set_pool_writes w pl tw : edges (set_pool_writes w pl tw) = edges w.
Proof. reflexivity. Qed.

Lemma written_closeW c : written (closeW c) = written c.
Proof. unfold closeW. by destruct (is_tcp c). Qed.

Lemma written_close force e : written (conn (_close force e)) = written (conn e).
Proof. destruct force; cbn; [done|]. apply written_closeW. Qed.

Lemma queue_close force e : queue (_close force e) = Queue None.
Proof. by destruct force. Qed.

#[export] Hint Rewrite lookup_set_edge edges_set_pool_writes written_close queue_close : deblocus_rw.

Lemma edges_set_edge_twice w q a b : edges (set_edge (set_edge w q a) q b) = <[q := b]> (edges w).
Proof. unfold set_edge, set_edges. cbn. apply insert_insert_eq. Qed.

Lemma write_failed_edges `{!ConnPool.Sorter} p frm w w' :
  write_failed p frm w = Some w' ->
  exists e, edges w !! p = Some e /\ edges w' = <[p := _close true (with_closed e (closed e))]> (edges w) \/
            edges w !! p = Some e /\ edges w' = <[p := _close true (with_closed e (Z.lor (closed e) TCP_CLOSE_W))]> (edges w).
Proof.
  intros Hw. unfold write_failed in Hw. destruct (edges w !! p) as [e|] eqn:He; [|discriminate].
  cbn in Hw. exists e. destruct (Z.land (closed e) TCP_CLOSE_W =? 0).
  - destruct (notify_tunnel _ _) as [t pl]. injection Hw as <-. right. done.
  - injection Hw as <-. left. split; [done|]. by destruct e.
Qed.

(** What one iteration of the send loop does to the edges: only the
    edge of the loop changes; a close frame makes it exit with nothing
    written, a successful write moves the frame's whole payload to the
    connection, a failed one a prefix of it, and the loop exits. *)
Lemma sendLoop_step_inv `{!ConnPool.Sorter} o q w w' :
  queues_own w -> sendLoop_step o q w = Some w' ->
  exists e frm rest e', edges w !! q = Some e /\ queue e = Queue (Some (frm :: rest)) /\
    edges w' = <[q := e']> (edges w) /\
    ((is_close frm = true /\ queue e' = Queue None /\ written (conn e') = written (conn e)) \/
     (is_close frm = false /\ queue e' = Queue (Some rest) /\ written (conn e') = written (conn e) ++ f_data frm) \/
     (is_close frm = false /\ queue e' = Queue None /\
        exists n, written (conn e') = written (conn e) ++ take n (f_data frm))).
Proof.
  intros Hown Hs. unfold sendLoop_step in Hs.
  destruct (edges w !! q) as [e|] eqn:He; [|discriminate]. cbn in Hs.
  destruct (queue e) as [|[[|frm rest]|]] eqn:Hq; try discriminate.
  assert (Hf : is_close frm = true \/ (f_conn frm = Some q /\ frame_ok frm))
    by (eapply Hown; [exact He|exact Hq|apply list_elem_of_here]).
  exists e, frm, rest.
  destruct (f_action frm) eqn:Ha;
    try (injection Hs as <-; eexists; split; [done|]; split; [done|];
         unfold set_edge, set_edges; cbn; rewrite insert_insert_eq; split; [done|];
         left; unfold is_close; rewrite Ha; repeat split;
         first [reflexivity | cbn [conn with_conn with_queue]; apply written_closeW]).
  all: assert (Hnc : is_close frm = false) by (unfold is_close; rewrite Ha; reflexivity).
  all: destruct Hf as [Hc|[Hconn Hok]]; [congruence|].
  all: rewrite Hconn in Hs; cbn in Hs; rewrite lookup_insert_eq in Hs; cbn in Hs.
  all: destruct (negb _) eqn:Hw.
  all: first
    [ solve [ apply write_failed_edges in Hs as (e1 & [[He1 Hw']|[He1 Hw']]);
        ((rewrite lookup_set_edge, decide_True in He1 by done); injection He1 as <-;
         eexists; split; [done|]; split; [done|];
         rewrite Hw', edges_set_edge_twice, insert_insert_eq; split; [done|];
         right; right; split; [done|]; split; [apply queue_close|];
         exists (nw o); by rewrite written_close) ]
    | solve [ injection Hs as <-; eexists; split; [done|]; split; [done|];
        rewrite edges_set_edge_twice; split; [done|]; right; left; split; [done|]; split; [done|];
        cbn; f_equal; apply negb_false_iff, andb_prop in Hw as [Hlen _];
        apply bool_decide_eq_true in Hlen; unfold frame_ok in Hok; rewrite take_ge; [done|lia] ] ].
Qed.





Lemma stream_of_snoc l f :
  stream_of (l ++ [f]) = stream_of l ++ (if has_close l then [] else stream_of [f]).
Proof.
  induction l as [|g l IH]; cbn; [by rewrite app_nil_r|].
  destruct (is_close g); cbn; [done|]. by rewrite IH, List.app_assoc.
Qed.

Lemma stream_of_app_prefix l m : stream_of l `prefix_of` stream_of (l ++ m).
Proof.
  induction l as [|g l IH]; cbn; [apply prefix_nil|].
  destruct (is_close g); [done|]. by apply prefix_app.
Qed.

Lemma has_close_snoc l f : has_close (l ++ [f]) = has_close l || is_close f.
Proof. unfold has_close. rewrite existsb_app. cbn. by rewrite orb_false_r. Qed.

Lemma stamp_close f p : is_close (stamp f p) = is_close f.
Proof. reflexivity. Qed.

Lemma stream_of_stamp f p : stream_of [stamp f p] = stream_of [f].
Proof. reflexivity. Qed.

Lemma deliver_edges p f w :
  edges (deliver p f w) = match edges w !! p with
                          | Some e => match queue e with NoQueue => edges w | Queue _ => <[p := _push (stamp f p) e]> (edges w) end
                          | None => edges w end.
Proof. unfold deliver. destruct (edges w !! p) as [e|]; [|done]. by destruct (queue e). Qed.

(** A step changes the edges it targets only. *)
Lemma step_other `{!ConnPool.Sorter} w l w' p :
  step w l w' -> queues_own w -> label_target l <> p -> edges w' !! p = edges w !! p.
Proof.
  intros Hst Hown Hne. destruct Hst as [w q f|w q o w' e frm rest He Hq Ho Hs|w q e He Hq]; cbn in Hne.
  - rewrite deliver_edges. destruct (edges w !! q) as [e|]; [|done].
    destruct (queue e); [done|]. by rewrite lookup_insert_ne.
  - destruct (sendLoop_step_inv o q w w' Hown Hs) as (e1 & frm1 & rest1 & e' & _ & _ & Hw' & _).
    rewrite Hw'. by rewrite lookup_insert_ne.
  - rewrite lookup_set_edge. by rewrite decide_False.
Qed.

Lemma push_queue f e :
  queue (_push f e) = match queue e with Queue (Some buf) => Queue (Some (buf ++ [f])) | q => q end.
Proof. unfold _push. by destruct (queue e) as [|[buf|]] eqn:Hq. Qed.

Lemma push_written f e : written (conn (_push f e)) = written (conn e).
Proof. unfold _push. by destruct (queue e) as [|[buf|]] eqn:Hq. Qed.

(** One step preserves the ownership invariant. *)
Lemma step_queues_own `{!ConnPool.Sorter} w l w' :
  step w l w' -> queues_own w -> label_ok l -> queues_own w'.
Proof.
  intros Hst Hown Hl q e buf f Hq Hqe Hf.
  destruct Hst as [w p f0|w p o w' e0 frm rest He Hq0 Ho Hs|w p e0 He Hq0].
  - rewrite deliver_edges in Hq. destruct (edges w !! p) as [e1|] eqn:He1; [|by eapply Hown].
    destruct (queue e1) as [|b1] eqn:Hqe1; [by eapply Hown|].
    destruct (decide (p = q)) as [<-|Hne]; [|rewrite lookup_insert_ne in Hq by done; by eapply Hown].
    rewrite lookup_insert_eq in Hq. injection Hq as <-. rewrite push_queue, Hqe1 in Hqe.
    destruct b1 as [b1|]; [|discriminate]. injection Hqe as <-.
    apply elem_of_app in Hf as [Hf|Hf]; [by eapply Hown|].
    apply list_elem_of_singleton in Hf as ->. cbn in Hl. rewrite stamp_close.
    destruct Hl as [Hc|Hok]; [by left|right]. split; [done|exact Hok].
  - destruct (sendLoop_step_inv o p w w' Hown Hs) as (e1 & frm1 & rest1 & e' & He1 & Hq1 & Hw' & Hcase).
    rewrite Hw' in Hq. destruct (decide (p = q)) as [<-|Hne]; [|rewrite lookup_insert_ne in Hq by done; by eapply Hown].
    rewrite lookup_insert_eq in Hq. injection Hq as <-.
    destruct Hcase as [(_ & Hqe' & _)|[(_ & Hqe' & _)|(_ & Hqe' & _)]]; rewrite Hqe' in Hqe; try discriminate.
    injection Hqe as <-. eapply Hown; [exact He1|exact Hq1|]. by apply list_elem_of_further.
  - rewrite lookup_set_edge in Hq. destruct (decide (p = q)) as [<-|Hne]; [|by eapply Hown].
    injection Hq as <-. cbn in Hqe. injection Hqe as <-. by apply not_elem_of_nil in Hf.
Qed.


Lemma edge_inv_same p W0 D w w' :
  edges w' !! p = edges w !! p -> edge_inv p W0 D w -> edge_inv p W0 D w'.
Proof. intros Heq (e & He & H). exists e. by rewrite Heq. Qed.

Lemma step_edge_inv `{!ConnPool.Sorter} w l w' p W0 D :
  step w l w' -> queues_own w -> edge_inv p W0 D w -> edge_inv p W0 (D ++ delivered p [l]) w'.
Proof.
  intros Hst Hown Hinv.
  destruct (decide (label_target l = p)) as [Ht|Ht];
    [|replace (D ++ delivered p [l]) with D
        by (destruct l as [q f| |]; cbn in Ht |- *; rewrite ?decide_False by done; by rewrite app_nil_r);
      exact (edge_inv_same p W0 D w w' (step_other w l w' p Hst Hown Ht) Hinv)].
  destruct Hinv as (e & He & Hq).
  destruct Hst as [w q f|w q o w' e0 frm rest He0 Hq0 Ho Hs|w q e0 He0 Hq0]; cbn in Ht; subst q.
  - cbn. rewrite decide_True by done. exists (_push (stamp f p) e).
    unfold deliver. rewrite He. destruct (queue e) as [|[buf|]] eqn:Hqe; [done| |].
    + rewrite lookup_set_edge, decide_True by done. split; [done|].
      rewrite push_queue, Hqe, push_written, stream_of_snoc, has_close_snoc, stream_of_snoc, has_close_snoc.
      destruct Hq as [Hs Hc]. rewrite Hc, stream_of_stamp. split; [|done]. by rewrite !List.app_assoc, Hs.
    + rewrite lookup_set_edge, decide_True by done. split; [done|].
      rewrite push_queue, Hqe, push_written. etrans; [exact Hq|]. apply prefix_app, stream_of_app_prefix.
  - cbn. rewrite app_nil_r.
    destruct (sendLoop_step_inv o p w w' Hown Hs) as (e1 & frm1 & rest1 & e' & He1 & Hq1 & Hw' & Hcase).
    rewrite He in He1. injection He1 as <-. rewrite Hq1 in Hq. destruct Hq as [Hstr Hc].
    exists e'. rewrite Hw', lookup_insert_eq. split; [done|].
    destruct Hcase as [(Hcl & Hqe' & Hwr)|[(Hcl & Hqe' & Hwr)|(Hcl & Hqe' & n & Hwr)]]; rewrite Hqe'.
    + rewrite Hwr, Hstr. apply prefix_app_r. done.
    + rewrite Hwr, Hstr. cbn. rewrite Hcl. split; [apply List.app_assoc|]. by rewrite Hc; cbn; rewrite Hcl.
    + rewrite Hwr, Hstr. cbn. rewrite Hcl. apply prefix_app, prefix_app_r, prefix_take.
  - cbn. rewrite app_nil_r. rewrite He in He0. injection He0 as <-. by rewrite Hq0 in Hq.
Qed.

(** ** Runs: rule induction, the executable interpreter *)

Lemma run_preserves `{!ConnPool.Sorter} (P : mux_state -> Prop) w ls w' :
  (forall w l w', step w l w' -> queues_own w -> label_ok l -> P w -> P w') ->
  run w ls w' -> queues_own w -> Forall label_ok ls -> P w -> queues_own w' /\ P w'.
Proof.
  intros Hstep Hrun. induction Hrun as [w|w l w1 ls w2 Hst Hrun IH]; intros Hown Hok HP; [done|].
  inversion Hok as [|? ? Hl Hls]; subst.
  apply IH; [by eapply step_queues_own|done|by eapply Hstep].
Qed.

Lemma queues_own_check_sound w : queues_own_check w = true -> queues_own w.
Proof.
  intros H q e buf f Hq Hqe Hf. unfold queues_own_check in H.
  apply (proj1 (forallb_forall _ _)) with (x := (q, e)) in H; [|apply list_elem_of_In, elem_of_map_to_list, Hq].
  rewrite Hqe in H. apply (proj1 (forallb_forall _ _)) with (x := f) in H; [|by apply list_elem_of_In].
  apply orb_true_iff in H as [H|H]; [by left|right].
  apply andb_true_iff in H as [H1 H2]. apply bool_decide_eq_true in H1, H2. done.
Qed.

Lemma step_fn_sound `{!ConnPool.Sorter} l w w' : step_fn l w = Some w' -> step w l w'.
Proof.
  destruct l as [p f|p o|p]; cbn; [intros [= <-]; constructor| |].
  - destruct (edges w !! p) as [e|] eqn:He; cbn; [|discriminate].
    destruct (queue e) as [|[[|frm rest]|]] eqn:Hq; try discriminate.
    case_match eqn:Hok; [|discriminate]. intros Hs. eapply step_send; [exact He|exact Hq| |exact Hs].
    intros q dst Hc Hd. rewrite Hc, Hd in Hok. by apply bool_decide_eq_true in Hok.
  - destruct (edges w !! p) as [e|] eqn:He; cbn; [|discriminate].
    destruct (queue e) eqn:Hq; [|discriminate]. intros [= <-]. by apply step_init.
Qed.

Lemma run_fn_sound `{!ConnPool.Sorter} ls w w' : run_fn ls w = Some w' -> run w ls w'.
Proof.
  revert w. induction ls as [|l ls IH]; intros w; cbn; [intros [= <-]; constructor|].
  destruct (step_fn l w) as [w1|] eqn:Hs; cbn; [|discriminate].
  intros Hr. econstructor; [by apply step_fn_sound|by apply IH].
Qed.

(** ** One iteration of the send loop, case by case *)

Lemma set_edge_twice w p a b : set_edge (set_edge w p a) p b = set_edge w p b.
Proof. unfold set_edge, set_edges. cbn. by rewrite insert_insert_eq. Qed.

Lemma sendLoop_step_data `{!ConnPool.Sorter} o p w e frm rest :
  edges w !! p = Some e -> queue e = Queue (Some (frm :: rest)) -> is_close frm = false -> f_conn frm = Some p ->
  sendLoop_step o p w =
    let e1 := with_conn (with_queue e (Queue (Some rest))) (fst (sendFrame o frm (conn e))) in
    if snd (sendFrame o frm (conn e)) then write_failed p frm (set_edge w p e1) else Some (set_edge w p e1).
Proof.
  intros He Hq Hnc Hc. unfold sendLoop_step. rewrite He. cbn. rewrite Hq.
  destruct (f_action frm) eqn:Ha;
    try (unfold is_close in Hnc; rewrite Ha in Hnc; discriminate).
  all: rewrite Hc; cbn; rewrite lookup_insert_eq; cbn; by rewrite set_edge_twice.
Qed.

Lemma sendLoop_step_close_frame `{!ConnPool.Sorter} (o : write_outcome) (p : nat) (w : mux_state) e frm rest (force : bool) :
  edges w !! p = Some e -> queue e = Queue (Some (frm :: rest)) ->
  f_action frm = (if force then CLOSE else CLOSE_W) ->
  sendLoop_step o p w = Some (set_edge w p (_close force (with_queue e (Queue (Some rest))))).
Proof.
  intros He Hq Ha. unfold sendLoop_step. rewrite He. cbn. rewrite Hq, Ha.
  destruct force; by rewrite set_edge_twice.
Qed.

Lemma sendFrame_fails o frm c :
  (Z.of_nat (nw o) <> f_length frm \/ ew o = true) -> snd (sendFrame o frm c) = true.
Proof.
  intros H. cbn. apply negb_true_iff, andb_false_iff.
  destruct H as [H|H]; [left; by apply bool_decide_eq_false|right; by rewrite H].
Qed.

Lemma sendLoop_step_failed `{!ConnPool.Sorter} o p w e frm rest :
  edges w !! p = Some e -> queue e = Queue (Some (frm :: rest)) -> is_close frm = false -> f_conn frm = Some p ->
  (Z.of_nat (nw o) <> f_length frm \/ ew o = true) ->
  let e1 := with_conn (with_queue e (Queue (Some rest))) (fst (sendFrame o frm (conn e))) in
  sendLoop_step o p w = write_failed p frm (set_edge w p e1) /\
  write_failed p frm (set_edge w p e1) =
    if Z.land (closed e) TCP_CLOSE_W =? 0 then
      let '(t, pl) := notify_tunnel w (tun e) in
      Some (set_edge (set_pool_writes w pl (tun_writes w ++ match t with Some t' => [(t', close_r_of frm)] | None => [] end))
                     p (_close true (with_closed e1 (Z.lor (closed e) TCP_CLOSE_W))))
    else Some (set_edge w p (_close true e1)).
Proof.
  intros He Hq Hnc Hc Hf e1. rewrite (sendLoop_step_data o p w e frm rest He Hq Hnc Hc), sendFrame_fails by done.
  split; [done|]. unfold write_failed. rewrite lookup_set_edge, decide_True by done. cbn.
  destruct (Z.land (closed e) TCP_CLOSE_W =? 0); [|by rewrite set_edge_twice].
  unfold notify_tunnel. cbn. destruct (_ && _); [destruct (ConnPool.Select _) as [[t|] pl]|destruct (tun e)];
    unfold set_edge, set_edges, set_pool_writes; cbn; by rewrite insert_insert_eq, ?app_nil_r.
Qed.

Lemma step_exited `{!ConnPool.Sorter} w l w' p e :
  step w l w' -> queues_own w -> edges w !! p = Some e -> queue e = Queue None -> edges w' !! p = Some e.
Proof.
  intros Hst Hown He Hq.
  destruct (decide (label_target l = p)) as [Ht|Ht]; [|by rewrite (step_other w l w' p Hst Hown Ht)].
  destruct Hst as [w q f|w q o w' e0 frm rest He0 Hq0 Ho Hs|w q e0 He0 Hq0]; cbn in Ht; subst q.
  - rewrite deliver_edges, He, Hq, lookup_insert_eq. unfold _push. by rewrite Hq.
  - rewrite He in He0. injection He0 as <-. by rewrite Hq in Hq0.
  - rewrite He in He0. injection He0 as <-. by rewrite Hq in Hq0.
Qed.

(** ** The queue's contract *)

(** Every reachable state keeps the ownership invariant: a frame
    waiting in the queue of an edge is a close sentinel or a well-formed
    frame delivered to that very edge, so the send loop of one stream
    never writes into another stream's socket. *)
Theorem run_queues_own `{!ConnPool.Sorter} w ls w' :
  run w ls w' -> queues_own w -> Forall label_ok ls -> queues_own w'.
Proof.
  intros Hrun Hown Hok. by apply (run_preserves (fun _ => True) w ls w').
Qed.

(** an edge whose queue has exited is frozen: no later action of any
    send loop, of the tunnel reader or of the queue start changes it, so
    in particular nothing more is written to its connection. *)
Theorem exited_edge_frozen `{!ConnPool.Sorter} w ls w' p e :
  run w ls w' -> queues_own w -> Forall label_ok ls -> edges w !! p = Some e -> queue e = Queue None ->
  edges w' !! p = Some e.
Proof.
  intros Hrun Hown Hok He Hq.
  apply (run_preserves (fun w => edges w !! p = Some e) w ls w'); [|done..].
  intros ? ? ? Hst Hown' _ He'. by eapply step_exited.
Qed.

(** a [CLOSE] frame at the head of the queue makes the loop exit: the
    buffer is dropped, both halves are marked closed, the connection is
    closed, nothing is written and no frame is sent upstream. *)
Theorem sendLoop_close `{!ConnPool.Sorter} (o : write_outcome) (p : nat) (w : mux_state) e frm rest :
  edges w !! p = Some e -> queue e = Queue (Some (frm :: rest)) -> f_action frm = CLOSE ->
  exists w' e', sendLoop_step o p w = Some w' /\ edges w' = <[p := e']> (edges w) /\
    queue e' = Queue None /\ closed e' = TCP_CLOSED /\
    conn e' = {| written := written (conn e); wclosed := true; rclosed := true; fd_open := false; is_tcp := is_tcp (conn e) |} /\
    tun_writes w' = tun_writes w /\ cpool w' = cpool w.
Proof.
  intros He Hq Ha. eexists _, _. rewrite (sendLoop_step_close_frame o p w e frm rest true He Hq Ha).
  by repeat split.
Qed.

(** C34: a [CLOSE_W] frame exits the loop and leaves the edge's [closed]
    flags as they were.  On a [*net.TCPConn] it closes the write half
    only: the read half and the descriptor stay open.  On any other
    connection (a plain HTTP request's [pushbackInputStream]) [closeW]
    falls back to [conn.Close()]: both halves and the descriptor
    close. *)
Theorem sendLoop_closeW `{!ConnPool.Sorter} (o : write_outcome) (p : nat) (w : mux_state) e frm rest :
  edges w !! p = Some e -> queue e = Queue (Some (frm :: rest)) -> f_action frm = CLOSE_W ->
  exists w' e', sendLoop_step o p w = Some w' /\ edges w' = <[p := e']> (edges w) /\
    queue e' = Queue None /\ closed e' = closed e /\
    conn e' = (if is_tcp (conn e)
               then {| written := written (conn e); wclosed := true; rclosed := rclosed (conn e); fd_open := fd_open (conn e); is_tcp := true |}
               else {| written := written (conn e); wclosed := true; rclosed := true; fd_open := false; is_tcp := false |}) /\
    tun_writes w' = tun_writes w.
Proof.
  intros He Hq Ha. eexists _, _. rewrite (sendLoop_step_close_frame o p w e frm rest false He Hq Ha).
  by repeat split.
Qed.

(** C7: a short or failed write of a data frame ends the stream: the bytes
    the socket accepted stay written, the buffer is dropped, both halves
    are marked closed and the connection is closed; when the write half
    was already marked closed the peer has been told before, and nothing
    is sent upstream. *)
Theorem sendLoop_write_error `{!ConnPool.Sorter} (o : write_outcome) (p : nat) (w : mux_state) e frm rest :
  edges w !! p = Some e -> queue e = Queue (Some (frm :: rest)) -> is_close frm = false -> f_conn frm = Some p ->
  (Z.of_nat (nw o) <> f_length frm \/ ew o = true) ->
  exists w' e', sendLoop_step o p w = Some w' /\ edges w' = <[p := e']> (edges w) /\
    queue e' = Queue None /\ closed e' = TCP_CLOSED /\
    conn e' = {| written := written (conn e) ++ take (nw o) (f_data frm); wclosed := true; rclosed := true; fd_open := false; is_tcp := is_tcp (conn e) |} /\
    (Z.land (closed e) TCP_CLOSE_W <> 0 -> tun_writes w' = tun_writes w /\ cpool w' = cpool w).
Proof.
  intros He Hq Hnc Hc Hf. destruct (sendLoop_step_failed o p w e frm rest He Hq Hnc Hc Hf) as [-> ->].
  destruct (Z.land (closed e) TCP_CLOSE_W =? 0) eqn:Hz.
  - destruct (notify_tunnel w (tun e)) as [t pl]. eexists _, _. split; [reflexivity|].
    unfold set_edge, set_edges, set_pool_writes. cbn.
    do 4 (split; [done|]). intros Hnz. apply Z.eqb_eq in Hz. contradiction.
  - eexists _, _. split; [reflexivity|]. by repeat split.
Qed.

(** C10: the first failed write tells the peer with a [CLOSE_R] carrying
    the frame's stream id and a zero length: on the edge's own tunnel
    when it is alive; on the client side, when that tunnel is nil or
    dead, on the tunnel [ConnPool.Select] picks (whose rank it lowers),
    and on none when the pool is empty. *)
Theorem write_error_notify `{!ConnPool.Sorter} (o : write_outcome) (p : nat) (w : mux_state) e frm rest w' :
  edges w !! p = Some e -> queue e = Queue (Some (frm :: rest)) -> is_close frm = false -> f_conn frm = Some p ->
  (Z.of_nat (nw o) <> f_length frm \/ ew o = true) -> Z.land (closed e) TCP_CLOSE_W = 0 ->
  sendLoop_step o p w = Some w' ->
  (forall t, tun e = Some t -> tun_open (tunnels w t) = true ->
     tun_writes w' = tun_writes w ++ [(t, close_r_of frm)] /\ cpool w' = cpool w) /\
  (isClient w = true -> (forall t, tun e = Some t -> tun_open (tunnels w t) = false) ->
     tun_writes w' = tun_writes w ++ match fst (ConnPool.Select (cpool w)) with
                                     | Some t => [(t, close_r_of frm)] | None => [] end /\
     cpool w' = snd (ConnPool.Select (cpool w))).
Proof.
  intros He Hq Hnc Hc Hf Hz Hs. destruct (sendLoop_step_failed o p w e frm rest He Hq Hnc Hc Hf) as [Hs1 Hs2].
  rewrite Hs1, Hs2, Hz in Hs. cbn in Hs. unfold notify_tunnel in Hs. split.
  - intros t Ht Hopen. rewrite Ht, Hopen in Hs. cbn in Hs. by injection Hs as <-.
  - intros Hcl Hdead. rewrite Hcl, andb_true_r in Hs.
    replace (match tun e with Some t' => negb (tun_open (tunnels w t')) | None => true end) with true in Hs
      by (destruct (tun e) as [t|]; [by rewrite (Hdead t)|done]).
    destruct (ConnPool.Select (cpool w)) as [[t|] pl]; by injection Hs as <-.
Qed.

(** C1: the bytes of a stream reach its local socket in the order its
    frames were queued and delivered, without loss or duplication: at
    every point of any interleaving, what the socket received is a
    prefix of the payloads of the frames (up to the first close frame),
    and while the edge's send loop runs it is exactly that stream minus
    the payloads still waiting in the queue. *)
Theorem equeue_in_order `{!ConnPool.Sorter} (w0 w : mux_state) (ls : list label) (p : nat)
    (e0 e : edgeConn) (buf0 : list frame) :
  run w0 ls w -> queues_own w0 -> Forall label_ok ls ->
  edges w0 !! p = Some e0 -> queue e0 = Queue (Some buf0) -> edges w !! p = Some e ->
  written (conn e) `prefix_of` written (conn e0) ++ stream_of (buf0 ++ delivered p ls) /\
  (forall buf, queue e = Queue (Some buf) ->
     written (conn e) ++ stream_of buf = written (conn e0) ++ stream_of (buf0 ++ delivered p ls)).
Proof.
  intros Hrun Hown Hok He0 Hq0 He.
  assert (Hinv : edge_inv p (written (conn e0)) (buf0 ++ delivered p ls) w).
  { clear He. revert Hown Hok.
    cut (forall D, edge_inv p (written (conn e0)) D w0 ->
                   queues_own w0 -> Forall label_ok ls -> edge_inv p (written (conn e0)) (D ++ delivered p ls) w).
    { intros Hcut Hown Hok. apply Hcut; [|done|done]. exists e0. split; [done|]. by rewrite Hq0. }
    clear He0 Hq0. induction Hrun as [w|w l w' ls w'' Hst Hrun IH]; intros D Hinv Hown Hok.
    - by rewrite app_nil_r.
    - inversion Hok as [|? ? Hl Hls]; subst.
      replace (D ++ delivered p (l :: ls)) with ((D ++ delivered p [l]) ++ delivered p ls)
        by (destruct l as [q f| |]; cbn; [destruct (decide (q = p))|..]; by rewrite <- ?List.app_assoc).
      apply IH; [by eapply step_edge_inv|by eapply step_queues_own|done]. }
  destruct Hinv as (e1 & He1 & Hq). rewrite He in He1. injection He1 as <-.
  destruct (queue e) as [|[buf|]] eqn:Hqe; [done| |].
  - destruct Hq as [Hs _]. split.
    + rewrite Hs. apply prefix_app_r. done.
    + intros b [= <-]. done.
  - split; [done|]. discriminate.
Qed.

(** C17: the send loop drains its queue: from an edge whose buffer holds
    data frames of its own and whose write half is open, one iteration per
    frame with complete writes leaves the buffer empty, the payloads
    written in order, and every other edge untouched. *)
Theorem sendLoop_drains `{!ConnPool.Sorter} (w : mux_state) (p : nat) e buf :
  edges w !! p = Some e -> queue e = Queue (Some buf) -> wclosed (conn e) = false ->
  Forall (fun f => is_close f = false /\ f_conn f = Some p /\ frame_ok f) buf ->
  exists w' e', run w (map (fun f => LSend p (full_write f)) buf) w' /\ edges w' !! p = Some e' /\
    queue e' = Queue (Some []) /\ written (conn e') = written (conn e) ++ stream_of buf /\
    (forall q, q <> p -> edges w' !! q = edges w !! q).
Proof.
  revert w e. induction buf as [|f buf IH]; intros w e He Hq Hwc Hall.
  - exists w, e. cbn. rewrite app_nil_r. repeat split; [constructor|done..].
  - inversion Hall as [|? ? (Hnc & Hc & Hok) Hall']; subst.
    set (e1 := with_conn (with_queue e (Queue (Some buf))) (fst (sendFrame (full_write f) f (conn e)))).
    assert (Hs : sendLoop_step (full_write f) p w = Some (set_edge w p e1)).
    { rewrite (sendLoop_step_data _ p w e f buf He Hq Hnc Hc). cbn. unfold frame_ok in Hok.
      by rewrite Hok, bool_decide_eq_true_2. }
    destruct (IH (set_edge w p e1) e1) as (w' & e' & Hrun & He' & Hq' & Hw' & Hother);
      [by rewrite lookup_set_edge, decide_True|done|done|done|].
    exists w', e'. split; [|split; [done|split; [done|split]]].
    + econstructor; [|exact Hrun]. eapply step_send; [exact He|exact Hq| |exact Hs].
      intros q dst Hc' Hd. rewrite Hc in Hc'. injection Hc' as <-. rewrite He in Hd. injection Hd as <-.
      split; [done|]. by rewrite Hwc.
    + rewrite Hw'. cbn. rewrite Hnc, take_ge by done. by rewrite List.app_assoc.
    + intros q Hne. rewrite Hother by done. by rewrite lookup_set_edge, decide_False.
Qed.

(** ** Witnesses on the example edge *)

#[local] Existing Instance ConnPool.insertion_sorter.

Ltac ex_eval := vm_compute; reflexivity.

Lemma run_queues_own_witness : queues_own ex_data_mux.
Proof.
  apply (@run_queues_own ConnPool.insertion_sorter ex_mux [LDeliver 1 (ex_frame [104; 105]); LDeliver 1 (ex_frame [33])]).
  - apply run_fn_sound. ex_eval.
  - apply queues_own_check_sound. ex_eval.
  - apply (bool_decide_unpack _). ex_eval.
Defined.

Lemma exited_edge_frozen_witness :
  edges (ex_after [LDeliver 1 (ex_frame [7])] ex_exit_mux) !! 1%nat = Some (ex_edge_of ex_exit_mux).
Proof.
  apply (@exited_edge_frozen ConnPool.insertion_sorter ex_exit_mux [LDeliver 1 (ex_frame [7])]).
  - apply run_fn_sound. ex_eval.
  - apply queues_own_check_sound. ex_eval.
  - apply (bool_decide_unpack _). ex_eval.
  - ex_eval.
  - ex_eval.
Defined.

Lemma sendLoop_close_witness :
  let w := ex_close_mux CLOSE in let e := ex_edge_of w in
  exists w' e', sendLoop_step (full_write (ex_head w)) 1 w = Some w' /\ edges w' = <[1%nat := e']> (edges w) /\
    queue e' = Queue None /\ closed e' = TCP_CLOSED /\
    conn e' = {| written := written (conn e); wclosed := true; rclosed := true; fd_open := false; is_tcp := is_tcp (conn e) |} /\
    tun_writes w' = tun_writes w /\ cpool w' = cpool w.
Proof.
  apply (@sendLoop_close ConnPool.insertion_sorter _ 1 _ _ (ex_head (ex_close_mux CLOSE)) (ex_rest (ex_close_mux CLOSE)));
    ex_eval.
Defined.

Lemma sendLoop_closeW_witness :
  let w := ex_close_mux CLOSE_W in let e := ex_edge_of w in
  exists w' e', sendLoop_step (full_write (ex_head w)) 1 w = Some w' /\ edges w' = <[1%nat := e']> (edges w) /\
    queue e' = Queue None /\ closed e' = closed e /\
    conn e' = (if is_tcp (conn e)
               then {| written := written (conn e); wclosed := true; rclosed := rclosed (conn e); fd_open := fd_open (conn e); is_tcp := true |}
               else {| written := written (conn e); wclosed := true; rclosed := true; fd_open := false; is_tcp := false |}) /\
    tun_writes w' = tun_writes w.
Proof.
  apply (@sendLoop_closeW ConnPool.insertion_sorter _ 1 _ _ (ex_head (ex_close_mux CLOSE_W)) (ex_rest (ex_close_mux CLOSE_W)));
    ex_eval.
Defined.

Lemma sendLoop_write_error_witness :
  let w := ex_data_mux in let e := ex_edge_of w in let frm := ex_head w in let o := {| nw := 1; ew := true |} in
  exists w' e', sendLoop_step o 1 w = Some w' /\ edges w' = <[1%nat := e']> (edges w) /\
    queue e' = Queue None /\ closed e' = TCP_CLOSED /\
    conn e' = {| written := written (conn e) ++ take (nw o) (f_data frm); wclosed := true; rclosed := true; fd_open := false; is_tcp := is_tcp (conn e) |} /\
    (Z.land (closed e) TCP_CLOSE_W <> 0 -> tun_writes w' = tun_writes w /\ cpool w' = cpool w).
Proof.
  apply (@sendLoop_write_error ConnPool.insertion_sorter _ 1 _ _ (ex_head ex_data_mux) (ex_rest ex_data_mux));
    [ex_eval|ex_eval|ex_eval|ex_eval|right; ex_eval].
Defined.

Lemma write_error_notify_witness :
  let w := ex_client_data_mux in let e := ex_edge_of w in let frm := ex_head w in let w' := ex_client_failed in
  (forall t, tun e = Some t -> tun_open (tunnels w t) = true ->
     tun_writes w' = tun_writes w ++ [(t, close_r_of frm)] /\ cpool w' = cpool w) /\
  (isClient w = true -> (forall t, tun e = Some t -> tun_open (tunnels w t) = false) ->
     tun_writes w' = tun_writes w ++ match fst (ConnPool.Select (cpool w)) with
                                     | Some t => [(t, close_r_of frm)] | None => [] end /\
     cpool w' = snd (ConnPool.Select (cpool w))).
Proof.
  apply (@write_error_notify ConnPool.insertion_sorter {| nw := 0; ew := true |} 1 _ _ _
           (ex_rest ex_client_data_mux)); [ex_eval|ex_eval|ex_eval|ex_eval|right; ex_eval|ex_eval|ex_eval].
Defined.

Lemma equeue_in_order_witness :
  let w := ex_after ex_order_labels ex_mux in
  written (conn (ex_edge_of w)) `prefix_of` written (conn ex_edge) ++ stream_of ([] ++ delivered 1 ex_order_labels) /\
  (forall buf, queue (ex_edge_of w) = Queue (Some buf) ->
     written (conn (ex_edge_of w)) ++ stream_of buf = written (conn ex_edge) ++ stream_of ([] ++ delivered 1 ex_order_labels)).
Proof.
  apply (@equeue_in_order ConnPool.insertion_sorter ex_mux (ex_after ex_order_labels ex_mux) ex_order_labels 1 ex_edge
           (ex_edge_of (ex_after ex_order_labels ex_mux)) []).
  - apply run_fn_sound. ex_eval.
  - apply queues_own_check_sound. ex_eval.
  - apply (bool_decide_unpack _). ex_eval.
  - ex_eval.
  - ex_eval.
  - ex_eval.
Defined.

Lemma sendLoop_drains_witness :
  exists w' e', run ex_data_mux (map (fun f => LSend 1 (full_write f)) (ex_buf ex_data_mux)) w' /\
    edges w' !! 1%nat = Some e' /\ queue e' = Queue (Some []) /\
    written (conn e') = written (conn (ex_edge_of ex_data_mux)) ++ stream_of (ex_buf ex_data_mux) /\
    (forall q, q <> 1%nat -> edges w' !! q = edges ex_data_mux !! q).
Proof.
  apply (@sendLoop_drains ConnPool.insertion_sorter ex_data_mux 1 _ (ex_buf ex_data_mux));
    [ex_eval|ex_eval|ex_eval|apply (bool_decide_unpack _); ex_eval].
Defined.

End Equeue.
