(* ===== verification/Router.v ===== *)
(** * queue.go, the egress router

    [egressRouter] maps stream keys ([tun.identifier + "#" + hex(sid)]) to
    edges.  Its registry is a field of the multiplexer state
    [Equeue.mux_state]: [Some reg] while the router lives, [None] once
    [destroy] set it to nil; [cleaner_running] stands for the cleaner
    goroutine and its stop channel.  Each operation holds the router's lock
    for its whole body and is one function on the state, except
    [getRegistered], which drops its read lock before it takes the write
    lock and is therefore split into its two critical sections.  The
    [CLOSE] sentinels the router pushes are ordinary frames of the queues
    of [Equeue]; the relation [mstep] interleaves the router's operations
    with the queues' steps. *)

From stdpp Require Import base list gmap strings sets.
From Stdlib Require Import ZArith Lia.
From S2P Require Import Prelude ConnPool Equeue.

Module Router.
Import Equeue.

(** [&frame{action: FRAME_ACTION_CLOSE}]: the one sentinel value a
    [destroy] or [cleanOfTun] pushes to every queue it wakes.  No code
    writes to it after the push, so a value stands for the shared pointer. *)
Definition close_sentinel : frame := mkFrame CLOSE 0 0 [] None.

Definition set_registry (w : mux_state) (r : option (gmap string nat)) : mux_state :=
  {| isClient := isClient w; edges := edges w; registry := r; cleaner_running := cleaner_running w;
     tunnels := tunnels w; cpool := cpool w; tun_writes := tun_writes w |}.

Definition set_cleaner (w : mux_state) (b : bool) : mux_state :=
  {| isClient := isClient w; edges := edges w; registry := registry w; cleaner_running := b;
     tunnels := tunnels w; cpool := cpool w; tun_writes := tun_writes w |}.

Definition with_positive (e : edgeConn) (b : bool) : edgeConn :=
  {| tun := tun e; conn := conn e; ready := ready e; key := key e; dest := dest e;
     queue := queue e; positive := b; closed := closed e |}.

(** [e.closed >= TCP_CLOSED] *)
Definition fully_closed (e : edgeConn) : bool := bool_decide (TCP_CLOSED <= closed e).

(** [newEgressRouter(mux)]: an empty registry and a running cleaner. *)
Definition newEgressRouter (w : mux_state) : mux_state := set_cleaner (set_registry w (Some ∅)) true.

(** ** getRegistered: the read section and the purge section *)

(** Under the read lock: [r.registry[key]] (nil from a nil map) and
    whether that edge is fully closed. *)
Definition get_read (k : string) (w : mux_state) : option (nat * bool) :=
  reg ← registry w;
  ptr ← reg !! k;
  Some (ptr, match edges w !! ptr with Some e => fully_closed e | None => false end).

(** Under the write lock: [delete(r.registry, key)], a no-op on nil. *)
Definition get_purge (k : string) (w : mux_state) : mux_state :=
  match registry w with
  | Some reg => set_registry w (Some (delete k reg))
  | None => w
  end.

(** [getRegistered(key)] run without interference between its sections. *)
Definition getRegistered (k : string) (w : mux_state) : option nat * mux_state :=
  match get_read k w with
  | Some (ptr, true) => (None, get_purge k w)
  | Some (ptr, false) => (Some ptr, w)
  | None => (None, w)
  end.

(** ** clean, register, destroy, cleanOfTun *)

(** The sweeper's test: [e == nil || e.closed >= TCP_CLOSED ||
    e.conn.LocalAddr() == nil].  A [net.Conn]'s [LocalAddr()] is nil only
    for a connection without a descriptor; it stays non-nil after
    [Close], so the last disjunct never holds for an edge's connection. *)
Definition stale (w : mux_state) (ptr : nat) : bool :=
  match edges w !! ptr with
  | Some e => fully_closed e
  | None => true
  end.

Definition clean (w : mux_state) : mux_state :=
  match registry w with
  | Some reg => set_registry w (Some (filter (fun kp => stale w kp.2 = false) reg))
  | None => w
  end.

(** The address [new] gives the edge: one not in use. *)
Definition alloc (w : mux_state) : nat := fresh (dom (edges w)).

(** [register(key, destination, tun, conn, positive)]: the existing edge,
    or a new one (with its queue started on the server side) stored under
    [key]; storing into the nil registry of a destroyed router panics. *)
Definition register (k d : string) (t : option nat) (c : lconn) (pos : bool) (w : mux_state)
    : result string (nat * mux_state) :=
  match registry w with
  | Some reg =>
      match reg !! k with
      | Some ptr => Ok (ptr, w)
      | None =>
          let e := with_positive (newEdgeConn (isClient w) k d t c) pos in
          let e := if pos then e else initEqueue e in
          let ptr := alloc w in
          Ok (ptr, set_registry (set_edge w ptr e) (Some (<[k := ptr]> reg)))
      end
  | None => Err "assignment to entry in nil map"
  end.

(** [if e.queue != nil { e.queue._push(frm) }] for the edge at [ptr]. *)
Definition push_close (w : mux_state) (ptr : nat) : mux_state :=
  match edges w !! ptr with
  | Some e => match queue e with NoQueue => w | Queue _ => set_edge w ptr (_push close_sentinel e) end
  | None => w
  end.

Definition has_queue (w : mux_state) (ptr : nat) : bool :=
  match edges w !! ptr with Some e => match queue e with NoQueue => false | Queue _ => true end | None => false end.

(** [destroy()]: a sentinel to every registered edge with a queue, then
    [stopCleanTask] (a send on the stop channel, which panics once it is
    closed) and the registry set to nil. *)
Definition destroy (w : mux_state) : result string mux_state :=
  let ptrs := match registry w with Some reg => (map_to_list reg).*2 | None => [] end in
  let w := foldl push_close w ptrs in
  if cleaner_running w then Ok (set_registry (set_cleaner w false) None)
  else Err "send on closed channel".

(** The entries [cleanOfTun] acts on: key starting with the identifier,
    edge with a queue. *)
Definition tun_victim (prefix : string) (w : mux_state) (kp : string * nat) : bool :=
  String.prefix prefix kp.1 && has_queue w kp.2.

(** [cleanOfTun(tun)] with [tun.identifier = prefix]. *)
Definition cleanOfTun (prefix : string) (w : mux_state) : mux_state :=
  match registry w with
  | Some reg =>
      let w' := foldl push_close w (filter (fun kp => tun_victim prefix w kp = true) (map_to_list reg)).*2 in
      set_registry w' (Some (filter (fun kp => tun_victim prefix w kp = false) reg))
  | None => w
  end.

(** ** The router among the queues *)

Inductive rop :=
| RGet (k : string)
| RGetPurge (k : string)
| RClean
| RRegister (k d : string) (t : option nat) (c : lconn) (pos : bool)
| RDestroy
| RCleanOfTun (prefix : string).

(** One router operation; a panicking one has no successor state.  The
    sweep runs from [cleanTask], on a tick, only while the cleaner has
    not been stopped. *)
Definition router_fn (o : rop) (w : mux_state) : option mux_state :=
  match o with
  | RGet k => Some (getRegistered k w).2
  | RGetPurge k => Some (get_purge k w)
  | RClean => if cleaner_running w then Some (clean w) else None
  | RRegister k d t c pos => match register k d t c pos w with Ok (_, w') => Some w' | Err _ => None end
  | RDestroy => match destroy w with Ok w' => Some w' | Err _ => None end
  | RCleanOfTun pre => Some (cleanOfTun pre w)
  end.

Inductive mlabel := MQueue (l : label) | MRouter (o : rop).

Definition mlabel_ok (l : mlabel) : Prop := match l with MQueue l => label_ok l | MRouter _ => True end.

Inductive mstep `{!ConnPool.Sorter} : mux_state -> mlabel -> mux_state -> Prop :=
| ms_queue w l w' : step w l w' -> mstep w (MQueue l) w'
| ms_router w o w' : router_fn o w = Some w' -> mstep w (MRouter o) w'.

Inductive mrun `{!ConnPool.Sorter} : mux_state -> list mlabel -> mux_state -> Prop :=
| mrun_nil w : mrun w [] w
| mrun_cons w l w' ls w'' : mstep w l w' -> mrun w' ls w'' -> mrun w (l :: ls) w''.

(** [registry_ok] checked on a concrete state. *)
Definition registry_ok_check (w : mux_state) : bool :=
  match registry w with
  | Some reg => forallb (fun '(k, p) => match edges w !! p with Some e => bool_decide (key e = k) | None => false end)
                        (map_to_list reg)
  | None => true
  end.

Section MExec.
Context `{!ConnPool.Sorter}.

Definition mstep_fn (l : mlabel) (w : mux_state) : option mux_state :=
  match l with MQueue l => step_fn l w | MRouter o => router_fn o w end.

Fixpoint mrun_fn (ls : list mlabel) (w : mux_state) : option mux_state :=
  match ls with [] => Some w | l :: ls' => w' ← mstep_fn l w; mrun_fn ls' w' end.

End MExec.

(** A router with streams 1 and 2 of tunnel ["t1"] (the first with its
    queue, the second a client edge awaiting its [SYN_ACK]), a fully
    closed stream 3 of ["t1"], and stream 1 of tunnel ["t12"]. *)
Definition ex_reg : gmap string nat :=
  {[ "t1#1" := 1%nat; "t1#2" := 3%nat; "t1#3" := 4%nat; "t12#1" := 2%nat ]}.
Definition ex_router : mux_state :=
  mkMux false
    {[ 1%nat := initEqueue (newEdgeConn false "t1#1" "a:80" (Some 0%nat) ex_conn);
       2%nat := initEqueue (newEdgeConn false "t12#1" "b:80" (Some 1%nat) ex_conn);
       3%nat := newEdgeConn true "t1#2" "c:80" (Some 0%nat) ex_conn;
       4%nat := with_closed (newEdgeConn false "t1#3" "d:80" (Some 0%nat) ex_conn) TCP_CLOSED ]}
    (Some ex_reg) true (fun _ => mkTunnel "t" true) ConnPool.flat_pool [].
Definition ex_result {A} (d : A) (r : result string A) : A := match r with Ok a => a | Err _ => d end.

Definition ex_destroyed : mux_state := Eval vm_compute in ex_result ex_router (destroy ex_router).
Definition ex_mlabels : list mlabel :=
  [MQueue (LDeliver 1 (ex_frame [104; 105])); MRouter RClean; MRouter (RGet "t1#3");
   MRouter (RCleanOfTun "t12"); MQueue (LSend 1 (full_write (ex_frame [104; 105])))].
Definition ex_after_mlabels : mux_state :=
  Eval vm_compute in default ex_router (@mrun_fn ConnPool.insertion_sorter ex_mlabels ex_router).

(** ** The registry's invariant *)

(** Every entry of the registry points to a live edge stored under its own
    key. *)
Definition registry_ok (w : mux_state) : Prop :=
  forall reg, registry w = Some reg ->
  forall k ptr, reg !! k = Some ptr -> exists e, edges w !! ptr = Some e /\ key e = k.

(** What a sentinel push does to one edge. *)
Definition wake (e : edgeConn) : edgeConn :=
  match queue e with NoQueue => e | Queue _ => _push close_sentinel e end.

Lemma set_edges_id w : set_edges w (edges w) = w.
Proof. by destruct w. Qed.

Lemma set_edges_twice w m1 m2 : set_edges (set_edges w m1) m2 = set_edges w m2.
Proof. reflexivity. Qed.

Lemma push_close_alter w p : push_close w p = set_edges w (alter wake p (edges w)).
Proof.
  unfold push_close. destruct (edges w !! p) as [e|] eqn:He.
  - destruct (queue e) eqn:Hq.
    + rewrite alter_id; [by rewrite set_edges_id|]. intros x Hx. rewrite He in Hx. injection Hx as <-.
      unfold wake. by rewrite Hq.
    + unfold set_edge. f_equal. apply map_eq. intros i. rewrite lookup_alter, lookup_insert.
      case_decide; subst; [|done]. rewrite He. cbn. unfold wake. by rewrite Hq.
  - rewrite alter_id; [by rewrite set_edges_id|]. intros x Hx. congruence.
Qed.

Lemma foldl_push_close w ps :
  foldl push_close w ps = set_edges w (foldl (fun m p => alter wake p m) (edges w) ps).
Proof.
  revert w. induction ps as [|p ps IH]; intros w; cbn; [by rewrite set_edges_id|].
  by rewrite IH, push_close_alter.
Qed.

Lemma alter_wake_comm (m : gmap nat edgeConn) p q :
  alter wake q (alter wake p m) = alter wake p (alter wake q m).
Proof.
  apply map_eq. intros i. rewrite !lookup_alter.
  destruct (decide (q = i)), (decide (p = i)); subst; rewrite ?lookup_alter; repeat case_decide; done.
Qed.

Lemma foldl_alter_perm (m : gmap nat edgeConn) ps qs :
  ps ≡ₚ qs -> foldl (fun m p => alter wake p m) m ps = foldl (fun m p => alter wake p m) m qs.
Proof.
  intros Hp. revert m. induction Hp as [|p ps qs Hp IH|p q ps|ps qs rs _ IH1 _ IH2]; intros m; cbn.
  - done.
  - apply IH.
  - by rewrite alter_wake_comm.
  - by rewrite IH1, IH2.
Qed.

Lemma lookup_foldl_alter (m : gmap nat edgeConn) ps q :
  NoDup ps ->
  foldl (fun m p => alter wake p m) m ps !! q = if decide (q ∈ ps) then wake <$> m !! q else m !! q.
Proof.
  revert m. induction ps as [|p ps IH]; intros m Hnd; cbn; [done|].
  apply NoDup_cons in Hnd as [Hp Hnd]. rewrite IH by done.
  destruct (decide (q ∈ ps)) as [Hin|Hin].
  - rewrite lookup_alter_ne by (intros ->; contradiction). rewrite decide_True by set_solver. done.
  - destruct (decide (p = q)) as [->|Hne].
    + by rewrite lookup_alter_eq, decide_True by set_solver.
    + rewrite lookup_alter_ne, decide_False by set_solver. done.
Qed.

(** Under the invariant the registry is injective: the pointers of any
    duplicate-free list of its entries are pairwise distinct. *)
Lemma entries_ptrs_NoDup w reg (l : list (string * nat)) :
  registry_ok w -> registry w = Some reg -> NoDup l -> (forall kp, kp ∈ l -> kp ∈ map_to_list reg) ->
  NoDup l.*2.
Proof.
  intros Hok Hr Hnd Hsub. apply NoDup_fmap_2_strong; [|done].
  intros [k1 p1] [k2 p2] H1 H2 Heq. cbn in Heq. subst p2.
  apply Hsub, elem_of_map_to_list in H1, H2.
  destruct (Hok reg Hr k1 p1 H1) as (e1 & He1 & Hk1), (Hok reg Hr k2 p1 H2) as (e2 & He2 & Hk2).
  congruence.
Qed.

Lemma registry_ptrs_NoDup w reg :
  registry_ok w -> registry w = Some reg -> NoDup (map_to_list reg).*2.
Proof. intros Hok Hr. eapply entries_ptrs_NoDup; [done|done|apply NoDup_map_to_list|done]. Qed.

Lemma filtered_ptrs_NoDup w reg (P : string * nat -> Prop) `{!forall kp, Decision (P kp)} :
  registry_ok w -> registry w = Some reg -> NoDup (filter P (map_to_list reg)).*2.
Proof.
  intros Hok Hr. eapply entries_ptrs_NoDup; [done|done|apply NoDup_filter, NoDup_map_to_list|].
  intros kp Hin. by apply list_elem_of_filter in Hin as [_ Hin].
Qed.

Lemma filtered_ptrs_elem (reg : gmap string nat) (P : string * nat -> Prop) `{!forall kp, Decision (P kp)} q :
  q ∈ (filter P (map_to_list reg)).*2 <-> exists k, reg !! k = Some q /\ P (k, q).
Proof.
  rewrite list_elem_of_fmap. split.
  - intros ([k p] & -> & Hin). apply list_elem_of_filter in Hin as [HP Hin].
    apply elem_of_map_to_list in Hin. by exists k.
  - intros (k & Hk & HP). exists (k, q). split; [done|]. apply list_elem_of_filter. split; [done|].
    by apply elem_of_map_to_list.
Qed.

Lemma registry_ptrs_elem (reg : gmap string nat) q : q ∈ (map_to_list reg).*2 <-> exists k, reg !! k = Some q.
Proof.
  rewrite list_elem_of_fmap. split.
  - intros ([k p] & -> & Hin). apply elem_of_map_to_list in Hin. by exists k.
  - intros [k Hk]. exists (k, q). split; [done|]. by apply elem_of_map_to_list.
Qed.

Lemma registry_foldl_push_close w ps : registry (foldl push_close w ps) = registry w.
Proof. by rewrite foldl_push_close. Qed.

Lemma cleaner_foldl_push_close w ps : cleaner_running (foldl push_close w ps) = cleaner_running w.
Proof. by rewrite foldl_push_close. Qed.

(** ** destroy *)

(** C16: [destroy] wakes every registered edge exactly once: each edge the
    registry points to gets one [CLOSE] sentinel appended to its running
    queue, every other edge is untouched, the cleaner is stopped and the
    registry becomes nil. *)
Theorem destroy_wakes w reg :
  registry_ok w -> registry w = Some reg -> cleaner_running w = true ->
  exists w', destroy w = Ok w' /\ registry w' = None /\ cleaner_running w' = false /\
    (forall k q, reg !! k = Some q -> edges w' !! q = wake <$> edges w !! q) /\
    (forall q, (forall k, reg !! k <> Some q) -> edges w' !! q = edges w !! q).
Proof.
  intros Hok Hr Hc. unfold destroy. rewrite Hr, cleaner_foldl_push_close, Hc, foldl_push_close.
  eexists. split; [reflexivity|]. cbn. do 2 (split; [done|]).
  pose proof (registry_ptrs_NoDup w reg Hok Hr) as Hnd. split.
  - intros k q Hk. rewrite lookup_foldl_alter by done. rewrite decide_True; [done|].
    apply registry_ptrs_elem. eauto.
  - intros q Hq. rewrite lookup_foldl_alter by done. rewrite decide_False; [done|].
    rewrite registry_ptrs_elem. intros [k Hk]. by apply (Hq k).
Qed.

(** The order in which the sentinels are pushed (Go's map iteration
    order is unspecified) does not matter: any enumeration of the same
    edges gives the same state. *)
Theorem push_close_any_order w ps qs :
  ps ≡ₚ qs -> foldl push_close w ps = foldl push_close w qs.
Proof. intros Hp. by rewrite !foldl_push_close, (foldl_alter_perm _ _ _ Hp). Qed.

(** a destroyed router panics when it is used again: a second
    [destroy] sends on the closed stop channel, and [register] stores into
    the nil registry. *)
Theorem destroyed_router_panics w w' :
  destroy w = Ok w' ->
  destroy w' = Err "send on closed channel" /\
  forall k d t c pos, register k d t c pos w' = Err "assignment to entry in nil map".
Proof.
  unfold destroy. destruct (cleaner_running _); [|discriminate]. intros [= <-]. done.
Qed.

(** ** register *)

Lemma alloc_fresh w : edges w !! alloc w = None.
Proof. unfold alloc. apply not_elem_of_dom, is_fresh. Qed.

(** The branch of [register] that creates the edge. *)
Lemma register_fresh k d t c pos w reg :
  registry w = Some reg -> reg !! k = None ->
  register k d t c pos w =
    Ok (alloc w, set_registry (set_edge w (alloc w)
                   (if pos then with_positive (newEdgeConn (isClient w) k d t c) pos
                    else initEqueue (with_positive (newEdgeConn (isClient w) k d t c) pos)))
                 (Some (<[k := alloc w]> reg))).
Proof. intros Hr Hk. unfold register. by rewrite Hr, Hk. Qed.

(** registering a new key stores a new edge at an unused address
    under that key: [getRegistered] then finds it, its queue is started
    exactly on the server side, and no other edge changes. *)
Theorem register_new k d t c pos w reg :
  registry w = Some reg -> reg !! k = None ->
  exists p w' e, register k d t c pos w = Ok (p, w') /\ edges w !! p = None /\
    edges w' = <[p := e]> (edges w) /\ registry w' = Some (<[k := p]> reg) /\
    getRegistered k w' = (Some p, w') /\
    key e = k /\ dest e = d /\ tun e = t /\ conn e = c /\ positive e = pos /\ closed e = 0 /\
    queue e = (if pos then NoQueue else Queue (Some [])).
Proof.
  intros Hr Hk. rewrite (register_fresh k d t c pos w reg Hr Hk).
  eexists _, _, _. split; [reflexivity|]. split; [apply alloc_fresh|]. split; [reflexivity|].
  split; [reflexivity|]. unfold getRegistered, get_read. cbn. rewrite lookup_insert_eq. cbn.
  rewrite lookup_insert_eq. by destruct pos.
Qed.

(** [register] is idempotent: registering a key again returns the same
    edge and leaves the state as it is, whatever the other arguments. *)
Theorem register_idempotent k d t c pos w p w' d' t' c' pos' :
  register k d t c pos w = Ok (p, w') -> register k d' t' c' pos' w' = Ok (p, w').
Proof.
  unfold register. destruct (registry w) as [reg|] eqn:Hr; [|discriminate].
  destruct (reg !! k) as [q|] eqn:Hk.
  - intros [= <- <-]. by rewrite Hr, Hk.
  - intros [= <- <-]. cbn. by rewrite lookup_insert_eq.
Qed.

(** ** getRegistered and clean *)

(** [getRegistered] on every branch: a registered edge that is not
    fully closed is returned; a fully closed one is purged from the
    registry and nil is returned; an unknown key gives nil. *)
Theorem getRegistered_spec k w reg :
  registry w = Some reg ->
  (forall p e, reg !! k = Some p -> edges w !! p = Some e -> fully_closed e = false ->
     getRegistered k w = (Some p, w)) /\
  (forall p e, reg !! k = Some p -> edges w !! p = Some e -> fully_closed e = true ->
     getRegistered k w = (None, set_registry w (Some (delete k reg)))) /\
  (reg !! k = None -> getRegistered k w = (None, w)).
Proof.
  intros Hr. unfold getRegistered, get_read, get_purge. rewrite Hr. cbn.
  split; [|split]; [intros p e Hk He Hc ..|intros Hk]; rewrite Hk; cbn; [rewrite He, Hc..|]; done.
Qed.

(** The sweeper keeps exactly the entries whose edge exists, is not
    fully closed and still has its descriptor, and changes nothing else:
    the registry never grows. *)
Theorem clean_spec w reg :
  registry w = Some reg ->
  exists reg', clean w = set_registry w (Some reg') /\ reg' ⊆ reg /\
    forall k p, reg' !! k = Some p <-> reg !! k = Some p /\ stale w p = false.
Proof.
  intros Hr. unfold clean. rewrite Hr. eexists. split; [reflexivity|]. split.
  - apply map_filter_subseteq.
  - intros k p. apply map_lookup_filter_Some.
Qed.

(** ** cleanOfTun *)

Lemma cleanOfTun_registry pre w reg :
  registry w = Some reg -> registry (cleanOfTun pre w) = Some (filter (fun kp => tun_victim pre w kp = false) reg).
Proof. intros Hr. unfold cleanOfTun. by rewrite Hr. Qed.

Lemma cleanOfTun_edges pre w reg q :
  registry_ok w -> registry w = Some reg ->
  edges (cleanOfTun pre w) !! q =
    if decide (q ∈ (filter (fun kp => tun_victim pre w kp = true) (map_to_list reg)).*2)
    then wake <$> edges w !! q else edges w !! q.
Proof.
  intros Hok Hr. unfold cleanOfTun. rewrite Hr. cbn. rewrite foldl_push_close. cbn.
  apply lookup_foldl_alter, (filtered_ptrs_NoDup w reg (fun kp => tun_victim pre w kp = true) Hok Hr).
Qed.

(** A victim entry of [cleanOfTun] is dropped and its edge woken. *)
Lemma cleanOfTun_victim pre w reg k p :
  registry_ok w -> registry w = Some reg -> reg !! k = Some p -> tun_victim pre w (k, p) = true ->
  (registry (cleanOfTun pre w) ≫= lookup k) = None /\ edges (cleanOfTun pre w) !! p = wake <$> edges w !! p.
Proof.
  intros Hok Hr Hk Hv. rewrite (cleanOfTun_registry pre w reg Hr), (cleanOfTun_edges pre w reg p Hok Hr). cbn.
  split.
  - apply map_lookup_filter_None. right. intros x Hx. rewrite Hk in Hx. injection Hx as <-. cbn. by rewrite Hv.
  - rewrite decide_True; [done|]. apply filtered_ptrs_elem. by exists k.
Qed.

(** C15: [cleanOfTun] on every registered entry: an entry whose key starts
    with the identifier and whose edge has a queue is dropped and its edge
    gets one [CLOSE] sentinel; every other entry stays registered with its
    edge untouched, and so do the edges outside the registry. *)
Theorem cleanOfTun_spec pre w reg :
  registry_ok w -> registry w = Some reg ->
  exists reg', registry (cleanOfTun pre w) = Some reg' /\
    (forall k p, reg !! k = Some p ->
       if String.prefix pre k && has_queue w p
       then reg' !! k = None /\ edges (cleanOfTun pre w) !! p = wake <$> edges w !! p
       else reg' !! k = Some p /\ edges (cleanOfTun pre w) !! p = edges w !! p) /\
    (forall k, reg !! k = None -> reg' !! k = None) /\
    (forall q, (forall k, reg !! k <> Some q) -> edges (cleanOfTun pre w) !! q = edges w !! q).
Proof.
  intros Hok Hr. eexists. split; [exact (cleanOfTun_registry pre w reg Hr)|]. split; [|split].
  - intros k p Hk. destruct (String.prefix pre k && has_queue w p) eqn:Hv.
    + destruct (cleanOfTun_victim pre w reg k p Hok Hr Hk Hv) as [Hn Hp].
      by rewrite (cleanOfTun_registry pre w reg Hr) in Hn.
    + split; [apply map_lookup_filter_Some; by split|].
      rewrite (cleanOfTun_edges pre w reg p Hok Hr), decide_False; [done|].
      rewrite filtered_ptrs_elem. intros (k' & Hk' & Hv').
      destruct (Hok reg Hr k p Hk) as (e & He & Hke), (Hok reg Hr k' p Hk') as (e' & He' & Hke').
      assert (k' = k) as -> by congruence. unfold tun_victim in Hv'. cbn in Hv'. congruence.
  - intros k Hk. apply map_lookup_filter_None. by left.
  - intros q Hq. rewrite (cleanOfTun_edges pre w reg q Hok Hr), decide_False; [done|].
    rewrite filtered_ptrs_elem. intros (k & Hk & _). by apply (Hq k).
Qed.

Lemma TCP_CLOSED_value : TCP_CLOSED = 3.
Proof. reflexivity. Qed.

Lemma prefix_append a b c : String.prefix a b = true -> String.prefix a (String.append b c) = true.
Proof.
  revert b. induction a as [|x a IH]; intros [|y b] H; cbn in H |- *; [by destruct c|done|discriminate|].
  destruct (Ascii.ascii_dec x y) as [<-|]; [|discriminate]. change (String x b +:+ c) with (String x (b +:+ c)). simpl. destruct (Ascii.ascii_dec x x); [by apply IH|done].
Qed.

Lemma has_queue_some w p e : edges w !! p = Some e -> queue e <> NoQueue -> has_queue w p = true.
Proof. intros He Hq. unfold has_queue. rewrite He. by destruct (queue e). Qed.

(** [cleanOfTun] tests the identifier as a bare prefix of the key, so
    the streams of a tunnel whose identifier extends the dying tunnel's
    ([id1] a prefix of [id2], keys [id2 + "#" + hex]) are closed and
    dropped with it. *)
Theorem cleanOfTun_prefix_collision id1 id2 h w reg p e :
  registry_ok w -> registry w = Some reg -> String.prefix id1 id2 = true ->
  reg !! String.append id2 (String.append "#" h) = Some p -> edges w !! p = Some e -> queue e <> NoQueue ->
  (registry (cleanOfTun id1 w) ≫= lookup (String.append id2 (String.append "#" h))) = None /\
  edges (cleanOfTun id1 w) !! p = Some (wake e).
Proof.
  intros Hok Hr Hpre Hk He Hq.
  destruct (cleanOfTun_victim id1 w reg _ p Hok Hr Hk) as [Hn Hp];
    [unfold tun_victim; cbn; by rewrite prefix_append, (has_queue_some w p e He Hq)|].
  rewrite Hp, He. by split.
Qed.

(** ** The read-then-purge window of getRegistered *)

(** C13: [getRegistered] releases its read lock before it purges: when a
    sweep and a new [register] of the same key run in that window, the
    purge removes the new, live edge from the registry, which can then no
    longer be found by its key although its connection is open. *)
Theorem getRegistered_race k d t c pos w reg p e :
  registry w = Some reg -> reg !! k = Some p -> edges w !! p = Some e -> fully_closed e = true ->
  fd_open c = true ->
  get_read k w = Some (p, true) /\
  exists p' w2 e', register k d t c pos (clean w) = Ok (p', w2) /\
    (registry (get_purge k w2) ≫= lookup k) = None /\
    edges (get_purge k w2) !! p' = Some e' /\ key e' = k /\ fully_closed e' = false /\ fd_open (conn e') = true.
Proof.
  intros Hr Hk He Hc Hfd. split; [unfold get_read; rewrite Hr; cbn; rewrite Hk; cbn; rewrite He; by rewrite Hc|].
  destruct (clean_spec w reg Hr) as (reg1 & Hcl & _ & Hreg1).
  assert (Hk1 : reg1 !! k = None).
  { destruct (reg1 !! k) as [q|] eqn:Hq; [|done]. apply Hreg1 in Hq as [Hq Hst].
    rewrite Hk in Hq. injection Hq as <-. unfold stale in Hst. by rewrite He, Hc in Hst. }
  rewrite Hcl, (register_fresh k d t c pos (set_registry w (Some reg1)) reg1 eq_refl Hk1).
  destruct pos; eexists _, _, _; (split; [reflexivity|]); unfold get_purge; cbn;
    rewrite lookup_delete_eq, lookup_insert_eq; (split; [done|]); (split; [reflexivity|]);
    cbn; (split; [done|]); (split; [|done]); apply bool_decide_eq_false; rewrite TCP_CLOSED_value; cbn; lia.
Qed.

(** ** Composition with the queues *)

(** [w'] keeps the edges of [w], under the same keys. *)
Definition edges_kept (w w' : mux_state) : Prop :=
  forall p e, edges w !! p = Some e -> exists e', edges w' !! p = Some e' /\ key e' = key e.

Lemma edges_kept_refl w : edges_kept w w.
Proof. intros p e He. by exists e. Qed.

Lemma edges_kept_set_edge w x p e' :
  edges_kept w x -> (forall e, edges x !! p = Some e -> key e' = key e) -> edges_kept w (set_edge x p e').
Proof.
  intros Hk Hkey q e He. destruct (Hk q e He) as (e1 & He1 & Hke1).
  rewrite lookup_set_edge. case_decide; subst; [|by exists e1].
  exists e'. split; [done|]. rewrite (Hkey e1 He1). done.
Qed.

Lemma edges_kept_alter_wake w ps :
  edges_kept w (set_edges w (foldl (fun m p => alter wake p m) (edges w) ps)).
Proof.
  intros p e He. cbn.
  assert (Hgen : forall m : gmap nat edgeConn, (exists e', m !! p = Some e' /\ key e' = key e) ->
            exists e', foldl (fun (m : gmap nat edgeConn) p => alter wake p m) m ps !! p = Some e' /\ key e' = key e).
  { induction ps as [|q ps IH]; intros m Hm; cbn; [done|]. apply IH.
    destruct Hm as (e' & He' & Hk). rewrite lookup_alter.
    case_decide; subst; [|by exists e']. rewrite He'. exists (wake e'). split; [done|].
    rewrite <- Hk. unfold wake, _push. by repeat case_match. }
  apply Hgen. by exists e.
Qed.

Lemma registry_ok_mono w w' :
  registry_ok w -> edges_kept w w' ->
  (forall reg', registry w' = Some reg' -> exists reg, registry w = Some reg /\ reg' ⊆ reg) ->
  registry_ok w'.
Proof.
  intros Hok Hk Hsub reg' Hr' k p Hp. destruct (Hsub reg' Hr') as (reg & Hr & Hs).
  destruct (Hok reg Hr k p (lookup_weaken _ _ _ _ Hp Hs)) as (e & He & Hke).
  destruct (Hk p e He) as (e' & He' & Hke'). exists e'. split; [done|]. congruence.
Qed.

Lemma key_close force e : key (_close force e) = key e.
Proof. by destruct force. Qed.

Lemma sendLoop_step_kept `{!ConnPool.Sorter} o p w w' :
  sendLoop_step o p w = Some w' -> registry w' = registry w /\ edges_kept w w'.
Proof.
  intros Hs. unfold sendLoop_step in Hs. destruct (edges w !! p) as [e|] eqn:He; [|discriminate].
  cbn [mbind option_bind] in Hs. destruct (queue e) as [|[[|frm rest]|]]; try discriminate.
  remember (set_edge w p (with_queue e (Queue (Some rest)))) as w1 eqn:Hw1.
  assert (H1 : registry w1 = registry w /\ edges_kept w w1).
  { subst w1. split; [done|]. apply edges_kept_set_edge; [apply edges_kept_refl|].
    intros e0 He0. rewrite He in He0. by injection He0 as <-. }
  assert (Hp1 : edges w1 !! p = Some (with_queue e (Queue (Some rest))))
    by (subst w1; by rewrite lookup_set_edge, decide_True).
  clear Hw1. destruct H1 as [Hr1 H1].
  destruct (f_action frm).
  5,6: injection Hs as <-; split; [done|]; apply edges_kept_set_edge; [exact H1|];
       intros e0 He0; rewrite Hp1 in He0; injection He0 as <-; reflexivity.
  all: destruct (f_conn frm) as [q|]; cbn [mbind option_bind] in Hs; [|discriminate].
  all: destruct (edges w1 !! q) as [dst|] eqn:Hd; cbn [mbind option_bind] in Hs; [|discriminate].
  all: destruct (sendFrame o frm (conn dst)) as [c' werr].
  all: assert (H2 : edges_kept w (set_edge w1 q (with_conn dst c')))
         by (apply edges_kept_set_edge; [exact H1|intros e0 He0; rewrite Hd in He0; by injection He0 as <-]).
  all: destruct werr; [|injection Hs as <-; by split].
  all: unfold write_failed in Hs; destruct (edges (set_edge w1 q (with_conn dst c')) !! p) as [e2|] eqn:He2;
         cbn [mbind option_bind] in Hs; [|discriminate].
  all: destruct (_ =? 0); [destruct (notify_tunnel _ _) as [t pl]|].
  all: injection Hs as <-; split; [done|]; apply edges_kept_set_edge; [exact H2|];
       intros e0 He0; rewrite ?edges_set_pool_writes, He2 in He0; injection He0 as <-; reflexivity.
Qed.

Lemma step_kept `{!ConnPool.Sorter} w l w' :
  step w l w' -> registry w' = registry w /\ edges_kept w w'.
Proof.
  destruct 1 as [w p f|w p o w' e frm rest He Hq Ho Hs|w p e He Hq].
  - unfold deliver. destruct (edges w !! p) as [e|] eqn:He; [|split; [done|apply edges_kept_refl]].
    destruct (queue e) eqn:Hq; (split; [done|]); [apply edges_kept_refl|].
    apply edges_kept_set_edge; [apply edges_kept_refl|]. intros e0 He0. rewrite He in He0.
    injection He0 as <-. unfold _push. by repeat case_match.
  - by eapply sendLoop_step_kept.
  - split; [done|]. apply edges_kept_set_edge; [apply edges_kept_refl|]. intros e0 He0. rewrite He in He0. by injection He0 as <-.
Qed.

Lemma edges_kept_same w w' : edges w' = edges w -> edges_kept w w'.
Proof. intros Heq p e He. exists e. by rewrite Heq. Qed.

Lemma queues_own_same w w' : edges w' = edges w -> queues_own w -> queues_own w'.
Proof. intros Heq Hown q e buf f. rewrite Heq. apply Hown. Qed.

Lemma queues_own_alter w m p :
  queues_own (set_edges w m) -> queues_own (set_edges w (alter wake p m)).
Proof.
  intros Hown q e buf f Hq Hqe Hf. cbn in Hq. rewrite lookup_alter in Hq.
  case_decide as Hpq; [subst q|by eapply Hown].
  destruct (m !! p) as [e0|] eqn:Hm; cbn in Hq; [|discriminate]. injection Hq as <-.
  unfold wake, _push in Hqe. destruct (queue e0) as [|[b|]] eqn:Hq0; cbn in Hqe.
  - congruence.
  - injection Hqe as <-. apply elem_of_app in Hf as [Hf|Hf]; [by eapply Hown|].
    apply list_elem_of_singleton in Hf as ->. by left.
  - congruence.
Qed.

Lemma queues_own_foldl_wake w ps :
  queues_own w -> queues_own (set_edges w (foldl (fun m p => alter wake p m) (edges w) ps)).
Proof.
  intros Hown. rewrite <- (set_edges_id w) in Hown. revert Hown. generalize (edges w) as m.
  induction ps as [|p ps IH]; intros m Hown; cbn; [done|]. by apply IH, queues_own_alter.
Qed.

(** Every operation but [register] only removes registry entries. *)
Lemma router_fn_registry_sub o w w' reg' :
  (forall k d t c pos, o <> RRegister k d t c pos) -> router_fn o w = Some w' -> registry w' = Some reg' ->
  exists reg, registry w = Some reg /\ reg' ⊆ reg.
Proof.
  intros Hnr. destruct o as [k|k| |k d t c pos| |pre]; cbn; try (by destruct (Hnr k d t c pos)).
  - unfold getRegistered, get_purge. destruct (registry w) as [reg|] eqn:Hr.
    + destruct (get_read k w) as [[p [|]]|]; cbn; intros [= <-]; rewrite ?Hr; cbn; intros [= <-];
        eexists; (split; [done|]); [apply delete_subseteq|done..].
    + unfold get_read. rewrite Hr. cbn. intros [= <-]. congruence.
  - unfold get_purge. destruct (registry w) as [reg|] eqn:Hr; intros [= <-]; cbn; [|congruence].
    intros [= <-]. eexists. split; [done|]. apply delete_subseteq.
  - destruct (cleaner_running w); [|discriminate].
    unfold clean. destruct (registry w) as [reg|] eqn:Hr; intros [= <-]; cbn; [|congruence].
    intros [= <-]. eexists. split; [done|]. apply map_filter_subseteq.
  - unfold destroy. destruct (cleaner_running _); [|discriminate]. intros [= <-]. discriminate.
  - unfold cleanOfTun. destruct (registry w) as [reg|] eqn:Hr; intros [= <-]; cbn; [|congruence].
    intros [= <-]. eexists. split; [done|]. apply map_filter_subseteq.
Qed.

Lemma register_registry_ok k d t c pos w p w' :
  registry_ok w -> register k d t c pos w = Ok (p, w') -> registry_ok w'.
Proof.
  intros Hok. unfold register. destruct (registry w) as [reg|] eqn:Hr; [|discriminate].
  destruct (reg !! k) as [q|] eqn:Hk; [by intros [= <- <-]|]. intros [= <- <-].
  intros reg' Hr' k' p' Hp'. cbn in Hr'. injection Hr' as <-. cbn.
  rewrite lookup_insert in Hp'. case_decide as Hkk; [subst k'; injection Hp' as <-|].
  - rewrite lookup_insert_eq. eexists. split; [done|]. by destruct pos.
  - destruct (Hok reg Hr k' p' Hp') as (e & He & Hke). exists e. split; [|done].
    rewrite lookup_insert_ne; [done|]. intros <-. by rewrite alloc_fresh in He.
Qed.

Lemma router_fn_invariants o w w' :
  router_fn o w = Some w' -> registry_ok w -> queues_own w -> registry_ok w' /\ queues_own w'.
Proof.
  intros Ho Hok Hown. destruct o as [k|k| |k d t c pos| |pre].
  4: { cbn in Ho. destruct (register k d t c pos w) as [[p w1]|] eqn:Hreg; [|discriminate]. injection Ho as <-.
       split; [by eapply register_registry_ok|].
       revert Hreg. unfold register. destruct (registry w) as [reg|]; [|discriminate].
       destruct (reg !! k); [by intros [= _ <-]|]. intros [= _ <-].
       intros q e buf f Hq Hqe Hf. cbn in Hq. rewrite lookup_insert in Hq.
       case_decide; [|by eapply Hown]. injection Hq as <-. destruct pos; cbn in Hqe; [discriminate|].
       injection Hqe as <-. by apply not_elem_of_nil in Hf. }
  all: assert (Hsub : forall reg', registry w' = Some reg' -> exists reg, registry w = Some reg /\ reg' ⊆ reg)
         by (intros reg' Hr'; eapply router_fn_registry_sub; [|exact Ho|exact Hr']; intros; discriminate).
  5: { cbn in Ho. unfold cleanOfTun in Ho. destruct (registry w) as [reg|] eqn:Hr; [|injection Ho as <-; done].
       injection Ho as <-. rewrite foldl_push_close in Hsub |- *. split.
       - apply (registry_ok_mono w); [done| |rewrite Hr; exact Hsub]. apply edges_kept_alter_wake.
       - by apply queues_own_foldl_wake. }
  4: { cbn in Ho. unfold destroy in Ho. destruct (cleaner_running _); [|discriminate]. injection Ho as <-.
       split; [intros reg Hr; discriminate|]. rewrite foldl_push_close. by apply queues_own_foldl_wake. }
  all: assert (Hedges : edges w' = edges w)
         by (cbn in Ho; unfold getRegistered, get_purge, clean in Ho;
             repeat case_match; try discriminate; injection Ho as <-; done).
  all: split; [apply (registry_ok_mono w); [done|by apply edges_kept_same|exact Hsub]|by eapply queues_own_same].
Qed.

Lemma registry_ok_check_sound w : registry_ok_check w = true -> registry_ok w.
Proof.
  unfold registry_ok_check. intros H reg Hr k p Hp. rewrite Hr in H.
  apply (proj1 (forallb_forall _ _)) with (x := (k, p)) in H; [|apply list_elem_of_In, elem_of_map_to_list, Hp].
  destruct (edges w !! p) as [e|]; [|discriminate]. exists e. split; [done|]. by apply bool_decide_eq_true in H.
Qed.

Lemma mstep_fn_sound `{!ConnPool.Sorter} l w w' : mstep_fn l w = Some w' -> mstep w l w'.
Proof. destruct l; cbn; intros Hs; constructor; [by apply step_fn_sound|done]. Qed.

Lemma mrun_fn_sound `{!ConnPool.Sorter} ls w w' : mrun_fn ls w = Some w' -> mrun w ls w'.
Proof.
  revert w. induction ls as [|l ls IH]; intros w; cbn; [intros [= <-]; constructor|].
  destruct (mstep_fn l w) as [w1|] eqn:Hs; cbn; [|discriminate].
  intros Hr. econstructor; [by apply mstep_fn_sound|by apply IH].
Qed.

(** C2: the router and the queues together keep both invariants: along
    any interleaving of router operations, deliveries, send-loop
    iterations and queue starts, every registry entry points to a live
    edge stored under its key, and every queued frame is a close sentinel
    or a well-formed frame of its own edge. *)
Theorem mrun_invariants `{!ConnPool.Sorter} w ls w' :
  mrun w ls w' -> registry_ok w -> queues_own w -> Forall mlabel_ok ls -> registry_ok w' /\ queues_own w'.
Proof.
  induction 1 as [w|w l w1 ls w2 Hst Hrun IH]; intros Hok Hown Hls; [done|].
  inversion Hls as [|? ? Hl Hls']; subst.
  destruct Hst as [w l' w1 Hst|w o w1 Ho].
  - destruct (step_kept w l' w1 Hst) as [Hr Hk]. apply IH; [|by eapply step_queues_own|done].
    apply (registry_ok_mono w); [done|done|]. intros reg' Hr'. exists reg'. by rewrite <- Hr.
  - destruct (router_fn_invariants o w w1 Ho Hok Hown). by apply IH.
Qed.

Lemma registry_stays_nil `{!ConnPool.Sorter} w ls w' :
  mrun w ls w' -> Forall (fun l => forall k d t c pos, l <> MRouter (RRegister k d t c pos)) ls ->
  registry w = None -> registry w' = None.
Proof.
  induction 1 as [w|w l w1 ls w2 Hst Hrun IH]; intros Hls Hr; [done|].
  inversion Hls as [|? ? Hl Hls']; subst. apply IH; [done|].
  destruct Hst as [w l' w1 Hst|w o w1 Ho]; [by rewrite (proj1 (step_kept w l' w1 Hst))|].
  destruct o as [k|k| |k d t c pos| |pre]; cbn in Ho.
  - unfold getRegistered, get_read in Ho. rewrite Hr in Ho. by injection Ho as <-.
  - unfold get_purge in Ho. rewrite Hr in Ho. by injection Ho as <-.
  - destruct (cleaner_running w); [|discriminate]. unfold clean in Ho. rewrite Hr in Ho. by injection Ho as <-.
  - by destruct (Hl k d t c pos).
  - unfold destroy in Ho. rewrite Hr in Ho. cbn in Ho. destruct (cleaner_running w); [|discriminate].
    by injection Ho as <-.
  - unfold cleanOfTun in Ho. rewrite Hr in Ho. by injection Ho as <-.
Qed.

(** without registrations the registry only shrinks: along any
    interleaving of the other router operations and the queues' steps,
    the final registry is contained in the initial one. *)
Theorem registry_never_grows `{!ConnPool.Sorter} w ls w' reg reg' :
  mrun w ls w' -> Forall (fun l => forall k d t c pos, l <> MRouter (RRegister k d t c pos)) ls ->
  registry w = Some reg -> registry w' = Some reg' -> reg' ⊆ reg.
Proof.
  intros Hrun. revert reg. induction Hrun as [w|w l w1 ls w2 Hst Hrun IH]; intros reg Hls Hr Hr'.
  - rewrite Hr in Hr'. by injection Hr' as ->.
  - inversion Hls as [|? ? Hl Hls']; subst.
    destruct Hst as [w l w1 Hst|w o w1 Ho].
    + destruct (step_kept w l w1 Hst) as [Hreg _]. apply (IH reg); [done|by rewrite Hreg|done].
    + destruct (registry w1) as [reg1|] eqn:Hr1.
      * destruct (router_fn_registry_sub o w w1 reg1) as (reg0 & Hr0 & Hs);
          [intros k d t c pos ->; by eapply Hl|done|done|].
        rewrite Hr in Hr0. injection Hr0 as <-. etrans; [by apply (IH reg1)|done].
      * by rewrite (registry_stays_nil w1 ls w2 Hrun Hls' Hr1) in Hr'.
Qed.

(** ** Witnesses on the example router *)

#[local] Existing Instance ConnPool.insertion_sorter.

Ltac ex_eval := vm_compute; reflexivity.

Lemma destroy_wakes_witness :
  exists w', destroy ex_router = Ok w' /\ registry w' = None /\ cleaner_running w' = false /\
    (forall k q, ex_reg !! k = Some q -> edges w' !! q = wake <$> edges ex_router !! q) /\
    (forall q, (forall k, ex_reg !! k <> Some q) -> edges w' !! q = edges ex_router !! q).
Proof.
  apply destroy_wakes; [apply registry_ok_check_sound; ex_eval|ex_eval|ex_eval].
Defined.

Lemma push_close_any_order_witness :
  foldl push_close ex_router [1%nat; 2%nat; 4%nat] = foldl push_close ex_router [4%nat; 1%nat; 2%nat].
Proof. apply push_close_any_order. apply (bool_decide_unpack _). ex_eval. Defined.

Lemma destroyed_router_panics_witness :
  destroy ex_destroyed = Err "send on closed channel" /\
  forall k d t c pos, register k d t c pos ex_destroyed = Err "assignment to entry in nil map".
Proof. apply (destroyed_router_panics ex_router). ex_eval. Defined.

Lemma register_new_witness :
  exists p w' e, register "t1#9" "e:80" (Some 0%nat) ex_conn false ex_router = Ok (p, w') /\
    edges ex_router !! p = None /\
    edges w' = <[p := e]> (edges ex_router) /\ registry w' = Some (<[("t1#9" : string) := p]> ex_reg) /\
    getRegistered "t1#9" w' = (Some p, w') /\
    key e = "t1#9" /\ dest e = "e:80" /\ tun e = Some 0%nat /\ conn e = ex_conn /\ positive e = false /\
    closed e = 0 /\ queue e = (if false then NoQueue else Queue (Some [])).
Proof. apply register_new; ex_eval. Defined.

Lemma register_idempotent_witness :
  let r := register "t1#9" "e:80" (Some 0%nat) ex_conn false ex_router in
  register "t1#9" "f:80" None ex_conn true (ex_result (0%nat, ex_router) r).2 = Ok (ex_result (0%nat, ex_router) r).
Proof.
  apply (register_idempotent "t1#9" "e:80" (Some 0%nat) ex_conn false ex_router). ex_eval.
Defined.

Lemma getRegistered_spec_witness :
  (forall p e, ex_reg !! "t1#1" = Some p -> edges ex_router !! p = Some e -> fully_closed e = false ->
     getRegistered "t1#1" ex_router = (Some p, ex_router)) /\
  (forall p e, ex_reg !! "t1#1" = Some p -> edges ex_router !! p = Some e -> fully_closed e = true ->
     getRegistered "t1#1" ex_router = (None, set_registry ex_router (Some (delete ("t1#1" : string) ex_reg)))) /\
  (ex_reg !! "t1#1" = None -> getRegistered "t1#1" ex_router = (None, ex_router)).
Proof. apply getRegistered_spec. ex_eval. Defined.

Lemma cleanOfTun_spec_witness :
  exists reg', registry (cleanOfTun "t1" ex_router) = Some reg' /\
    (forall k p, ex_reg !! k = Some p ->
       if String.prefix "t1" k && has_queue ex_router p
       then reg' !! k = None /\ edges (cleanOfTun "t1" ex_router) !! p = wake <$> edges ex_router !! p
       else reg' !! k = Some p /\ edges (cleanOfTun "t1" ex_router) !! p = edges ex_router !! p) /\
    (forall k, ex_reg !! k = None -> reg' !! k = None) /\
    (forall q, (forall k, ex_reg !! k <> Some q) -> edges (cleanOfTun "t1" ex_router) !! q = edges ex_router !! q).
Proof. apply cleanOfTun_spec; [apply registry_ok_check_sound; ex_eval|ex_eval]. Defined.

Lemma cleanOfTun_prefix_collision_witness :
  (registry (cleanOfTun "t1" ex_router) ≫= lookup (String.append "t12" (String.append "#" "1"))) = None /\
  edges (cleanOfTun "t1" ex_router) !! 2%nat = Some (wake (initEqueue (newEdgeConn false "t12#1" "b:80" (Some 1%nat) ex_conn))).
Proof.
  apply (cleanOfTun_prefix_collision "t1" "t12" "1" ex_router ex_reg);
    [apply registry_ok_check_sound; ex_eval|ex_eval|ex_eval|ex_eval|ex_eval|discriminate].
Defined.

Lemma getRegistered_race_witness :
  get_read "t1#3" ex_router = Some (4%nat, true) /\
  exists p' w2 e', register "t1#3" "d:80" (Some 0%nat) ex_conn false (clean ex_router) = Ok (p', w2) /\
    (registry (get_purge "t1#3" w2) ≫= lookup "t1#3") = None /\
    edges (get_purge "t1#3" w2) !! p' = Some e' /\ key e' = "t1#3" /\ fully_closed e' = false /\ fd_open (conn e') = true.
Proof.
  apply (getRegistered_race "t1#3" "d:80" (Some 0%nat) ex_conn false ex_router ex_reg 4
           (with_closed (newEdgeConn false "t1#3" "d:80" (Some 0%nat) ex_conn) TCP_CLOSED)); ex_eval.
Defined.

Lemma mrun_invariants_witness : registry_ok ex_after_mlabels /\ queues_own ex_after_mlabels.
Proof.
  apply (mrun_invariants ex_router ex_mlabels).
  - apply mrun_fn_sound. ex_eval.
  - apply registry_ok_check_sound. ex_eval.
  - apply queues_own_check_sound. ex_eval.
  - repeat constructor; cbn; right; ex_eval.
Defined.

Lemma registry_never_grows_witness :
  (match registry ex_after_mlabels with Some r => r | None => ∅ end) ⊆ ex_reg.
Proof.
  apply (registry_never_grows ex_router ex_mlabels ex_after_mlabels).
  - apply mrun_fn_sound. ex_eval.
  - repeat constructor; discriminate.
  - ex_eval.
  - ex_eval.
Defined.

End Router.
