(* ===== verification/Socks5.v ===== *)
(** * d5.go, the local SOCKS5 front-end of the client

    [S5Step1] drives the SOCKS5 exchange with a local application over a
    TCP stream (the segmented [Wire.stream]): [Handshake] reads the
    greeting, [HandshakeAck] answers it, [parseSocks5Request] reads the
    request in one [Read] of a 262-byte buffer and formats its target,
    [respondSocks5] answers it; [detectProtocol] peeks at the first two
    bytes to choose between SOCKS5 and HTTP.  The [err] field is an
    [option Exception]; the bytes a step writes are returned with the
    flag saying whether it closed the connection.  [net.IP.String] for
    IPv6 addresses is a library routine and stays a parameter of the
    section. *)

From stdpp Require Import base list strings pretty sets.
From Stdlib Require Import ZArith Lia.
From S2P Require Import Prelude Exception Wire.

Module Socks5.
Import Exception Wire.

Definition IPV4 : Z := 1.
Definition DOMAIN : Z := 3.
Definition IPV6 : Z := 4.
Definition SOCKS5_VER : Z := 5.
Definition NULL : string := "".

Definition REQ_PROT_UNKNOWN : Z := 1.
Definition REQ_PROT_SOCKS5 : Z := 2.
Definition REQ_PROT_HTTP : Z := 3.

Definition INVALID_SOCKS5_HEADER : Exception := New 0xff "Invalid socks5 header".
Definition INVALID_SOCKS5_REQUEST : Exception := New 0x07 "Invalid socks5 request".
Definition GENERAL_FAILURE : Exception := New 0x01 "General failure".
Definition HOST_UNREACHABLE : Exception := New 0x04 "Host is unreachable".

(** ** Formatting done by the Go library *)

(** [err.Error()] of the two [io] errors. *)
Definition io_error_string (e : io_error) : string :=
  match e with EOF => "EOF" | ErrUnexpectedEOF => "unexpected EOF" end.

Definition hex_digit (d : Z) : Ascii.ascii :=
  Ascii.ascii_of_nat (Z.to_nat (if d <? 10 then 48 + d else 87 + d)).

(** [fmt.Sprintf("[% x]", b)]: two lower-case hex digits per byte,
    separated by spaces, in brackets. *)
Definition fmt_hex (b : list Z) : string :=
  let hx x := String (hex_digit (x / 16)) (String (hex_digit (x mod 16)) EmptyString) in
  let fix go (l : list Z) : string :=
    match l with
    | [] => EmptyString
    | [x] => hx x
    | x :: l' => String.append (hx x) (String.append " " (go l'))
    end in
  String.append "[" (String.append (go b) "]").

(** [string(b)] of a byte slice. *)
Definition bytes_string (b : list Z) : string :=
  String.string_of_list_ascii (map (fun x => Ascii.ascii_of_N (Z.to_N x)) b).

(** [strconv.Itoa] on a non-negative value. *)
Definition Itoa (z : Z) : string := pretty (Z.to_N z).

(** [net.IP(b).String()] of a 4-byte address: dotted decimal. *)
Definition ipv4_string (b : list Z) : string :=
  String.append (Itoa (b !!! 0%nat)) (String.append "."
    (String.append (Itoa (b !!! 1%nat)) (String.append "."
      (String.append (Itoa (b !!! 2%nat)) (String.append "." (Itoa (b !!! 3%nat))))))).

(** ** Reads *)

(** [io.ReadAtLeast(r, buf, min)] with [len(buf) = cap >= min] (its only
    use): [Read]s into the rest of the buffer until [min] bytes are in; a
    [Read] that fills the buffer ends the loop; [EOF] when nothing was
    read, [ErrUnexpectedEOF] when the stream ends part way. *)
Fixpoint read_at_least (cap min : nat) (s : stream) : list Z * stream * option io_error :=
  if decide (min = 0%nat) then ([], s, None) else
  match s with
  | [] => ([], [], Some EOF)
  | seg :: rest =>
      if decide (cap < length seg)%nat then (take cap seg, drop cap seg :: rest, None)
      else
        let '(more, s', e) := read_at_least (cap - length seg) (min - length seg) rest in
        (seg ++ more, s', match e with Some EOF => if decide (seg = []) then Some EOF else Some ErrUnexpectedEOF | e => e end)
  end.

(** ** S5Step1 *)

(** [S5Step1.Handshake]: the greeting [VER NMETHODS METHODS...]; the
    error it records and the stream after it. *)
Definition Handshake (s : stream) : option Exception * stream :=
  match read_full 2 s with
  | Err e => (Some (Apply INVALID_SOCKS5_HEADER (io_error_string e)), [])
  | Ok (buf, s1) =>
      let ver := buf !!! 0%nat in
      let nmethods := buf !!! 1%nat in
      if negb (bool_decide (ver = SOCKS5_VER)) || bool_decide (nmethods < 1) then
        (Some (Apply INVALID_SOCKS5_HEADER (fmt_hex (take 2 buf))), s1)
      else
        let '(got, s2, e) := read_at_least (Z.to_nat nmethods + 1) (Z.to_nat nmethods) s1 in
        if bool_decide (e <> None) || negb (bool_decide (length got = Z.to_nat nmethods)) then
          (Some INVALID_SOCKS5_HEADER, s2)
        else (None, s2)
  end.

(** [S5Step1.HandshakeAck]: the reply written, whether the connection is
    closed, and the result; [write_ok] is the outcome of [conn.Write]. *)
Definition HandshakeAck (err : option Exception) (write_ok : bool) : list Z * bool * bool :=
  match err with
  | Some ex => ([5; wrap 8 (code ex)], true, true)
  | None => ([5; 0], negb write_ok, negb write_ok)
  end.

(** What [parseSocks5Request] leaves in [S5Step1]. *)
Record parsed := mkParsed { p_err : option Exception; p_target : list Z; p_result : string }.

Section Request.
(** [net.IP(b).String()] of a 16-byte address. *)
Variable ipv6_string : list Z -> string.

(** [S5Step1.parseSocks5Request]: one [Read] into a zeroed 262-byte
    buffer (an error panics), the header checks, the address by its type
    and the port after it. *)
Definition parseSocks5Request (s : stream) : result io_error parsed :=
  '(got, _) ← conn_read 262 s;
  let buf := got ++ replicate (262 - length got) 0 in
  let ver := buf !!! 0%nat in
  let cmd := buf !!! 1%nat in
  let atyp := buf !!! 3%nat in
  if negb (bool_decide (ver = SOCKS5_VER)) || negb (bool_decide (cmd = 1)) then
    Ok (mkParsed (Some INVALID_SOCKS5_REQUEST) [] NULL)
  else
    let target := drop 3 buf in
    let b := drop 4 buf in
    let addr :=
      if bool_decide (atyp = IPV4) then Some (ipv4_string (take 4 b), 4%nat)
      else if bool_decide (atyp = IPV6) then Some (ipv6_string (take 16 b), 16%nat)
      else if bool_decide (atyp = DOMAIN) then
        let dlen := Z.to_nat (b !!! 0%nat) in Some (bytes_string (take dlen (drop 1 b)), (dlen + 1)%nat)
      else None in
    match addr with
    | None => Ok (mkParsed (Some INVALID_SOCKS5_REQUEST) target NULL)
    | Some (host, ofs) =>
        let port := be_get (take 2 (drop ofs b)) in
        Ok (mkParsed None target (String.append host (String.append ":" (Itoa port))))
    end.

End Request.

(** [S5Step1.respondSocks5]: the 10-byte reply, whether the connection is
    closed, and the result. *)
Definition respondSocks5 (err : option Exception) (write_ok : bool) : list Z * bool * bool :=
  match err with
  | Some ex => ([5; wrap 8 (code ex); 0; 1; 0; 0; 0; 0; 0; 0], true, true)
  | None => ([5; 0; 0; 1; 0; 0; 0; 0; 0; 0], false, negb write_ok)
  end.

(** [detectProtocol]: a short stream panics with [io.ErrUnexpectedEOF]'s
    message; otherwise the first byte decides (the two bytes are pushed
    back). *)
Definition detectProtocol (s : stream) : result string Z :=
  match read_full 2 s with
  | Err _ => Err "unexpected EOF"
  | Ok (b, _) =>
      let head := b !!! 0%nat in
      Ok (if head <=? 5 then REQ_PROT_SOCKS5
          else if (0x41 <=? head) && (head <=? 0x7a) then REQ_PROT_HTTP
          else REQ_PROT_UNKNOWN)
  end.

(** The bytes of a SOCKS5 CONNECT request for a domain name. *)
Definition domain_request (host : list Z) (port : Z) : list Z :=
  [SOCKS5_VER; 1; 0; DOMAIN; Z.of_nat (length host)] ++ host ++ be_put 2 port.

Definition ipv4_request (a : list Z) (port : Z) : list Z :=
  [SOCKS5_VER; 1; 0; IPV4] ++ a ++ be_put 2 port.

(** ** The greeting *)

Lemma read_at_least_0 cap s : read_at_least cap 0 s = ([], s, None).
Proof. by destruct s. Qed.

Lemma read_full_two (s : stream) a b rest :
  stream_ok s -> concat s = [a; b] ++ rest ->
  exists s', read_full 2 s = Ok ([a; b], s') /\ concat s' = rest.
Proof.
  intros Hok Hc. destruct (read_full_spec s [a; b] rest Hok Hc) as (s' & Hr & Hc' & _). by exists s'.
Qed.

(** the malformed greeting of spec section 8, scenario 4: a local
    client whose first two bytes are [04 01] is taken for SOCKS5, its
    greeting is refused with [INVALID_SOCKS5_HEADER] (code 0xff), and the
    client is answered [05 ff] and disconnected, however the bytes are
    segmented. *)
Theorem malformed_greeting_refused (s : stream) rest :
  stream_ok s -> concat s = [4; 1] ++ rest ->
  detectProtocol s = Ok REQ_PROT_SOCKS5 /\
  exists s', Handshake s = (Some (Apply INVALID_SOCKS5_HEADER "[04 01]"), s') /\ concat s' = rest /\
    forall write_ok, HandshakeAck (fst (Handshake s)) write_ok = ([5; 255], true, true).
Proof.
  intros Hok Hc. destruct (read_full_two s 4 1 rest Hok Hc) as (s' & Hr & Hc').
  unfold detectProtocol, Handshake. rewrite Hr. split; [done|]. exists s'. by repeat split.
Qed.

(** a greeting [05 n m1..mn] sent in one segment is accepted: the
    method bytes are consumed and the rest of the stream is left for the
    request. *)
Theorem Handshake_accepts (n : Z) (methods : list Z) (rest : stream) :
  1 <= n < 256 -> length methods = Z.to_nat n ->
  Handshake (([5; n] ++ methods) :: rest) = (None, rest).
Proof.
  intros Hn Hlen. unfold Handshake. cbn -[read_at_least].
  rewrite decide_True by lia. rewrite decide_True by lia. cbn -[read_at_least].
  rewrite (bool_decide_false (n < 1)) by lia. rewrite (bool_decide_true (5 = SOCKS5_VER)) by reflexivity.
  cbn -[read_at_least]. rewrite drop_0. cbn.
  rewrite decide_False by lia. rewrite decide_False by lia. rewrite Hlen, !Nat.sub_diag, read_at_least_0.
  cbn. rewrite app_nil_r, Hlen. by rewrite (bool_decide_true (Z.to_nat n = Z.to_nat n)).
Qed.

(** C32: a greeting pipelined with the request in one segment is refused:
    [io.ReadAtLeast] into the [nmethods+1]-byte buffer takes the first
    byte of the request too, so the byte count differs from [nmethods],
    and that byte is lost. *)
Theorem Handshake_pipelined (n : Z) (methods req : list Z) (rest : stream) :
  1 <= n < 256 -> length methods = Z.to_nat n -> req <> [] ->
  Handshake (([5; n] ++ methods ++ req) :: rest) =
    (Some INVALID_SOCKS5_HEADER, if decide (1 < length req)%nat then drop 1 req :: rest else rest).
Proof.
  intros Hn Hlen Hreq. destruct req as [|r req]; [done|]. unfold Handshake.
  assert (Hl : length (methods ++ r :: req) = (Z.to_nat n + 1 + length req)%nat)
    by (rewrite length_app; cbn; lia).
  cbn -[read_at_least]. rewrite !decide_True by lia. cbn -[read_at_least].
  rewrite (bool_decide_false (n < 1)) by lia. rewrite (bool_decide_true (5 = SOCKS5_VER)) by reflexivity.
  cbn -[read_at_least]. rewrite drop_0. cbn. rewrite decide_False by lia.
  assert (Ht : length (take (Z.to_nat n + 1) (methods ++ r :: req)) = (Z.to_nat n + 1)%nat)
    by (rewrite length_take; lia).
  destruct req as [|r' req].
  - cbn in Hl. rewrite decide_False by lia.
    replace (Z.to_nat n - length (methods ++ [r]))%nat with 0%nat by lia.
    rewrite read_at_least_0. cbn -[bool_decide]. rewrite app_nil_r.
    rewrite (bool_decide_false (length (methods ++ [r]) = Z.to_nat n)) by lia. cbn -[bool_decide].
    rewrite orb_true_r. by rewrite decide_False by (cbn; lia).
  - cbn in Hl. rewrite decide_True by lia. cbn -[bool_decide].
    rewrite Ht, (bool_decide_false (Z.to_nat n + 1 = Z.to_nat n)%nat) by lia. cbn -[bool_decide].
    rewrite orb_true_r, decide_True by (cbn; lia). f_equal. f_equal.
    rewrite <- Hlen, drop_app_add. done.
Qed.

(** ** The request *)

(** What the single [Read] of [parseSocks5Request] puts in its buffer when
    the first segment starts with [req]. *)
Lemma request_buffer (req extra : list Z) (rest : stream) :
  (length req <= 262)%nat ->
  exists R, conn_read 262 ((req ++ extra) :: rest) =
              Ok (take 262 (req ++ extra), if decide (262 < length (req ++ extra))%nat then drop 262 (req ++ extra) :: rest else rest) /\
            take 262 (req ++ extra) ++ replicate (262 - length (take 262 (req ++ extra))) 0 = req ++ R /\
            length (req ++ R) = 262%nat.
Proof.
  intros Hle. eexists. split; [reflexivity|]. rewrite take_app, (take_ge req) by lia.
  rewrite <- List.app_assoc. split; [reflexivity|].
  repeat rewrite ?length_app, ?length_replicate, ?length_take. lia.
Qed.

Section RequestSpec.
Variable ipv6_string : list Z -> string.

(** C29: a CONNECT request for a domain name, received in one segment, is
    parsed into [host:port] with the port in decimal; the target kept
    for the tunnel is the address part of the request padded with the
    rest of the 262-byte buffer to 259 bytes. *)
Theorem parse_domain_request (host : list Z) (port : Z) (extra : list Z) (rest : stream) :
  (1 <= length host <= 255)%nat -> 0 <= port < 65536 ->
  exists tgt, parseSocks5Request ipv6_string ((domain_request host port ++ extra) :: rest) =
    Ok (mkParsed None tgt (String.append (bytes_string host) (String.append ":" (Itoa port)))) /\
    length tgt = 259%nat /\ take (length host + 4) tgt = [DOMAIN; Z.of_nat (length host)] ++ host ++ be_put 2 port.
Proof.
  intros Hh Hp. destruct (request_buffer (domain_request host port) extra rest) as (R & Hrd & Hbuf & Hlen);
    [unfold domain_request; rewrite !length_app, length_be_put; cbn; lia|].
  unfold parseSocks5Request. rewrite Hrd. cbn [mbind result_bind]. rewrite Hbuf.
  unfold domain_request in *. cbn -[bytes_string Itoa ipv4_string be_put be_get take drop].
  change (bool_decide (SOCKS5_VER = SOCKS5_VER)) with true. change (bool_decide (1 = 1)) with true.
  change (bool_decide (DOMAIN = IPV4)) with false. change (bool_decide (DOMAIN = IPV6)) with false.
  change (bool_decide (DOMAIN = DOMAIN)) with true. cbn -[bytes_string Itoa be_put be_get take].
  rewrite Nat2Z.id, <- !List.app_assoc, drop_0, take_app_length.
  replace (drop (length host + 1) (Z.of_nat (length host) :: host ++ be_put 2 port ++ R))
    with (be_put 2 port ++ R) by (rewrite Nat.add_1_r; cbn; by rewrite drop_app_length).
  rewrite take_app_length' by (symmetry; apply length_be_put). rewrite be_get_put, Z.mod_small by (cbn; lia).
  eexists. split; [reflexivity|]. rewrite !length_app, length_be_put in Hlen. cbn [length] in Hlen. split.
  - cbn [length]. rewrite !length_app, length_be_put. lia.
  - replace (length host + 4)%nat with (S (S (length host + 2))) by lia. cbn [take].
    rewrite take_app_add' by done. rewrite take_app_length' by (symmetry; apply length_be_put). done.
Qed.

Lemma buffer_lookup (seg : list Z) (i : nat) :
  (i < length seg)%nat -> (i < 262)%nat ->
  (take 262 seg ++ replicate (262 - length (take 262 seg)) 0) !!! i = seg !!! i.
Proof.
  intros Hi H262. rewrite lookup_total_app_l by (rewrite length_take; lia).
  by rewrite lookup_total_take_lt.
Qed.

(** the errors of [parseSocks5Request]: a failed [Read] panics; a
    version other than 5 or a command other than CONNECT gives
    [INVALID_SOCKS5_REQUEST] with no target; an unknown address type
    gives [INVALID_SOCKS5_REQUEST] after the target has been taken. *)
Theorem parse_request_errors (seg : list Z) (rest : stream) :
  parseSocks5Request ipv6_string [] = Err EOF /\
  ((4 <= length seg)%nat -> (seg !!! 0%nat <> SOCKS5_VER \/ seg !!! 1%nat <> 1) ->
     parseSocks5Request ipv6_string (seg :: rest) = Ok (mkParsed (Some INVALID_SOCKS5_REQUEST) [] NULL)) /\
  ((4 <= length seg)%nat -> seg !!! 0%nat = SOCKS5_VER -> seg !!! 1%nat = 1 ->
     seg !!! 3%nat ∉ [IPV4; IPV6; DOMAIN] ->
     parseSocks5Request ipv6_string (seg :: rest) =
       Ok (mkParsed (Some INVALID_SOCKS5_REQUEST) (drop 3 (take 262 seg ++ replicate (262 - length (take 262 seg)) 0)) NULL)).
Proof.
  split; [done|]. unfold parseSocks5Request, conn_read. cbn [mbind result_bind].
  split.
  - intros Hl [H|H]; rewrite !buffer_lookup by lia; [rewrite (bool_decide_false _ H)|rewrite (bool_decide_false _ H), orb_true_r]; done.
  - intros Hl H0 H1 H3. rewrite !buffer_lookup by lia. rewrite (bool_decide_true _ H0), (bool_decide_true _ H1). cbn [negb orb].
    rewrite !bool_decide_false by set_solver. done.
Qed.

(** C33: a request whose address arrives in a later segment than its
    header is parsed from the zeros of the buffer: the single [Read]
    returns the header only, so the host is read as [len] zero bytes and
    the port as 0, without any error. *)
Theorem parse_split_request (host : list Z) (port : Z) (rest : stream) :
  (1 <= length host <= 255)%nat ->
  parseSocks5Request ipv6_string ([SOCKS5_VER; 1; 0; DOMAIN; Z.of_nat (length host)] :: (host ++ be_put 2 port) :: rest) =
    Ok (mkParsed None ([DOMAIN; Z.of_nat (length host)] ++ replicate 257 0%Z)
                 (String.append (bytes_string (replicate (length host) 0%Z)) ":0")).
Proof.
  intros Hh. unfold parseSocks5Request, conn_read. cbn [mbind result_bind].
  change (take 262 [SOCKS5_VER; 1; 0; DOMAIN; Z.of_nat (length host)]) with [SOCKS5_VER; 1; 0; DOMAIN; Z.of_nat (length host)].
  change (Nat.sub 262 (length [SOCKS5_VER; 1%Z; 0%Z; DOMAIN; Z.of_nat (length host)])) with 257%nat.
  cbn -[bytes_string Itoa ipv4_string be_get take drop replicate].
  change (bool_decide (SOCKS5_VER = SOCKS5_VER)) with true. change (bool_decide (1 = 1)) with true.
  change (bool_decide (DOMAIN = IPV4)) with false. change (bool_decide (DOMAIN = IPV6)) with false.
  change (bool_decide (DOMAIN = DOMAIN)) with true. cbn -[bytes_string Itoa be_get take drop replicate].
  cbn -[bytes_string Itoa be_get take replicate].
  rewrite Nat2Z.id, drop_0, take_replicate, Nat.min_l by lia.
  rewrite Nat.add_1_r. cbn [drop]. rewrite drop_replicate, take_replicate, Nat.min_l by lia. reflexivity.
Qed.

End RequestSpec.

(** ** Witnesses *)

Lemma malformed_greeting_refused_witness :
  detectProtocol [[4; 1; 0]] = Ok REQ_PROT_SOCKS5 /\
  exists s', Handshake [[4; 1; 0]] = (Some (Apply INVALID_SOCKS5_HEADER "[04 01]"), s') /\ concat s' = [0] /\
    forall write_ok, HandshakeAck (fst (Handshake [[4; 1; 0]])) write_ok = ([5; 255], true, true).
Proof. apply malformed_greeting_refused; [stream_ok_tac|reflexivity]. Defined.

Lemma Handshake_accepts_witness : Handshake (([5; 1] ++ [0]) :: [[5; 1; 0; 1]]) = (None, [[5; 1; 0; 1]]).
Proof. apply Handshake_accepts; [lia|reflexivity]. Defined.

Lemma Handshake_pipelined_witness :
  Handshake (([5; 1] ++ [0] ++ [5; 1; 0; 1]) :: []) =
    (Some INVALID_SOCKS5_HEADER, if decide (1 < length [5; 1; 0; 1])%nat then drop 1 [5; 1; 0; 1] :: [] else []).
Proof. apply Handshake_pipelined; [lia|reflexivity|discriminate]. Defined.

Lemma parse_domain_request_witness :
  exists tgt, parseSocks5Request (fun _ => EmptyString) ((domain_request (string_bytes "example.org") 443 ++ []) :: []) =
    Ok (mkParsed None tgt (String.append (bytes_string (string_bytes "example.org")) (String.append ":" (Itoa 443)))) /\
    length tgt = 259%nat /\
    take (length (string_bytes "example.org") + 4) tgt =
      [DOMAIN; Z.of_nat (length (string_bytes "example.org"))] ++ string_bytes "example.org" ++ be_put 2 443.
Proof. apply parse_domain_request; [vm_compute; lia|lia]. Defined.

Lemma parse_split_request_witness :
  parseSocks5Request (fun _ => EmptyString) ([SOCKS5_VER; 1; 0; DOMAIN; Z.of_nat (length [97])] :: ([97] ++ be_put 2 80) :: []) =
    Ok (mkParsed None ([DOMAIN; Z.of_nat (length [97])] ++ replicate 257 0%Z)
                 (String.append (bytes_string (replicate (length [97]) 0%Z)) ":0")).
Proof. apply parse_split_request. cbn. lia. Defined.

Lemma parse_request_errors_witness :
  parseSocks5Request (fun _ => EmptyString) [[4; 1; 0; 1]] = Ok (mkParsed (Some INVALID_SOCKS5_REQUEST) [] NULL).
Proof.
  apply (proj1 (proj2 (parse_request_errors (fun _ => EmptyString) [4; 1; 0; 1] [])));
    [cbn; lia|left; vm_compute; discriminate].
Defined.

End Socks5.
