(* ===== verification/GoStrings.v ===== *)
(** * The functions of Go's [strings] and [regexp] packages the code calls

    deblocus calls [strings.HasPrefix], [strings.Contains],
    [strings.Index] and [strings.SplitN(s, sep, 2)], and matches
    [(?i)true|false] with [regexp].  These library functions are
    written out here on [string] (ASCII) so the callers' models run.  The
    file also proves the facts the callers need: prefixes are preserved
    by appending, [cut] finds the first separator and gives the string
    back, and [Index] is non-negative exactly when the separator occurs.
    Unicode case folding beyond ASCII ([(?i)s] also matches U+017F) is
    outside the [string] type and is not modelled. *)

From stdpp Require Import base list strings.
From Stdlib Require Import ZArith Lia.
From S2P Require Import Prelude.

Module GoStrings.

Local Open Scope string_scope.

(** [strings.HasPrefix(s, prefix)]. *)
Fixpoint HasPrefix (s pre : string) {struct pre} : bool :=
  match pre, s with
  | EmptyString, _ => true
  | String p pre', String c s' => bool_decide (p = c) && HasPrefix s' pre'
  | String _ _, EmptyString => false
  end.

(** [strings.Contains(s, sub)]. *)
Fixpoint contains (sub s : string) : bool :=
  HasPrefix s sub || match s with EmptyString => false | String _ s' => contains sub s' end.

(** [s[n:]], for [n <= len(s)]. *)
Fixpoint sdrop (n : nat) (s : string) : string :=
  match n, s with
  | O, _ => s
  | S n', String _ s' => sdrop n' s'
  | S _, EmptyString => EmptyString
  end.

(** The first occurrence of a non-empty [sep] in [s]: what is before it
    and what is after it. *)
Fixpoint cut (s sep : string) : option (string * string) :=
  if HasPrefix s sep then Some (EmptyString, sdrop (String.length sep) s)
  else match s with
       | EmptyString => None
       | String c s' => match cut s' sep with Some (a, b) => Some (String c a, b) | None => None end
       end.

(** [strings.Index(s, sep)]: the byte offset of the first occurrence, or
    [-1]. *)
Definition Index (s sep : string) : Z :=
  match cut s sep with Some (a, _) => Z.of_nat (String.length a) | None => -1 end.

(** [strings.SplitN(s, sep, 2)] for a non-empty [sep]: [[s]] when [sep]
    does not occur, else the text before its first occurrence and the
    rest. *)
Definition SplitN2 (s sep : string) : list string :=
  match cut s sep with Some (a, b) => [a; b] | None => [s] end.

(** [unicode.SimpleFold] restricted to ASCII: the lower-case letter. *)
Definition lower (a : Ascii.ascii) : Ascii.ascii :=
  let n := Ascii.nat_of_ascii a in
  if bool_decide (65 <= n <= 90)%nat then Ascii.ascii_of_nat (n + 32) else a.

Fixpoint lower_string (s : string) : string :=
  match s with EmptyString => EmptyString | String c s' => String (lower c) (lower_string s') end.

(** [regexp.MustCompile("(?i)true|false").MatchString(s)]: the pattern is
    not anchored, so any occurrence matches. *)
Definition reBool_MatchString (s : string) : bool :=
  contains "true" (lower_string s) || contains "false" (lower_string s).

(** ** Lemmas *)

Lemma HasPrefix_app (sub a b : string) : HasPrefix a sub = true -> HasPrefix (a +:+ b) sub = true.
Proof.
  revert a. induction sub as [|x sub IH]; intros [|y a] H; [done|done|discriminate H|].
  change (String y a +:+ b) with (String y (a +:+ b)). cbn [HasPrefix] in H |- *. apply andb_true_iff in H as [-> H]. by apply IH.
Qed.

Lemma HasPrefix_sdrop (s pre : string) : HasPrefix s pre = true -> s = pre +:+ sdrop (String.length pre) s.
Proof.
  revert s. induction pre as [|x pre IH]; intros [|y s] H; [done|done|discriminate H|].
  cbn [HasPrefix] in H. apply andb_true_iff in H as [Hx%bool_decide_eq_true H]. subst y.
  cbn [String.length sdrop].
  change (String x pre +:+ sdrop (String.length pre) s) with (String x (pre +:+ sdrop (String.length pre) s)).
  f_equal. by apply IH.
Qed.

Lemma HasPrefix_self_app (pre b : string) : HasPrefix (pre +:+ b) pre = true.
Proof.
  induction pre as [|x pre IH]; [by destruct b|].
  change (String x pre +:+ b) with (String x (pre +:+ b)). cbn [HasPrefix]. by rewrite bool_decide_true, IH.
Qed.

Lemma contains_app_l (sub a b : string) : contains sub a = true -> contains sub (a +:+ b) = true.
Proof.
  induction a as [|y a IH].
  - cbn. intros H. rewrite orb_false_r in H. destruct sub; [|discriminate]. by destruct b.
  - change (String y a +:+ b) with (String y (a +:+ b)). cbn [contains].
    intros [H|H]%orb_true_iff; apply orb_true_iff; [left; by apply (HasPrefix_app _ (String y a))|right; by apply IH].
Qed.

Lemma contains_app_r (sub a b : string) : contains sub b = true -> contains sub (a +:+ b) = true.
Proof.
  induction a as [|y a IH]; [done|]. intros H. change (String y a +:+ b) with (String y (a +:+ b)).
  cbn [contains]. rewrite IH by done. apply orb_true_r.
Qed.

Lemma contains_sep (a sep b : string) : contains sep (a +:+ sep +:+ b) = true.
Proof.
  induction a as [|y a IH].
  - destruct sep as [|x sep]; [by destruct b|]. change ("" +:+ String x sep +:+ b) with (String x (sep +:+ b)).
    cbn [contains]. change (String x (sep +:+ b)) with (String x sep +:+ b). by rewrite HasPrefix_self_app.
  - change (String y a +:+ sep +:+ b) with (String y (a +:+ sep +:+ b)). cbn [contains]. by rewrite IH, orb_true_r.
Qed.

#[export] Hint Resolve contains_app_l contains_app_r contains_sep HasPrefix_self_app : deblocus.

(** [cut] splits at an occurrence of [sep] and gives the string back. *)
Lemma cut_Some (s sep a b : string) : cut s sep = Some (a, b) -> s = a +:+ sep +:+ b.
Proof.
  revert a b. induction s as [|c s IH]; intros a b; cbn [cut].
  - destruct (HasPrefix "" sep) eqn:E; [|done]. intros [= <- <-]. by rewrite (HasPrefix_sdrop _ _ E) at 1.
  - destruct (HasPrefix (String c s) sep) eqn:E.
    + intros [= <- <-]. by rewrite (HasPrefix_sdrop _ _ E) at 1.
    + destruct (cut s sep) as [[a' b']|] eqn:Ec; [|done]. intros [= <- <-].
      change (String c a' +:+ sep +:+ b') with (String c (a' +:+ sep +:+ b')). f_equal. by apply IH.
Qed.

(** [cut] fails exactly when [sep] does not occur. *)
Lemma cut_None (s sep : string) : cut s sep = None <-> contains sep s = false.
Proof.
  induction s as [|c s IH]; cbn [cut contains].
  - destruct (HasPrefix "" sep); cbn; split; congruence.
  - destruct (HasPrefix (String c s) sep); cbn; [split; congruence|].
    destruct (cut s sep) as [[a' b']|]; split; intros H; try discriminate; first [by apply IH | apply IH in H; discriminate].
Qed.

(** [strings.Index(s, sep) >= 0] tests that [sep] occurs. *)
Lemma Index_nonneg (s sep : string) : (0 <= Index s sep)%Z <-> contains sep s = true.
Proof.
  unfold Index. destruct (cut s sep) as [[a b]|] eqn:E.
  - apply cut_Some in E as ->. split; [intros _; apply contains_sep|lia].
  - apply cut_None in E. rewrite E. split; [lia|done].
Qed.

(** [SplitN(s, sep, 2)] has two elements exactly when [sep] occurs, and
    joining them with [sep] gives [s] back. *)
Lemma SplitN2_spec (s sep : string) :
  match SplitN2 s sep with
  | [a; b] => s = a +:+ sep +:+ b /\ contains sep s = true
  | [a] => a = s /\ contains sep s = false
  | _ => False
  end.
Proof.
  unfold SplitN2. destruct (cut s sep) as [[a b]|] eqn:E.
  - apply cut_Some in E as ->. split; [done|apply contains_sep].
  - by apply cut_None in E.
Qed.

Lemma lower_string_app (a b : string) : lower_string (a +:+ b) = lower_string a +:+ lower_string b.
Proof.
  induction a as [|c a IH]; [done|]. change (String c a +:+ b) with (String c (a +:+ b)).
  cbn [lower_string]. by rewrite IH.
Qed.

(** The part of [cut] before the separator does not contain it. *)
Lemma cut_first (s sep a b : string) : sep <> "" -> cut s sep = Some (a, b) -> contains sep a = false.
Proof.
  intros Hsep. revert a b. induction s as [|c s IH]; intros a b; cbn [cut].
  - destruct (HasPrefix "" sep) eqn:E; [|done]. intros [= <- _]. by destruct sep.
  - destruct (HasPrefix (String c s) sep) eqn:E.
    + intros [= <- _]. by destruct sep.
    + destruct (cut s sep) as [[a' b']|] eqn:Ec; [|done]. intros [= <- <-].
      cbn [contains]. rewrite (IH a' b') by done. apply orb_false_iff; split; [|done].
      apply not_true_is_false. intros Hp. apply (HasPrefix_app _ _ (sep +:+ b')) in Hp.
      rewrite (cut_Some _ _ _ _ Ec) in E. change (String c a' +:+ sep +:+ b') with (String c (a' +:+ sep +:+ b')) in Hp.
      congruence.
Qed.

(** [SplitN2] at a separator: the parts, the first without the separator. *)
Lemma SplitN2_two (s sep a b : string) :
  sep <> "" -> SplitN2 s sep = [a; b] -> s = a +:+ sep +:+ b /\ contains sep a = false.
Proof.
  intros Hsep. unfold SplitN2. destruct (cut s sep) as [[a' b']|] eqn:E; [|done]. intros [= -> ->].
  split; [by apply cut_Some|by eapply cut_first].
Qed.

End GoStrings.
