(* ===== verification/HttpProxy.v ===== *)
(** * d5.go, the HTTP proxy front-end

    [httpProxyHandshake] reads one request from the pushed-back local
    connection with [http.ReadRequest] over a fresh [bufio.Reader].  A
    [CONNECT] is answered with the [200 Connection established] line and
    the [Proxy-Agent] header and tunnelled to its [Host]; any other
    request loses its [Proxy*] headers, is serialised again and pushed
    back onto the connection, to be forwarded as it is.  The target must
    have a port: a plain request whose host has none gets [":80"].

    [net/http]'s parser and serialiser and [net.SplitHostPort] are
    library calls: they are section variables.  The pushed-back input
    stream ([pushbackInputStream], not under [src/]) is a [stream] of
    [Wire] with what was written to the connection. *)

From stdpp Require Import base list strings gmap.
From Stdlib Require Import ZArith Lia.
From S2P Require Import Prelude Exception Wire Socks5 GoStrings.

Module HttpProxy.
Import Exception Wire Socks5 GoStrings.

Local Open Scope string_scope.

Definition REQ_PROT_HTTP_T : Z := 4.
Definition CRLF : string := String (Ascii.ascii_of_nat 13) (String (Ascii.ascii_of_nat 10) EmptyString).
Definition HTTP_PROXY_VER_LINE : string := "HTTP/1.1 200 Connection established".
Definition HTTP_PROXY_AGENT : string := "Proxy-Agent: deblocus".

(** The fields of [*http.Request] the handshake reads; [Header] is the
    [http.Header] map from canonical keys to values. *)
Record request := mkRequest { Method : string; Host : string; Header : gmap string (list string) }.

(** [pushbackInputStream]: the bytes still to be read and the bytes
    written to the local connection. *)
Record pbconn := mkPb { pb_in : stream; pb_out : list Z }.

(** [conn.Unread(b)]: [b] is read again before the rest. *)
Definition Unread (b : list Z) (c : pbconn) : pbconn :=
  mkPb (if bool_decide (b = []) then pb_in c else b :: pb_in c) (pb_out c).

(** [conn.WriteString(s)], whose result is not looked at. *)
Definition WriteString (s : string) (c : pbconn) : pbconn := mkPb (pb_in c) (pb_out c ++ string_bytes s).

(** [for k, _ := range req.Header { if strings.HasPrefix(k, "Proxy") { delete(req.Header, k) } }] *)
Definition strip_proxy (h : gmap string (list string)) : gmap string (list string) :=
  filter (fun kv => HasPrefix kv.1 "Proxy" = false) h.

(** The four [WriteString] calls answering a [CONNECT]. *)
Definition connect_reply (VER_STRING : string) (c : pbconn) : pbconn :=
  WriteString (CRLF +:+ CRLF) (WriteString (HTTP_PROXY_AGENT +:+ "/" +:+ VER_STRING)
    (WriteString CRLF (WriteString HTTP_PROXY_VER_LINE c))).

Section Http.

(** [http.ReadRequest(bufio.NewReader(conn))]: the request or the text of
    its error, and what is left unread on the connection (the bytes the
    [bufio.Reader] took are gone from it). *)
Variable ReadRequest : stream -> result string request * stream.
(** [req.Write(buf)]: the bytes of the request as [net/http] writes it. *)
Variable WriteRequest : request -> list Z.
(** [net.SplitHostPort(target)], its error as [err.Error()]. *)
Variable SplitHostPort : string -> result string (string * string).
(** [VER_STRING], injected by the main package. *)
Variable VER_STRING : string.

(** [httpProxyHandshake(conn) (req_prot uint, target string)]: the result
    or the value of the panic, and the connection after it. *)
Definition httpProxyHandshake (c : pbconn) : result panic_value (Z * string) * pbconn :=
  let '(r, rest) := ReadRequest (pb_in c) in
  let c0 := mkPb rest (pb_out c) in
  match r with
  | Err e => (Err (PVOther e), c0)
  | Ok req =>
      let '(req_prot, c1) :=
        if decide (Method req = "CONNECT") then (REQ_PROT_HTTP_T, connect_reply VER_STRING c0)
        else (REQ_PROT_HTTP, Unread (WriteRequest (mkRequest (Method req) (Host req) (strip_proxy (Header req)))) c0) in
      let target := Host req in
      if decide (target = NULL) then (Err (PVString "missing host in address"), c1)
      else
        match SplitHostPort target with
        | Ok _ => (Ok (req_prot, target), c1)
        | Err m =>
            if contains "port" m && bool_decide (Method req <> "CONNECT")
            then (Ok (req_prot, target +:+ ":80"), c1)
            else (Err (PVString m), c1)
        end
  end.

End Http.

(** ** Properties *)

Lemma lookup_strip_proxy h k : strip_proxy h !! k = if HasPrefix k "Proxy" then None else h !! k.
Proof.
  unfold strip_proxy. destruct (HasPrefix k "Proxy") eqn:E.
  - apply map_lookup_filter_None. right. intros v _. cbn [fst]. by rewrite E.
  - rewrite map_lookup_filter. destruct (h !! k); [|done]. cbn [mbind option_bind fst]. by rewrite option_guard_True.
Qed.

Section HttpProps.

Variable ReadRequest : stream -> result string request * stream.
Variable WriteRequest : request -> list Z.
Variable SplitHostPort : string -> result string (string * string).
Variable VER_STRING : string.

Local Abbreviation handshake := (httpProxyHandshake ReadRequest WriteRequest SplitHostPort VER_STRING).

(** a [CONNECT] for a [host:port] is answered with the status line and
    the [Proxy-Agent] header followed by an empty line, and tunnelled to
    its host; the rest of the connection is left to the tunnel. *)
Theorem connect_established (c : pbconn) req rest hp :
  ReadRequest (pb_in c) = (Ok req, rest) -> Method req = "CONNECT" -> Host req <> NULL ->
  SplitHostPort (Host req) = Ok hp ->
  handshake c = (Ok (REQ_PROT_HTTP_T, Host req),
                 mkPb rest (pb_out c ++ string_bytes HTTP_PROXY_VER_LINE ++ string_bytes CRLF ++
                            string_bytes (HTTP_PROXY_AGENT +:+ "/" +:+ VER_STRING) ++ string_bytes (CRLF +:+ CRLF))).
Proof.
  intros Hr Hm Hh Hs. unfold httpProxyHandshake. rewrite Hr, decide_True, decide_False, Hs by done.
  unfold connect_reply, WriteString. cbn. by rewrite <- !app_assoc.
Qed.

(** any other request is forwarded: its [Proxy*] headers are dropped
    and every other header kept, the request written again is pushed back
    in front of the rest of the connection, nothing is written to the
    client, and the target is its host, with [":80"] when the host has
    no port. *)
Theorem plain_request_forwarded (c : pbconn) req rest :
  ReadRequest (pb_in c) = (Ok req, rest) -> Method req <> "CONNECT" -> Host req <> NULL ->
  WriteRequest (mkRequest (Method req) (Host req) (strip_proxy (Header req))) <> [] ->
  (forall k, strip_proxy (Header req) !! k = if HasPrefix k "Proxy" then None else Header req !! k) /\
  snd (handshake c) = mkPb (WriteRequest (mkRequest (Method req) (Host req) (strip_proxy (Header req))) :: rest) (pb_out c) /\
  fst (handshake c) =
    match SplitHostPort (Host req) with
    | Ok _ => Ok (REQ_PROT_HTTP, Host req)
    | Err m => if contains "port" m then Ok (REQ_PROT_HTTP, Host req +:+ ":80") else Err (PVString m)
    end.
Proof.
  intros Hr Hm Hh Hw. split; [apply lookup_strip_proxy|].
  unfold httpProxyHandshake. rewrite Hr, decide_False, decide_False by done.
  unfold Unread. cbn [pb_in pb_out]. rewrite bool_decide_false by done.
  destruct (SplitHostPort (Host req)) as [hp|m]; [done|].
  rewrite (bool_decide_true (Method req <> "CONNECT")) by done. rewrite andb_true_r.
  by destruct (contains "port" m).
Qed.

(** C22: a [CONNECT] whose host has no port panics, but only after the
    [200 Connection established] answer has been written: the client is
    told the tunnel is up and then loses the connection. *)
Theorem connect_without_port (c : pbconn) req rest m :
  ReadRequest (pb_in c) = (Ok req, rest) -> Method req = "CONNECT" -> Host req <> NULL ->
  SplitHostPort (Host req) = Err m ->
  handshake c = (Err (PVString m), connect_reply VER_STRING (mkPb rest (pb_out c))) /\
  pb_out (connect_reply VER_STRING (mkPb rest (pb_out c))) = (pb_out c ++ string_bytes HTTP_PROXY_VER_LINE ++
    string_bytes CRLF ++ string_bytes (HTTP_PROXY_AGENT +:+ "/" +:+ VER_STRING) ++ string_bytes (CRLF +:+ CRLF))%list.
Proof.
  intros Hr Hm Hh Hs. unfold httpProxyHandshake. rewrite Hr, decide_True, decide_False, Hs by done.
  rewrite (bool_decide_false (Method req <> "CONNECT")) by auto. rewrite andb_false_r.
  split; [done|]. unfold connect_reply, WriteString. cbn. by rewrite <- !app_assoc.
Qed.

(** C21: the missing-port test reads the text of [SplitHostPort]'s error,
    which quotes the address: a plain request whose host contains "port"
    gets [":80"] appended whatever the error was (a missing [']'], too
    many colons), where any other host makes the handshake panic. *)
Theorem port_in_host_defaults (c : pbconn) req rest why :
  ReadRequest (pb_in c) = (Ok req, rest) -> Method req <> "CONNECT" -> Host req <> NULL ->
  SplitHostPort (Host req) = Err ("address " +:+ Host req +:+ ": " +:+ why) ->
  contains "port" (Host req) = true ->
  fst (handshake c) = Ok (REQ_PROT_HTTP, Host req +:+ ":80").
Proof.
  intros Hr Hm Hh Hs Hp. unfold httpProxyHandshake. rewrite Hr, decide_False, decide_False, Hs by done. cbn [fst].
  rewrite (bool_decide_true (Method req <> "CONNECT")) by done.
  assert (E : contains "port" ("address " +:+ Host req +:+ ": " +:+ why) = true)
    by (apply contains_app_r, contains_app_l, Hp).
  by rewrite E.
Qed.

End HttpProps.

(** ** Witnesses, on a stub [net/http] that returns one fixed request *)

Definition ex_ReadRequest (r : request) (s : stream) : result string request * stream := (Ok r, drop 1 s).
Definition ex_WriteRequest (r : request) : list Z := string_bytes (Method r +:+ " / HTTP/1.1" +:+ CRLF +:+ "Host: " +:+ Host r +:+ CRLF +:+ CRLF).
Definition ex_SplitHostPort (h : string) : result string (string * string) :=
  if contains "[" h && negb (contains "]" h) then Err ("address " +:+ h +:+ ": missing ']' in address")
  else if contains ":" h then Ok (h, "") else Err ("address " +:+ h +:+ ": missing port in address").
Definition ex_connect : request := mkRequest "CONNECT" "example.com:443" (<["Proxy-Authorization":=["x"]]> ∅).
Definition ex_get (h : string) : request := mkRequest "GET" h (<["Proxy-Connection":=["keep-alive"]]> (<["Accept":=["*/*"]]> ∅)).
Definition ex_conn : pbconn := mkPb [[67; 79]; [78]] [].

Lemma connect_established_witness :
  httpProxyHandshake (ex_ReadRequest ex_connect) ex_WriteRequest ex_SplitHostPort "0.9" ex_conn =
  (Ok (REQ_PROT_HTTP_T, "example.com:443"),
   mkPb [[78]] ([] ++ string_bytes HTTP_PROXY_VER_LINE ++ string_bytes CRLF ++
                string_bytes (HTTP_PROXY_AGENT +:+ "/" +:+ "0.9") ++ string_bytes (CRLF +:+ CRLF))).
Proof. exact (connect_established (ex_ReadRequest ex_connect) ex_WriteRequest ex_SplitHostPort "0.9" ex_conn ex_connect [[78]] ("example.com:443", "") eq_refl eq_refl ltac:(vm_compute; intros H; discriminate H) eq_refl). Defined.

Lemma plain_request_forwarded_witness :
  let req := ex_get "example.com" in
  let c := httpProxyHandshake (ex_ReadRequest req) ex_WriteRequest ex_SplitHostPort "0.9" ex_conn in
  (forall k, strip_proxy (Header req) !! k = if HasPrefix k "Proxy" then None else Header req !! k) /\
  snd c = mkPb (ex_WriteRequest (mkRequest "GET" "example.com" (strip_proxy (Header req))) :: [[78]]) [] /\
  fst c = Ok (REQ_PROT_HTTP, "example.com:80").
Proof.
  exact (plain_request_forwarded (ex_ReadRequest (ex_get "example.com")) ex_WriteRequest ex_SplitHostPort "0.9" ex_conn (ex_get "example.com") [[78]] eq_refl ltac:(vm_compute; intros H; discriminate H) ltac:(vm_compute; intros H; discriminate H) ltac:(vm_compute; intros H; discriminate H)).
Defined.

Lemma connect_without_port_witness :
  let req := mkRequest "CONNECT" "example.com" ∅ in
  let m := "address example.com: missing port in address" in
  httpProxyHandshake (ex_ReadRequest req) ex_WriteRequest ex_SplitHostPort "0.9" ex_conn =
    (Err (PVString m), connect_reply "0.9" (mkPb [[78]] [])) /\
  pb_out (connect_reply "0.9" (mkPb [[78]] [])) = ([] ++ string_bytes HTTP_PROXY_VER_LINE ++
    string_bytes CRLF ++ string_bytes (HTTP_PROXY_AGENT +:+ "/" +:+ "0.9") ++ string_bytes (CRLF +:+ CRLF))%list.
Proof. exact (connect_without_port (ex_ReadRequest (mkRequest "CONNECT" "example.com" ∅)) ex_WriteRequest ex_SplitHostPort "0.9" ex_conn (mkRequest "CONNECT" "example.com" ∅) [[78]] "address example.com: missing port in address" eq_refl eq_refl ltac:(vm_compute; intros H; discriminate H) eq_refl). Defined.

Lemma port_in_host_defaults_witness :
  fst (httpProxyHandshake (ex_ReadRequest (ex_get "[airport")) ex_WriteRequest ex_SplitHostPort "0.9" ex_conn) =
  Ok (REQ_PROT_HTTP, "[airport:80").
Proof.
  exact (port_in_host_defaults (ex_ReadRequest (ex_get "[airport")) ex_WriteRequest ex_SplitHostPort "0.9" ex_conn (ex_get "[airport") [[78]] "missing ']' in address"
           eq_refl ltac:(vm_compute; intros H; discriminate H) ltac:(vm_compute; intros H; discriminate H) eq_refl eq_refl).
Defined.

End HttpProxy.
