(* ===== verification/Cipher.v ===== *)
(** * cipher.go: the cipher factory, the key derivation and the streams

    [availableCiphers] maps a cipher name to its key length and builder;
    [NewCipherFactory] derives the key from the shared secret with
    [toSecretKey] and [CipherFactory.NewCipher] builds the [Cipher] pair
    (an encrypting and a decrypting [cipher.Stream]) of a connection.
    The primitives are library calls and stay parameters of the section:
    MD5 (as the digest of everything written to the hash), the AES block
    function and RC4's keystream generator.  The CFB mode is the byte-wise
    reading of Go's [cfb.XORKeyStream] (crypto/cipher), over the abstract
    block function; it is proved to compute the block-wise CFB
    encryption [cfb_encrypt_ref]. *)

From stdpp Require Import base list strings gmap.
From Stdlib Require Import ZArith Lia.
From S2P Require Import Prelude Exception.

Module Cipher.
Import Exception.

Definition UNSUPPORTED_CIPHER : Exception := NewW "Unsupported cipher".

Definition MD5_SIZE : nat := 16.
Definition BLOCK_SIZE : nat := 16.

Inductive builder := newRC4_b | newAES_CFB_b.

(** [type cipherDecr struct { keyLen int; builder cipherBuilder }] *)
Record cipherDecr := mkDecr { keyLen : nat; bld : builder }.

(** [var availableCiphers = map[string]*cipherDecr{...}] *)
Definition availableCiphers : gmap string cipherDecr :=
  {[ "RC4" := mkDecr 16 newRC4_b; "AES128CFB" := mkDecr 16 newAES_CFB_b; "AES256CFB" := mkDecr 32 newAES_CFB_b ]}.

Section Primitives.

(** [h.Sum(nil)] of an MD5 hash into which [m] has been written. *)
Variable md5 : list Z -> list Z.
(** The state of an RC4 keystream, its key schedule and one output byte. *)
Variable rc4_state : Type.
Variable rc4_init : list Z -> rc4_state.
Variable rc4_next : rc4_state -> Z * rc4_state.
(** [block.Encrypt] of the AES block cipher with the given key. *)
Variable aes_block : list Z -> list Z -> list Z.

(** [toSecretKey(secret, size)]: [size / 16] rounds, each writing the
    secret once more into the same hash and copying its digest into
    [buf[16*i : 16*(i+1)-1]]. *)
Definition toSecretKey (secret : list Z) (size : nat) : list Z :=
  let count := Nat.div size MD5_SIZE in
  foldl (fun buf i => go_copy buf (MD5_SIZE * i)%nat (MD5_SIZE * (i + 1) - 1)%nat (md5 (concat (replicate (S i) secret))))
        (replicate size 0) (seq 0 count).

(** A [cipher.Stream]: RC4's state, or a CFB stream ([cfb] of
    crypto/cipher: the key of its block cipher, [next], [out], [outUsed]
    and the [decrypt] flag). *)
Inductive stream_st :=
| RC4St (st : rc4_state)
| CFBSt (key next out : list Z) (used : nat) (decrypt : bool).

(** One byte through [XORKeyStream]. *)
Definition xor_byte (s : stream_st) (b : Z) : Z * stream_st :=
  match s with
  | RC4St st => let '(k, st') := rc4_next st in (Z.lxor b k, RC4St st')
  | CFBSt key next out used dec =>
      let '(out, used) := if decide (used = BLOCK_SIZE) then (aes_block key next, 0%nat) else (out, used) in
      let c := Z.lxor b (out !!! used) in
      (c, CFBSt key (<[used := if dec then b else c]> next) out (S used) dec)
  end.

(** [XORKeyStream(dst, src)]: the bytes of [src] in order. *)
Fixpoint XORKeyStream (s : stream_st) (src : list Z) : list Z * stream_st :=
  match src with
  | [] => ([], s)
  | b :: src' => let '(c, s') := xor_byte s b in let '(cs, s'') := XORKeyStream s' src' in (c :: cs, s'')
  end.

(** [type Cipher struct { enc, dec cipher.Stream }] *)
Record Cipher := mkCipher { enc : stream_st; dec : stream_st }.

Definition encrypt (c : Cipher) (src : list Z) : list Z * Cipher :=
  let '(dst, e) := XORKeyStream (enc c) src in (dst, mkCipher e (dec c)).

Definition decrypt (c : Cipher) (src : list Z) : list Z * Cipher :=
  let '(dst, d) := XORKeyStream (dec c) src in (dst, mkCipher (enc c) d).

(** [newRC4(key, iv)]: the decrypting state is a copy ([dc := *ec]) of
    the encrypting one. *)
Definition newRC4 (key : list Z) (iv : option (list Z)) : option Cipher :=
  Some (mkCipher (RC4St (rc4_init key)) (RC4St (rc4_init key))).

(** [newAES_CFB(key, iv)]: the IV is the key's first block when [iv] is
    nil, the first block of [iv] otherwise ([iv[:16]] panics beyond the
    slice's capacity, taken here to be its length; the only caller passes
    nil); [NewCFBEncrypter]/[NewCFBDecrypter] start with [next = iv] and
    a used-up [out]. *)
Definition newAES_CFB (key : list Z) (iv : option (list Z)) : option Cipher :=
  let iv' := match iv with
             | None => if decide (BLOCK_SIZE <= length key)%nat then Some (take BLOCK_SIZE key) else None
             | Some v => if decide (BLOCK_SIZE <= length v)%nat then Some (take BLOCK_SIZE v) else None
             end in
  v ← iv';
  Some (mkCipher (CFBSt key v (replicate BLOCK_SIZE 0) BLOCK_SIZE false)
                 (CFBSt key v (replicate BLOCK_SIZE 0) BLOCK_SIZE true)).

Definition run_builder (b : builder) : list Z -> option (list Z) -> option Cipher :=
  match b with newRC4_b => newRC4 | newAES_CFB_b => newAES_CFB end.

(** [type CipherFactory struct { key []byte; builder cipherBuilder }] *)
Record CipherFactory := mkFactory { cf_key : list Z; cf_builder : builder }.

(** [CipherFactory.NewCipher(iv)]; [None] is a panic of the builder. *)
Definition NewCipher (f : CipherFactory) (iv : option (list Z)) : option Cipher :=
  run_builder (cf_builder f) (cf_key f) iv.

(** [NewCipherFactory(name, secret)]: an unknown name reads a nil
    [*cipherDecr] and [def.keyLen] dereferences it. *)
Definition NewCipherFactory (name : string) (secret : list Z) : result string CipherFactory :=
  match availableCiphers !! name with
  | Some def => Ok (mkFactory (toSecretKey secret (keyLen def)) (bld def))
  | None => Err "invalid memory address or nil pointer dereference"
  end.

(** Chunks encrypted, or decrypted, one [XORKeyStream] call each. *)
Fixpoint encrypt_chunks (c : Cipher) (ps : list (list Z)) : list (list Z) * Cipher :=
  match ps with
  | [] => ([], c)
  | p :: ps' => let '(x, c') := encrypt c p in let '(xs, c'') := encrypt_chunks c' ps' in (x :: xs, c'')
  end.

Fixpoint decrypt_chunks (c : Cipher) (ps : list (list Z)) : list (list Z) * Cipher :=
  match ps with
  | [] => ([], c)
  | p :: ps' => let '(x, c') := decrypt c p in let '(xs, c'') := decrypt_chunks c' ps' in (x :: xs, c'')
  end.

(** CFB encryption as NIST SP 800-38A states it, block by block: each
    ciphertext block is the plaintext block xored with the encryption of
    the previous ciphertext block, [prev] (the IV) for the first; [fuel]
    bounds the number of blocks.  A reference for [XORKeyStream]. *)
Fixpoint cfb_encrypt_ref (fuel : nat) (key prev p : list Z) : list Z :=
  match fuel, p with
  | O, _ => []
  | _, [] => []
  | S fuel', _ =>
      let c := zip_with Z.lxor (take BLOCK_SIZE p) (aes_block key prev) in
      c ++ cfb_encrypt_ref fuel' key c (drop BLOCK_SIZE p)
  end.

End Primitives.

(** ** Properties *)

Section Props.

Variable md5 : list Z -> list Z.
Hypothesis md5_len : forall m, length (md5 m) = MD5_SIZE.
Variable rc4_state : Type.
Variable rc4_init : list Z -> rc4_state.
Variable rc4_next : rc4_state -> Z * rc4_state.
Variable aes_block : list Z -> list Z -> list Z.

(** The block round [i] of [toSecretKey] leaves in the key. *)
Definition key_block (secret : list Z) (i : nat) : list Z := take 15 (md5 (concat (replicate (S i) secret))) ++ [0].

Lemma length_key_blocks secret k : length (concat (map (key_block secret) (seq 0 k))) = (16 * k)%nat.
Proof.
  induction k as [|k IH]; [done|]. rewrite seq_S, map_app, concat_app, length_app, IH. cbn [map concat].
  rewrite app_nil_r. unfold key_block. rewrite length_app, length_take, md5_len. cbn. lia.
Qed.

Lemma toSecretKey_rounds secret count k :
  (k <= count)%nat ->
  foldl (fun buf i => go_copy buf (MD5_SIZE * i)%nat (MD5_SIZE * (i + 1) - 1)%nat (md5 (concat (replicate (S i) secret))))
        (replicate (16 * count) 0) (seq 0 k)
  = concat (map (key_block secret) (seq 0 k)) ++ replicate (16 * (count - k)) 0.
Proof.
  induction k as [|k IH]; intros Hk; [by rewrite Nat.sub_0_r|].
  rewrite seq_S, foldl_app, IH by lia. cbn [foldl]. rewrite Nat.add_0_l. unfold go_copy.
  rewrite md5_len. unfold MD5_SIZE. replace (Nat.min (16 * (k + 1) - 1 - 16 * k) 16) with 15%nat by lia.
  rewrite take_app_length' by (rewrite length_key_blocks; lia).
  rewrite drop_app_add' by (rewrite length_key_blocks; lia). rewrite drop_replicate.
  rewrite map_app, concat_app. cbn [map concat]. rewrite app_nil_r, <- !List.app_assoc. f_equal.
  unfold key_block. rewrite <- List.app_assoc. f_equal. cbn [app].
  replace (16 * (count - k) - 15)%nat with (S (16 * (count - S k))) by lia. done.
Qed.

(** The key is the blocks of [key_block], one per round. *)
Lemma toSecretKey_layout secret count :
  toSecretKey md5 secret (16 * count) = concat (map (key_block secret) (seq 0 count)).
Proof.
  unfold toSecretKey, MD5_SIZE. rewrite Nat.mul_comm, Nat.div_mul, Nat.mul_comm by lia.
  rewrite toSecretKey_rounds, Nat.sub_diag by lia. apply app_nil_r.
Qed.

(** ** The two ends of a stream *)

Local Notation xks := (XORKeyStream rc4_state rc4_next aes_block).
Local Notation xbyte := (xor_byte rc4_state rc4_next aes_block).

(** An encrypting and a decrypting stream in the same position. *)
Definition lockstep (e d : stream_st rc4_state) : Prop :=
  match e, d with
  | RC4St _ a, RC4St _ b => a = b
  | CFBSt _ k n o u false, CFBSt _ k' n' o' u' true => k = k' /\ n = n' /\ o = o' /\ u = u'
  | _, _ => False
  end.

Lemma lxor_cancel a k : Z.lxor (Z.lxor a k) k = a.
Proof. by rewrite Z.lxor_assoc, Z.lxor_nilpotent, Z.lxor_0_r. Qed.

Lemma xor_byte_lockstep e d p :
  lockstep e d ->
  lockstep (xbyte e p).2 (xbyte d (xbyte e p).1).2 /\ (xbyte d (xbyte e p).1).1 = p.
Proof.
  destruct e as [a|k n o u [|]], d as [b|k' n' o' u' [|]]; cbn; try done.
  - intros ->. destruct (rc4_next b) as [x st]. cbn. by rewrite lxor_cancel.
  - intros (-> & -> & -> & ->). destruct (decide (u' = BLOCK_SIZE)); cbn; by rewrite lxor_cancel.
Qed.

Lemma xks_lockstep e d p :
  lockstep e d -> lockstep (xks e p).2 (xks d (xks e p).1).2 /\ (xks d (xks e p).1).1 = p.
Proof.
  revert e d. induction p as [|b p IH]; intros e d Hl; cbn; [done|].
  destruct (xbyte e b) as [c e1] eqn:He. destruct (xks e1 p) as [cs e2] eqn:He2. cbn.
  pose proof (xor_byte_lockstep e d b Hl) as [Hl1 Hb]. rewrite He in Hl1, Hb. cbn in Hl1, Hb.
  destruct (xbyte d c) as [b' d1] eqn:Hd. cbn in Hl1, Hb. subst b'.
  destruct (IH e1 d1 Hl1) as [Hl2 Hp]. rewrite He2 in Hl2, Hp. cbn in Hl2, Hp.
  destruct (xks d1 cs) as [p' d2] eqn:Hd2. cbn in *. by subst p'.
Qed.

Lemma xks_app s a b : xks s (a ++ b) = ((xks s a).1 ++ (xks (xks s a).2 b).1, (xks (xks s a).2 b).2).
Proof.
  revert s. induction a as [|x a IH]; intros s; cbn; [by destruct (xks s b)|].
  destruct (xbyte s x) as [c s1]. rewrite IH. destruct (xks s1 a) as [cs s2]. cbn. done.
Qed.

Lemma encrypt_chunks_concat c ps :
  concat (encrypt_chunks rc4_state rc4_next aes_block c ps).1 = (xks (enc _ c) (concat ps)).1 /\
  enc _ (encrypt_chunks rc4_state rc4_next aes_block c ps).2 = (xks (enc _ c) (concat ps)).2 /\
  dec _ (encrypt_chunks rc4_state rc4_next aes_block c ps).2 = dec _ c.
Proof.
  revert c. induction ps as [|p ps IH]; intros c; cbn; [done|].
  unfold encrypt. destruct (xks (enc _ c) p) as [x e1] eqn:He. cbn.
  destruct (IH (mkCipher _ e1 (dec _ c))) as (H1 & H2 & H3).
  destruct (encrypt_chunks _ _ _ _ ps) as [xs c2]. cbn in *. rewrite xks_app, He. cbn. by rewrite H1, H2.
Qed.

Lemma decrypt_chunks_concat c ps :
  concat (decrypt_chunks rc4_state rc4_next aes_block c ps).1 = (xks (dec _ c) (concat ps)).1.
Proof.
  revert c. induction ps as [|p ps IH]; intros c; cbn; [done|].
  unfold decrypt. destruct (xks (dec _ c) p) as [x d1] eqn:Hd. cbn.
  specialize (IH (mkCipher _ (enc _ c) d1)). destruct (decrypt_chunks _ _ _ _ ps) as [xs c2]. cbn in *.
  rewrite xks_app, Hd. cbn. by rewrite IH.
Qed.

Lemma NewCipher_lockstep f iv c :
  NewCipher rc4_state rc4_init f iv = Some c -> lockstep (enc _ c) (dec _ c).
Proof.
  unfold NewCipher, run_builder. destruct (cf_builder f).
  - by intros [= <-].
  - unfold newAES_CFB. destruct iv as [v|]; case_decide; intros; simplify_eq/=; done.
Qed.

(** C4: the two ends of a connection built by [NewCipher] from the same
    factory and IV invert each other: the plaintext written in any
    sequence of [encrypt] calls is recovered by [decrypt] calls on the
    ciphertext, however the ciphertext is cut into reads (spec section 8,
    P2). *)
Theorem cipher_roundtrip f iv c (ps qs : list (list Z)) :
  NewCipher rc4_state rc4_init f iv = Some c ->
  concat qs = concat (encrypt_chunks rc4_state rc4_next aes_block c ps).1 ->
  concat (decrypt_chunks rc4_state rc4_next aes_block c qs).1 = concat ps.
Proof.
  intros Hc Hq. rewrite decrypt_chunks_concat, Hq.
  destruct (encrypt_chunks_concat c ps) as (-> & _ & _).
  apply xks_lockstep, (NewCipher_lockstep f iv c Hc).
Qed.

(** ** Keystream reuse *)

(** The first [n] bytes of RC4's keystream from state [s]. *)
Fixpoint rc4_keystream (s : rc4_state) (n : nat) : list Z :=
  match n with
  | O => []
  | S n' => let '(k, s') := rc4_next s in k :: rc4_keystream s' n'
  end.

Lemma xks_rc4 s p : (xks (RC4St _ s) p).1 = zip_with Z.lxor p (rc4_keystream s (length p)).
Proof.
  revert s. induction p as [|b p IH]; intros s; cbn; [done|].
  destruct (rc4_next s) as [k s'] eqn:Hs. cbn. specialize (IH s').
  destruct (xks (RC4St _ s') p) as [cs s'']. cbn in *. by rewrite IH.
Qed.

(** Inside one block, CFB xors the bytes with that block's [out]. *)
Lemma xks_cfb_block key next out u d p :
  (u + length p <= BLOCK_SIZE)%nat ->
  (xks (CFBSt _ key next out u d) p).1 = zip_with Z.lxor p (map (fun i => out !!! i) (seq u (length p))).
Proof.
  revert next u. induction p as [|b p IH]; intros next u Hu; cbn; [done|].
  cbn in Hu. rewrite decide_False by (unfold BLOCK_SIZE in *; lia). cbn.
  match goal with |- context [xks (CFBSt _ key ?n out (S u) d) p] =>
    specialize (IH n (S u) ltac:(lia)); destruct (xks (CFBSt _ key n out (S u) d) p) eqn:E end.
  cbn in *. by rewrite IH.
Qed.

Lemma xks_cfb_fresh key iv p :
  (length p <= BLOCK_SIZE)%nat ->
  (xks (CFBSt _ key iv (replicate BLOCK_SIZE 0) BLOCK_SIZE false) p).1
  = zip_with Z.lxor p (map (fun i => aes_block key iv !!! i) (seq 0 (length p))).
Proof.
  destruct p as [|b p]; intros Hp; cbn; [done|]. rewrite decide_True by done. cbn.
  pose proof (xks_cfb_block key (<[0%nat:=Z.lxor b (aes_block key iv !!! 0%nat)]> iv) (aes_block key iv) 1 false p
    ltac:(cbn in *; lia)) as IH.
  destruct (xks _ p) eqn:E. cbn in *. by rewrite IH.
Qed.

Lemma zip_with_lxor_same_key p1 p2 k :
  length p1 = length p2 -> (length p1 <= length k)%nat ->
  zip_with Z.lxor (zip_with Z.lxor p1 k) (zip_with Z.lxor p2 k) = zip_with Z.lxor p1 p2.
Proof.
  revert p2 k. induction p1 as [|a p1 IH]; intros [|b p2] [|x k] Hl Hk; cbn in *; try done; try lia.
  f_equal; [|apply IH; lia].
  by rewrite Z.lxor_assoc, (Z.lxor_comm x), Z.lxor_assoc, Z.lxor_nilpotent, Z.lxor_0_r.
Qed.

Lemma length_rc4_keystream s n : length (rc4_keystream s n) = n.
Proof. revert s. induction n as [|n IH]; intros s; cbn; [done|]. destruct (rc4_next s). cbn. by rewrite IH. Qed.

Lemma encrypt_fst c p : (encrypt rc4_state rc4_next aes_block c p).1 = (xks (enc _ c) p).1.
Proof. unfold encrypt. by destruct (xks (enc _ c) p). Qed.

(** ** Go's byte-wise CFB against the block-wise definition *)

Lemma map_lookup_total_seq (l : list Z) n : (n <= length l)%nat -> map (fun i => l !!! i) (seq 0 n) = take n l.
Proof.
  induction n as [|n IH]; intros Hn; [done|]. rewrite seq_S, map_app, IH by lia. cbn [map].
  rewrite (take_S_r l n (l !!! n)); [done|]. apply list_lookup_lookup_total_lt. lia.
Qed.

Lemma zip_with_lxor_take (p k : list Z) n : (length p <= n)%nat -> zip_with Z.lxor p (take n k) = zip_with Z.lxor p k.
Proof.
  revert k n. induction p as [|a p IH]; intros [|x k] [|n] H; cbn in *; try done; try lia. f_equal. apply IH. lia.
Qed.

(** A used-up block is refilled with the encryption of [next] on the
    next byte. *)
Lemma xks_cfb_refill key next out d p :
  p <> [] -> xks (CFBSt _ key next out BLOCK_SIZE d) p = xks (CFBSt _ key next (aes_block key next) 0 d) p.
Proof. destruct p as [|b p]; [done|]. intros _. cbn [XORKeyStream xor_byte]. by rewrite decide_True, decide_False. Qed.

(** The rest of a block: the bytes are xored with [out] and, when
    encrypting, the ciphertext is fed back into [next]. *)
Lemma xks_cfb_rest key next out u p :
  length next = BLOCK_SIZE -> (u + length p = BLOCK_SIZE)%nat ->
  xks (CFBSt _ key next out u false) p =
    (zip_with Z.lxor p (map (fun i => out !!! i) (seq u (length p))),
     CFBSt _ key (take u next ++ zip_with Z.lxor p (map (fun i => out !!! i) (seq u (length p)))) out BLOCK_SIZE false).
Proof.
  revert next u. induction p as [|b p IH]; intros next u Hn Hu; cbn [length] in Hu.
  - cbn. rewrite Nat.add_0_r in Hu. subst u. by rewrite app_nil_r, take_ge by lia.
  - cbn [XORKeyStream xor_byte]. rewrite decide_False by (unfold BLOCK_SIZE in *; lia). cbn [fst snd].
    rewrite (IH (<[u := Z.lxor b (out !!! u)]> next) (S u)); [|by rewrite length_insert|lia].
    cbn [seq map zip_with]. f_equal. f_equal.
    rewrite (take_S_r _ _ (Z.lxor b (out !!! u))) by (apply list_lookup_insert_eq; unfold BLOCK_SIZE in *; lia).
    rewrite take_insert, decide_False by lia. cbn [length seq map zip_with]. by rewrite <-app_assoc.
Qed.

(** [XORKeyStream] of an encrypting CFB stream whose block is used up
    computes the block-wise CFB encryption from [next] on. *)
Lemma xks_cfb_ref key next out p fuel :
  (forall b, length b = BLOCK_SIZE -> length (aes_block key b) = BLOCK_SIZE) ->
  length next = BLOCK_SIZE -> (length p <= BLOCK_SIZE * fuel)%nat ->
  (xks (CFBSt _ key next out BLOCK_SIZE false) p).1 = cfb_encrypt_ref aes_block fuel key next p.
Proof.
  intros Haes. revert next out p. induction fuel as [|fuel IH]; intros next out p Hn Hp.
  - destruct p; [done|cbn in Hp; lia].
  - destruct p as [|b p']; [done|]. rewrite xks_cfb_refill by done. cbn [cfb_encrypt_ref].
    set (p := b :: p') in *. pose proof (Haes next Hn) as Ha.
    destruct (decide (length p <= BLOCK_SIZE)%nat) as [Hle|Hgt].
    + rewrite xks_cfb_block by lia. rewrite take_ge, drop_ge by lia.
      rewrite map_lookup_total_seq, zip_with_lxor_take by lia. destruct fuel; cbn; by rewrite app_nil_r.
    + assert (Hs : p = take BLOCK_SIZE p ++ drop BLOCK_SIZE p) by (symmetry; apply take_drop).
      rewrite Hs at 1. rewrite xks_app.
      rewrite (xks_cfb_rest key next (aes_block key next) 0 (take BLOCK_SIZE p)) by (rewrite ?length_take; lia).
      cbn [fst snd]. rewrite take_0, app_nil_l, length_take, Nat.min_l by lia.
      rewrite map_lookup_total_seq, zip_with_lxor_take by (rewrite ?length_take; lia). f_equal. apply IH.
      * rewrite length_zip_with, length_take. lia.
      * rewrite length_drop. lia.
Qed.

(** C14: every connection of a tunnel builds its cipher with
    [NewCipher(nil)] from the one factory (d5.go:357 and :482).  With
    RC4 a connection's bytes are xored with the keystream of the
    factory's key from its first byte.  With AES-CFB they are the CFB
    encryption of the bytes under the factory's key with the key's first
    block as IV.  So two connections encrypt under the same keystream:
    the xor of their first ciphertexts is the xor of their plaintexts,
    for any length with RC4 and within the first block with AES-CFB. *)
Theorem keystream_reuse f c1 c2 p1 p2 :
  NewCipher rc4_state rc4_init f None = Some c1 ->
  NewCipher rc4_state rc4_init f None = Some c2 ->
  length p1 = length p2 ->
  (forall b, length b = BLOCK_SIZE -> length (aes_block (cf_key f) b) = BLOCK_SIZE) ->
  match cf_builder f with
  | newRC4_b =>
      (encrypt rc4_state rc4_next aes_block c1 p1).1 = zip_with Z.lxor p1 (rc4_keystream (rc4_init (cf_key f)) (length p1)) /\
      zip_with Z.lxor (encrypt rc4_state rc4_next aes_block c1 p1).1 (encrypt rc4_state rc4_next aes_block c2 p2).1
        = zip_with Z.lxor p1 p2
  | newAES_CFB_b =>
      (encrypt rc4_state rc4_next aes_block c1 p1).1
        = cfb_encrypt_ref aes_block (length p1) (cf_key f) (take BLOCK_SIZE (cf_key f)) p1 /\
      ((length p1 <= BLOCK_SIZE)%nat ->
       zip_with Z.lxor (encrypt rc4_state rc4_next aes_block c1 p1).1 (encrypt rc4_state rc4_next aes_block c2 p2).1
         = zip_with Z.lxor p1 p2)
  end.
Proof.
  rewrite !encrypt_fst. unfold NewCipher, run_builder. intros H1 H2 Hl Haes.
  destruct (cf_builder f).
  - injection H1 as <-. injection H2 as <-. cbn [enc]. rewrite !xks_rc4. split; [done|]. rewrite Hl.
    apply zip_with_lxor_same_key; [done|]. rewrite length_rc4_keystream; lia.
  - unfold newAES_CFB in H1, H2. case_decide; [|done]. cbn in H1, H2. injection H1 as <-. injection H2 as <-.
    cbn [enc]. split.
    + apply xks_cfb_ref; [done|rewrite length_take; unfold BLOCK_SIZE in *; lia|unfold BLOCK_SIZE; lia].
    + intros Hb. rewrite !xks_cfb_fresh, Hl by lia.
      apply zip_with_lxor_same_key; [done|]. rewrite length_map, length_seq; lia.
Qed.

Lemma key_blocks_zero secret count j :
  (j < count)%nat -> concat (map (key_block secret) (seq 0 count)) !!! (16 * j + 15)%nat = 0.
Proof.
  induction count as [|k IH]; intros Hj; [lia|].
  rewrite seq_S, map_app, concat_app. cbn [map concat]. rewrite app_nil_r.
  destruct (decide (j < k)%nat).
  - rewrite lookup_total_app_l by (rewrite length_key_blocks; lia). by apply IH.
  - assert (j = k) as -> by lia.
    rewrite lookup_total_app_r by (rewrite length_key_blocks; lia). rewrite length_key_blocks.
    replace (16 * k + 15 - 16 * k)%nat with 15%nat by lia. unfold key_block.
    rewrite lookup_total_app_r by (rewrite length_take, md5_len; cbn; lia).
    by rewrite length_take, md5_len.
Qed.

(** C31: [NewCipherFactory] answers an unknown cipher name with the nil
    dereference of [def.keyLen] (the [UNSUPPORTED_CIPHER] exception it
    declares is never raised), and for the three known names derives a
    16 or 32-byte key in which every sixteenth byte is zero, so the key
    has at most 15 bytes of digest per block. *)
Theorem NewCipherFactory_keys name secret :
  match NewCipherFactory md5 name secret with
  | Err e => e = "invalid memory address or nil pointer dereference" /\ name ∉ ["RC4"; "AES128CFB"; "AES256CFB"]
  | Ok f => (length (cf_key f) = 16 \/ length (cf_key f) = 32)%nat /\
            forall j, (16 * j + 15 < length (cf_key f))%nat -> cf_key f !!! (16 * j + 15)%nat = 0
  end.
Proof.
  unfold NewCipherFactory. destruct (availableCiphers !! name) as [[n b]|] eqn:Hn.
  - assert (n = 16 \/ n = 32)%nat as Hlen.
    { unfold availableCiphers in Hn. rewrite !lookup_insert_Some, lookup_singleton_Some in Hn. destruct Hn as [[_ Hd]|[_ [[_ Hd]|[_ [_ Hd]]]]]; simplify_eq; lia. }
    cbn [cf_key keyLen]. pose proof (toSecretKey_layout secret (Nat.div n 16)) as Hk.
    replace (16 * Nat.div n 16)%nat with n in Hk by (destruct Hlen; subst; done). rewrite Hk, length_key_blocks.
    split; [destruct Hlen; subst; cbn; lia|]. intros j Hj. apply key_blocks_zero. lia.
  - split; [done|]. unfold availableCiphers in Hn. rewrite !lookup_insert_None, lookup_singleton_None in Hn.
    destruct Hn as [[H1 H2] H3]. rewrite !not_elem_of_cons. repeat split; [congruence..|apply not_elem_of_nil].
Qed.

End Props.


(** ** Witnesses *)

(** A stand-in digest of the right size, an additive RC4-like generator
    and a block function, to run the streams on concrete bytes. *)
Definition ex_md5 (m : list Z) : list Z := map (fun i => Z.of_nat i + foldl Z.add 0 m) (seq 0 16).
Definition ex_rc4_init (k : list Z) : Z := foldl Z.add 0 k.
Definition ex_rc4_next (s : Z) : Z * Z := (Z.land s 255, s * 5 + 1).
Definition ex_aes (key next : list Z) : list Z := zip_with Z.add key next.
Definition ex_secret : list Z := [115; 101; 99; 114; 101; 116].
Definition ex_factory (b : builder) (n : nat) : CipherFactory := mkFactory (toSecretKey ex_md5 ex_secret n) b.
Definition ex_plain : list (list Z) := [[104; 101; 108; 108; 111]; seqZ 0 20; [7]].
Definition ex_ct (b : builder) (iv : option (list Z)) : list Z :=
  match NewCipher Z ex_rc4_init (ex_factory b 32) iv with
  | Some c => concat (encrypt_chunks Z ex_rc4_next ex_aes c ex_plain).1
  | None => []
  end.

Lemma cipher_roundtrip_witness :
  concat (decrypt_chunks Z ex_rc4_next ex_aes
            (mkCipher _ (CFBSt _ (toSecretKey ex_md5 ex_secret 32) (seqZ 1 16) (replicate 16 0) 16 false)
                        (CFBSt _ (toSecretKey ex_md5 ex_secret 32) (seqZ 1 16) (replicate 16 0) 16 true))
            [take 3 (ex_ct newAES_CFB_b (Some (seqZ 1 16))); drop 3 (ex_ct newAES_CFB_b (Some (seqZ 1 16)))]).1
  = concat ex_plain.
Proof.
  apply (cipher_roundtrip Z ex_rc4_init ex_rc4_next ex_aes (ex_factory newAES_CFB_b 32) (Some (seqZ 1 16)));
    vm_compute; reflexivity.
Defined.

Definition ex_key16 : list Z := toSecretKey ex_md5 ex_secret 16.
Definition ex_cfb_cipher : Cipher Z :=
  mkCipher _ (CFBSt _ ex_key16 (take 16 ex_key16) (replicate 16 0) 16 false)
             (CFBSt _ ex_key16 (take 16 ex_key16) (replicate 16 0) 16 true).

Lemma ex_aes_length b : length b = BLOCK_SIZE -> length (ex_aes ex_key16 b) = BLOCK_SIZE.
Proof. intros Hb. unfold ex_aes. rewrite length_zip_with, Hb. reflexivity. Qed.

Lemma keystream_reuse_witness :
  (encrypt Z ex_rc4_next ex_aes ex_cfb_cipher (seqZ 0 40)).1 = cfb_encrypt_ref ex_aes 40 ex_key16 (take 16 ex_key16) (seqZ 0 40) /\
  ((length (seqZ 0 40) <= BLOCK_SIZE)%nat ->
   zip_with Z.lxor (encrypt Z ex_rc4_next ex_aes ex_cfb_cipher (seqZ 0 40)).1 (encrypt Z ex_rc4_next ex_aes ex_cfb_cipher (replicate 40%nat 9)).1
   = zip_with Z.lxor (seqZ 0 40) (replicate 40%nat 9)).
Proof.
  exact (keystream_reuse Z ex_rc4_init ex_rc4_next ex_aes (ex_factory newAES_CFB_b 16) ex_cfb_cipher ex_cfb_cipher
           (seqZ 0 40) (replicate 40%nat 9) ltac:(vm_compute; reflexivity) ltac:(vm_compute; reflexivity)
           ltac:(vm_compute; reflexivity) ex_aes_length).
Defined.

Lemma NewCipherFactory_keys_witness :
  match NewCipherFactory ex_md5 "AES256CFB" ex_secret with
  | Err e => e = "invalid memory address or nil pointer dereference" /\ "AES256CFB" ∉ ["RC4"; "AES128CFB"; "AES256CFB"]
  | Ok f => (length (cf_key f) = 16 \/ length (cf_key f) = 32)%nat /\
            forall j, (16 * j + 15 < length (cf_key f))%nat -> cf_key f !!! (16 * j + 15)%nat = 0
  end.
Proof.
  apply (NewCipherFactory_keys ex_md5). intros m. reflexivity.
Defined.

End Cipher.
