(* ===== verification/ClientMgr.v ===== *)
(** * bootContext.go: the client manager and the verbosity option

    [clientMgr] holds the configured upstream endpoints, one [Client]
    per endpoint and, with more than one endpoint, the doubled index
    chain [0, 1, ..., N-1, 0, 1, ..., N-1] (as bytes) that
    [selectClient] scans from a random offset.  A [Client] is abstract:
    only its atomically read [State] matters to the selection, and it is
    a parameter of every theorem, so each call may see other states.
    [rand.Intn(N<<4)] is the argument [r] of [selectClient].
    [setLogVerbose] is the parsing of the [-v] option. *)

From stdpp Require Import base list strings.
From Stdlib Require Import ZArith Lia.
From S2P Require Import Prelude.

Module ClientMgr.

(** [a[lo:hi]]: panics unless [lo <= hi <= len(a)]. *)
Definition go_slice {A} (l : list A) (lo hi : nat) : option (list A) :=
  if decide (lo <= hi <= length l)%nat then Some (take (hi - lo) (drop lo l)) else None.

Section Mgr.

Context {D5Params Client : Type}.
(** [atomic.LoadInt32(&w.State)] *)
Variable State : Client -> Z.
(** [t.NewClient(d5p, dhKeys)] *)
Variable NewClient : D5Params -> Client.

(** [type clientMgr struct]; [dhKeys] is left out: it is only passed to
    [NewClient]. *)
Record clientMgr := mkMgr {
  d5pArray : list D5Params;
  clients : list (option Client);
  num : nat;
  indexChain : list Z
}.

(** [chain[i] = byte(i % num)] for [i < 2*num], when [num > 1]. *)
Definition index_chain (num : nat) : list Z :=
  if decide (1 < num)%nat then map (fun i => wrap 8 (Z.of_nat (i mod num))) (seq 0 (2 * num)) else [].

(** [NewClientMgr(d5c)]: one client per endpoint ([go c.StartSigTun]
    is the client's own loop, not modelled). *)
Definition NewClientMgr (d5pArray : list D5Params) : clientMgr :=
  let num := length d5pArray in
  mkMgr d5pArray (map (fun p => Some (NewClient p)) d5pArray) num (index_chain num).

(** [w != nil && atomic.LoadInt32(&w.State) >= 0] *)
Definition available (w : option Client) : bool :=
  match w with Some c => bool_decide (0 <= State c) | None => false end.

(** The loop over [m.indexChain[i : i+m.num-1]]: [m.clients[v]] panics
    out of range. *)
Fixpoint scan (cs : list (option Client)) (vs : list Z) : result string (option Client) :=
  match vs with
  | [] => Ok None
  | v :: vs' =>
      match cs !! Z.to_nat v with
      | None => Err "index out of range"
      | Some w => if available w then Ok w else scan cs vs'
      end
  end.

(** [selectClient()] with [rand.Intn(m.num<<4) = r]; [Ok None] is the
    [nil] returned after the log line and the [REST_INTERVAL] sleep. *)
Definition selectClient (m : clientMgr) (r : nat) : result string (option Client) :=
  if decide (1 < num m)%nat then
    let i := Nat.shiftr r 4 in
    match go_slice (indexChain m) i (i + num m - 1) with
    | None => Err "slice bounds out of range"
    | Some vs => scan (clients m) vs
    end
  else
    match clients m !! 0%nat with
    | None => Err "index out of range"
    | Some w => Ok (if available w then w else None)
    end.

(** What [selectClientServ] does with the connection. *)
Inductive serve := ClientServe (c : Client) | SafeClose.

Definition selectClientServ (m : clientMgr) (r : nat) : result string serve :=
  w ← selectClient m r;
  Ok (match w with Some c => ClientServe c | None => SafeClose end).

End Mgr.

(** [setLogVerbose(level)]: the warning printed, if any, and the level
    given to [log.Set_Verbose].  [vFlag[0]] is a byte of the string. *)
Definition setLogVerbose (verbosity : list Z) (level : Z) : option (list Z) * Z :=
  let '(warn, v) :=
    match verbosity with
    | [] => (None, -1)
    | [d] => if decide (48 <= d <= 57) then (None, d - 48) else (Some verbosity, -1)
    | _ => (Some verbosity, -1)
    end in
  (warn, if decide (0 <= v) then v else level).

(** ** Properties *)

Section Props.

Context {D5Params Client : Type}.
Variable State : Client -> Z.
Variable NewClient : D5Params -> Client.

Local Notation available := (available State).
Local Notation selectClient := (selectClient State).

(** The manager [NewClientMgr] builds: one client slot per endpoint and
    the chain of [num]. *)
Definition mgr_wf (m : clientMgr (D5Params:=D5Params) (Client:=Client)) : Prop :=
  num m = length (clients m) /\ indexChain m = index_chain (num m).

(** The first available client of a list of slots. *)
Fixpoint first_avail (ws : list (option Client)) : option Client :=
  match ws with
  | [] => None
  | w :: ws' => if available w then w else first_avail ws'
  end.

Lemma NewClientMgr_wf ps : mgr_wf (NewClientMgr NewClient ps).
Proof. split; cbn; [by rewrite length_map|done]. Qed.

Lemma index_chain_slice n i :
  (1 < n <= 256)%nat -> (i < n)%nat ->
  go_slice (index_chain n) i (i + n - 1) = Some (map (fun j => Z.of_nat (j mod n)) (seq i (n - 1))).
Proof.
  intros Hn Hi. unfold go_slice, index_chain. destruct (decide (1 < n)%nat); [|lia].
  rewrite length_map, length_seq, decide_True by lia. f_equal.
  rewrite skipn_map, firstn_map, drop_seq, take_seq.
  replace ((i + n - 1 - i) `min` (2 * n - i))%nat with (n - 1)%nat by lia.
  apply map_ext_in. intros j _. apply wrap_small.
  pose proof (Nat.mod_upper_bound j n ltac:(lia)). lia.
Qed.

Lemma scan_first cs vs :
  Forall (fun v => 0 <= v /\ (Z.to_nat v < length cs)%nat) vs ->
  scan State cs vs = Ok (first_avail (map (fun v => cs !!! Z.to_nat v) vs)).
Proof.
  induction 1 as [|v vs [_ Hv] _ IH]; cbn; [done|].
  destruct (cs !! Z.to_nat v) as [w|] eqn:Hw; [|apply lookup_ge_None in Hw; lia].
  rewrite (list_lookup_total_correct _ _ _ Hw). by destruct (available w).
Qed.

(** C11: with more than one endpoint, [selectClient] returns the first
    available client among the slots [i, i+1, ..., i+num-2] (mod num),
    [i = r >> 4] the random offset; it never panics. *)
Theorem selectClient_rotation m r :
  mgr_wf m -> (1 < num m <= 256)%nat -> (r < 16 * num m)%nat ->
  selectClient m r = Ok (first_avail (map (fun j : nat => clients m !!! (j mod num m)%nat) (seq (r / 16) (num m - 1))%nat)).
Proof.
  intros [Hlen Hc] Hn Hr. unfold ClientMgr.selectClient. rewrite decide_True by lia.
  rewrite Nat.shiftr_div_pow2, Hc. change (2 ^ 4)%nat with 16%nat.
  rewrite index_chain_slice by (try apply Nat.Div0.div_lt_upper_bound; lia).
  rewrite scan_first, map_map.
  - f_equal. f_equal. apply map_ext. intros j. by rewrite Nat2Z.id.
  - apply Forall_forall. intros v (j & -> & _)%list_elem_of_fmap. rewrite Nat2Z.id.
    pose proof (Nat.mod_upper_bound j (num m) ltac:(lia)). lia.
Qed.

Lemma first_avail_sound ws c : first_avail ws = Some c -> 0 <= State c /\ Some c ∈ ws.
Proof.
  induction ws as [|w ws IH]; cbn; [done|]. destruct w as [c'|]; cbn.
  - case_bool_decide; [intros [= ->]; split; [done|left]|intros (? & ?)%IH; split; [done|by right]].
  - intros (? & ?)%IH. split; [done|by right].
Qed.

Lemma first_avail_complete ws w : w ∈ ws -> available w = true -> exists c, first_avail ws = Some c.
Proof.
  induction ws as [|w' ws IH]; cbn; [by intros ?%elem_of_nil|].
  intros [-> | Hin]%elem_of_cons Ha.
  - rewrite Ha. destruct w'; [by eexists|done].
  - destruct (available w') eqn:Ha'; [destruct w'; [by eexists|done]|by apply IH].
Qed.

Lemma first_avail_none ws : Forall (fun w => available w = false) ws -> first_avail ws = None.
Proof. induction 1 as [|w ws Hw _ IH]; cbn; [done|]. by rewrite Hw. Qed.

Lemma rotation_slot n i j :
  (0 < n)%nat -> (i < n)%nat -> (j < n)%nat -> j <> ((i + n - 1) mod n)%nat -> exists k, (i <= k < i + (n - 1) /\ k mod n = j)%nat.
Proof.
  intros Hn Hi Hj Hne. destruct (decide (i <= j)%nat).
  - exists j. split; [|by apply Nat.mod_small].
    destruct (decide (j = i + n - 1)%nat); [|lia]. subst. rewrite Nat.mod_small in Hne; lia.
  - exists (j + n)%nat. split.
    + destruct (decide (j + 1 = i)%nat) as [Heq|]; [|lia]. subst i.
      replace (j + 1 + n - 1)%nat with (j + 1 * n)%nat in Hne by lia. rewrite Nat.Div0.mod_add, Nat.mod_small in Hne; lia.
    + replace (j + n)%nat with (j + 1 * n)%nat by lia. rewrite Nat.Div0.mod_add. by apply Nat.mod_small.
Qed.

(** with more than one endpoint, if some client other than the one in
    slot [(i+num-1) mod num] is available, [selectClient] returns an
    available client. *)
Theorem selectClient_finds m r j :
  mgr_wf m -> (1 < num m <= 256)%nat -> (r < 16 * num m)%nat -> (j < num m)%nat ->
  j <> ((r / 16 + num m - 1) mod num m)%nat -> available (clients m !!! j) = true ->
  exists c, selectClient m r = Ok (Some c) /\ 0 <= State c.
Proof.
  intros Hwf Hn Hr Hj Hne Ha. rewrite (selectClient_rotation m r Hwf Hn Hr).
  assert (r / 16 < num m)%nat by (apply Nat.Div0.div_lt_upper_bound; lia).
  destruct (rotation_slot (num m) (r / 16) j) as (k & Hk & Hkj); [lia..|done|].
  destruct (first_avail_complete (map (fun j : nat => clients m !!! (j mod num m)%nat) (seq (r / 16) (num m - 1))%nat) (clients m !!! j))
    as [c Hc]; [|done|].
  - apply list_elem_of_fmap. exists k. split; [by rewrite Hkj|]. apply elem_of_seq. lia.
  - exists c. split; [by rewrite Hc|]. by apply first_avail_sound in Hc as [? _].
Qed.

(** C28: the scan reads [num-1] slots, so the client in slot
    [(i+num-1) mod num] is never offered: when it is the only available
    one, [selectClient] gives up ([nil]) for that offset, one request in
    [num] on average. *)
Theorem selectClient_skips_last m r w :
  mgr_wf m -> (1 < num m <= 256)%nat -> (r < 16 * num m)%nat ->
  clients m !!! ((r / 16 + num m - 1) mod num m)%nat = w -> available w = true ->
  (forall j, (j < num m)%nat -> j <> ((r / 16 + num m - 1) mod num m)%nat -> available (clients m !!! j) = false) ->
  selectClient m r = Ok None.
Proof.
  intros Hwf Hn Hr _ _ Hothers. rewrite (selectClient_rotation m r Hwf Hn Hr). f_equal.
  assert (r / 16 < num m)%nat by (apply Nat.Div0.div_lt_upper_bound; lia).
  apply first_avail_none, Forall_forall. intros w' (k & -> & Hk%elem_of_seq)%list_elem_of_fmap.
  apply Hothers; [apply Nat.mod_upper_bound; lia|].
  intros Heq. destruct (decide (k < num m)%nat).
  - rewrite Nat.mod_small in Heq by lia. rewrite Heq in Hk.
    pose proof (Nat.mod_upper_bound (r / 16 + num m - 1) (num m) ltac:(lia)).
    destruct (decide (r / 16 = 0)%nat) as [E|]; [rewrite E, Nat.mod_small in Hk|
      replace (r / 16 + num m - 1)%nat with ((r / 16 - 1) + 1 * num m)%nat in Hk by lia;
      rewrite Nat.Div0.mod_add, Nat.mod_small in Hk]; lia.
  - replace k with ((k - num m) + 1 * num m)%nat in Heq by lia. rewrite Nat.Div0.mod_add, Nat.mod_small in Heq by lia.
    replace (r / 16 + num m - 1)%nat with ((r / 16 - 1) + 1 * num m)%nat in Heq by lia.
    destruct (decide (r / 16 = 0)%nat); [rewrite Nat.mod_small in Heq|rewrite Nat.Div0.mod_add, Nat.mod_small in Heq]; lia.
Qed.

(** A client configuration with no endpoint gives a manager whose
    [selectClient] reads [m.clients[0]] of an empty slice: every local
    connection panics in its own goroutine, which nothing recovers. *)
Theorem selectClient_no_endpoint r :
  selectClient (NewClientMgr NewClient []) r = Err "index out of range".
Proof. done. Qed.

End Props.

(** [-v] takes a single decimal digit, so [-v=9] sets level 9,
    beyond the [0-5] the option is documented with, while [-v=10] is
    refused with a warning and leaves the configured level; an empty
    value also leaves it, silently. *)
Example setLogVerbose_levels :
  setLogVerbose [57] 1 = (None, 9) /\ setLogVerbose [49; 48] 1 = (Some [49; 48], 1) /\
  setLogVerbose [] 3 = (None, 3) /\ setLogVerbose [45; 49] 2 = (Some [45; 49], 2).
Proof. vm_compute. repeat split. Qed.

(** ** Witnesses: three endpoints, only the third client is up *)

Definition ex_state (c : nat) : Z := if decide (c = 2%nat) then 0 else -1.
Definition ex_mgr : clientMgr := NewClientMgr (fun p : nat => p) [0; 1; 2]%nat.

Lemma selectClient_rotation_witness :
  selectClient ex_state ex_mgr 16 =
  Ok (first_avail ex_state (map (fun j : nat => clients ex_mgr !!! (j mod num ex_mgr)%nat) (seq (16 / 16) (num ex_mgr - 1))%nat)).
Proof. apply selectClient_rotation; [apply NewClientMgr_wf|vm_compute; lia..]. Defined.

Lemma selectClient_finds_witness : exists c, selectClient ex_state ex_mgr 16 = Ok (Some c) /\ 0 <= ex_state c.
Proof. apply (selectClient_finds ex_state ex_mgr 16 2); [apply NewClientMgr_wf|vm_compute; try lia; reflexivity..]. Defined.

Lemma selectClient_skips_last_witness : selectClient ex_state ex_mgr 0 = Ok None.
Proof.
  apply (selectClient_skips_last ex_state ex_mgr 0 (Some 2%nat)); [apply NewClientMgr_wf|vm_compute; try lia; reflexivity..|].
  intros j Hj Hne. destruct j as [|[|[|j]]]; [reflexivity|reflexivity|vm_compute in Hne; congruence|vm_compute in Hj; lia].
Defined.

End ClientMgr.
