(* ===== verification/Session.v ===== *)
(** * The session and token manager

    The server side of a negotiation creates a [Session] and mints its
    tokens with [sessionMgr.createTokens]; a data tunnel joins the
    session by presenting one token, which [sessionMgr.take] consumes.
    The manager's source file is not under [src/]: its operations are
    modelled from spec section 4.4 (the order of installation, the atomic
    lookup-and-remove of [take], the removal of a session's tokens).  The
    manager is a [gmap] from 20-byte tokens to sessions; the random
    tokens of [createTokens] are its argument. *)

From stdpp Require Import base list gmap sets.
From Stdlib Require Import ZArith Lia.
From S2P Require Import Prelude Cipher.

Module Session.

(** [NewSession(conn, cf, identity)]: the fields the negotiation sets; a
    session is known by its pointer, here its number [sid]. *)
Record Session := mkSession { sid : nat; s_factory : Cipher.CipherFactory; s_identity : list Z }.

Abbreviation sessionMgr := (gmap (list Z) Session).

(** [createTokens(session, n)] with the [n] random tokens [toks]: each is
    installed in order, pointing to the session; they are returned
    concatenated. *)
Definition createTokens (m : sessionMgr) (s : Session) (toks : list (list Z)) : sessionMgr * list Z :=
  (foldl (fun m t => <[t := s]> m) m toks, concat toks).

(** [take(token)]: lookup and removal in one critical section. *)
Definition take (m : sessionMgr) (t : list Z) : option Session * sessionMgr :=
  match m !! t with
  | Some s => (Some s, delete t m)
  | None => (None, m)
  end.

(** [remove(session)]: drops every token of the session. *)
Definition remove (m : sessionMgr) (s : Session) : sessionMgr :=
  filter (fun kv => sid kv.2 <> sid s) m.

(** The manager's operations, as the concurrent callers issue them. *)
Inductive mop :=
| MCreate (s : Session) (toks : list (list Z))
| MTake (t : list Z)
| MRemove (s : Session).

(** What the manager has seen: the tokens ever minted and ever taken. *)
Record history := mkHist { minted : gset (list Z); taken : gset (list Z) }.

Definition mop_step (mh : sessionMgr * history) (o : mop) : sessionMgr * history :=
  let '(m, h) := mh in
  match o with
  | MCreate s toks => ((createTokens m s toks).1, mkHist (minted h ∪ list_to_set toks) (taken h))
  | MTake t => match take m t with
               | (Some _, m') => (m', mkHist (minted h) (taken h ∪ {[t]}))
               | (None, m') => (m', h)
               end
  | MRemove s => (remove m s, h)
  end.

Definition mop_run (mh : sessionMgr * history) (os : list mop) : sessionMgr * history :=
  foldl mop_step mh os.

(** Along a run, every [createTokens] mints tokens never minted
    before: the random generator never repeats a token. *)
Fixpoint fresh_run (mh : sessionMgr * history) (os : list mop) : Prop :=
  match os with
  | [] => True
  | o :: os' =>
      match o with MCreate _ toks => Forall (fun t => t ∉ minted mh.2) toks | _ => True end /\
      fresh_run (mop_step mh o) os'
  end.

(** ** Properties *)

Lemma lookup_createTokens m s toks t :
  (createTokens m s toks).1 !! t = if decide (t ∈ toks) then Some s else m !! t.
Proof.
  unfold createTokens. cbn [fst]. revert m. induction toks as [|t' toks IH]; intros m; cbn [foldl]; [done|].
  rewrite IH. cbv beta. destruct (decide (t ∈ toks)); [rewrite decide_True by set_solver; done|].
  destruct (decide (t = t')) as [->|Hne].
  - rewrite decide_True by set_solver. by rewrite lookup_insert_eq.
  - rewrite decide_False by set_solver. by rewrite lookup_insert_ne.
Qed.

(** (P1 of spec section 8) after [createTokens(s, n)], each minted
    token is taken exactly once: the first [take] returns [s], every
    later one nothing. *)
Theorem createTokens_take_once m s toks t :
  t ∈ toks ->
  exists m', take (createTokens m s toks).1 t = (Some s, m') /\ take m' t = (None, m').
Proof.
  intros Ht. exists (delete t (createTokens m s toks).1). unfold take.
  rewrite lookup_createTokens, decide_True by done. split; [done|]. by rewrite lookup_delete_eq.
Qed.

(** After [remove(s)] no token leads to [s]. *)
Lemma remove_spec m s t s' : remove m s !! t = Some s' -> m !! t = Some s' /\ sid s' <> sid s.
Proof. unfold remove. by rewrite map_lookup_filter_Some. Qed.

(** The manager's invariant (I1 of spec section 4.4): every token it
    holds was minted and never taken, and only minted tokens were taken. *)
Definition mgr_inv (mh : sessionMgr * history) : Prop :=
  (forall t, t ∈ dom mh.1 -> t ∈ minted mh.2 /\ t ∉ taken mh.2) /\ taken mh.2 ⊆ minted mh.2.

Lemma mop_step_inv mh o :
  mgr_inv mh -> (match o with MCreate _ toks => Forall (fun t => t ∉ minted mh.2) toks | _ => True end) ->
  mgr_inv (mop_step mh o).
Proof.
  destruct mh as [m h]. unfold mgr_inv, mop_step. cbn [fst snd]. intros [Hinv Hsub] Hfresh.
  destruct o as [s toks|t'|s]; cbn [fst snd minted taken] in *.
  - rewrite Forall_forall in Hfresh. split; [|set_solver]. intros t [s' Hs']%elem_of_dom.
    rewrite lookup_createTokens in Hs'. case_decide as Hin.
    + specialize (Hfresh t Hin). set_solver.
    + destruct (Hinv t) as [? ?]; [by apply elem_of_dom|]. set_solver.
  - unfold take. destruct (m !! t') as [s|] eqn:Ht'; cbn.
    + assert (t' ∈ minted h) by (apply Hinv, elem_of_dom; by eexists).
      split; [|set_solver]. intros t Ht. rewrite dom_delete, elem_of_difference in Ht.
      destruct Ht as [Ht Hne]. destruct (Hinv t Ht). set_solver.
    + by split.
  - split; [|done]. intros t [s' Hs']%elem_of_dom. apply remove_spec in Hs' as [Hm _].
    apply Hinv, elem_of_dom. by eexists.
Qed.

(** along any sequence of [createTokens], [take] and [remove] calls
    whose minted tokens are new, the manager only ever holds tokens that
    were minted and not yet taken, so no token is accepted twice. *)
Theorem mop_run_inv mh os : mgr_inv mh -> fresh_run mh os -> mgr_inv (mop_run mh os).
Proof.
  revert mh. induction os as [|o os IH]; intros mh Hinv Hf; [done|].
  destruct Hf as [Ho Hf]. cbn. apply IH; [|done]. by apply mop_step_inv.
Qed.

(** ** Examples *)

Definition ex_session (n : nat) : Session := mkSession n (Cipher.mkFactory [] Cipher.newRC4_b) [].

Lemma createTokens_take_once_witness :
  exists m', take (createTokens ∅ (ex_session 1) [[1]; [2]]).1 [2] = (Some (ex_session 1), m') /\ take m' [2] = (None, m').
Proof. apply createTokens_take_once. right. left. Defined.

Lemma mop_run_inv_witness :
  mgr_inv (mop_run (∅, mkHist ∅ ∅)
             [MCreate (ex_session 1) [[1]; [2]]; MTake [1]; MTake [1]; MCreate (ex_session 2) [[3]];
              MRemove (ex_session 1); MTake [2]]).
Proof.
  apply mop_run_inv.
  - split; cbn; [intros t; rewrite dom_empty_L; set_solver|set_solver].
  - cbn. repeat split; repeat constructor; set_solver.
Defined.

End Session.
