(* ===== verification/HashedConn.v ===== *)
(** * The hashed connection, the programs that use it, and two peers

    A negotiation runs over one TCP connection wrapped in a [hashedConn]:
    every read delivers plaintext (decrypted once a cipher is installed)
    and feeds it to the read hash, every write feeds its plaintext to the
    write hash before encrypting it.  The wrapper is not under [src/]; it
    is modelled from spec sections 3 and 4.5.

    The code of [d5.go] that talks over the connection is written as a
    program of [io]: a tree of [Read], [ReadFull], [Write], [SetCipher]
    (the assignment [conn.cipher = ...]) and [HashSums] ([RHashSum] and
    [WHashSum]) requests, ending in a value or a panic.  [pstep] runs one
    request of a program against its [endpoint]; a read blocks while its
    inbox holds too little and the peer still runs, and reads the end of
    the stream once the peer has finished.  [sys_step] runs two programs
    connected back to back, the client first whenever it can move: every
    write reaches the peer's inbox as one segment.  Writes do not fail.
    The hash function is a parameter. *)

From stdpp Require Import base list strings.
From Stdlib Require Import ZArith Lia Relation_Operators Wellfounded.
From S2P Require Import Prelude Exception Wire Cipher Socks5.

Module HashedConn.
Import Exception Wire Cipher.

(** ** Programs *)

Inductive io (K A : Type) : Type :=
| Ret (a : A)
| Crash (p : panic_value)
| Read (n : nat) (k : result io_error (list Z) -> io K A)
| ReadFull (n : nat) (k : list Z * option io_error -> io K A)
| Write (b : list Z) (k : io K A)
| SetCipher (c : Cipher K) (k : io K A)
| HashSums (k : list Z -> list Z -> io K A).

Arguments Ret {K A} a.
Arguments Crash {K A} p.
Arguments Read {K A} n k.
Arguments ReadFull {K A} n k.
Arguments Write {K A} b k.
Arguments SetCipher {K A} c k.
Arguments HashSums {K A} k.

Fixpoint io_bind {K A B} (m : io K A) (f : A -> io K B) : io K B :=
  match m with
  | Ret a => f a
  | Crash p => Crash p
  | Read n k => Read n (fun r => io_bind (k r) f)
  | ReadFull n k => ReadFull n (fun r => io_bind (k r) f)
  | Write b k => Write b (io_bind k f)
  | SetCipher c k => SetCipher c (io_bind k f)
  | HashSums k => HashSums (fun r w => io_bind (k r w) f)
  end.

#[export] Instance io_ret K : MRet (io K) := fun A a => Ret a.
#[export] Instance io_mbind K : MBind (io K) := fun A B f m => io_bind m f.

(** The panic value of an I/O error: the error itself. *)
Definition io_panic (e : io_error) : panic_value := PVOther (Socks5.io_error_string e).

(** [ThrowErr(err)] on an I/O error. *)
Definition ThrowErr {K} (e : option io_error) : io K unit :=
  match e with Some e => Crash (io_panic e) | None => Ret tt end.

(** [func ReadFullByLen(len_inByte int, reader io.Reader) (buf []byte, err error)]
    over the connection: a [Read] error returns a nil buffer; a
    [ReadFull] error returns the partly filled buffer. *)
Definition ReadFullByLen {K} (len_inByte : nat) : io K (list Z * option io_error) :=
  Read len_inByte (fun r =>
    match r with
    | Err e => Ret ([], Some e)
    | Ok lb0 =>
        let lb := lb0 ++ replicate (len_inByte - length lb0) 0 in
        let size :=
          match len_inByte with
          | 1%nat => lb !!! 0%nat
          | 2%nat => be_get (take 2 lb)
          | 4%nat => be_get (take 4 lb)
          | _ => 0
          end in
        ReadFull (Z.to_nat size) (fun '(b, e) => Ret (b ++ replicate (Z.to_nat size - length b) 0, e))
    end).

(** ** One end of the connection *)

Record endpoint {K : Type} := mkEndpoint {
  inbox : stream;
  cipher : option (Cipher K);
  rh : list Z;
  wh : list Z
}.
Arguments endpoint K : clear implicits.

Section Conn.

Context {K : Type}.
Variable rc4_next : K -> Z * K.
Variable aes_block : list Z -> list Z -> list Z.
(** [sha1.Sum] of everything written to the hash. *)
Variable sha1 : list Z -> list Z.

Definition dec_bytes (c : option (Cipher K)) (b : list Z) : list Z * option (Cipher K) :=
  match c with
  | None => (b, None)
  | Some c => let '(p, c') := decrypt K rc4_next aes_block c b in (p, Some c')
  end.

Definition enc_bytes (c : option (Cipher K)) (b : list Z) : list Z * option (Cipher K) :=
  match c with
  | None => (b, None)
  | Some c => let '(x, c') := encrypt K rc4_next aes_block c b in (x, Some c')
  end.

(** Bytes [c] taken from the socket, [s'] left: decrypted and hashed. *)
Definition on_read (ep : endpoint K) (c : list Z) (s' : stream) : list Z * endpoint K :=
  let '(p, ci) := dec_bytes (cipher ep) c in (p, mkEndpoint K s' ci (rh ep ++ p) (wh ep)).

(** One request of a program; [None] when it is finished or blocked. *)
Definition pstep {A} (p : io K A) (ep : endpoint K) (peer_done : bool) : option (io K A * endpoint K * stream) :=
  match p with
  | Ret _ | Crash _ => None
  | Read n k =>
      if bool_decide (inbox ep = []) && negb peer_done then None else
      match conn_read n (inbox ep) with
      | Err e => Some (k (Err e), ep, [])
      | Ok (c, s') => let '(q, ep') := on_read ep c s' in Some (k (Ok q), ep', [])
      end
  | ReadFull n k =>
      if bool_decide (length (concat (inbox ep)) < n)%nat && negb peer_done then None else
      match read_full n (inbox ep) with
      | Ok (c, s') => let '(q, ep') := on_read ep c s' in Some (k (q, None), ep', [])
      | Err e => let '(q, ep') := on_read ep (concat (inbox ep)) [] in Some (k (q, Some e), ep', [])
      end
  | Write b k =>
      let '(c, ci) := enc_bytes (cipher ep) b in
      Some (k, mkEndpoint K (inbox ep) ci (rh ep) (wh ep ++ b), if bool_decide (b = []) then [] else [c])
  | SetCipher c k => Some (k, mkEndpoint K (inbox ep) (Some c) (rh ep) (wh ep), [])
  | HashSums k => Some (k (sha1 (rh ep)) (sha1 (wh ep)), ep, [])
  end.

(** ** Two peers *)

Record sys (A B : Type) := mkSys { cp : io K A; sp : io K B; ce : endpoint K; se : endpoint K }.
Arguments mkSys {A B} cp sp ce se.
Arguments cp {A B} s.
Arguments sp {A B} s.
Arguments ce {A B} s.
Arguments se {A B} s.

Definition is_done {A} (p : io K A) : bool :=
  match p with Ret _ | Crash _ => true | _ => false end.

Definition push_inbox (ep : endpoint K) (out : stream) : endpoint K :=
  mkEndpoint K (inbox ep ++ out) (cipher ep) (rh ep) (wh ep).

Definition sys_step {A B} (st : sys A B) : option (sys A B) :=
  match pstep (cp st) (ce st) (is_done (sp st)) with
  | Some (p', e', out) => Some (mkSys p' (sp st) e' (push_inbox (se st) out))
  | None =>
      match pstep (sp st) (se st) (is_done (cp st)) with
      | Some (q', e', out) => Some (mkSys (cp st) q' (push_inbox (ce st) out) e')
      | None => None
      end
  end.

Fixpoint sys_run {A B} (fuel : nat) (st : sys A B) : sys A B :=
  match fuel with
  | O => st
  | S f => match sys_step st with Some st' => sys_run f st' | None => st end
  end.

(** A program alone, its peer finished. *)
Fixpoint run_alone {A} (fuel : nat) (p : io K A) (ep : endpoint K) : io K A * endpoint K :=
  match fuel with
  | O => (p, ep)
  | S f => match pstep p ep true with Some (p', ep', _) => run_alone f p' ep' | None => (p, ep) end
  end.

(** ** Running *)

Lemma sys_run_S {A B} (st st' : sys A B) n : sys_step st = Some st' -> sys_run (S n) st = sys_run n st'.
Proof. intros H. cbn. by rewrite H. Qed.

Lemma sys_run_stop {A B} (st : sys A B) n : sys_step st = None -> sys_run n st = st.
Proof. intros H. destruct n; cbn; [done|]. by rewrite H. Qed.

(** Running [a] steps then [b] steps is running [a + b] steps: a stuck
    system stays stuck. *)
Lemma sys_run_add {A B} a b (st : sys A B) : sys_run (a + b) st = sys_run b (sys_run a st).
Proof.
  revert st. induction a as [|a IH]; intros st; [done|]. cbn.
  destruct (sys_step st) eqn:E; [apply IH|]. by rewrite sys_run_stop.
Qed.

Lemma sys_step_client {A B} (p : io K A) (q : io K B) ce se p' e' out :
  pstep p ce (is_done q) = Some (p', e', out) ->
  sys_step (mkSys p q ce se) = Some (mkSys p' q e' (push_inbox se out)).
Proof. intros H. unfold sys_step. cbn. by rewrite H. Qed.

Lemma sys_step_server {A B} (p : io K A) (q : io K B) ce se q' e' out :
  pstep p ce (is_done q) = None ->
  pstep q se (is_done p) = Some (q', e', out) ->
  sys_step (mkSys p q ce se) = Some (mkSys p q' (push_inbox ce out) e').
Proof. intros H1 H2. unfold sys_step. cbn. by rewrite H1, H2. Qed.

Lemma sys_step_final {A B} (st : sys A B) :
  is_done (cp st) = true -> is_done (sp st) = true -> sys_step st = None.
Proof. destruct st as [[] [] ? ?]; done. Qed.

End Conn.

Arguments sys K A B : clear implicits.
Arguments mkSys {K A B} cp sp ce se.
Arguments cp {K A B} s.
Arguments sp {K A B} s.
Arguments ce {K A B} s.
Arguments se {K A B} s.

(** ** The cipher under the connection *)

Section Chan.

Context {K : Type}.
Variable rc4_next : K -> Z * K.
Variable aes_block : list Z -> list Z -> list Z.
Local Abbreviation xks := (XORKeyStream K rc4_next aes_block).

Lemma dec_bytes_some c b :
  dec_bytes rc4_next aes_block (Some c) b = ((xks (dec K c) b).1, Some (mkCipher K (enc K c) (xks (dec K c) b).2)).
Proof. unfold dec_bytes, decrypt. by destruct (xks (dec K c) b). Qed.

Lemma enc_bytes_some c b :
  enc_bytes rc4_next aes_block (Some c) b = ((xks (enc K c) b).1, Some (mkCipher K (xks (enc K c) b).2 (dec K c))).
Proof. unfold enc_bytes, encrypt. by destruct (xks (enc K c) b). Qed.

Lemma xks_length s p : length (xks s p).1 = length p.
Proof.
  revert s. induction p as [|b p IH]; intros s; cbn; [done|].
  destruct (xor_byte K rc4_next aes_block s b) as [c s1]. specialize (IH s1).
  destruct (xks s1 p) as [cs s2]. cbn in *. by rewrite IH.
Qed.

(** Encrypting [p] is encrypting its first [k] bytes, then the rest. *)
Lemma xks_split s p k :
  xks s p = ((xks s (take k p)).1 ++ (xks (xks s (take k p)).2 (drop k p)).1, (xks (xks s (take k p)).2 (drop k p)).2).
Proof. rewrite <- (take_drop k p) at 1. apply xks_app. Qed.

(** A receiver in step with the sender decrypts what it encrypted and
    stays in step. *)
Lemma xks_recv e d p :
  lockstep K e d -> (xks d (xks e p).1).1 = p /\ lockstep K (xks e p).2 (xks d (xks e p).1).2.
Proof. intros H. destruct (xks_lockstep K rc4_next aes_block e d p H). done. Qed.

End Chan.

(** ** Reads of whole segments *)

Lemma read_full_all (s : stream) : stream_ok s -> read_full (length (concat s)) s = Ok (concat s, []).
Proof.
  intros Hok. destruct (read_full_spec s (concat s) [] Hok) as (s' & Hr & Hc & Hok'); [by rewrite app_nil_r|].
  rewrite Hr. destruct s' as [|seg rest]; [done|]. inversion Hok'; subst. cbn in Hc.
  apply app_eq_nil in Hc as [-> _]. done.
Qed.

(** ** The connection's [ReadFullByLen] and the stream model of [Wire] *)

Lemma conn_read_concat n (s : stream) c s' : conn_read n s = Ok (c, s') -> concat s = c ++ concat s'.
Proof.
  destruct s as [|seg rest]; cbn; [done|]. intros [= <- <-].
  case_decide; cbn; [by rewrite app_assoc, take_drop|]. by rewrite take_ge by lia.
Qed.

Lemma read_full_concat n (s : stream) b s' :
  read_full n s = Ok (b, s') -> concat s = b ++ concat s' /\ length b = n.
Proof.
  revert n b s'. induction s as [|seg rest IH]; intros [|n] b s'; cbn; try by intros [= <- <-].
  case_decide as Hle.
  - intros [= <- <-]. rewrite length_take, Nat.min_l by done.
    case_decide; cbn; [by rewrite app_assoc, take_drop|]. by rewrite take_ge by lia.
  - destruct (read_full (S n - length seg) rest) as [[r s1]|] eqn:E; [|done]. intros [= <- <-].
    destruct (IH _ _ _ E) as [-> Hl]. rewrite app_assoc, length_app, Hl. split; [done|lia].
Qed.

Section Refine.

Context {K : Type}.
Variable rc4_next : K -> Z * K.
Variable aes_block : list Z -> list Z -> list Z.
Variable sha1 : list Z -> list Z.

(** [ReadFullByLen] over a connection without a cipher refines the
    stream function [Wire.ReadFullByLen]: run alone on the stream [s] it
    finishes within two reads; when the stream function returns the
    buffer [b] and the rest [s'], the program returns [b] without error,
    leaves [s'] unread and has hashed the length bytes and [b], exactly
    the bytes taken from [s]; when it fails, the program reports the
    same error. *)
Theorem ReadFullByLen_refines (n : nat) (s : stream) (r0 w0 : list Z) :
  match Wire.ReadFullByLen n s with
  | Ok (b, s') => exists hd,
      run_alone rc4_next aes_block sha1 2 (ReadFullByLen n) (mkEndpoint K s None r0 w0) =
        (Ret (b, None), mkEndpoint K s' None (r0 ++ hd ++ b) w0) /\ concat s = hd ++ b ++ concat s'
  | Err e => exists b ep,
      run_alone rc4_next aes_block sha1 2 (ReadFullByLen n) (mkEndpoint K s None r0 w0) = (Ret (b, Some e), ep)
  end.
Proof.
  unfold Wire.ReadFullByLen, ReadFullByLen. cbn [run_alone pstep inbox].
  rewrite andb_false_r. destruct (conn_read n s) as [[lb0 s1]|e] eqn:Hc; cbn [mbind result_bind].
  - unfold on_read, dec_bytes. cbn [cipher rh wh inbox run_alone pstep]. rewrite andb_false_r.
    set (size := Z.to_nat _).
    destruct (read_full size s1) as [[b s']|e] eqn:Hr.
    + exists lb0. destruct (read_full_concat _ _ _ _ Hr) as [Hcat Hl].
      unfold on_read, dec_bytes. cbn [rh cipher]. rewrite Hl, Nat.sub_diag, app_nil_r, <- app_assoc. split; [done|].
      by rewrite (conn_read_concat _ _ _ _ Hc), Hcat.
    + by eexists _, _.
  - by eexists _, _.
Qed.

End Refine.

(** ** Termination and the shape of the inboxes *)

(** [p'] is what [p] continues with after one request. *)
Inductive io_child {K A} : io K A -> io K A -> Prop :=
| ch_read n k r : io_child (k r) (Read n k)
| ch_readfull n k r : io_child (k r) (ReadFull n k)
| ch_write b k : io_child k (Write b k)
| ch_set c k : io_child k (SetCipher c k)
| ch_hash k r w : io_child (k r w) (HashSums k).

Lemma io_child_wf {K A} : well_founded (@io_child K A).
Proof. intros p. induction p; constructor; intros q Hq; inversion Hq; subst; auto. Qed.

Definition sys_lt {K A B} (st' st : sys K A B) : Prop :=
  symprod _ _ io_child io_child (cp st', sp st') (cp st, sp st).

Lemma sys_lt_wf {K A B} : well_founded (@sys_lt K A B).
Proof. apply (wf_inverse_image _ _ _ (fun st => (cp st, sp st))). apply wf_symprod; apply io_child_wf. Qed.

Section Shape.

Context {K : Type}.
Variable rc4_next : K -> Z * K.
Variable aes_block : list Z -> list Z -> list Z.
Variable sha1 : list Z -> list Z.

Lemma pstep_child {A} (p : io K A) ep d p' ep' out :
  pstep rc4_next aes_block sha1 p ep d = Some (p', ep', out) -> io_child p' p.
Proof.
  destruct p; cbn; try discriminate.
  - destruct (_ && _); [discriminate|]. destruct (conn_read _ _) as [[c s']|e]; [destruct (on_read _ _ _ _ _)|].
    all: intros [= <- _ _]; constructor.
  - destruct (_ && _); [discriminate|]. destruct (read_full _ _) as [[c s']|e]; destruct (on_read _ _ _ _ _).
    all: intros [= <- _ _]; constructor.
  - destruct (enc_bytes _ _ _ _). intros [= <- _ _]. constructor.
  - intros [= <- _ _]. constructor.
  - intros [= <- _ _]. constructor.
Qed.

Lemma sys_step_lt {A B} (st st' : sys K A B) : sys_step rc4_next aes_block sha1 st = Some st' -> sys_lt st' st.
Proof.
  destruct st as [p q x y]. unfold sys_step. cbn [cp sp ce se].
  destruct (pstep _ _ _ p x _) as [[[p' e'] out]|] eqn:Hp.
  - intros [= <-]. apply left_sym. by eapply pstep_child.
  - destruct (pstep _ _ _ q y _) as [[[q' e'] out]|] eqn:Hq; [|done].
    intros [= <-]. apply right_sym. by eapply pstep_child.
Qed.

(** the two peers always come to rest: every program of [io] is a
    finite tree of requests and each step consumes one request of one
    side, so from any state some number of steps leads to a state in
    which neither side can move, and more fuel changes nothing. *)
Theorem sys_run_terminates {A B} (st : sys K A B) :
  exists n, sys_step rc4_next aes_block sha1 (sys_run rc4_next aes_block sha1 n st) = None /\
            forall m, (n <= m)%nat -> sys_run rc4_next aes_block sha1 m st = sys_run rc4_next aes_block sha1 n st.
Proof.
  induction st as [st IH] using (well_founded_ind sys_lt_wf).
  destruct (sys_step rc4_next aes_block sha1 st) as [st'|] eqn:Hs.
  - destruct (IH st' (sys_step_lt _ _ Hs)) as (n & Hn & Hm). exists (S n). split.
    + by rewrite (sys_run_S _ _ _ _ _ _ Hs).
    + intros [|m] Hle; [lia|]. rewrite !(sys_run_S _ _ _ _ _ _ Hs). apply Hm. lia.
  - exists 0%nat. split; [done|]. intros m _. by apply sys_run_stop.
Qed.

Lemma conn_read_ok n (s : stream) c s' : conn_read n s = Ok (c, s') -> stream_ok s -> stream_ok s'.
Proof.
  destruct s as [|seg rest]; cbn; [done|]. intros [= _ <-] Hok. inversion Hok as [|? ? Hseg Hrest]; subst.
  case_decide; [|done]. constructor; [|done]. intros E. apply (f_equal length) in E. rewrite length_drop in E. cbn in E. lia.
Qed.

Lemma read_full_ok n (s : stream) b s' : read_full n s = Ok (b, s') -> stream_ok s -> stream_ok s'.
Proof.
  revert n b s'. induction s as [|seg rest IH]; intros [|n] b s'; cbn; try by intros [= _ <-].
  intros Hr Hok. inversion Hok as [|? ? Hseg Hrest]; subst. case_decide as Hle.
  - injection Hr as _ <-. case_decide; [|done]. constructor; [|done].
    intros E. apply (f_equal length) in E. rewrite length_drop in E. cbn in E. lia.
  - destruct (read_full (S n - length seg) rest) as [[r s1]|] eqn:E; [|done]. injection Hr as _ <-. by eapply IH.
Qed.

Lemma enc_bytes_length c b : length (enc_bytes rc4_next aes_block c b).1 = length b.
Proof. destruct c as [c|]; [|done]. rewrite enc_bytes_some. apply xks_length. Qed.

Lemma pstep_ok {A} (p : io K A) ep d p' ep' out :
  stream_ok (inbox ep) -> pstep rc4_next aes_block sha1 p ep d = Some (p', ep', out) ->
  stream_ok (inbox ep') /\ stream_ok out.
Proof.
  intros Hok. destruct p; cbn; try discriminate.
  - destruct (_ && _); [discriminate|]. destruct (conn_read _ _) as [[c s']|e] eqn:Hc.
    + unfold on_read. destruct (dec_bytes _ _ _ _) as [q ci]. intros [= <- <- <-].
      split; [|constructor]. cbn. by eapply conn_read_ok.
    + intros [= <- <- <-]. split; [done|constructor].
  - destruct (_ && _); [discriminate|]. destruct (read_full _ _) as [[c s']|e] eqn:Hc;
      unfold on_read; destruct (dec_bytes _ _ _ _) as [q ci]; intros [= <- <- <-]; (split; [|constructor]); cbn.
    + by eapply read_full_ok.
    + constructor.
  - pose proof (enc_bytes_length (cipher ep) b) as Hl. destruct (enc_bytes _ _ _ _) as [c ci]. intros [= <- <- <-].
    split; [done|]. case_bool_decide as Hb; [constructor|]. repeat constructor.
    intros E. rewrite E in Hl. cbn in Hl. destruct b; [done|discriminate].
  - intros [= <- <- <-]. split; [done|constructor].
  - intros [= <- <- <-]. split; [done|constructor].
Qed.

Lemma push_inbox_ok (ep : endpoint K) out : stream_ok (inbox ep) -> stream_ok out -> stream_ok (inbox (push_inbox ep out)).
Proof. intros H1 H2. apply Forall_app. by split. Qed.

Definition inboxes_ok {A B} (st : sys K A B) : Prop := stream_ok (inbox (ce st)) /\ stream_ok (inbox (se st)).

Lemma sys_step_ok {A B} (st st' : sys K A B) : inboxes_ok st -> sys_step rc4_next aes_block sha1 st = Some st' -> inboxes_ok st'.
Proof.
  destruct st as [p q x y]. unfold inboxes_ok, sys_step. cbn [cp sp ce se]. intros [Hx Hy].
  destruct (pstep _ _ _ p x _) as [[[p' e'] out]|] eqn:Hp.
  - intros [= <-]. destruct (pstep_ok _ _ _ _ _ _ Hx Hp). cbn. split; [done|]. by apply push_inbox_ok.
  - destruct (pstep _ _ _ q y _) as [[[q' e'] out]|] eqn:Hq; [|done].
    intros [= <-]. destruct (pstep_ok _ _ _ _ _ _ Hy Hq). cbn. split; [|done]. by apply push_inbox_ok.
Qed.

(** the well-formedness of the connection's buffers: no segment in
    flight is ever empty.  A write of nothing sends no segment, a read
    leaves the rest of a segment only when it is not empty, so from
    inboxes without empty segments every run keeps them so. *)
Theorem sys_run_inboxes_ok {A B} (st : sys K A B) n :
  inboxes_ok st -> inboxes_ok (sys_run rc4_next aes_block sha1 n st).
Proof.
  revert st. induction n as [|n IH]; intros st Hok; [done|]. cbn.
  destruct (sys_step _ _ _ st) as [st'|] eqn:Hs; [|done]. apply IH. by eapply sys_step_ok.
Qed.

End Shape.

(** ** Examples *)

Definition ex_writer : io unit unit := Write [1; 2] (Write [] (Write [3] (Ret tt))).
Definition ex_reader : io unit (list Z) :=
  Read 1 (fun r => match r with Ok b => ReadFull 2 (fun '(b', _) => Ret (b ++ b')) | Err _ => Ret [] end).

Lemma sys_run_inboxes_ok_witness :
  inboxes_ok (sys_run (fun u => (0, u)) (fun _ n => n) (fun m => m) 5
                (mkSys ex_writer ex_reader (mkEndpoint unit [] None [] []) (mkEndpoint unit [] None [] []))).
Proof. apply sys_run_inboxes_ok. split; constructor. Defined.

End HashedConn.
