(* ===== verification/Negotiation.v ===== *)
(** * d5.go, the negotiation of a tunnel

    [d5CNegotiation.negotiate] (the client) and [d5SNegotiation.negotiate]
    (the server) as programs of [HashedConn.io], line by line: the
    client's request ([Wire.requestAuthAndDHExchange]), the DH reply and
    the cipher ([finishDHExThenSetupCipher]), the parameter block and
    tokens ([validateAndGetTokens], whose parse is [TunParams.parse_params])
    and the hash cross-check; the server's first read and its
    classification ([Wire.classify]), the token resumption
    ([transSession]), the credential check and DH reply
    ([verifyThenDHExchange]) and the parameter block, tokens and
    cross-check ([respondTestWithToken]).  Every [ThrowErr] is a [Crash].
    RSA, Diffie-Hellman, the authentication back end and the hash stay
    parameters; [AUTH_FAILED] is the value of the [auth] package.

    Section [Handshake] runs the two programs against each other with
    [HashedConn.sys_run]: the request and DH reply ([handshake_read],
    [handshake_request]), the cipher and parameter block
    ([handshake_params]), the cross-check ([cross_prefix], [cross_match],
    [cross_check]), the whole handshake ([handshake_completes]), a refused
    client ([wrong_password_refused]) and a token request
    ([token_resumption]).  The last section instantiates the parameters
    with concrete functions for the witnesses. *)

From stdpp Require Import base list strings gmap.
From Stdlib Require Import ZArith Lia.
From S2P Require Import Prelude Exception Wire TunParams Cipher Session HashedConn.

Module Negotiation.
Import Exception Wire TunParams Cipher HashedConn.

(** The panics of the Go runtime the negotiation can meet. *)
Definition nil_deref : panic_value := PVOther "runtime error: invalid memory address or nil pointer dereference".
Definition slice_oob : panic_value := PVOther "runtime error: slice bounds out of range".
Definition rsa_decryption_error : panic_value := PVOther "crypto/rsa: decryption error".

Section Nego.

Context {K DHPriv : Type}.
Variable md5 : list Z -> list Z.
Variable rc4_init : list Z -> K.

(** [type DHKeyPair struct { priv; pub []byte; pubLen []byte }] *)
Record DHKeyPair := mkDHKeyPair { dh_priv : DHPriv; dh_pub : list Z; dh_pubLen : list Z }.

(** [takeSharedKey(pair, opub)] *)
Variable takeSharedKey : DHKeyPair -> list Z -> list Z.
(** [RSAEncrypt(src, nego.sPub)] and [RSADecrypt(src, nego.RSAKeys.priv)]. *)
Variable RSAEncrypt : list Z -> result unit (list Z).
Variable RSADecrypt : list Z -> result unit (list Z).
(** [nego.AuthSys.Authenticate(userIdentity)]: the verdict and the
    error value, [None] for a nil [error]. *)
Variable Authenticate : list Z -> bool * option Exception.
(** [auth.AUTH_FAILED] *)
Variable AUTH_FAILED : Exception.

(** ** The client *)

(** [d5CNegotiation]: the fields of its [D5Params] the negotiation reads. *)
Record d5CNegotiation := mkCNego { algo : string; user : string; pass : string; c_dhKeys : DHKeyPair }.

Definition requestAuthAndDHExchange_io (nego : d5CNegotiation) (obf : list Z) : io K unit :=
  Write (Wire.requestAuthAndDHExchange obf (RSAEncrypt (identity (user nego) (pass nego)))
           (dh_pubLen (c_dhKeys nego)) (dh_pub (c_dhKeys nego))) (Ret tt).

(** [finishDHExThenSetupCipher]: the factory it stores in [t], or the
    error it returns. *)
Definition finishDHExThenSetupCipher (nego : d5CNegotiation) : io K (result Exception CipherFactory) :=
  '(buf, e) ← ReadFullByLen 2;
  ThrowErr e;;
  if decide (length buf = 1%nat) then
    Ret (Err (if bool_decide (buf !!! 0%nat = 0xff) then AUTH_FAILED else Apply VALIDATION_FAILED "indentity"))
  else
    let secret := takeSharedKey (c_dhKeys nego) buf in
    match NewCipherFactory md5 (algo nego) secret with
    | Ok f => Ret (Ok f)
    | Err _ => Crash nil_deref
    end.

(** The end of [validateAndGetTokens]: [oHash] read, compared with the
    client's [wHash]; unread bytes stay zero.  [sconn.Read(oHash)]'s
    error is left in the named result [err]: a mismatch returns
    [INCONSISTENT_HASH] instead, a match returns it, and [negotiate]'s
    [ThrowErr(err)] panics with it. *)
Definition client_check (t : tunParams) (wHash : list Z) (r : result io_error (list Z)) : io K (result Exception tunParams) :=
  let got := match r with Ok b => b | Err _ => [] end in
  let oHash := got ++ replicate (TKSZ - length got) 0 in
  if decide (wHash = oHash) then match r with Ok _ => Ret (Ok t) | Err e => Crash (io_panic e) end
  else Ret (Err INCONSISTENT_HASH).

(** The client's side of the cross-check: [rHash] sent, [oHash] read. *)
Definition client_cross (t : tunParams) : io K (result Exception tunParams) :=
  HashSums (fun rHash wHash => Write rHash (Read TKSZ (client_check t wHash))).

(** [validateAndGetTokens] with the client's [VERSION] [tVer]: the parse
    of the block ([TunParams.parse_params]), then the cross-check. *)
Definition validateAndGetTokens (tVer : Z) : io K (result Exception tunParams) :=
  '(buf, e) ← ReadFullByLen 2;
  ThrowErr e;;
  match parse_params tVer buf with
  | Err ParsePanic => Crash slice_oob
  | Err (ParseExc ex) => Ret (Err ex)
  | Ok (_, t) => client_cross t
  end.

(** [negotiate] after [validateAndGetTokens]: [ThrowErr(err)], or the result. *)
Definition after_validate (f : CipherFactory) (r : result Exception tunParams) : io K (CipherFactory * tunParams) :=
  match r with
  | Err ex => Crash (PVException ex)
  | Ok t => Ret (f, t)
  end.

(** [negotiate] after [finishDHExThenSetupCipher]: [ThrowErr(err)], the
    cipher installed ([sconn.cipher = t.cipherFactory.NewCipher(nil)]),
    then [validateAndGetTokens]. *)
Definition after_finishDH (tVer : Z) (r : result Exception CipherFactory) : io K (CipherFactory * tunParams) :=
  match r with
  | Err ex => Crash (PVException ex)
  | Ok f =>
      match NewCipher K rc4_init f None with
      | None => Crash slice_oob
      | Some c => SetCipher c (validateAndGetTokens tVer ≫= after_validate f)
      end
  end.

(** [d5CNegotiation.negotiate], once the TCP connection is dialled: the
    factory and the parameters, or a panic. *)
Definition negotiate_client (nego : d5CNegotiation) (obf : list Z) (tVer : Z) : io K (CipherFactory * tunParams) :=
  requestAuthAndDHExchange_io nego obf;;
  finishDHExThenSetupCipher nego ≫= after_finishDH tVer.

(** ** The server *)

(** [d5SNegotiation] and its [Server]: the fields the negotiation reads. *)
Record d5SNegotiation := mkSNego { s_algo : string; s_dhKeys : DHKeyPair; consts : server_consts }.

(** [transSession(conn, buf)] with [token = buf[:TKSZ]]. *)
Definition transSession (mgr : Session.sessionMgr) (token : list Z) : option Session.Session * option Exception * Session.sessionMgr :=
  match Session.take mgr token with
  | (Some ss, mgr') => (Some ss, Some DATATUN_SESSION, mgr')
  | (None, mgr') => (None, Some VALIDATION_FAILED, mgr')
  end.

(** [verifyThenDHExchange(conn, credBuf)]: the shared key and the client's
    identity, or the authentication error.  The error of the DH read is
    not looked at. *)
Definition verifyThenDHExchange (nego : d5SNegotiation) (credBuf : list Z) : io K (result Exception (list Z * list Z)) :=
  match RSADecrypt credBuf with
  | Err _ => Crash rsa_decryption_error
  | Ok userIdentity =>
      let '(allow, ex) := Authenticate userIdentity in
      '(cDHPub, _) ← ReadFullByLen 2;
      if negb allow then Write [0; 1; 0xff] (match ex with Some e => Ret (Err e) | None => Ret (Ok ([], [])) end)
      else
        let key := takeSharedKey (s_dhKeys nego) cDHPub in
        Write (dh_pubLen (s_dhKeys nego) ++ dh_pub (s_dhKeys nego)) (Ret (Ok (key, userIdentity)))
  end.

(** The end of [respondTestWithToken]: [oHash] read ([ThrowErr] on its
    error) and compared with the server's [wHash]; [rHash] sent back. *)
Definition server_check (mgr' : Session.sessionMgr) (rHash wHash : list Z) (r : result io_error (list Z))
    : io K (option Exception * Session.sessionMgr) :=
  match r with
  | Err e => Crash (io_panic e)
  | Ok got =>
      let oHash := got ++ replicate (TKSZ - length got) 0 in
      if decide (wHash = oHash) then Write rHash (Ret (None, mgr'))
      else Ret (Some INCONSISTENT_HASH, mgr')
  end.

(** The server's side of the cross-check. *)
Definition server_cross (mgr' : Session.sessionMgr) : io K (option Exception * Session.sessionMgr) :=
  HashSums (fun rHash wHash => Read TKSZ (server_check mgr' rHash wHash)).

(** [respondTestWithToken(sconn, session)] with the random head [rnd]
    and the random tokens [toks] of [createTokens]: the error it
    returns and the session manager after it. *)
Definition respondTestWithToken (nego : d5SNegotiation) (rnd : list Z) (toks : list (list Z))
    (mgr : Session.sessionMgr) (session : Session.Session) : io K (option Exception * Session.sessionMgr) :=
  Write (params_head (consts nego) rnd) (
    let '(mgr', tokens) := Session.createTokens mgr session (take (GENERATE_TOKEN_NUM (consts nego)) toks) in
    Write tokens (server_cross mgr')).

(** [negotiate] after [verifyThenDHExchange]: [ThrowErr(err)], the
    factory, the cipher, the session and [respondTestWithToken]. *)
Definition after_verify (nego : d5SNegotiation) (mgr : Session.sessionMgr) (sid : nat) (rnd : list Z)
    (toks : list (list Z)) (res : result Exception (list Z * list Z))
    : io K (option Session.Session * option Exception * Session.sessionMgr) :=
  match res with
  | Err ex => Crash (PVException ex)
  | Ok (skey, ident) =>
      match NewCipherFactory md5 (s_algo nego) skey with
      | Err _ => Crash nil_deref
      | Ok cf =>
          match NewCipher K rc4_init cf None with
          | None => Crash slice_oob
          | Some c =>
              SetCipher c (
                let session := Session.mkSession sid cf ident in
                '(e, mgr') ← respondTestWithToken nego rnd toks mgr session;
                Ret (Some session, e, mgr'))
          end
      end
  end.

(** [negotiate] after the first [hconn.Read(buf)]: the branch on [nr]. *)
Definition server_classify (nego : d5SNegotiation) (mgr : Session.sessionMgr) (sid : nat) (rnd : list Z)
    (toks : list (list Z)) (r : result io_error (list Z))
    : io K (option Session.Session * option Exception * Session.sessionMgr) :=
  match r with
  | Err e => Crash (io_panic e)
  | Ok got =>
      let nr := length got in
      let buf := got ++ replicate (DMLEN1 - nr) 0 in
      match classify nr buf with
      | ResumeReq token => Ret (transSession mgr token)
      | FullReq credBuf => verifyThenDHExchange nego credBuf ≫= after_verify nego mgr sid rnd toks
      | Unrecognized _ => Ret (None, Some NEGOTIATION_FAILED, mgr)
      end
  end.

(** [d5SNegotiation.negotiate(hconn)]: the session and error it
    returns, with the session manager after it; [sid] names the session
    [NewSession] creates. *)
Definition negotiate_server (nego : d5SNegotiation) (mgr : Session.sessionMgr) (sid : nat) (rnd : list Z)
    (toks : list (list Z)) : io K (option Session.Session * option Exception * Session.sessionMgr) :=
  Read DMLEN1 (server_classify nego mgr sid rnd toks).

End Nego.

(** ** The two peers of a handshake *)

Definition fresh_end {K} : endpoint K := mkEndpoint K [] None [] [].

(** The parameters a client parses from a server with constants [c]
    that sent [tokens]. *)
Definition expected_params (c : server_consts) (tokens : list Z) : tunParams :=
  {| token := tokens; stInterval := wrap 16 (CTL_PING_INTERVAL c);
     dtInterval := wrap 16 (DT_PING_INTERVAL c); tunQty := wrap 8 (PARALLEL_TUN_QTY c) |}.

(** A well-formed DH key pair: [pubLen] is the 2-byte length of [pub]. *)
Definition dh_ok {DHPriv} (k : DHKeyPair (DHPriv:=DHPriv)) : Prop :=
  dh_pubLen k = be_put 2 (Z.of_nat (length (dh_pub k))) /\ (1 < length (dh_pub k))%nat /\ Z.of_nat (length (dh_pub k)) < 65536.

(** ** Reading a length-prefixed block in clear *)

Lemma prefixed_facts (b : list Z) :
  (1 < length b)%nat -> Z.of_nat (length b) < 65536 ->
  take 2 (be_put 2 (Z.of_nat (length b)) ++ b) = be_put 2 (Z.of_nat (length b)) /\
  drop 2 (be_put 2 (Z.of_nat (length b)) ++ b) = b /\
  (2 < length (be_put 2 (Z.of_nat (length b)) ++ b))%nat /\
  Z.to_nat (be_get (take 2 (take 2 (be_put 2 (Z.of_nat (length b)) ++ b) ++
     replicate (2 - length (take 2 (be_put 2 (Z.of_nat (length b)) ++ b))) 0))) = length b /\
  read_full (length b) [b] = Ok (b, []).
Proof.
  intros Hb Hb'. assert (H2 : take 2 (be_put 2 (Z.of_nat (length b)) ++ b) = be_put 2 (Z.of_nat (length b)))
    by (apply take_app_length'; by rewrite length_be_put).
  split; [done|]. split; [apply drop_app_length'; by rewrite length_be_put|].
  split; [rewrite length_app, length_be_put; lia|]. split.
  - rewrite H2, length_be_put. cbn [Nat.sub replicate]. rewrite app_nil_r, take_ge by (rewrite length_be_put; lia).
    rewrite be_get_put. change (2 ^ (8 * Z.of_nat 2)) with 65536. rewrite Z.mod_small by lia. apply Nat2Z.id.
  - destruct b as [|x b']; [cbn in Hb; lia|]. cbn [length read_full].
    rewrite decide_True by (cbn; lia). rewrite take_ge by (cbn; lia). by rewrite decide_False by (cbn; lia).
Qed.

(** For the three cipher names, [NewCipherFactory] and [NewCipher(nil)]
    succeed, and the cipher's two streams start in step. *)
Lemma factory_ok {K} (md5 : list Z -> list Z) (rc4_init : list Z -> K)
    (md5_len : forall m, length (md5 m) = MD5_SIZE) name secret :
  name ∈ ["RC4"; "AES128CFB"; "AES256CFB"] ->
  exists f c, NewCipherFactory md5 name secret = Ok f /\ NewCipher K rc4_init f None = Some c /\
              lockstep K (enc K c) (dec K c).
Proof.
  intros Hn. cut (exists f c, NewCipherFactory md5 name secret = Ok f /\ NewCipher K rc4_init f None = Some c).
  { intros (f & c & Hf & Hc). exists f, c. split; [done|split; [done|]]. by eapply NewCipher_lockstep. }
  assert (Hl : forall k, length (toSecretKey md5 secret (16 * k)) = (16 * k)%nat)
    by (intros k; rewrite toSecretKey_layout, length_key_blocks by done; done).
  unfold NewCipherFactory, NewCipher. rewrite !elem_of_cons, elem_of_nil in Hn.
  destruct Hn as [->|[->|[->|[]]]]; (eexists; eexists; split; [reflexivity|]); cbn [cf_builder cf_key run_builder bld keyLen].
  - reflexivity.
  - unfold newAES_CFB. rewrite decide_True by (pose proof (Hl 1%nat) as E; change (16 * 1)%nat with 16%nat in E; rewrite E; unfold BLOCK_SIZE; lia). reflexivity.
  - unfold newAES_CFB. rewrite decide_True by (pose proof (Hl 2%nat) as E; change (16 * 2)%nat with 32%nat in E; rewrite E; unfold BLOCK_SIZE; lia). reflexivity.
Qed.

Lemma length_concat_same (l : list (list Z)) k :
  Forall (fun x => length x = k) l -> length (concat l) = (length l * k)%nat.
Proof. induction 1 as [|x l Hx _ IH]; [done|]. cbn in *. rewrite length_app, IH. lia. Qed.

Ltac unf := cbn [pstep is_done conn_read on_read inbox cipher rh wh push_inbox
   io_bind mbind io_mbind ReadFullByLen ThrowErr andb negb fst snd fresh_end concat app].
Ltac stepc tac := erewrite sys_run_S; [|apply sys_step_client; unf; tac; reflexivity]; unf.
Ltac stepsb tacc tac := erewrite sys_run_S; [|apply sys_step_server; unf; [tacc; reflexivity|tac; reflexivity]]; unf.
Ltac steps tac := stepsb ltac:(idtac) tac.

Section Handshake.

Context {K DHPriv : Type}.
Variable md5 : list Z -> list Z.
Variable rc4_init : list Z -> K.
Variable rc4_next : K -> Z * K.
Variable aes_block : list Z -> list Z -> list Z.
Variable sha1 : list Z -> list Z.
Variable takeSharedKey : DHKeyPair (DHPriv:=DHPriv) -> list Z -> list Z.
Variable RSAEncrypt RSADecrypt : list Z -> result unit (list Z).
Variable Authenticate : list Z -> bool * option Exception.
Variable AUTH_FAILED : Exception.

Local Abbreviation client := (negotiate_client md5 rc4_init takeSharedKey RSAEncrypt AUTH_FAILED).
Local Abbreviation server := (negotiate_server md5 rc4_init takeSharedKey RSADecrypt Authenticate).
Local Abbreviation run := (sys_run rc4_next aes_block sha1).

(** The client's request and the server's reading of it: four steps,
    after which the client waits for the DH reply and the server has
    authenticated the client and read its DH key. *)
Lemma handshake_read nego srv obf tVer mgr sid rnd toks idBlock ident allow ex0 :
  length obf = 256%nat -> RSAEncrypt (identity (user nego) (pass nego)) = Ok idBlock -> length idBlock = 128%nat ->
  dh_ok (c_dhKeys nego) -> RSADecrypt idBlock = Ok ident -> Authenticate ident = (allow, ex0) ->
  let R := requestAuthAndDHExchange obf (Ok idBlock) (dh_pubLen (c_dhKeys nego)) (dh_pub (c_dhKeys nego)) in
  run 4 (mkSys (client nego obf tVer) (server srv mgr sid rnd toks) fresh_end fresh_end) =
  mkSys (finishDHExThenSetupCipher md5 takeSharedKey AUTH_FAILED nego ≫= after_finishDH rc4_init tVer)
        ((if negb allow then Write [0; 1; 0xff] (match ex0 with Some e => Ret (Err e) | None => Ret (Ok ([], [])) end)
          else Write (dh_pubLen (s_dhKeys srv) ++ dh_pub (s_dhKeys srv))
                 (Ret (Ok (takeSharedKey (s_dhKeys srv) (dh_pub (c_dhKeys nego)), ident))))
         ≫= after_verify md5 rc4_init srv mgr sid rnd toks)
        (mkEndpoint K [] None [] R) (mkEndpoint K [] None R []).
Proof.
  intros Hobf Henc Hid [Hcl Hcp] Hdec Hauth R.
  unfold negotiate_client, requestAuthAndDHExchange_io. rewrite Henc. fold R.
  set (obf' := <[0xff%nat := d5Sub (obf !!! 0xd5%nat)]> obf).
  assert (Hl' : length obf' = 256%nat) by (subst obf'; by rewrite length_insert).
  set (pub := dh_pub (c_dhKeys nego)) in *. set (pubLen := dh_pubLen (c_dhKeys nego)) in *.
  assert (HR : R = (obf' ++ idBlock) ++ pubLen ++ pub) by (unfold R, requestAuthAndDHExchange; by rewrite app_assoc).
  assert (HlR : length R = (DMLEN1 + 2 + length pub)%nat) by (rewrite HR, !length_app, Hcl, length_be_put; wire_lia).
  assert (HRne : R <> []) by (intros E; rewrite E in HlR; cbn in HlR; wire_lia).
  assert (HT : take DMLEN1 R = obf' ++ idBlock) by (rewrite HR; apply take_app_length'; rewrite length_app; wire_lia).
  assert (HD : drop DMLEN1 R = pubLen ++ pub) by (rewrite HR; apply drop_app_length'; rewrite length_app; wire_lia).
  pose proof (classify_full_request obf idBlock Hobf Hid) as Hc. fold obf' in Hc.
  rewrite Hcl in HD. destruct (prefixed_facts pub) as (H1 & H2 & H3 & H4 & H5); [lia|lia|].
  stepc ltac:(rewrite (bool_decide_false _ HRne)).
  steps ltac:(idtac).
  rewrite decide_True by lia. rewrite HT, HD. unfold server_classify. cbv zeta.
  replace (length (obf' ++ idBlock)) with DMLEN1 by (rewrite length_app; wire_lia).
  rewrite Nat.sub_diag. cbn [replicate]. rewrite app_nil_r, Hc.
  unfold verifyThenDHExchange. rewrite Hdec, Hauth. unf.
  steps ltac:(idtac).
  rewrite !H4, decide_True, !H1, H2 by done. unf.
  steps ltac:(rewrite app_nil_r, bool_decide_false, H5 by lia).
  rewrite Nat.sub_diag, app_nil_r. unf.
  cbn [sys_run]. rewrite HR, Hcl. by rewrite <- !app_assoc.
Qed.

(** The client's request and the server's DH reply: five steps, after
    which the client starts [finishDHExThenSetupCipher] and the server
    has the shared key. *)
Lemma handshake_request nego srv obf tVer mgr sid rnd toks idBlock ident ex0 :
  length obf = 256%nat -> RSAEncrypt (identity (user nego) (pass nego)) = Ok idBlock -> length idBlock = 128%nat ->
  dh_ok (c_dhKeys nego) -> dh_ok (s_dhKeys srv) ->
  RSADecrypt idBlock = Ok ident -> Authenticate ident = (true, ex0) ->
  let R := requestAuthAndDHExchange obf (Ok idBlock) (dh_pubLen (c_dhKeys nego)) (dh_pub (c_dhKeys nego)) in
  let D := dh_pubLen (s_dhKeys srv) ++ dh_pub (s_dhKeys srv) in
  run 5 (mkSys (client nego obf tVer) (server srv mgr sid rnd toks) fresh_end fresh_end) =
  mkSys (finishDHExThenSetupCipher md5 takeSharedKey AUTH_FAILED nego ≫= after_finishDH rc4_init tVer)
        (after_verify md5 rc4_init srv mgr sid rnd toks (Ok (takeSharedKey (s_dhKeys srv) (dh_pub (c_dhKeys nego)), ident)))
        (mkEndpoint K [D] None [] R) (mkEndpoint K [] None R D).
Proof.
  intros Hobf Henc Hid Hc [Hsl Hsp] Hdec Hauth R D.
  change 5%nat with (4 + 1)%nat. rewrite sys_run_add.
  pose proof (handshake_read nego srv obf tVer mgr sid rnd toks idBlock ident true ex0 Hobf Henc Hid Hc Hdec Hauth) as HA.
  cbv zeta in HA. rewrite HA. cbn [negb]. fold D.
  assert (HDne : D <> []) by (intros E; apply (f_equal length) in E; unfold D in E; rewrite length_app in E; cbn in E; lia).
  steps ltac:(rewrite (bool_decide_false _ HDne)).
  done.
Qed.

(** C9: (P5 of spec section 8) a client the server does not authenticate
    is refused: after seven steps the server has answered the 3-byte
    [0, 1, 0xff] and panics with its authentication error, and the
    client, reading a 1-byte DH key [0xff], panics with [AUTH_FAILED];
    no cipher is set up on either side and the session manager is not
    touched. *)
Theorem wrong_password_refused nego srv obf tVer mgr sid rnd toks idBlock ident ex0 :
  length obf = 256%nat -> RSAEncrypt (identity (user nego) (pass nego)) = Ok idBlock -> length idBlock = 128%nat ->
  dh_ok (c_dhKeys nego) -> RSADecrypt idBlock = Ok ident -> Authenticate ident = (false, Some ex0) ->
  let R := requestAuthAndDHExchange obf (Ok idBlock) (dh_pubLen (c_dhKeys nego)) (dh_pub (c_dhKeys nego)) in
  run 7 (mkSys (client nego obf tVer) (server srv mgr sid rnd toks) fresh_end fresh_end) =
  mkSys (Crash (PVException AUTH_FAILED)) (Crash (PVException ex0))
        (mkEndpoint K [] None [0; 1; 0xff] R) (mkEndpoint K [] None R [0; 1; 0xff]).
Proof.
  intros Hobf Henc Hid Hc Hdec Hauth R.
  change 7%nat with (4 + 3)%nat. rewrite sys_run_add.
  pose proof (handshake_read nego srv obf tVer mgr sid rnd toks idBlock ident false (Some ex0) Hobf Henc Hid Hc Hdec Hauth) as HA.
  cbv zeta in HA. rewrite HA. cbn [negb]. fold R.
  steps ltac:(idtac). unfold finishDHExThenSetupCipher.
  stepc ltac:(idtac). stepc ltac:(idtac).
  reflexivity.
Qed.


(** Two ends in step after the parameter block: nothing in flight, and
    each direction's ciphers in lockstep. *)
Definition in_sync (ce se : endpoint K) : Prop :=
  inbox ce = [] /\ inbox se = [] /\
  exists cc sc, cipher ce = Some cc /\ cipher se = Some sc /\
    lockstep K (enc K cc) (dec K sc) /\ lockstep K (enc K sc) (dec K cc).

Local Abbreviation xks := (XORKeyStream K rc4_next aes_block).

(** One encrypted message of [n] bytes, read whole by [Read n]. *)
Lemma recv_whole cc sc (m : list Z) n :
  lockstep K (enc K cc) (dec K sc) -> length m = n -> m <> [] ->
  take n (xks (enc K cc) m).1 = (xks (enc K cc) m).1 /\ ~ (n < length (xks (enc K cc) m).1)%nat /\
  dec_bytes rc4_next aes_block (Some sc) (xks (enc K cc) m).1 =
    (m, Some (mkCipher K (enc K sc) (xks (dec K sc) (xks (enc K cc) m).1).2)) /\
  lockstep K (xks (enc K cc) m).2 (xks (dec K sc) (xks (enc K cc) m).1).2.
Proof.
  intros Hl <- Hm. destruct (xks_recv rc4_next aes_block _ _ m Hl) as [Hp Hs].
  rewrite take_ge, dec_bytes_some, Hp, xks_length by (rewrite xks_length; lia). repeat split; [lia|done].
Qed.

(** The first four steps of the cross-check: each side takes its sums,
    the client sends its [rHash], the server reads it.  The channel is
    still in step afterwards. *)
Lemma cross_prefix {X : Type} (ce se : endpoint K) (t : tunParams) (f : CipherFactory)
    (mgr' : Session.sessionMgr) (kS : option Exception * Session.sessionMgr -> io K X) :
  in_sync ce se -> (forall m, length (sha1 m) = TKSZ) ->
  exists cc sc, lockstep K (enc K cc) (dec K sc) /\ lockstep K (enc K sc) (dec K cc) /\
  forall n, run (4 + n) (mkSys (client_cross t ≫= after_validate f) (server_cross mgr' ≫= kS) ce se) =
    run n (mkSys (Read TKSZ (fun r => client_check t (sha1 (wh ce)) r ≫= after_validate f))
                 (server_check mgr' (sha1 (rh se)) (sha1 (wh se)) (Ok (sha1 (rh ce))) ≫= kS)
                 (mkEndpoint K [] (Some cc) (rh ce) (wh ce ++ sha1 (rh ce)))
                 (mkEndpoint K [] (Some sc) (rh se ++ sha1 (rh ce)) (wh se))).
Proof.
  intros (Hci & Hsi & cc & sc & Hcc & Hsc & L1 & L2) Hlen.
  destruct ce as [ci cci crh cwh], se as [si sci srh swh];
    cbn [inbox cipher rh wh] in Hci, Hsi, Hcc, Hsc |- *; subst.
  assert (Hne : forall m, sha1 m <> []) by (intros m E; specialize (Hlen m); rewrite E in Hlen; discriminate).
  destruct (recv_whole cc sc (sha1 crh) TKSZ L1 (Hlen _) (Hne _)) as (Ht1 & Hn1 & Hd1 & L3).
  eexists (mkCipher K _ (dec K cc)), (mkCipher K (enc K sc) _). split; [exact L3|split; [exact L2|]].
  intros n. change (4 + n)%nat with (S (S (S (S n)))). unfold client_cross, server_cross.
  stepc ltac:(idtac).
  stepc ltac:(rewrite enc_bytes_some, (bool_decide_false _ (Hne _))).
  steps ltac:(idtac).
  steps ltac:(cbn [enc dec]; rewrite bool_decide_false, Ht1, decide_False by done;
              cbn [andb]; unfold on_read; cbn [push_inbox cipher inbox rh wh app]; rewrite Hd1).
  reflexivity.
Qed.

Lemma sha1_ne (Hlen : forall m, length (sha1 m) = TKSZ) m : sha1 m <> [].
Proof. intros E. specialize (Hlen m). rewrite E in Hlen. discriminate. Qed.

(** The last two steps when the server's check passes: it sends its
    [rHash], the client reads it and compares it with its [wHash]. *)
Lemma cross_match {X : Type} (cc sc : Cipher K) (a b c d : list Z) (t : tunParams) (f : CipherFactory) (w rH wH h : list Z) (mgr' : Session.sessionMgr)
    (kS : option Exception * Session.sessionMgr -> io K X) :
  lockstep K (enc K cc) (dec K sc) -> lockstep K (enc K sc) (dec K cc) ->
  length rH = TKSZ -> rH <> [] -> length h = TKSZ -> wH = h ->
  exists ce' se',
    run 2 (mkSys (Read TKSZ (fun r => client_check t w r ≫= after_validate f))
                 (server_check mgr' rH wH (Ok h) ≫= kS)
                 (mkEndpoint K [] (Some cc) a b) (mkEndpoint K [] (Some sc) c d)) =
    mkSys (if decide (w = rH) then Ret (f, t) else Crash (PVException INCONSISTENT_HASH)) (kS (None, mgr')) ce' se' /\
    in_sync ce' se'.
Proof.
  intros L1 L2 HlrH HrH Hlh ->. destruct cc as [ce0 cd0].
  destruct (recv_whole sc (mkCipher K ce0 cd0) rH TKSZ L2 HlrH HrH) as (Ht & Hn & Hd & L3).
  unfold server_check. rewrite Hlh, Nat.sub_diag, app_nil_r, decide_True by done. unf.
  steps ltac:(rewrite enc_bytes_some, (bool_decide_false _ HrH)).
  stepc ltac:(cbn [enc dec]; rewrite bool_decide_false, Ht, decide_False by done;
              cbn [andb]; unfold on_read; cbn [push_inbox cipher inbox rh wh app]; rewrite Hd).
  unfold client_check. rewrite HlrH, Nat.sub_diag, app_nil_r.
  eexists _, _. split; [by destruct (decide (w = rH))|].
  repeat split. eexists _, _. repeat split; eassumption.
Qed.

(** The hash cross-check when both checks pass: six steps, after which
    the client has its parameters, the server goes on with [kS], and the
    two ends are still in step. *)
Lemma cross_check_ok {X : Type} (ce se : endpoint K) (t : tunParams) (f : CipherFactory)
    (mgr' : Session.sessionMgr) (kS : option Exception * Session.sessionMgr -> io K X) :
  in_sync ce se -> (forall m, length (sha1 m) = TKSZ) ->
  sha1 (wh se) = sha1 (rh ce) -> sha1 (wh ce) = sha1 (rh se) ->
  exists ce' se', run 6 (mkSys (client_cross t ≫= after_validate f) (server_cross mgr' ≫= kS) ce se) =
    mkSys (Ret (f, t)) (kS (None, mgr')) ce' se' /\ in_sync ce' se'.
Proof.
  intros Hs Hlen Hw Hr. destruct (cross_prefix ce se t f mgr' kS Hs Hlen) as (cc & sc & L1 & L2 & Hp).
  change 6%nat with (4 + 2)%nat. rewrite Hp.
  destruct (cross_match cc sc (rh ce) (wh ce ++ sha1 (rh ce)) (rh se ++ sha1 (rh ce)) (wh se) t f
              (sha1 (wh ce)) (sha1 (rh se)) (sha1 (wh se)) (sha1 (rh ce)) mgr' kS L1 L2)
    as (ce' & se' & -> & Hs'); [done|apply (sha1_ne Hlen)|done|done|].
  exists ce', se'. by rewrite decide_True.
Qed.

(** C5: (P3 of spec section 8) the hash cross-check: after six steps the
    client holds its parameters exactly when the server's [wHash] equals
    the client's [rHash] and the client's [wHash] equals the server's
    [rHash]; otherwise it panics with [INCONSISTENT_HASH].  The server
    reports [INCONSISTENT_HASH] exactly when its own comparison fails,
    and then sends nothing, so the client reads a zero [oHash]. *)
Theorem cross_check {X : Type} (ce se : endpoint K) (t : tunParams) (f : CipherFactory)
    (mgr' : Session.sessionMgr) (kS : option Exception * Session.sessionMgr -> io K X) :
  in_sync ce se -> (forall m, length (sha1 m) = TKSZ) -> (forall m, sha1 m <> replicate TKSZ 0) ->
  (forall x, is_done (kS x) = true) ->
  exists ce' se', run 6 (mkSys (client_cross t ≫= after_validate f) (server_cross mgr' ≫= kS) ce se) =
    mkSys (if decide (sha1 (wh se) = sha1 (rh ce) /\ sha1 (wh ce) = sha1 (rh se)) then Ret (f, t)
           else Crash (PVException INCONSISTENT_HASH))
          (kS (if decide (sha1 (wh se) = sha1 (rh ce)) then None else Some INCONSISTENT_HASH, mgr')) ce' se'.
Proof.
  intros Hs Hlen Hz Hdone. destruct (cross_prefix ce se t f mgr' kS Hs Hlen) as (cc & sc & L1 & L2 & Hp).
  change 6%nat with (4 + 2)%nat. rewrite Hp.
  destruct (decide (sha1 (wh se) = sha1 (rh ce))) as [Hw|Hw].
  - destruct (cross_match cc sc (rh ce) (wh ce ++ sha1 (rh ce)) (rh se ++ sha1 (rh ce)) (wh se) t f
              (sha1 (wh ce)) (sha1 (rh se)) (sha1 (wh se)) (sha1 (rh ce)) mgr' kS L1 L2)
      as (ce' & se' & -> & _); [done|apply (sha1_ne Hlen)|done|done|].
    exists ce', se'. destruct (decide (sha1 (wh ce) = sha1 (rh se))).
    + by rewrite decide_True.
    + rewrite decide_False by tauto. done.
  - unfold server_check. rewrite Hlen, Nat.sub_diag, app_nil_r, decide_False by done. unf.
    stepc ltac:(rewrite Hdone).
    unfold client_check. cbn [length Nat.sub replicate app]. rewrite decide_False by apply Hz. cbn [io_bind after_validate].
    rewrite sys_run_stop by (apply sys_step_final; [done|apply Hdone]).
    eexists _, _. rewrite !decide_False by tauto. reflexivity.
Qed.

(** Cutting a plaintext after [k] bytes cuts its ciphertext there too. *)
Lemma xks_take e m k :
  (k <= length m)%nat ->
  take k (xks e m).1 = (xks e (take k m)).1 /\
  drop k (xks e m).1 = (xks (xks e (take k m)).2 (drop k m)).1 /\
  (xks e m).2 = (xks (xks e (take k m)).2 (drop k m)).2.
Proof.
  intros Hk. rewrite (xks_split _ _ e m k). cbn [fst snd].
  assert (Hl : length (xks e (take k m)).1 = k) by (rewrite xks_length, length_take; lia).
  rewrite take_app_length', drop_app_length' by done. done.
Qed.

Lemma handshake_params nego srv tVer mgr sid rnd toks ident R :
  (forall m, length (md5 m) = MD5_SIZE) -> dh_ok (s_dhKeys srv) ->
  takeSharedKey (c_dhKeys nego) (dh_pub (s_dhKeys srv)) = takeSharedKey (s_dhKeys srv) (dh_pub (c_dhKeys nego)) ->
  algo nego = s_algo srv -> s_algo srv ∈ ["RC4"; "AES128CFB"; "AES256CFB"] ->
  length rnd = 34%nat -> (0 < GENERATE_TOKEN_NUM (consts srv))%nat ->
  (GENERATE_TOKEN_NUM (consts srv) <= length toks)%nat -> Forall (fun t => length t = TKSZ) toks ->
  Z.of_nat (TUN_PARAMS_LEN + GENERATE_TOKEN_NUM (consts srv) * TKSZ) < 65536 ->
  0 <= VERSION (consts srv) < 2 ^ 32 -> tVer = VERSION (consts srv) ->
  let D := dh_pubLen (s_dhKeys srv) ++ dh_pub (s_dhKeys srv) in
  let toks' := take (GENERATE_TOKEN_NUM (consts srv)) toks in
  exists f, NewCipherFactory md5 (s_algo srv) (takeSharedKey (s_dhKeys srv) (dh_pub (c_dhKeys nego))) = Ok f /\
  exists ce' se',
    run 8 (mkSys (finishDHExThenSetupCipher md5 takeSharedKey AUTH_FAILED nego ≫= after_finishDH rc4_init tVer)
                 (after_verify md5 rc4_init srv mgr sid rnd toks (Ok (takeSharedKey (s_dhKeys srv) (dh_pub (c_dhKeys nego)), ident)))
                 (mkEndpoint K [D] None [] R) (mkEndpoint K [] None R D)) =
    mkSys (client_cross (expected_params (consts srv) (concat toks')) ≫= after_validate f)
          (server_cross (Session.createTokens mgr (Session.mkSession sid f ident) toks').1 ≫=
             (fun '(e, mgr') => Ret (Some (Session.mkSession sid f ident), e, mgr')))
          ce' se' /\
    in_sync ce' se' /\ rh ce' = wh se' /\ wh ce' = rh se'.
Proof.
  intros Hmd5 [Hsl [Hsp Hsp']] HDH Halgo Hname Hrnd Hn Hnt Htoks Hbound Hver -> D toks'.
  set (skey := takeSharedKey (s_dhKeys srv) (dh_pub (c_dhKeys nego))) in *.
  destruct (factory_ok md5 rc4_init Hmd5 _ skey Hname) as (f & c & Hf & Hc & Lc).
  exists f. split; [done|]. set (spub := dh_pub (s_dhKeys srv)) in *.
  destruct (prefixed_facts spub) as (P1 & P2 & P3 & P4 & P5); [lia|lia|].
  unfold D. rewrite Hsl. unfold finishDHExThenSetupCipher.
  stepc ltac:(idtac).
  rewrite !P4, decide_True, !P1, P2 by done. unf.
  stepc ltac:(rewrite app_nil_r, bool_decide_false, P5 by lia).
  rewrite Nat.sub_diag, app_nil_r. unf.
  rewrite decide_False by lia. rewrite Halgo, HDH, Hf. unf. unfold after_finishDH. rewrite Hc.
  stepc ltac:(idtac).
  unfold validateAndGetTokens, after_verify. rewrite Hf, Hc. unf.
  steps ltac:(idtac).
  set (H := params_head (consts srv) rnd).
  assert (HlH : length H = 34%nat) by (unfold H; rewrite params_head_layout by done; rewrite !length_app, !length_be_put, length_drop, Hrnd; done).
  assert (HH : H <> []) by (intros E; rewrite E in HlH; discriminate).
  unfold respondTestWithToken. fold H.
  steps ltac:(rewrite enc_bytes_some, (bool_decide_false _ HH)).
  destruct (xks_take (enc K c) H 2 ltac:(lia)) as (T2 & D2 & S2).
  destruct (xks_recv rc4_next aes_block (enc K c) (dec K c) (take 2 H) Lc) as [R2 L2].
  stepc ltac:(rewrite bool_decide_false by done; rewrite decide_True by (rewrite xks_length; lia);
              rewrite T2; cbn [andb]; unfold on_read; cbn [push_inbox cipher inbox rh wh app];
              rewrite dec_bytes_some, R2).
  set (N := GENERATE_TOKEN_NUM (consts srv)) in *.
  pose proof (params_head_layout (consts srv) rnd Hrnd) as Hlay. fold H N in Hlay.
  assert (HT2 : take 2 H = be_put 2 (Z.of_nat (TUN_PARAMS_LEN + N * TKSZ)))
    by (rewrite Hlay; apply take_app_length'; by rewrite length_be_put).
  assert (Hsize : Z.to_nat (be_get (take 2 (take 2 H ++ replicate (2 - length (take 2 H)) 0))) = (32 + N * 20)%nat).
  { rewrite HT2, length_be_put, Nat.sub_diag, app_nil_r, take_ge by (rewrite length_be_put; lia).
    rewrite be_get_put. change (2 ^ (8 * Z.of_nat 2)) with 65536.
    rewrite Z.mod_small, Nat2Z.id by lia. done. }
  rewrite !Hsize. unfold Session.createTokens. cbv beta iota zeta.
  unfold toks' in *. set (T := concat (take N toks)) in *.
  assert (HlT : length T = (N * 20)%nat)
    by (unfold T; rewrite (length_concat_same _ TKSZ) by (by apply Forall_take); rewrite length_take, Nat.min_l by lia; done).
  assert (HT : T <> []) by (intros E; rewrite E in HlT; cbn in HlT; lia).
  stepsb ltac:(rewrite app_nil_r, length_drop, xks_length, HlH, bool_decide_true by lia)
         ltac:(rewrite enc_bytes_some, (bool_decide_false _ HT)).
  cbn [enc dec]. fold T.
  set (e2 := (xks (enc K c) (take 2 H)).2) in *.
  assert (X : (xks e2 (drop 2 H ++ T)).1 = drop 2 (xks (enc K c) H).1 ++ (xks (xks (enc K c) H).2 T).1 /\
              (xks e2 (drop 2 H ++ T)).2 = (xks (xks (enc K c) H).2 T).2) by (rewrite xks_app, D2, S2; done).
  destruct (xks_recv rc4_next aes_block _ _ (drop 2 H ++ T) L2) as [R3 L3]. rewrite (proj1 X) in R3, L3.
  rewrite (proj2 X) in L3.
  assert (HlE : length (drop 2 (xks (enc K c) H).1 ++ (xks (xks (enc K c) H).2 T).1) = (32 + N * 20)%nat)
    by (rewrite length_app, length_drop, !xks_length, HlH, HlT; lia).
  assert (RF : read_full (32 + N * 20) [drop 2 (xks (enc K c) H).1; (xks (xks (enc K c) H).2 T).1] = Ok (drop 2 (xks (enc K c) H).1 ++ (xks (xks (enc K c) H).2 T).1, [])).
  { pose proof (read_full_all [drop 2 (xks (enc K c) H).1; (xks (xks (enc K c) H).2 T).1]) as RF. cbn [concat] in RF.
    rewrite app_nil_r, HlE in RF. apply RF.
    repeat constructor; intros E; apply (f_equal length) in E; rewrite ?length_drop, xks_length in E;
      [rewrite HlH in E|rewrite HlT in E]; cbn in E; lia. }
  stepc ltac:(fold T; rewrite app_nil_r; rewrite bool_decide_false by lia; rewrite RF; cbn [andb];
              unfold on_read; cbn [push_inbox cipher inbox rh wh app]; rewrite dec_bytes_some; cbn [enc dec]; rewrite !R3).
  assert (HD2 : drop 2 H = ito4b (VERSION (consts srv)) ++ be_put 2 (wrap 16 (CTL_PING_INTERVAL (consts srv))) ++
                 be_put 2 (wrap 16 (DT_PING_INTERVAL (consts srv))) ++ [wrap 8 (PARALLEL_TUN_QTY (consts srv))] ++ drop 11 rnd)
    by (rewrite Hlay; apply drop_app_length'; by rewrite length_be_put).
  rewrite length_app, length_drop, HlH, HlT. replace (32 + N * 20 - (34 - 2 + N * 20))%nat with 0%nat by lia.
  rewrite app_nil_r, HD2, <- !app_assoc, parse_params_layout by (rewrite ?length_drop; lia).
  rewrite check_version_same, !wrap_wrap. cbn [mbind result_bind].
  eexists _, _. split; [reflexivity|]. cbn [rh wh inbox cipher push_inbox app]. split; [|split].
  - split; [done|split; [done|]]. eexists _, _. split; [reflexivity|split; [reflexivity|]]. cbn [enc dec]. by split.
  - rewrite HT2, Hlay. cbn [app]. by rewrite <- !app_assoc.
  - done.
Qed.

(** C3: (P4 of spec section 8) an honest handshake completes.  A client
    whose credentials the server accepts, both sides holding well-formed
    DH keys that agree on the shared secret and the same cipher name, the
    server sending [GENERATE_TOKEN_NUM] tokens of [TKSZ] bytes: after 19
    steps of the two [negotiate] functions the client returns the cipher
    factory derived from the shared key and the parameters the server
    sent, with exactly the tokens the server installed in its session
    manager; the server returns the new session and no error; both ends
    are left with nothing in flight and their ciphers in step. *)
Theorem handshake_completes nego srv obf mgr sid rnd toks idBlock ident ex0 :
  (forall m, length (md5 m) = MD5_SIZE) -> (forall m, length (sha1 m) = TKSZ) ->
  length obf = 256%nat -> RSAEncrypt (identity (user nego) (pass nego)) = Ok idBlock -> length idBlock = 128%nat ->
  RSADecrypt idBlock = Ok ident -> Authenticate ident = (true, ex0) ->
  dh_ok (c_dhKeys nego) -> dh_ok (s_dhKeys srv) ->
  takeSharedKey (c_dhKeys nego) (dh_pub (s_dhKeys srv)) = takeSharedKey (s_dhKeys srv) (dh_pub (c_dhKeys nego)) ->
  algo nego = s_algo srv -> s_algo srv ∈ ["RC4"; "AES128CFB"; "AES256CFB"] ->
  length rnd = 34%nat -> (0 < GENERATE_TOKEN_NUM (consts srv))%nat ->
  (GENERATE_TOKEN_NUM (consts srv) <= length toks)%nat -> Forall (fun t => length t = TKSZ) toks ->
  Z.of_nat (TUN_PARAMS_LEN + GENERATE_TOKEN_NUM (consts srv) * TKSZ) < 65536 ->
  0 <= VERSION (consts srv) < 2 ^ 32 ->
  let toks' := take (GENERATE_TOKEN_NUM (consts srv)) toks in
  exists f, NewCipherFactory md5 (s_algo srv) (takeSharedKey (s_dhKeys srv) (dh_pub (c_dhKeys nego))) = Ok f /\
  exists ce' se',
    run 19 (mkSys (client nego obf (VERSION (consts srv))) (server srv mgr sid rnd toks) fresh_end fresh_end) =
    mkSys (Ret (f, expected_params (consts srv) (concat toks')))
          (Ret (Some (Session.mkSession sid f ident), None,
                (Session.createTokens mgr (Session.mkSession sid f ident) toks').1))
          ce' se' /\ in_sync ce' se'.
Proof.
  intros Hmd5 Hsha Hobf Henc Hid Hdec Hauth Hc Hs HDH Halgo Hname Hrnd Hn Hnt Htoks Hb Hv toks'. unfold toks'.
  change 19%nat with (5 + (8 + 6))%nat. rewrite !sys_run_add.
  pose proof (handshake_request nego srv obf (VERSION (consts srv)) mgr sid rnd toks idBlock ident ex0
                Hobf Henc Hid Hc Hs Hdec Hauth) as HA. cbv zeta in HA. rewrite HA.
  destruct (handshake_params nego srv (VERSION (consts srv)) mgr sid rnd toks ident
              (requestAuthAndDHExchange obf (Ok idBlock) (dh_pubLen (c_dhKeys nego)) (dh_pub (c_dhKeys nego)))
              Hmd5 Hs HDH Halgo Hname Hrnd Hn Hnt Htoks Hb Hv eq_refl) as (f & Hf & ce1 & se1 & HB & Hs1 & Hr1 & Hw1).
  exists f. split; [done|]. cbv zeta in HB. rewrite HB.
  destruct (cross_check_ok ce1 se1 (expected_params (consts srv) (concat (take (GENERATE_TOKEN_NUM (consts srv)) toks))) f
              (Session.createTokens mgr (Session.mkSession sid f ident) (take (GENERATE_TOKEN_NUM (consts srv)) toks)).1
              (fun '(e, mgr') => Ret (Some (Session.mkSession sid f ident), e, mgr')) Hs1 Hsha)
    as (ce' & se' & -> & Hs');
    [by rewrite Hr1|by rewrite Hw1|].
  by exists ce', se'.
Qed.

(** A data tunnel's first read: the token request, read whole, goes to
    [transSession]. *)
Lemma server_resume srv mgr sid rnd toks t :
  length t = TKSZ ->
  run_alone rc4_next aes_block sha1 1 (server srv mgr sid rnd toks) (mkEndpoint K [resume_request t] None [] []) =
  (Ret (transSession mgr t), mkEndpoint K [] None (resume_request t) []).
Proof.
  intros Hl. pose proof (classify_resume_request t [] Hl) as Hc.
  assert (Hr : length (resume_request t) = DMLEN2) by (unfold resume_request; rewrite length_app, Hl; done).
  unfold classify_stream in Hc. rewrite first_read_short_segment in Hc by (rewrite Hr; wire_lia).
  cbn [mbind result_bind] in Hc. injection Hc as Hc.
  cbn [run_alone]. unfold negotiate_server. unf.
  rewrite decide_False by (rewrite Hr; wire_lia). rewrite take_ge by (rewrite Hr; wire_lia).
  unfold server_classify. cbv zeta. rewrite andb_false_r. unfold on_read, dec_bytes. cbn [cipher rh wh app]. rewrite Hc. reflexivity.
Qed.

(** C12: (P1 and scenario 3 of spec section 8) a data tunnel resumes a
    session with a token minted by [createTokens]: the first connection
    presenting it gets the session (with the [DATATUN_SESSION] signal),
    a second connection presenting the same token is refused with
    [VALIDATION_FAILED]. *)
Theorem token_resumption srv m0 s toks t sid rnd toks2 :
  t ∈ toks -> length t = TKSZ ->
  let mgr := (Session.createTokens m0 s toks).1 in
  exists mgr',
    run_alone rc4_next aes_block sha1 1 (negotiate_server md5 rc4_init takeSharedKey RSADecrypt Authenticate srv mgr sid rnd toks2) (mkEndpoint K [resume_request t] None [] []) =
      (Ret (Some s, Some DATATUN_SESSION, mgr'), mkEndpoint K [] None (resume_request t) []) /\
    run_alone rc4_next aes_block sha1 1 (negotiate_server md5 rc4_init takeSharedKey RSADecrypt Authenticate srv mgr' sid rnd toks2) (mkEndpoint K [resume_request t] None [] []) =
      (Ret (None, Some VALIDATION_FAILED, mgr'), mkEndpoint K [] None (resume_request t) []).
Proof.
  intros Ht Hl mgr. exists (delete t mgr). rewrite !server_resume by done.
  unfold transSession, Session.take. subst mgr.
  rewrite Session.lookup_createTokens, decide_True, lookup_delete_eq by done. done.
Qed.

(** The server's answers to a sequence of data-tunnel connections, each
    presenting one token, the session manager threaded from one to the
    next: the session each one joins. *)
Definition serve_token (srv : d5SNegotiation) (sid : nat) (rnd : list Z) (toks : list (list Z)) (mgr : Session.sessionMgr) (t : list Z) : option Session.Session * Session.sessionMgr :=
  match run_alone rc4_next aes_block sha1 1 (server srv mgr sid rnd toks) (mkEndpoint K [resume_request t] None [] []) with
  | (Ret (s, _, mgr'), _) => (s, mgr')
  | _ => (None, mgr)
  end.

Fixpoint serve_tokens (srv : d5SNegotiation) (sid : nat) (rnd : list Z) (toks : list (list Z)) (mgr : Session.sessionMgr) (ts : list (list Z)) : list (option Session.Session) :=
  match ts with
  | [] => []
  | t :: ts' => let '(s, mgr') := serve_token srv sid rnd toks mgr t in s :: serve_tokens srv sid rnd toks mgr' ts'
  end.

Definition accepted_count (t : list Z) (ts : list (list Z)) (rs : list (option Session.Session)) : nat :=
  length (filter (fun p => p.1 = t /\ is_Some p.2) (zip ts rs)).

Lemma serve_token_spec (srv : d5SNegotiation) (sid : nat) (rnd : list Z) (toks : list (list Z)) (mgr : Session.sessionMgr) (t : list Z) :
  length t = TKSZ ->
  serve_token srv sid rnd toks mgr t = (mgr !! t, delete t mgr).
Proof.
  intros Hl. unfold serve_token. rewrite server_resume by done.
  unfold transSession, Session.take. destruct (mgr !! t) eqn:E; [done|].
  by rewrite delete_id.
Qed.

(** C6: tokens are single-use along any sequence of data-tunnel
    connections served by [negotiate_server]: a token is accepted exactly
    once if the session manager held it and some connection presents it,
    and never otherwise, however often it is presented. *)
Theorem tokens_single_use (srv : d5SNegotiation) (sid : nat) (rnd : list Z) (toks : list (list Z)) (mgr : Session.sessionMgr) (ts : list (list Z)) (t : list Z) :
  Forall (fun t' => length t' = TKSZ) ts ->
  accepted_count t ts (serve_tokens srv sid rnd toks mgr ts) =
    if decide (is_Some (mgr !! t) /\ t ∈ ts) then 1%nat else 0%nat.
Proof.
  intros HF. unfold accepted_count. revert mgr. induction HF as [|t0 ts Hl _ IH]; intros mgr.
  { rewrite decide_False by (intros [_ H]; by apply not_elem_of_nil in H). done. }
  cbn [serve_tokens]. rewrite serve_token_spec by done. cbn [zip]. rewrite filter_cons. cbn [fst snd].
  destruct (decide (t0 = t)) as [->|Hne].
  - destruct (mgr !! t) eqn:E.
    + rewrite decide_True by (split; [done|by eexists]). cbn [length].
      rewrite IH, lookup_delete_eq, decide_False by (intros [[] _]; discriminate).
      rewrite decide_True by (split; [by eexists|set_solver]). done.
    + rewrite decide_False by (intros [_ []]; discriminate).
      rewrite IH, lookup_delete_eq, !decide_False; try done; intros [[] _]; discriminate.
  - rewrite decide_False by (intros [? _]; congruence). rewrite IH, lookup_delete_ne by done.
    destruct (decide (is_Some (mgr !! t) /\ t ∈ ts)) as [[Hs Hin]|H1],
      (decide (is_Some (mgr !! t) /\ t ∈ t0 :: ts)) as [[Hs' Hin']|H2]; try done; exfalso.
    + apply H2. split; [done|]. by apply elem_of_cons; right.
    + apply H1. split; [done|]. apply elem_of_cons in Hin' as [->|Hin']; [congruence|done].
Qed.

(** the two [negotiate] functions come to rest: whatever the two
    ends hold, some number of steps brings them to a state where neither
    can move, and more steps change nothing.  The negotiation has no
    loop; every read, write and cipher assignment is one step. *)
Theorem negotiate_terminates (nego : d5CNegotiation) (obf : list Z) (tVer : Z) (srv : d5SNegotiation) (rnd : list Z) (toks : list (list Z)) (mgr : Session.sessionMgr) (sid : nat) (ce se : endpoint K) :
  exists n, sys_step rc4_next aes_block sha1 (run n (mkSys (client nego obf tVer) (server srv mgr sid rnd toks) ce se)) = None /\
            forall m, (n <= m)%nat -> run m (mkSys (client nego obf tVer) (server srv mgr sid rnd toks) ce se) =
                                      run n (mkSys (client nego obf tVer) (server srv mgr sid rnd toks) ce se).
Proof. apply sys_run_terminates. Qed.

(** during a negotiation no empty segment is ever in flight: from
    fresh connections, every run of the two [negotiate] functions keeps
    both inboxes free of empty segments. *)
Theorem negotiate_inboxes_ok (nego : d5CNegotiation) (obf : list Z) (tVer : Z) (srv : d5SNegotiation) (sid : nat) (rnd : list Z) (toks : list (list Z)) (mgr : Session.sessionMgr) (n : nat) :
  inboxes_ok (run n (mkSys (client nego obf tVer) (server srv mgr sid rnd toks) fresh_end fresh_end)).
Proof. apply sys_run_inboxes_ok. split; constructor. Qed.

End Handshake.

(** ** A concrete instance

    Primitives of the right shapes: the MD5, RC4 and AES stand-ins of
    [Cipher], a 20-byte digest with no zero byte, a DH agreement that
    multiplies the two public keys pointwise, an RSA that pads to 128
    bytes and an authenticator that knows one user. *)

Definition ex_sha1 (m : list Z) : list Z := map (fun i => 1 + Z.of_nat i + Z.abs (foldl Z.add 0 m)) (seq 0 20).
Definition ex_keys (p : list Z) : DHKeyPair (DHPriv:=unit) := mkDHKeyPair tt p (be_put 2 (Z.of_nat (length p))).
Definition ex_shared (k : DHKeyPair (DHPriv:=unit)) (opub : list Z) : list Z := zip_with Z.mul (dh_pub k) opub.
Definition ex_rsa_enc (m : list Z) : result unit (list Z) := Ok (take 128 (m ++ replicate 128 0)).
Definition ex_rsa_dec (b : list Z) : result unit (list Z) := Ok b.
Definition ex_auth_failed : Exception := NewW "Authentication failed".
Definition ex_auth (ident : list Z) : bool * option Exception :=
  (bool_decide (take 12 ident = identity "alice" "secret"), Some ex_auth_failed).
Definition ex_cnego (pass : string) : d5CNegotiation (DHPriv:=unit) := mkCNego "RC4" "alice" pass (ex_keys [1; 2]).
Definition ex_snego : d5SNegotiation (DHPriv:=unit) := mkSNego "RC4" (ex_keys [3; 4]) example_consts.
Definition ex_idBlock (pass : string) : list Z := take 128 (identity "alice" pass ++ replicate 128 0).

Lemma ex_sha1_length m : length (ex_sha1 m) = TKSZ.
Proof. unfold ex_sha1. by rewrite length_map, length_seq. Qed.

Lemma ex_md5_length m : length (ex_md5 m) = MD5_SIZE.
Proof. unfold ex_md5. by rewrite length_map, length_seq. Qed.

Lemma ex_sha1_nonzero m : ex_sha1 m <> replicate TKSZ 0.
Proof. intros E. apply (f_equal (fun l => l !!! 0%nat)) in E. cbn in E. lia. Qed.

Lemma ex_keys_ok p : (1 < length p)%nat -> Z.of_nat (length p) < 65536 -> dh_ok (ex_keys p).
Proof. intros H1 H2. split; [done|]. by split. Qed.

Local Abbreviation ex_client pass := (negotiate_client ex_md5 ex_rc4_init ex_shared ex_rsa_enc ex_auth_failed
                                    (ex_cnego pass) (replicate 256 0) (VERSION example_consts)).
Local Abbreviation ex_server mgr toks := (negotiate_server ex_md5 ex_rc4_init ex_shared ex_rsa_dec ex_auth
                                        ex_snego mgr 1 (replicate 34 1) toks).
Local Abbreviation ex_run := (sys_run ex_rc4_next ex_aes ex_sha1).

Lemma handshake_completes_witness :
  exists f, NewCipherFactory ex_md5 "RC4" (ex_shared (ex_keys [3; 4]) [1; 2]) = Ok f /\
  exists ce' se',
    ex_run 19 (mkSys (ex_client "secret") (ex_server ∅ [replicate 20 3]) fresh_end fresh_end) =
    mkSys (Ret (f, expected_params example_consts (concat (take 1 [replicate 20 3]))))
          (Ret (Some (Session.mkSession 1 f (ex_idBlock "secret")), None,
                (Session.createTokens ∅ (Session.mkSession 1 f (ex_idBlock "secret")) (take 1 [replicate 20 3])).1))
          ce' se' /\ in_sync ce' se'.
Proof.
  apply (handshake_completes ex_md5 ex_rc4_init ex_rc4_next ex_aes ex_sha1 ex_shared ex_rsa_enc ex_rsa_dec
           ex_auth ex_auth_failed (ex_cnego "secret") ex_snego (replicate 256 0) ∅ 1 (replicate 34 1)
           [replicate 20 3] (ex_idBlock "secret") (ex_idBlock "secret") (Some ex_auth_failed)).
  - exact ex_md5_length.
  - exact ex_sha1_length.
  - reflexivity.
  - reflexivity.
  - reflexivity.
  - reflexivity.
  - vm_compute. reflexivity.
  - apply ex_keys_ok; cbn; lia.
  - apply ex_keys_ok; cbn; lia.
  - reflexivity.
  - reflexivity.
  - constructor.
  - reflexivity.
  - cbn. lia.
  - cbn. lia.
  - repeat constructor.
  - vm_compute. reflexivity.
  - cbn. rewrite version_value. lia.
Defined.

Lemma wrong_password_refused_witness :
  ex_run 7 (mkSys (ex_client "wrong") (ex_server ∅ [replicate 20 3]) fresh_end fresh_end) =
  mkSys (Crash (PVException ex_auth_failed)) (Crash (PVException ex_auth_failed))
        (mkEndpoint Z [] None [0; 1; 0xff]
           (requestAuthAndDHExchange (replicate 256 0) (Ok (ex_idBlock "wrong")) (be_put 2 2) [1; 2]))
        (mkEndpoint Z [] None
           (requestAuthAndDHExchange (replicate 256 0) (Ok (ex_idBlock "wrong")) (be_put 2 2) [1; 2])
           [0; 1; 0xff]).
Proof.
  apply (wrong_password_refused ex_md5 ex_rc4_init ex_rc4_next ex_aes ex_sha1 ex_shared ex_rsa_enc ex_rsa_dec
           ex_auth ex_auth_failed (ex_cnego "wrong") ex_snego (replicate 256 0) (VERSION example_consts) ∅ 1
           (replicate 34 1) [replicate 20 3] (ex_idBlock "wrong") (ex_idBlock "wrong") ex_auth_failed).
  - reflexivity.
  - reflexivity.
  - reflexivity.
  - apply ex_keys_ok; cbn; lia.
  - reflexivity.
  - vm_compute. reflexivity.
Defined.

Lemma token_resumption_witness :
  exists mgr',
    run_alone ex_rc4_next ex_aes ex_sha1 1
      (ex_server (Session.createTokens ∅ (Session.mkSession 7 (mkFactory [] newRC4_b) []) [replicate 20 3; replicate 20 4]).1
                 [replicate 20 5])
      (mkEndpoint Z [resume_request (replicate 20 4)] None [] []) =
      (Ret (Some (Session.mkSession 7 (mkFactory [] newRC4_b) []), Some DATATUN_SESSION, mgr'),
       mkEndpoint Z [] None (resume_request (replicate 20 4)) []) /\
    run_alone ex_rc4_next ex_aes ex_sha1 1 (ex_server mgr' [replicate 20 5])
      (mkEndpoint Z [resume_request (replicate 20 4)] None [] []) =
      (Ret (None, Some VALIDATION_FAILED, mgr'), mkEndpoint Z [] None (resume_request (replicate 20 4)) []).
Proof.
  apply (token_resumption ex_md5 ex_rc4_init ex_rc4_next ex_aes ex_sha1 ex_shared ex_rsa_dec ex_auth
           ex_snego ∅ (Session.mkSession 7 (mkFactory [] newRC4_b) []) [replicate 20 3; replicate 20 4]
           (replicate 20 4) 1 (replicate 34 1) [replicate 20 5]).
  - right. left.
  - reflexivity.
Defined.

Definition ex_cipher : Cipher Z := mkCipher Z (RC4St Z 5) (RC4St Z 5).

Lemma cross_check_witness :
  exists ce' se',
    ex_run 6 (mkSys (client_cross (expected_params example_consts (replicate 20 3)) ≫= after_validate (mkFactory [] newRC4_b))
                    (server_cross ∅ ≫= (fun x => Ret x))
                    (mkEndpoint Z [] (Some ex_cipher) [1] [2]) (mkEndpoint Z [] (Some ex_cipher) [2] [3])) =
    mkSys (if decide (ex_sha1 [3] = ex_sha1 [1] /\ ex_sha1 [2] = ex_sha1 [2])
           then Ret (mkFactory [] newRC4_b, expected_params example_consts (replicate 20 3))
           else Crash (PVException INCONSISTENT_HASH))
          (Ret (if decide (ex_sha1 [3] = ex_sha1 [1]) then None else Some INCONSISTENT_HASH, ∅)) ce' se'.
Proof.
  apply (cross_check ex_rc4_next ex_aes ex_sha1).
  - split; [done|split; [done|]]. exists ex_cipher, ex_cipher. by repeat split.
  - exact ex_sha1_length.
  - exact ex_sha1_nonzero.
  - reflexivity.
Defined.

Lemma tokens_single_use_witness :
  accepted_count (replicate 20 4) [replicate 20 4; replicate 20 3; replicate 20 4; replicate 20 5]
    (serve_tokens ex_md5 ex_rc4_init ex_rc4_next ex_aes ex_sha1 ex_shared ex_rsa_dec ex_auth ex_snego 1 (replicate 34 1)
       [replicate 20 5]
       (Session.createTokens ∅ (Session.mkSession 7 (mkFactory [] newRC4_b) []) [replicate 20 3; replicate 20 4]).1
       [replicate 20 4; replicate 20 3; replicate 20 4; replicate 20 5]) = 1%nat.
Proof.
  rewrite (tokens_single_use ex_md5 ex_rc4_init ex_rc4_next ex_aes ex_sha1 ex_shared ex_rsa_enc ex_rsa_dec ex_auth ex_snego 1
             (replicate 34 1) [replicate 20 5]) by (repeat constructor).
  vm_compute. reflexivity.
Defined.

End Negotiation.
