(* ===== verification/DHKeys.v ===== *)
(** * cipher.go: the Diffie-Hellman key pair of each side

    [GenerateDHKeyPairs] draws a private key from [dhkx]'s group 0 and
    keeps its public value with the value's length as a big-endian
    [uint16].  The client manager and the server each call it once, and
    every negotiation sends [pubLen ++ pub].  The group and the big-number
    arithmetic are library calls: section variables.  The theorem shows
    that a generated pair is well formed ([Negotiation.dh_ok]), the
    hypothesis of the handshake theorems, for any public value of 2 to
    65535 bytes (group 0's values have at most 128). *)

From stdpp Require Import base list.
From Stdlib Require Import ZArith Lia.
From S2P Require Import Prelude Negotiation.

Module DHKeys.
Import Negotiation.

Section Gen.

Context {DHPriv : Type}.
(** [g.GeneratePrivateKey(nil)] on [dhkx.GetGroup(0)]. *)
Variable GeneratePrivateKey : DHPriv.
(** [priv.Bytes()]: the public value, big-endian. *)
Variable Bytes : DHPriv -> list Z.

(** [GenerateDHKeyPairs()]: [pair.pubLen] is [binary.BigEndian.PutUint16]
    of [uint16(len(pair.pub))]. *)
Definition GenerateDHKeyPairs : DHKeyPair (DHPriv:=DHPriv) :=
  let priv := GeneratePrivateKey in
  let pub := Bytes priv in
  mkDHKeyPair priv pub (be_put 2 (wrap 16 (Z.of_nat (length pub)))).

End Gen.

(** a generated key pair is well formed, as the negotiation theorems
    require: its [pubLen] is the 2-byte length of its public value,
    whenever that value has between 2 and 65535 bytes. *)
Theorem GenerateDHKeyPairs_ok {DHPriv} (priv : DHPriv) (Bytes : DHPriv -> list Z) :
  (1 < length (Bytes priv))%nat -> Z.of_nat (length (Bytes priv)) < 65536 ->
  dh_ok (GenerateDHKeyPairs priv Bytes).
Proof.
  intros H1 H2. unfold dh_ok, GenerateDHKeyPairs. cbn [dh_pub dh_pubLen].
  rewrite wrap_small by lia. split; [done|lia].
Qed.

Lemma GenerateDHKeyPairs_ok_witness :
  dh_ok (GenerateDHKeyPairs tt (fun _ => repeat 7 128)).
Proof. apply (GenerateDHKeyPairs_ok tt (fun _ => repeat 7 128)); cbn; lia. Defined.

End DHKeys.
