(* ===== verification/Usage.v ===== *)
(** * version.go: the version string and the usage screen

    [versionString] is the banner every process logs and the [VER_STRING]
    injected into the tunnel package.  [showUsage] prints the flags.
    [flag.VisitAll] hands them over in name order.  Each flag becomes a
    [CArg]: its literal ([-name=default], or [-name] for a boolean
    default), its usage text and an example.  The usage text is split on
    [";;"] (group) and ["//"] (example).  The [CArg]s are collected per
    group in a Go map, which is printed in Go's map iteration order.
    That order is an argument here: any enumeration of the map's keys.

    The theorems show four things.  Every flag is listed exactly once,
    under its group and in visit order, whatever the iteration order.
    The usage text is split at the first separators and can be joined
    back.  The boolean test reads any occurrence of "true" or "false",
    so a non-boolean default that contains one is hidden.  The banner
    carries the same numbers as the version word. *)

From stdpp Require Import base list strings pretty gmap.
From Stdlib Require Import ZArith Lia.
From S2P Require Import Prelude TunParams GoStrings.

Module Usage.
Import TunParams GoStrings.

Local Open Scope string_scope.

Definition app_name : string := "deblocus".
Definition project_url : string := "https://github.com/spance/delocus".
Definition LF : string := String (Ascii.ascii_of_nat 10) EmptyString.

(** [versionString()]: [fmt.Sprintf("%s version: %d.%d.%04d%s\n", app_name,
    ver_major, ver_minor, ver_build, build_flag)], with the link-time
    [build_flag] as argument. *)
Definition versionString (build_flag : string) : string :=
  app_name +:+ " version: " +:+ pretty (Z.to_N ver_major) +:+ "." +:+ pretty (Z.to_N ver_minor) +:+ "."
    +:+ pad4 (pretty (Z.to_N ver_build)) +:+ build_flag +:+ LF.

(** The fields of [*flag.Flag] [showUsage] reads. *)
Record Flag := mkFlag { Name : string; Usage : string; DefValue : string }.

(** [type CArg struct { literal, usage, example string }] *)
Record CArg := mkCArg { literal : string; usage : string; example : string }.

Definition common : string := "Common".

(** The literal of a flag: [-name=default] when the default is non-empty
    and does not match [(?i)true|false], else [-name]. *)
Definition flag_literal (f : Flag) : string :=
  if bool_decide (0 < String.length (DefValue f))%nat && negb (reBool_MatchString (DefValue f))
  then "-" +:+ Name f +:+ "=" +:+ DefValue f
  else "-" +:+ Name f.

(** [if strings.Index(cArg.usage, "//") >= 0 { ue := strings.SplitN(cArg.usage,
    "//", 2); cArg.usage, cArg.example = ue[0], ue[1] }]. *)
Definition split_example (c : CArg) : CArg :=
  if bool_decide (0 <= Index (usage c) "//")%Z then
    match SplitN2 (usage c) "//" with [u; e] => mkCArg (literal c) u e | _ => c end
  else c.

(** The body of [flag.VisitAll]'s callback: the group and the [CArg]. *)
Definition flag_entry (f : Flag) : string * CArg :=
  let '(g, u) := match SplitN2 (Usage f) ";;" with [g; u] => (g, u) | _ => (common, Usage f) end in
  (g, split_example (mkCArg (flag_literal f) u "")).

(** [group[array[0]] = append(group[array[0]], cArg)]. *)
Definition add_entry (group : gmap string (list CArg)) (f : Flag) : gmap string (list CArg) :=
  let '(k, a) := flag_entry f in <[k := (default [] (group !! k) ++ [a])%list]> group.

(** [flag.VisitAll] over the flags in their visit order. *)
Definition groups (flags : list Flag) : gmap string (list CArg) := foldl add_entry ∅ flags.

(** [%-12s]: padded with spaces to 12 characters. *)
Definition pad12 (s : string) : string := s +:+ String.concat "" (replicate (12 - String.length s) " ").

Definition carg_lines (a : CArg) : list string :=
  ("  " +:+ pad12 (literal a) +:+ " " +:+ usage a +:+ LF) ::
  (if bool_decide (example a = "") then [] else ["  " +:+ pad12 " " +:+ " " +:+ example a +:+ LF]).

Definition group_lines (group : gmap string (list CArg)) (k : string) : list string :=
  (k +:+ " options:" +:+ LF) :: concat (map carg_lines (default [] (group !! k))).

(** [showUsage()]: the text printed, one element per [Printf]/[Println];
    [base] is [filepath.Base(os.Args[0])] and [order] the order in which
    [range group] visits the keys. *)
Definition showUsage (base build_flag : string) (flags : list Flag) (order : list string) : list string :=
  (["Usage: " +:+ base +:+ " [-OPTION=VALUE]..." +:+ LF;
   app_name +:+ " project: <" +:+ project_url +:+ ">" +:+ LF;
   versionString build_flag +:+ LF]
  ++ concat (map (group_lines (groups flags)) order))%list.

(** ** Lemmas *)

Lemma add_entry_lookup (group : gmap string (list CArg)) (f : Flag) (k : string) :
  add_entry group f !! k =
    if bool_decide ((flag_entry f).1 = k) then Some (default [] (group !! k) ++ [(flag_entry f).2])%list else group !! k.
Proof.
  unfold add_entry. destruct (flag_entry f) as [k' a]. cbn [fst snd].
  case_bool_decide; [subst; by rewrite lookup_insert_eq|by rewrite lookup_insert_ne].
Qed.

(** [concat] of a permuted list of blocks permutes the elements. *)
Lemma concat_perm {A} (ls ks : list (list A)) : ls ≡ₚ ks -> concat ls ≡ₚ concat ks.
Proof.
  induction 1 as [|x ls ks _ IH|x y ls|ls ks js _ IH1 _ IH2]; cbn; [done|by rewrite IH| |by rewrite IH1].
  solve_Permutation.
Qed.

(** Reading every key of a map in the order of its [map_to_list] gives
    its values. *)
Lemma concat_lookup_keys (G : gmap string (list CArg)) (kvs : list (string * list CArg)) :
  Forall (fun kv => G !! kv.1 = Some kv.2) kvs ->
  concat (map (fun k => default [] (G !! k)) kvs.*1) = concat kvs.*2.
Proof. induction 1 as [|[k v] kvs Hk _ IH]; [done|]. cbn in *. by rewrite Hk, IH. Qed.

(** The values of [groups] are the [CArg]s of the flags, up to order. *)
Lemma groups_values (flags : list Flag) :
  concat (map_to_list (groups flags)).*2 ≡ₚ map (fun f => (flag_entry f).2) flags.
Proof.
  unfold groups. induction flags as [|f flags IH] using rev_ind; [cbn; by rewrite map_to_list_empty|].
  rewrite foldl_app, map_app. cbn [foldl map].
  set (G := foldl add_entry ∅ flags) in *. unfold add_entry.
  destruct (flag_entry f) as [k a] eqn:Ef. cbn [snd].
  destruct (G !! k) as [v|] eqn:Ek; cbn [default].
  - rewrite <-(insert_id G k v Ek), <-insert_delete_eq in IH. rewrite <-insert_delete_eq.
    rewrite map_to_list_insert in IH |- * by apply lookup_delete_eq. cbn in IH |- *.
    rewrite <-IH. solve_Permutation.
  - rewrite map_to_list_insert by done. cbn. rewrite IH. apply Permutation_cons_append.
Qed.

(** [split_example] cuts the usage at its first ["//"] and keeps the
    literal. *)
Lemma split_example_spec (c : CArg) :
  example c = "" ->
  literal (split_example c) = literal c /\
  (if contains "//" (usage c)
   then usage c = usage (split_example c) +:+ "//" +:+ example (split_example c) /\ contains "//" (usage (split_example c)) = false
   else usage (split_example c) = usage c /\ example (split_example c) = "").
Proof.
  intros He. unfold split_example. destruct (contains "//" (usage c)) eqn:Ec.
  - rewrite bool_decide_true by (by apply Index_nonneg). pose proof (SplitN2_spec (usage c) "//") as Hs.
    destruct (SplitN2 (usage c) "//") as [|u [|e [|]]] eqn:E; try done; [destruct Hs; congruence|].
    apply SplitN2_two in E as [? ?]; [|done]. done.
  - rewrite bool_decide_false; [done|]. rewrite Index_nonneg. by rewrite Ec.
Qed.

(** ** Properties *)

(** the group of a key lists the [CArg]s of the flags of that group,
    in [flag.VisitAll]'s order, and a key without flags is absent. *)
Theorem groups_spec (flags : list Flag) (k : string) :
  groups flags !! k =
    match filter (fun f => (flag_entry f).1 = k) flags with
    | [] => None
    | l => Some (map (fun f => (flag_entry f).2) l)
    end.
Proof.
  unfold groups. induction flags as [|f flags IH] using rev_ind; [done|].
  rewrite foldl_app. cbn [foldl]. rewrite add_entry_lookup, IH, filter_app, filter_cons, filter_nil.
  case_bool_decide as Hk; [rewrite decide_True by done|rewrite decide_False, app_nil_r by done; done].
  destruct (filter _ flags); cbn; [done|]. by rewrite map_app.
Qed.

(** C26: whatever order Go's map iteration takes over the groups, every
    flag is listed exactly once. *)
Theorem showUsage_lists_every_flag (flags : list Flag) (order : list string) :
  order ≡ₚ (map_to_list (groups flags)).*1 ->
  concat (map (fun k => default [] (groups flags !! k)) order) ≡ₚ map (fun f => (flag_entry f).2) flags.
Proof.
  intros Hord. rewrite <-groups_values, <-(concat_lookup_keys (groups flags)) by (apply Forall_forall; intros [k v] ?; by apply elem_of_map_to_list).
  apply concat_perm, Permutation_map, Hord.
Qed.

(** the usage text is cut at the first [";;"] (group, else
    ["Common"]) and what follows at the first ["//"] (usage, example):
    joined with the separators the parts give the text back. *)
Theorem flag_entry_roundtrip (f : Flag) :
  let '(g, a) := flag_entry f in
  literal a = flag_literal f /\
  exists rest,
    (if contains ";;" (Usage f) then Usage f = g +:+ ";;" +:+ rest /\ contains ";;" g = false
     else g = common /\ rest = Usage f) /\
    (if contains "//" rest then rest = usage a +:+ "//" +:+ example a /\ contains "//" (usage a) = false
     else usage a = rest /\ example a = "").
Proof.
  unfold flag_entry. pose proof (SplitN2_spec (Usage f) ";;") as Hs.
  destruct (SplitN2 (Usage f) ";;") as [|g [|u [|]]] eqn:E; try done.
  - destruct Hs as [-> Hc]. rewrite Hc. destruct (split_example_spec (mkCArg (flag_literal f) (Usage f) "")) as [Hl Hr]; [done|].
    split; [done|]. exists (Usage f). split; [done|]. cbn [usage] in Hr. by destruct (contains "//" (Usage f)).
  - destruct Hs as [Hu Hc]. apply SplitN2_two in E as [_ Hg]; [|done]. rewrite Hc.
    destruct (split_example_spec (mkCArg (flag_literal f) u "")) as [Hl Hr]; [done|].
    split; [done|]. exists u. split; [done|]. cbn [usage] in Hr. by destruct (contains "//" u).
Qed.

(** C25: the boolean test is [(?i)true|false] unanchored: a flag whose
    default value contains "true" or "false" in any case anywhere (a
    path, a host name) is listed as [-name], like a boolean flag, and its
    default is not shown. *)
Theorem literal_hides_default (n u a w b : string) :
  lower_string w = "true" \/ lower_string w = "false" ->
  flag_literal (mkFlag n u (a +:+ w +:+ b)) = "-" +:+ n.
Proof.
  intros Hw. unfold flag_literal, reBool_MatchString. cbn [DefValue]. rewrite !lower_string_app.
  destruct Hw as [-> | ->]; rewrite contains_sep; [|rewrite orb_true_r]; by rewrite andb_false_r.
Qed.

(** The banner carries the numbers of the version word, as the peer
    prints them ([%d.%d.%04d] of [validateAndGetTokens]). *)
Lemma versionString_version_word (build_flag : string) :
  versionString build_flag = app_name +:+ " version: " +:+ version_string version +:+ build_flag +:+ LF.
Proof. reflexivity. Qed.

(** ** Witnesses *)

Definition ex_flags : list Flag :=
  [mkFlag "csc" "Server;;Issue client credential" "false";
   mkFlag "d" "Common;;Print stats//kill -USR1" "false";
   mkFlag "config" "Path of the configuration file" "/etc/TrueNAS/deblocus.ini";
   mkFlag "v" "Verbosity;;0..5//-v=3" "1"].

Lemma showUsage_lists_every_flag_witness :
  ["Verbosity"; "Server"; "Common"] ≡ₚ (map_to_list (groups ex_flags)).*1 /\
  concat (map (fun k => default [] (groups ex_flags !! k)) ["Verbosity"; "Server"; "Common"])
    ≡ₚ map (fun f => (flag_entry f).2) ex_flags.
Proof.
  assert (H : ["Verbosity"; "Server"; "Common"] ≡ₚ (map_to_list (groups ex_flags)).*1)
    by (apply (bool_decide_unpack _); vm_compute; reflexivity).
  split; [exact H|]. exact (showUsage_lists_every_flag ex_flags _ H).
Defined.

Lemma literal_hides_default_witness :
  flag_literal (mkFlag "config" "Path of the configuration file" ("/etc/" +:+ "True" +:+ "NAS/deblocus.ini")) = "-config".
Proof. exact (literal_hides_default "config" _ "/etc/" "True" "NAS/deblocus.ini" (or_introl eq_refl)). Defined.

End Usage.
