(* ===== verification/Boot.v ===== *)
(** * bootContext.go: the process boot, credential issuing and the listeners

    [bootContext] carries the command-line options.  [parse] settles the
    role and the configuration file and injects the version and the debug
    flag into the tunnel and exception packages.  [csc_process] issues
    client credentials.  [startClient] and [startServer] read the
    configuration, set the log level, store the manager or the server
    as the context's [statser] and listen.  [startClient] hands
    every accepted connection to [selectClientServ] of the client
    manager ([ClientMgr]); [startServer] hands it to the server.  Their
    deferred function reports a recovered panic with [CatchException] and
    then signals [Bye].

    Configuration files, the listener and the tunnel package's
    constructors are section variables.  The accept loop never returns:
    it is run over a finite list of [Accept] outcomes.  Each accepted
    connection comes with the value [rand.Intn] gives its goroutine. *)

From stdpp Require Import base list strings pretty.
From Stdlib Require Import ZArith Lia.
From S2P Require Import Prelude Exception TunParams GoStrings Usage ClientMgr.

Module Boot.
Import Exception TunParams Usage ClientMgr.

Local Open Scope string_scope.

(** [type bootContext struct]; [statser] is [nil] or the manager or
    server whose [Stats] [doStats] prints. *)
Record bootContext {Statser : Type} := mkBoot {
  config : string;
  isServ : bool;
  csc : bool;
  icc : bool;
  statser : option Statser;
  verbosity : list Z;
  debug : bool
}.
Arguments bootContext : clear implicits.
Arguments mkBoot {Statser}.

(** The package variables [parse] injects: [t.VERSION], [t.VER_STRING],
    [t.DEBUG] and [ex.DEBUG]. *)
Record injected := mkInjected { t_VERSION : Z; t_VER_STRING : string; t_DEBUG : bool; ex_DEBUG : bool }.

(** What [fmt.Println(e)] prints for a recovered value (an [*Exception]
    through its [Error] method); a [nil] one is not printed. *)
Definition print_panic (p : panic_value) : list string :=
  match p with
  | PVException e => [Error e +:+ LF]
  | PVString s => [s +:+ LF]
  | PVOther s => [s +:+ LF]
  | PVNil => []
  end.

Section Parse.

Context {Statser : Type}.
(** [t.DetectRunAsServ()] *)
Variable DetectRunAsServ : bool.
(** [t.DetectFile(isServ)]: the path found, or the path tried, and
    whether it exists. *)
Variable DetectFile : bool -> string * bool.
(** The link-time [build_flag] of [version.go]. *)
Variable build_flag : string.

Definition no_config_lines (path : string) : list string :=
  ["No such file " +:+ path +:+ LF; "Create/put config in typical path or indicate it explicitly." +:+ LF].

(** [c.parse()]: the context and the injected variables, or [os.Exit]'s
    code with what was printed. *)
Definition parse (c : bootContext Statser) : result (Z * list string) (bootContext Statser * injected) :=
  let serv := if isServ c then true else icc c || DetectRunAsServ in
  let inj := mkInjected version (versionString build_flag) (debug c) (debug c) in
  if bool_decide (config c = "") && negb (csc c) then
    let '(path, e) := DetectFile serv in
    if e then Ok (mkBoot path serv (csc c) (icc c) (statser c) (verbosity c) (debug c), inj)
    else Err (1, no_config_lines path)
  else Ok (mkBoot (config c) serv (csc c) (icc c) (statser c) (verbosity c) (debug c), inj).

(** [c.doStats()]: the line [println] writes, if any. *)
Definition doStats (Stats : Statser -> string) (c : bootContext Statser) : list string :=
  match statser c with Some s => [Stats s +:+ LF] | None => [] end.

End Parse.

Section Csc.

Context {Statser D5ServConf : Type}.
(** [t.IsValidHost(addr)] *)
Variable IsValidHost : string -> bool * panic_value.
(** [t.Parse_d5sFile(path)]; [Err] is its panic. *)
Variable Parse_d5sFile : string -> result panic_value D5ServConf.
(** [d5sc.Listen = addr] *)
Variable set_Listen : D5ServConf -> string -> D5ServConf.
(** [t.CreateClientCredential(output, d5sc, user)]; [Err] is its panic. *)
Variable CreateClientCredential : string -> D5ServConf -> string -> result panic_value unit.

(** The loop over [flag.Args()[1:]]: the credentials issued, in order,
    and what the deferred [recover] prints when one panics. *)
Fixpoint issue_all (output : string) (d5sc : D5ServConf) (users : list string) : list (D5ServConf * string) * list string :=
  match users with
  | [] => ([], [])
  | u :: us =>
      match CreateClientCredential output d5sc u with
      | Ok _ => let '(done_, out) := issue_all output d5sc us in ((d5sc, u) :: done_, out)
      | Err p => ([], print_panic p)
      end
  end.

(** [c.csc_process(output)] on [flag.Args()]. *)
Definition csc_process (c : bootContext Statser) (output : string) (args : list string) : list (D5ServConf * string) * list string :=
  match args with
  | addr :: (_ :: _) as users =>
      let '(v, e) := IsValidHost addr in
      if negb v then ([], print_panic e)
      else match Parse_d5sFile (config c) with
           | Err p => ([], print_panic p)
           | Ok d5sc => issue_all output (set_Listen d5sc addr) users
           end
  | _ => ([], ["Which user do you issue client credential for?" +:+ LF])
  end.

End Csc.

Section Stats.

Context {D5Params Client : Type}.
(** [c.Stats()] of a [*t.Client] *)
Variable ClientStats : Client -> string.

(** [for i, c := range m.clients { if c != nil { arr[i] = c.Stats() } }]. *)
Fixpoint fill_stats (arr : list string) (i : nat) (cs : list (option Client)) : result string (list string) :=
  match cs with
  | [] => Ok arr
  | None :: cs' => fill_stats arr (S i) cs'
  | Some c :: cs' =>
      if decide (i < length arr)%nat then fill_stats (<[i := ClientStats c]> arr) (S i) cs'
      else Err "index out of range"
  end.

(** [m.Stats()]: [strings.Join(arr, "\n")] of [arr := make([]string, m.num)]. *)
Definition mgr_Stats (m : clientMgr (D5Params:=D5Params) (Client:=Client)) : result string string :=
  arr ← fill_stats (replicate (num m) "") 0 (clients m);
  Ok (String.concat LF arr).

End Stats.

(** The deferred function of [startClient] and [startServer], and how
    each ends: [log.Fatalln] exits at once (deferred calls do not run, no
    [Bye]); a panic is reported by [CatchException] and [Bye] is sent;
    otherwise the accept loop runs. *)
Inductive outcome {L : Type} :=
| Fatal (err : string)
| Recovered (report : option log_line) (bye : bool)
| Serving (verbose : option (list Z) * Z) (logs : list string) (loop : L).
Arguments outcome : clear implicits.

(** [ln.Accept()]: a connection, with the [rand.Intn] value its
    goroutine will draw, or an error ([conn] is [nil]). *)
Inductive accepted {Conn : Type} := Accepted (c : Conn) (r : nat) | AcceptError.
Arguments accepted : clear implicits.

(** What the loop does with one [Accept]: [go mgr.selectClientServ(conn)]
    (the goroutine's result), or [t.SafeClose(nil)]. *)
Inductive dispatch {Conn Res : Type} := Dispatched (c : Conn) (res : Res) | SafeCloseNil.
Arguments dispatch : clear implicits.

(** The [Statser] interface: the values a context holds, the client
    manager or the server. *)
Inductive Statser {M S : Type} := StatsMgr (m : M) | StatsServer (s : S).
Arguments Statser : clear implicits.

(** [context.statser = s] *)
Definition set_statser {St} (c : bootContext St) (s : St) : bootContext St :=
  mkBoot (config c) (isServ c) (csc c) (icc c) (Some s) (verbosity c) (debug c).

Section Start.

Context {D5Params Client Conn Server : Type}.
Variable State : Client -> Z.
Variable NewClient : D5Params -> Client.
(** The fields of [*t.D5ClientConf] and [*t.D5ServConf] used here. *)
Record D5Conf {P : Type} := mkConf { ListenAddr : string; Verbose : Z; D5PList : list P }.
Variable Parse_d5cFile : string -> result panic_value (D5Conf (P:=D5Params)).
Variable Parse_d5sFile : string -> result panic_value (D5Conf (P:=unit)).
(** [net.ListenTCP("tcp", addr)] *)
Variable ListenTCP : string -> result string unit.
(** [t.NewServer(conf, t.GenerateDHKeyPairs())] *)
Variable NewServer : D5Conf (P:=unit) -> Server.
Variable DEBUG : bool.
Variable build_flag : string.

Definition accept_loop {Res} (serve : Conn -> nat -> Res) (acc : list (accepted Conn)) : list (dispatch Conn Res) :=
  map (fun a => match a with Accepted c r => Dispatched c (serve c r) | AcceptError => SafeCloseNil end) acc.

Local Abbreviation mgr_t := (clientMgr (D5Params:=D5Params) (Client:=Client)).

(** [context.startClient()], the accept loop run over [acc]: the context
    with its [statser] set to the manager, the manager and the loop. *)
Definition startClient (context : bootContext (Statser mgr_t Server)) (acc : list (accepted Conn))
    : outcome (bootContext (Statser mgr_t Server) * mgr_t * list (dispatch Conn (result string serve))) :=
  match Parse_d5cFile (config context) with
  | Err p => Recovered (fst (CatchException DEBUG p)) true
  | Ok conf =>
      let v := setLogVerbose (verbosity context) (Verbose conf) in
      let logs := [versionString build_flag; "Socks5/Http is working at " +:+ ListenAddr conf] in
      let mgr := NewClientMgr NewClient (D5PList conf) in
      let context' := set_statser context (StatsMgr mgr) in
      match ListenTCP (ListenAddr conf) with
      | Err e => Fatal e
      | Ok _ => Serving v logs (context', mgr, accept_loop (fun _ r => selectClientServ State mgr r) acc)
      end
  end.

(** [context.startServer()]: [go server.TunnelServe(conn)] for each
    accepted connection. *)
Definition startServer (context : bootContext (Statser mgr_t Server)) (acc : list (accepted Conn))
    : outcome (bootContext (Statser mgr_t Server) * Server * list (dispatch Conn Server)) :=
  match Parse_d5sFile (config context) with
  | Err p => Recovered (fst (CatchException DEBUG p)) true
  | Ok conf =>
      let v := setLogVerbose (verbosity context) (Verbose conf) in
      let logs := [versionString build_flag; "Server is listening on " +:+ ListenAddr conf] in
      match ListenTCP (ListenAddr conf) with
      | Err e => Fatal e
      | Ok _ =>
          let server := NewServer conf in
          Serving v logs (set_statser context (StatsServer server), server, accept_loop (fun _ _ => server) acc)
      end
  end.

End Start.

Lemma lookup_map_Some {A B} (f : A -> B) (l : list A) (i : nat) (x : A) : l !! i = Some x -> map f l !! i = Some (f x).
Proof. revert i. induction l as [|y l IH]; intros [|i]; cbn; [done|done|by intros [= ->]|apply IH]. Qed.

Lemma length_accept_loop {Conn Res} (serve : Conn -> nat -> Res) acc : length (accept_loop serve acc) = length acc.
Proof. apply length_map. Qed.

(** [fill_stats] writes each non-nil client's stats in its slot. *)
Lemma fill_stats_spec {Client} (ClientStats : Client -> string) (pre : list string) (cs : list (option Client)) :
  fill_stats ClientStats (pre ++ replicate (length cs) "") (length pre) cs =
    Ok (pre ++ map (fun w => match w with Some c => ClientStats c | None => "" end) cs)%list.
Proof.
  revert pre. induction cs as [|w cs IH]; intros pre; cbn [fill_stats length replicate map]; [by rewrite !app_nil_r|].
  destruct w as [c|].
  - rewrite decide_True by (rewrite length_app; cbn; lia).
    rewrite insert_app_r_alt, Nat.sub_diag by lia. cbn [insert list_insert].
    replace (S (length pre)) with (length (pre ++ [ClientStats c])%list) by (rewrite length_app; cbn; lia).
    change (ClientStats c :: replicate (length cs) "") with ([ClientStats c] ++ replicate (length cs) "")%list.
    rewrite app_assoc, IH. by rewrite <-app_assoc.
  - replace (S (length pre)) with (length (pre ++ [""])%list) by (rewrite length_app; cbn; lia).
    change ("" :: replicate (length cs) "") with ([""] ++ replicate (length cs) "")%list.
    rewrite app_assoc, IH. by rewrite <-app_assoc.
Qed.

(** Reduces the fields of a context and of the injected variables. *)
Local Ltac fields := cbn [isServ config t_VER_STRING t_VERSION t_DEBUG ex_DEBUG].

(** ** Properties *)

(** C20: [parse] exits with code 1, saying which file it tried, exactly
    when no configuration is given, no credential is being issued and
    [DetectFile] finds none.  Otherwise the role is the one given, or
    [-icc], or the detected one.  A configuration given on the command
    line is kept.  The injected [VER_STRING] shows the numbers of the
    injected [VERSION] word, and both packages get the [-debug] flag. *)
Theorem parse_outcome {Statser} (DetectRunAsServ : bool) (DetectFile : bool -> string * bool) (build_flag : string)
    (c : bootContext Statser) :
  let serv := isServ c || icc c || DetectRunAsServ in
  ((exists out, parse DetectRunAsServ DetectFile build_flag c = Err (1, out)) <->
     config c = "" /\ csc c = false /\ snd (DetectFile serv) = false) /\
  match parse DetectRunAsServ DetectFile build_flag c with
  | Err (code, out) =>
      code = 1 /\ config c = "" /\ csc c = false /\ snd (DetectFile serv) = false /\ out = no_config_lines (fst (DetectFile serv))
  | Ok (c', g) =>
      isServ c' = serv /\ (config c <> "" \/ csc c = true -> config c' = config c) /\
      (config c = "" /\ csc c = false -> config c' = fst (DetectFile serv)) /\
      t_VER_STRING g = app_name +:+ " version: " +:+ version_string (t_VERSION g) +:+ build_flag +:+ LF /\
      t_DEBUG g = debug c /\ ex_DEBUG g = debug c
  end.
Proof.
  unfold parse. cbn zeta. set (serv := isServ c || icc c || DetectRunAsServ).
  replace (if isServ c then true else icc c || DetectRunAsServ) with serv by (by destruct (isServ c)).
  pose proof (versionString_version_word build_flag) as Hv.
  destruct (decide (config c = "")) as [Hc|Hc]; [rewrite bool_decide_true by done|rewrite bool_decide_false by done];
    destruct (csc c) eqn:Hs; cbn [andb negb].
  - split; [split; [intros [? [=]]|intros (_ & [=] & _)]|]. fields. repeat split; auto. by intros [_ [=]].
  - destruct (DetectFile serv) as [path []] eqn:Hd; cbn [fst snd].
    + split; [split; [intros [? [=]]|intros (_ & _ & [=])]|]. fields. repeat split; auto. by intros [?|?].
    + split; [split; [intros _; done|intros _; by eexists]|]. by repeat split.
  - split; [split; [intros [? [=]]|intros (? & _); done]|]. fields. repeat split; auto. by intros [_ [=]].
  - split; [split; [intros [? [=]]|intros (? & _); done]|]. fields. repeat split; auto. by intros [? _].
Qed.

(** The loop over the users, when every credential is created. *)
Lemma issue_all_ok {D5ServConf} (Create : string -> D5ServConf -> string -> result panic_value unit) output d5sc users :
  Forall (fun u => Create output d5sc u = Ok tt) users ->
  issue_all Create output d5sc users = (map (fun u => (d5sc, u)) users, []).
Proof. induction 1 as [|u us Hu _ IH]; cbn; [done|]. by rewrite Hu, IH. Qed.

Lemma issue_all_app {D5ServConf} (Create : string -> D5ServConf -> string -> result panic_value unit) output d5sc pre users :
  Forall (fun u => Create output d5sc u = Ok tt) pre ->
  issue_all Create output d5sc (pre ++ users) =
    let '(done_, out) := issue_all Create output d5sc users in ((map (fun u => (d5sc, u)) pre ++ done_)%list, out).
Proof.
  induction 1 as [|u us Hu _ IH]; [cbn; by destruct (issue_all Create output d5sc users)|].
  cbn [app issue_all]. rewrite Hu, IH. by destruct (issue_all Create output d5sc users).
Qed.

(** C24: issuing stops at the first credential whose creation panics: the
    users before it have their credential, with the listen address set
    to the first argument, the panic is printed by the deferred
    [recover], and no later user gets one. *)
Theorem csc_stops_at_failure {Statser D5ServConf} (IsValidHost : string -> bool * panic_value)
    (Parse_d5sFile : string -> result panic_value D5ServConf) (set_Listen : D5ServConf -> string -> D5ServConf)
    (Create : string -> D5ServConf -> string -> result panic_value unit)
    (c : bootContext Statser) (output addr : string) (d5sc : D5ServConf) (pre post : list string) (u : string) (e p : panic_value) :
  IsValidHost addr = (true, e) -> Parse_d5sFile (config c) = Ok d5sc ->
  Forall (fun x => Create output (set_Listen d5sc addr) x = Ok tt) pre ->
  Create output (set_Listen d5sc addr) u = Err p ->
  csc_process IsValidHost Parse_d5sFile set_Listen Create c output (addr :: pre ++ u :: post) =
    (map (fun x => (set_Listen d5sc addr, x)) pre, print_panic p).
Proof.
  intros Hv Hp Hpre Hu.
  assert (Hne : exists y ys, (pre ++ u :: post)%list = y :: ys) by (destruct pre; eexists _, _; reflexivity).
  destruct Hne as (y & ys & Hy). unfold csc_process. rewrite Hy, Hv. cbn [negb]. rewrite Hp, <-Hy.
  rewrite issue_all_app by done. cbn [issue_all]. rewrite Hu. by rewrite app_nil_r.
Qed.

(** When every creation succeeds, each user after the address gets a
    credential, in order, and nothing is printed. *)
Lemma csc_issues_all {Statser D5ServConf} (IsValidHost : string -> bool * panic_value)
    (Parse_d5sFile : string -> result panic_value D5ServConf) (set_Listen : D5ServConf -> string -> D5ServConf)
    (Create : string -> D5ServConf -> string -> result panic_value unit)
    (c : bootContext Statser) (output addr : string) (d5sc : D5ServConf) (users : list string) (e : panic_value) :
  users <> [] -> IsValidHost addr = (true, e) -> Parse_d5sFile (config c) = Ok d5sc ->
  Forall (fun x => Create output (set_Listen d5sc addr) x = Ok tt) users ->
  csc_process IsValidHost Parse_d5sFile set_Listen Create c output (addr :: users) =
    (map (fun x => (set_Listen d5sc addr, x)) users, []).
Proof.
  intros Hne Hv Hp Hall. destruct users as [|y ys]; [done|]. unfold csc_process. rewrite Hv. cbn [negb].
  rewrite Hp. by apply issue_all_ok.
Qed.

(** [Stats] of a manager built by [NewClientMgr] has one line per
    endpoint, in slot order: the client's own stats, or an empty line
    for a nil slot; it does not panic. *)
Theorem mgr_Stats_lines {D5Params Client} (ClientStats : Client -> string) (m : clientMgr (D5Params:=D5Params) (Client:=Client)) :
  num m = length (clients m) ->
  mgr_Stats ClientStats m = Ok (String.concat LF (map (fun w => match w with Some c => ClientStats c | None => "" end) (clients m))).
Proof.
  intros Hn. unfold mgr_Stats. rewrite Hn.
  pose proof (fill_stats_spec ClientStats [] (clients m)) as H. cbn [app length] in H. by rewrite H.
Qed.

Section StartProps.

Context {D5Params Client Conn Server : Type}.
Variable State : Client -> Z.
Variable NewClient : D5Params -> Client.
Variable Parse_d5cFile : string -> result panic_value (D5Conf (P:=D5Params)).
Variable Parse_d5sFile : string -> result panic_value (D5Conf (P:=unit)).
Variable ListenTCP : string -> result string unit.
Variable NewServer : D5Conf (P:=unit) -> Server.
Variable DEBUG : bool.
Variable build_flag : string.

Local Abbreviation start := (startClient State NewClient Parse_d5cFile ListenTCP DEBUG build_flag).

(** C19: once the client listens on the configured address with 2 to 256
    endpoints, every accepted connection is handed to its own
    [selectClientServ] on the manager built from the configuration, in
    accept order.  When a client other than the one [selectClient] skips
    is up, the connection is served by a client that is up.  A failed
    [Accept] only closes its nil connection and the loop goes on. *)
Theorem startClient_serves (context : bootContext (Statser (clientMgr (D5Params:=D5Params) (Client:=Client)) Server)) (acc : list (accepted Conn)) (conf : D5Conf (P:=D5Params)) :
  Parse_d5cFile (config context) = Ok conf -> ListenTCP (ListenAddr conf) = Ok tt ->
  (1 < length (D5PList conf) <= 256)%nat ->
  match start context acc with
  | Serving v _ (context', mgr, loop) =>
      v = setLogVerbose (verbosity context) (Verbose conf) /\ mgr = NewClientMgr NewClient (D5PList conf) /\
      statser context' = Some (StatsMgr mgr) /\ config context' = config context /\
      length loop = length acc /\
      (forall i, acc !! i = Some AcceptError -> loop !! i = Some SafeCloseNil) /\
      (forall i c r j p, acc !! i = Some (Accepted c r) -> (r < 16 * length (D5PList conf))%nat ->
         D5PList conf !! j = Some p -> j <> ((r / 16 + length (D5PList conf) - 1) mod length (D5PList conf))%nat ->
         0 <= State (NewClient p) ->
         exists w, loop !! i = Some (Dispatched c (Ok (ClientServe w))) /\ 0 <= State w)
  | _ => False
  end.
Proof.
  intros Hp Hl Hn. unfold startClient. rewrite Hp, Hl.
  set (mgr := NewClientMgr NewClient (D5PList conf)).
  split; [done|]. split; [done|]. split; [done|]. split; [done|]. split; [apply length_accept_loop|]. split.
  - intros i Hi. unfold accept_loop. by rewrite (lookup_map_Some _ _ _ _ Hi).
  - intros i c r j p Hi Hr Hj Hne Hs. unfold accept_loop. rewrite (lookup_map_Some _ _ _ _ Hi).
    assert (Hlen : (j < length (D5PList conf))%nat) by (by eapply lookup_lt_Some).
    destruct (selectClient_finds State mgr r j) as (w & Hw & Hsw); cbn [num clients mgr NewClientMgr]; rewrite ?length_map; try done.
    + apply NewClientMgr_wf.
    + unfold available. rewrite (list_lookup_total_correct _ _ _ (lookup_map_Some _ _ _ _ Hj)). by apply bool_decide_eq_true.
    + exists w. split; [|done]. unfold selectClientServ. by rewrite Hw.
Qed.

End StartProps.

(** ** Witnesses *)

Definition ex_IsValidHost (a : string) : bool * panic_value := (bool_decide (a = "0.0.0.0:9008"), PVString "invalid host").
Definition ex_Create (_ : string) (_ : string) (u : string) : result panic_value unit :=
  if bool_decide (u = "bob") then Err (PVString "bob: credential exists") else Ok tt.
Definition ex_ctx : bootContext unit := mkBoot "deblocus.d5s" true true false None [] false.

Lemma csc_stops_at_failure_witness :
  csc_process ex_IsValidHost (fun _ => Ok "") (fun _ a => a) ex_Create ex_ctx "/tmp" ("0.0.0.0:9008" :: ["alice"] ++ "bob" :: ["carol"]) =
    (map (fun x => ("0.0.0.0:9008", x)) ["alice"], print_panic (PVString "bob: credential exists")).
Proof.
  exact (csc_stops_at_failure ex_IsValidHost (fun _ => Ok "") (fun _ a => a) ex_Create ex_ctx "/tmp" "0.0.0.0:9008" ""
           ["alice"] ["carol"] "bob" (PVString "invalid host") (PVString "bob: credential exists")
           eq_refl eq_refl ltac:(repeat constructor) eq_refl).
Defined.

Definition ex_mgr : clientMgr := NewClientMgr (fun p : nat => p) [0; 1; 2]%nat.

Lemma mgr_Stats_lines_witness :
  mgr_Stats (fun c : nat => "tunnel " +:+ pretty c) ex_mgr =
    Ok (String.concat LF (map (fun w => match w with Some c => "tunnel " +:+ pretty c | None => "" end) (clients ex_mgr))).
Proof. exact (mgr_Stats_lines (fun c : nat => "tunnel " +:+ pretty c) ex_mgr eq_refl). Defined.

Definition ex_conf : D5Conf (P:=nat) := mkConf nat "127.0.0.1:9009" 1 [0; 1; 2]%nat.
Definition ex_client_ctx : bootContext (Statser (clientMgr (D5Params:=nat) (Client:=nat)) unit) := mkBoot "deblocus.d5c" false false false None [] false.

Lemma startClient_serves_witness :
  exists ctx mgr loop w logs,
    startClient ex_state (fun p : nat => p) (fun _ => Ok ex_conf) (fun _ => Ok tt) false "" ex_client_ctx [Accepted 7%nat 16%nat] =
      Serving (setLogVerbose [] 1) logs (ctx, mgr, loop) /\ statser ctx = Some (StatsMgr mgr) /\
    loop !! 0%nat = Some (Dispatched 7%nat (Ok (ClientServe w))) /\ 0 <= ex_state w.
Proof.
  pose proof (startClient_serves ex_state (fun p : nat => p) (fun _ => Ok ex_conf) (fun _ => Ok tt) false ""
                ex_client_ctx [Accepted 7%nat 16%nat] ex_conf eq_refl eq_refl ltac:(cbn; lia)) as H.
  revert H. destruct (startClient _ _ _ _ _ _ _ _) as [| |v logs [[ctx mgr] loop]] eqn:E; [done|done|].
  intros (Hv & _ & Hst & _ & _ & _ & H).
  destruct (H 0%nat 7%nat 16%nat 2%nat 2%nat eq_refl ltac:(cbn; lia) eq_refl ltac:(cbn; lia) ltac:(vm_compute; congruence))
    as (w & Hw & Hs).
  exists ctx, mgr, loop, w, logs. split; [by rewrite Hv|]. split; [exact Hst|]. split; [exact Hw|exact Hs].
Defined.

End Boot.
